(* ===== verification/_CoqProject ===== *)
-Q . S2P
Prelude.v
Platform.v
Memory.v
Floats.v
Rounding.v
Accuracy.v
Collect.v
Stats.v
Summary.v
Processing.v
Json.v
IpcParams.v
AppParams.v
Reports.v
Typing.v
ReportProofs.v
Program.v
Support.v
Driver.v
Threads.v
Measuring.v
Stubs.v
SchedulerApp.v
SchedulerProofs.v
HardwareApp.v
SignalApp.v
SignalProofs.v
FaultApp.v
FaultProofs.v
SyncApp.v
SyncProofs.v
IpcApp.v
IpcProofs.v
PageMappingApp.v
PageMappingProofs.v
IrquserApp.v
Ziggurat.v
SmpApp.v
SmpProofs.v
VcpuGuest.v
VcpuRecord.v
VcpuVmm.v
VcpuProofs.v
Registry.v
HardwareReport.v
