(* ===== verification/Prelude.v ===== *)
(** * sel4bench: a verification development of the seL4 benchmarking suite

    sel4bench boots as the root task of an seL4 system, runs one benchmark
    application after the other, each in a process of its own, and prints one
    JSON document with the statistics of everything they measured.

    ** The program and its parts

    - [src/apps/sel4bench]: the driver.  [main.c] starts every benchmark, serves
      its requests and collects its exit code; [benchmark.h] and one file per
      benchmark register it in a table and turn its raw counter values into
      results ([processing.c], [math.c]) and results into JSON ([json.c]);
      [plat/] sets up the platform.
    - [src/apps/{hardware,signal,fault,scheduler,sync,ipc,page_mapping,irquser,
      smp,vcpu}]: the applications.  Their threads read the cycle counter around
      an operation of the kernel and store the difference in a structure that
      the driver maps and reads afterwards.
    - [src/libsel4benchsupport]: what the applications share: the start of the
      environment and the requests to the driver ([support.c]), the loops that
      collect samples ([benchmark.h]), the tables of parameters ([ipc.h], [smp.h],
      [page_mapping.h], [vcpu.h]) and the system-call stubs of the targets
      ([sel4_arch_include], [arch_include]).

    ** Files, in the order of their dependencies

    Foundations.
    - Prelude: machine words, outcomes and the state monad with its calculus of
      weakest preconditions, loops, arrays; the tactics and hint databases.
    - Platform: the constants of the target and the configuration, as a class.
    - Memory: arrays of counter values and the pointers into them.
    - Floats, Rounding, Accuracy: the C floating-point formats, exact results,
      rounded results and their bounds, relative errors.
    - Program: programs that call code outside the sources; an environment
      answers, and theorems hold for every environment.
    - Threads: benchmark threads under the priority scheduler of a [Kernel], as
      a step relation; liveness is proved for every schedule the kernel allows.

    Driver.
    - Collect ([benchmark.h], [getMinOverhead], [send_result], [get_result],
      [results_stable]); Stats and Summary ([math.c]); Processing
      ([processing.c]); Json ([json.c]); IpcParams, AppParams (the tables);
      Reports and ReportProofs (the [process] function of every benchmark);
      Typing (what all of them keep); Driver ([main.c], [plat/]); Registry (the
      [benchmark_t] of every benchmark, the structures behind their pointers,
      and the table that the driver runs).

    Library and stubs.
    - Support ([support.c] and [arch/*/support.c]); Measuring (the operations the
      threads are written with); Stubs (the inline assembly of the five targets).

    Applications: the set-up and the threads of each [main.c], and the theorems
    about them, in a second file where they are long.
    - HardwareApp, HardwareReport (from the readings to the report); SignalApp,
      SignalProofs; FaultApp, FaultProofs; SchedulerApp, SchedulerProofs; SyncApp,
      SyncProofs; IpcApp, IpcProofs; PageMappingApp, PageMappingProofs;
      IrquserApp; SmpApp, SmpProofs with Ziggurat ([rnorrexp.h]); VcpuGuest
      ([guest.c]), VcpuRecord, VcpuVmm ([vcpu/main.c]), VcpuProofs.

    ** How the parts interact

    An application is a [proc] program (Threads): it reads the counter, loads
    and stores the shared structure through the fields of its [layout], and
    makes system calls.  The driver is a [prog] (Program) whose answers come from
    libraries and the kernel.  What passes between them is modelled on both
    sides: the requests that Support sends and [Driver.serve] answers; the pages
    that [Driver.set_up] shares, which Registry shows to hold the structure of
    the application; and the structure itself, written by the layout of the
    application and read by the same layout in the casts of Registry, before the
    [process] functions of Reports run on it.  The parameters of a run come from
    one table (IpcParams, AppParams) for the application and for the report.

    ** What the theorems show

    - Statistics: [calculate_results] returns on samples below 2^51 and below
      half the range of the counter, with exact minimum, maximum, median and
      quantiles and a mean between the extremes in the rounding arithmetic of C;
      beyond that range a median can wrap and a conversion be undefined; the
      early-processing variance and deviation are those of the samples behind the
      sums, up to a stated relative error (Summary); the recurrences are the mean
      and the variance in exact arithmetic, and what [results_mode] returns
      (Stats).
    - Processing and reports: the three functions of processing.c on every
      branch; the JSON tree of a result set; the reports of five benchmarks in
      full (ReportProofs).
    - Driver: the request loop implements its protocol; a run unmaps exactly
      what it mapped; the calls of the whole driver are those of a suite, every
      enabled benchmark in order with its process, its session, its results and
      their place in the output, and the driver ends when nothing fails (Driver);
      every benchmark it runs has a processing function and the pages of its
      structure, and leaves well-typed data (Registry, with the lemmas of
      Typing).
    - Library: the numbering of capabilities, the stack and TLS image of a new
      process, the wait for children, the life of the timer, the transfer of a
      result in two words.
    - Measurements: for the scheduler, signal, fault, sync and IPC benchmarks
      the threads end under every schedule and every sample is the distance of
      the two readings it should be; the same for the linked guest and monitor
      of the virtualisation benchmark; the page mapping child makes only calls
      that its kernel grants; a multicore sample is the calls per second across
      wrap-around.
    - From end to end: what the report of the hardware benchmark says, in terms
      of the readings that its threads made (HardwareReport).
    - Stubs: at the trap every operand is in its register, the block loses only
      what it lists, and the [nop] block that measures the overhead differs in
      the trap alone.
    - Where the code does not do what it means to, the theorem says what it does:
      [init_vspace] writes past its array, [results_mode] ignores the last run of
      equal samples, a scheduler report repeats the rows of another, the guest's
      minimum is always zero, the device tree can lose its last page, the wait
      stubs of Arm and RISC-V do not give up the badge register.

    ** Bounds and fuel

    Loops over an index are folds over [seqZ], which need no fuel.  Loops that
    depend on answers take fuel, and the theorem about each says how much is
    enough: [Driver.serve] returns with more fuel than the run sends messages;
    the condition loops of SyncApp need two rounds, which is what the invariant
    of SyncProofs leaves them; [IpcApp.overhead_retries] is bounded by
    [OVERHEAD_RETRIES] as in the source; [VcpuVmm.vmm_loop] serves the 777
    messages of a guest: one for each of the 775 calls of its measurements and
    their reports, its last line of output and its exit.  The threads of SmpApp
    never return, so a run is bounded by the turns it is given, and no theorem
    depends on them; [Ziggurat.efix] rejects with a probability below one, and is
    bounded by its rounds.  Integers are [Z] with [wrap] at the width of the C
    type after every operation that can leave it.

    ** Not modelled, and why

    - Logging, [printing.c] and the text printed between the markers: they change nothing that
      is modelled.  The markers and the dump of the document are calls.
    - The kernel, libsel4, sel4utils, vka, vspace, jansson, the serial server, the
      timer and the mathematical library are not under [src/]: they are
      parameters, with their documented behaviour as laws or hypotheses, and
      Threads is such a law for the calls of the measuring threads.
    - The CMake scripts: what they set are the configuration classes.
    - [apps/vcpu/src/guest_asm.S] (the vectors and the entry of the guest) is
      assembly; [guest_vector_common], which it calls, is modelled.
    - The text of an argument between two processes: a word is read back as the
      value that was passed, which holds for values that fit the type of the
      reader, as slot numbers do ([Threads.word_arg]).
    - Function prototypes, the static pools of memory, the empty archive, and the
      one-line pairs [DO_REAL_X] and [DO_NOP_X] of the targets other than aarch64:
      they apply a block of Stubs to the trap or to [nop].
    - [arch/riscv/support.c] repeats [arch/arm/support.c]. *)

From Stdlib Require Export ZArith Lia.
From stdpp Require Export base gmap list strings numbers.

#[global] Open Scope Z_scope.
#[global] Set Default Proof Using "Type".

Create HintDb word.
Create Rewrite HintDb word.
Create Rewrite HintDb wp.

(** ** Machine words

    A [w]-bit unsigned C integer is the [Z] in [0, 2^w) it denotes; every
    operation of the source that can leave the range is followed by [wrap]. *)

Definition wrap (w z : Z) : Z := z mod 2 ^ w.

(** The signed reading of a [w]-bit pattern (two's complement). *)
Definition swrap (w z : Z) : Z := (z + 2 ^ (w - 1)) mod 2 ^ w - 2 ^ (w - 1).

Definition in_word (w z : Z) : Prop := 0 <= z < 2 ^ w.

#[global] Instance in_word_dec w z : Decision (in_word w z).
Proof. unfold in_word. apply _. Defined.

Declare Scope word_scope.
Delimit Scope word_scope with word.
Notation "x ⊞[ w ] y" := (wrap w (x + y)) (at level 50, left associativity) : word_scope.
Notation "x ⊟[ w ] y" := (wrap w (x - y)) (at level 50, left associativity) : word_scope.
Notation "x ⊠[ w ] y" := (wrap w (x * y)) (at level 40, left associativity) : word_scope.
Notation "∼[ w ] x" := (wrap w (Z.lnot x)) (at level 35, right associativity) : word_scope.
#[global] Open Scope word_scope.

(** Congruence modulo [2^w]: the equivalence under which wrapping is the
    identity.  Word identities are proved by rewriting in it. *)
Definition eqw (w a b : Z) : Prop := wrap w a = wrap w b.
Notation "a ≡[ w ] b" := (eqw w a b) (at level 70, w at level 50, no associativity) : word_scope.

#[export] Instance eqw_equivalence w : Equivalence (eqw w).
Proof. split; unfold eqw; repeat intro; congruence. Qed.

#[export] Instance eqw_add w : Proper (eqw w ==> eqw w ==> eqw w) Z.add.
Proof. intros a b H c d K. unfold eqw, wrap in *. by rewrite Zplus_mod, H, K, <-Zplus_mod. Qed.

#[export] Instance eqw_sub w : Proper (eqw w ==> eqw w ==> eqw w) Z.sub.
Proof. intros a b H c d K. unfold eqw, wrap in *. by rewrite Zminus_mod, H, K, <-Zminus_mod. Qed.

#[export] Instance eqw_mul w : Proper (eqw w ==> eqw w ==> eqw w) Z.mul.
Proof. intros a b H c d K. unfold eqw, wrap in *. by rewrite Zmult_mod, H, K, <-Zmult_mod. Qed.

Section words.
Context (w : Z) (Hw : 0 <= w).

Lemma pow2_pos : 0 < 2 ^ w.
Proof using Hw. by apply Z.pow_pos_nonneg. Qed.

Lemma wrap_in_word z : in_word w (wrap w z).
Proof using Hw. apply Z.mod_pos_bound, pow2_pos. Qed.

Lemma wrap_small z : in_word w z → wrap w z = z.
Proof. apply Z.mod_small. Qed.

Lemma wrap_wrap z : wrap w (wrap w z) = wrap w z.
Proof. apply Zmod_mod. Qed.

(** Inside a congruence a [wrap] disappears. *)
Lemma eqw_wrap z : wrap w z ≡[w] z.
Proof. apply wrap_wrap. Qed.

Lemma eqw_eq a b : in_word w a → in_word w b → a ≡[w] b → a = b.
Proof. intros Ha Hb. unfold eqw. by rewrite !wrap_small. Qed.

Lemma wrap_eq a b : in_word w b → a ≡[w] b → wrap w a = b.
Proof. intros Hb H. by rewrite H, wrap_small. Qed.

Lemma wrap_lnot z : in_word w z → ∼[w] z = 2 ^ w - 1 - z.
Proof using Hw.
  intros Hz. unfold wrap, Z.lnot, in_word in *.
  rewrite <-(Z.mod_add _ 1) by (pose proof pow2_pos; lia).
  rewrite Z.mod_small; lia.
Qed.

Lemma wrap_nonneg z : 0 <= wrap w z.
Proof using Hw. apply wrap_in_word. Qed.

Lemma in_word_0 : in_word w 0.
Proof using Hw. pose proof pow2_pos. unfold in_word. lia. Qed.
End words.

Lemma in_word_mono w w' z : 0 <= w <= w' → in_word w z → in_word w' z.
Proof. intros H [? ?]. split; [lia|]. pose proof (Z.pow_le_mono_r 2 w w'). lia. Qed.

Lemma swrap_small w z : 0 < w → - 2 ^ (w - 1) <= z < 2 ^ (w - 1) → swrap w z = z.
Proof.
  intros Hw Hz. unfold swrap. replace (2 ^ w) with (2 * 2 ^ (w - 1)).
  - rewrite Z.mod_small; lia.
  - rewrite <-Z.pow_succ_r by lia. f_equal. lia.
Qed.

#[export] Hint Resolve wrap_in_word in_word_0 : word.
#[export] Hint Rewrite wrap_wrap : word.

(** [word_eq] proves an equality of two wrapped expressions that agree
    modulo [2^w] after the inner wraps are dropped. *)
Ltac drop_wraps w := rewrite ?(eqw_wrap w).
Ltac word_eq :=
  match goal with
  | |- wrap ?w ?a = wrap ?w ?b => change (eqw w a b); drop_wraps w; apply f_equal; try ring
  | |- eqw ?w _ _ => drop_wraps w; apply f_equal; try ring
  end.

(** ** Outcomes and the state monad of the source's functions

    [Ok] is a normal return, [Fatal] a failed [assert] or a [ZF_LOGF] (both
    stop the program), [Undef] undefined behaviour of C: an access outside an
    array, a division by zero, a conversion of an out-of-range double. *)

Inductive outcome (A : Type) :=
  | Ok (a : A)
  | Fatal
  | Undef.
Arguments Ok {_} _.
Arguments Fatal {_}.
Arguments Undef {_}.

#[export] Instance outcome_eq_dec {A} `{EqDecision A} : EqDecision (outcome A).
Proof. solve_decision. Defined.

#[export] Instance outcome_ret : MRet outcome := λ _ a, Ok a.
#[export] Instance outcome_bind : MBind outcome := λ _ _ f m,
  match m with Ok a => f a | Fatal => Fatal | Undef => Undef end.
#[export] Instance outcome_fmap : FMap outcome := λ _ _ f m,
  match m with Ok a => Ok (f a) | Fatal => Fatal | Undef => Undef end.

(** [None] of a partial read is undefined behaviour. *)
Definition defined {A} (o : option A) : outcome A :=
  match o with Some a => Ok a | None => Undef end.

(** Whether a computation returns normally. *)
Definition is_ok {A} (o : outcome A) : bool := match o with Ok _ => true | _ => false end.

(** [assert(b)] / [ZF_LOGF_IF(!b, ...)]. *)
Definition assert_ (b : bool) : outcome unit := if b then Ok tt else Fatal.

Definition M (S A : Type) : Type := S → outcome (A * S).
#[export] Instance M_ret S : MRet (M S) := λ _ a s, Ok (a, s).
#[export] Instance M_bind S : MBind (M S) := λ _ _ f m s,
  match m s with Ok (a, s') => f a s' | Fatal => Fatal | Undef => Undef end.

Definition get {S} : M S S := λ s, Ok (s, s).
Definition put {S} (s' : S) : M S unit := λ _, Ok (tt, s').
Definition modify {S} (f : S → S) : M S unit := λ s, Ok (tt, f s).
Definition lift {S A} (o : outcome A) : M S A := λ s,
  match o with Ok a => Ok (a, s) | Fatal => Fatal | Undef => Undef end.

(** [for (x in l) body(x)]; a C loop [for (i = a; i < a + n; i++)] is
    [for_each (seqZ a n)]. *)
Fixpoint for_each {S A} (l : list A) (body : A → M S unit) : M S unit :=
  match l with
  | [] => mret tt
  | x :: l => body x;; for_each l body
  end.

(** The same loop collecting a value per iteration ([out[i] = body(i)]). *)
Fixpoint map_each {S A B} (l : list A) (body : A → M S B) : M S (list B) :=
  match l with
  | [] => mret []
  | x :: l => y ← body x; ys ← map_each l body; mret (y :: ys)
  end.

(** A loop in [outcome], without a store, threading its locals. *)
Fixpoint fold_outcome {A B} (f : B → A → outcome B) (l : list A) (b : B) : outcome B :=
  match l with
  | [] => Ok b
  | x :: l => b ← f b x; fold_outcome f l b
  end.

(** ** Total correctness

    [wp m Q s]: from [s], [m] returns normally and its result satisfies [Q].
    A failed assertion or undefined behaviour satisfies no postcondition. *)
Definition wp {S A} (m : M S A) (Q : A → S → Prop) (s : S) : Prop :=
  match m s with Ok (a, s') => Q a s' | _ => False end.

Section wp.
Context {S : Type}.
Implicit Types s : S.

Lemma wp_ret {A} (a : A) Q s : wp (mret a) Q s ↔ Q a s.
Proof. done. Qed.

Lemma wp_bind {A B} (m : M S A) (f : A → M S B) Q s :
  wp (m ≫= f) Q s ↔ wp m (λ a s', wp (f a) Q s') s.
Proof. unfold wp, mbind, M_bind. by destruct (m s) as [[]| |]. Qed.

Lemma wp_get Q s : wp get Q s ↔ Q s s.
Proof. done. Qed.

Lemma wp_modify (f : S → S) Q s : wp (modify f) Q s ↔ Q tt (f s).
Proof. done. Qed.

Lemma wp_lift {A} (o : outcome A) (Q : A → S → Prop) s :
  wp (lift o) Q s ↔ ∃ a, o = Ok a ∧ Q a s.
Proof.
  unfold wp, lift. destruct o; split; try done; [eauto | by intros (? & [= ->] & ?) | | ];
  by intros (? & ? & ?).
Qed.

Lemma wp_mono {A} (m : M S A) (Q Q' : A → S → Prop) s :
  (∀ a s', Q a s' → Q' a s') → wp m Q s → wp m Q' s.
Proof. unfold wp. destruct (m s) as [[]| |]; auto. Qed.

Lemma wp_run {A} (m : M S A) (Q : A → S → Prop) s :
  wp m Q s ↔ ∃ a s', m s = Ok (a, s') ∧ Q a s'.
Proof.
  unfold wp. destruct (m s) as [[a s']| |]; split; try done.
  - eauto.
  - by intros (? & ? & [= -> ->] & ?).
  - by intros (? & ? & ? & ?).
  - by intros (? & ? & ? & ?).
Qed.

(** The loop rule: an invariant over the number of elements consumed. *)
Lemma wp_for_each {A} (I : nat → S → Prop) (l : list A) body (Q : unit → S → Prop) s :
  I 0%nat s →
  (∀ k x s', l !! k = Some x → I k s' → wp (body x) (λ _, I (k + 1)%nat) s') →
  (∀ s', I (length l) s' → Q tt s') →
  wp (for_each l body) Q s.
Proof.
  revert I s. induction l as [|x l IH]; intros I s H0 Hstep HQ; simpl.
  - apply HQ, H0.
  - apply wp_bind. eapply wp_mono, (Hstep 0%nat); [|done..].
    intros [] s' HI. apply (IH (λ k, I (k + 1)%nat)); [done| |].
    + intros k y s'' Hk. apply (Hstep (k + 1)%nat). by rewrite Nat.add_1_r.
    + intros s''. rewrite Nat.add_1_r. apply HQ.
Qed.

Lemma wp_for_range (I : Z → S → Prop) n body (Q : unit → S → Prop) s :
  0 <= n →
  I 0 s →
  (∀ i s', 0 <= i < n → I i s' → wp (body i) (λ _, I (i + 1)) s') →
  (∀ s', I n s' → Q tt s') →
  wp (for_each (seqZ 0 n) body) Q s.
Proof.
  intros Hn H0 Hstep HQ. apply (wp_for_each (λ k, I (Z.of_nat k))); [done| |].
  - intros k x s' [-> Hk]%lookup_seqZ HI. eapply wp_mono, Hstep; [|lia|done].
    intros [] s'' H. by replace (Z.of_nat (k + 1)) with (0 + Z.of_nat k + 1) by lia.
  - intros s'. rewrite length_seqZ, Z2Nat.id by done. apply HQ.
Qed.

(** The loop that stores a value per iteration: an invariant over the values
    stored so far. *)
Lemma wp_map_each {A B} (I : list B → S → Prop) (l : list A) body (Q : list B → S → Prop) s ys0 :
  I ys0 s →
  (∀ k x ys s', l !! k = Some x → length ys = (length ys0 + k)%nat → I ys s' →
    wp (body x) (λ y, I (ys ++ [y])) s') →
  (∀ ys s', I (ys0 ++ ys) s' → length ys = length l → Q ys s') →
  wp (map_each l body) Q s.
Proof.
  revert ys0 s Q. induction l as [|x l IH]; intros ys0 s Q H0 Hstep HQ; simpl.
  - apply wp_ret, HQ; [by rewrite app_nil_r|done].
  - apply wp_bind. eapply wp_mono, (Hstep 0%nat x ys0); [|done|lia|done].
    intros y s' HI. apply wp_bind. apply (IH (ys0 ++ [y])); [done| |].
    + intros k z ys s'' Hk Hlen. apply (Hstep (k + 1)%nat); [by rewrite Nat.add_1_r|].
      rewrite Hlen, length_app. simpl. lia.
    + intros ys s'' HI' Hlen. apply wp_ret, HQ; [by rewrite <-app_assoc in HI'|].
      simpl. by rewrite Hlen.
Qed.

Lemma wp_map_range {B} (I : list B → S → Prop) n body (Q : list B → S → Prop) s :
  0 <= n →
  I [] s →
  (∀ i ys s', 0 <= i < n → Z.of_nat (length ys) = i → I ys s' →
    wp (body i) (λ y, I (ys ++ [y])) s') →
  (∀ ys s', I ys s' → Z.of_nat (length ys) = n → Q ys s') →
  wp (map_each (seqZ 0 n) body) Q s.
Proof.
  intros Hn H0 Hstep HQ. apply (wp_map_each I _ _ _ _ []); [done| |].
  - intros k x ys s' [-> Hk]%lookup_seqZ Hlen. apply Hstep; simpl in *; lia.
  - intros ys s' HI Hlen. apply HQ; [done|]. rewrite Hlen, length_seqZ. lia.
Qed.
End wp.

#[export] Hint Rewrite @wp_bind @wp_ret @wp_get @wp_modify @wp_lift : wp.
Ltac wp_step := repeat (progress autorewrite with wp).

Lemma fold_outcome_app {A B} (f : B → A → outcome B) l1 l2 b :
  fold_outcome f (l1 ++ l2) b = (b' ← fold_outcome f l1 b; fold_outcome f l2 b').
Proof.
  revert b. induction l1 as [|x l1 IH]; intros b; simpl; [done|].
  destruct (f b x) as [b'| |]; simpl; [apply IH|done..].
Qed.

Lemma fold_outcome_ext {A B} (f g : B → A → outcome B) l b :
  Forall (λ x, ∀ b, f b x = g b x) l → fold_outcome f l b = fold_outcome g l b.
Proof.
  intros Hall. revert b. induction Hall as [|x l Hx _ IH]; intros b; simpl; [done|].
  rewrite Hx. destruct (g b x); simpl; [apply IH|done..].
Qed.

(** A loop that fills an array in order. *)
Lemma fold_outcome_fill {A B} (f : A → outcome B) (g : A → B) l acc :
  Forall (λ x, f x = Ok (g x)) l →
  fold_outcome (λ acc x, y ← f x; Ok (acc ++ [y])) l acc = Ok (acc ++ (g <$> l)).
Proof.
  intros Hall. revert acc. induction Hall as [|x l Hx _ IH]; intros acc; simpl.
  - by rewrite app_nil_r.
  - rewrite Hx. simpl. rewrite IH, <-app_assoc. done.
Qed.

(** ** Lists as C arrays *)

(** [a[i]] and [a[i] = v] with a signed or unsigned index: [None] outside. *)
Definition aget {A} (l : list A) (i : Z) : option A :=
  if 0 <=? i then l !! Z.to_nat i else None.
Definition aset {A} (l : list A) (i : Z) (v : A) : option (list A) :=
  if (0 <=? i) && (i <? Z.of_nat (length l)) then Some (<[Z.to_nat i := v]> l) else None.

Lemma aget_Some {A} (l : list A) i :
  0 <= i < Z.of_nat (length l) → ∃ x, aget l i = Some x ∧ l !! Z.to_nat i = Some x.
Proof.
  intros Hi. unfold aget. destruct (Z.leb_spec 0 i); [|lia].
  destruct (lookup_lt_is_Some_2 l (Z.to_nat i)) as [x ->]; [lia|eauto].
Qed.

Lemma aget_None {A} (l : list A) i :
  ¬ 0 <= i < Z.of_nat (length l) → aget l i = None.
Proof.
  intros Hi. unfold aget. destruct (Z.leb_spec 0 i); [|done].
  apply lookup_ge_None_2. lia.
Qed.

Lemma aget_nat {A} (l : list A) (i : nat) : aget l (Z.of_nat i) = l !! i.
Proof. unfold aget. destruct (Z.leb_spec 0 (Z.of_nat i)); [|lia]. by rewrite Nat2Z.id. Qed.

Lemma aget_pos {A} (l : list A) i : 0 <= i → aget l i = l !! Z.to_nat i.
Proof. intros. unfold aget. by destruct (Z.leb_spec 0 i); [|lia]. Qed.

Lemma aset_Some {A} (l : list A) i v :
  0 <= i < Z.of_nat (length l) → aset l i v = Some (<[Z.to_nat i := v]> l).
Proof.
  intros. unfold aset.
  by destruct (Z.leb_spec 0 i), (Z.ltb_spec i (Z.of_nat (length l))); [|lia..].
Qed.

Lemma aset_None {A} (l : list A) i v :
  ¬ 0 <= i < Z.of_nat (length l) → aset l i v = None.
Proof.
  intros. unfold aset.
  by destruct (Z.leb_spec 0 i), (Z.ltb_spec i (Z.of_nat (length l))); [lia|..].
Qed.

Lemma aset_0 {A} (x : A) l v : aset (x :: l) 0 v = Some (v :: l).
Proof. rewrite aset_Some; [done|cbn; lia]. Qed.

Lemma aset_1 {A} (x y : A) l v : aset (x :: y :: l) 1 v = Some (x :: v :: l).
Proof. rewrite aset_Some; [done|cbn; lia]. Qed.

Lemma aget_0 {A} (x : A) l : aget (x :: l) 0 = Some x.
Proof. done. Qed.

Lemma aget_1 {A} (x y : A) l : aget (x :: y :: l) 1 = Some y.
Proof. done. Qed.

(** The sum of a list of integers. *)
Fixpoint sumZ (l : list Z) : Z :=
  match l with [] => 0 | x :: l => x + sumZ l end.

Lemma sumZ_app l1 l2 : sumZ (l1 ++ l2) = sumZ l1 + sumZ l2.
Proof. induction l1; simpl; lia. Qed.

Lemma seqZ_snoc m n : 0 <= n → seqZ m (n + 1) = seqZ m n ++ [m + n].
Proof.
  intros Hn. rewrite seqZ_app by lia. by rewrite (seqZ_cons (m + n) 1) by lia.
Qed.

Lemma seqZ_succ_l m n : 0 < n → seqZ m n = m :: seqZ (m + 1) (n - 1).
Proof. intros. rewrite seqZ_cons by lia. by rewrite Z.add_1_r, Z.sub_1_r. Qed.
