(* ===== verification/Platform.v ===== *)
(** * Platform: the target and the configuration the sources are compiled for

    Every constant here is defined outside [src/] (libsel4, libsel4bench, the
    ABI, the CMake configuration), so it is a parameter: a [Platform] is one
    choice of them, and the class carries the facts about them that hold on
    every seL4 target.  The instances below are the four targets with a
    [sel4_arch_include] directory. *)

From S2P Require Import Prelude.

Class Platform := {
  (** [seL4_WordBits]; [sizeof(size_t) = sizeof(uintptr_t) = sizeof(seL4_Word)] *)
  seL4_WordBits : Z;
  (** the width of [ccnt_t] *)
  ccnt_bits : Z;
  (** precision and exponent range of [long double] *)
  ld_prec : Z;
  ld_emax : Z;
  seL4_PageBits : Z;
  seL4_MinPrio : Z;
  seL4_MaxPrio : Z;
  CONFIG_KERNEL_MCS : bool;
  CONFIG_X86_64 : bool;
  CONFIG_ARCH_ARM : bool;
  CONFIG_ARCH_X86 : bool;
  CONFIG_ALLOW_UNSTABLE_OVERHEAD : bool;
  CONFIG_OUTPUT_RAW_RESULTS : bool;
  CONFIG_MAX_NUM_NODES : Z;
  (** the names of the generic events of libsel4bench *)
  GENERIC_EVENT_NAMES : list string;
  (** the layout of a process's capability space in sel4utils *)
  SEL4UTILS_ENDPOINT_SLOT : Z;
  SEL4UTILS_PD_SLOT : Z;
  SEL4UTILS_ASID_POOL_SLOT : Z;
  SEL4UTILS_TCB_SLOT : Z;
  SEL4UTILS_SCHED_CONTEXT_SLOT : Z;
  CONFIG_SEL4UTILS_CSPACE_SIZE_BITS : Z;
  CONFIG_SEL4UTILS_STACK_SIZE : Z;
  (** [STACK_CALL_ALIGNMENT] and [seL4_MaxUntypedBits] of the architecture *)
  STACK_CALL_ALIGNMENT : Z;
  seL4_MaxUntypedBits : Z;
  CONFIG_ITERATIONS : Z;
  (** the laws *)
  word_bits_law : seL4_WordBits = 32 ∨ seL4_WordBits = 64;
  ccnt_bits_law : ccnt_bits = seL4_WordBits ∨ ccnt_bits = 2 * seL4_WordBits;
  ccnt_bits_le : ccnt_bits <= 64;
  ld_law : 53 <= ld_prec ∧ 1024 <= ld_emax ∧ 2 * ld_prec < ld_emax;
  page_bits_law : 0 < seL4_PageBits < seL4_WordBits;
  slots_law : 1 <= SEL4UTILS_ASID_POOL_SLOT < SEL4UTILS_SCHED_CONTEXT_SLOT;
  alignment_law : 0 < STACK_CALL_ALIGNMENT;
  untyped_law : seL4_PageBits < seL4_MaxUntypedBits < seL4_WordBits;
}.

Section laws.
Context `{Platform}.

Lemma word_bits_pos : 0 < seL4_WordBits.
Proof. destruct word_bits_law; lia. Qed.

Lemma word_bits_nonneg : 0 <= seL4_WordBits.
Proof. pose proof word_bits_pos. lia. Qed.

Lemma ccnt_bits_pos : 0 < ccnt_bits.
Proof. pose proof word_bits_pos. destruct ccnt_bits_law; lia. Qed.

Lemma ccnt_bits_nonneg : 0 <= ccnt_bits.
Proof. pose proof ccnt_bits_pos. lia. Qed.
(** Every count of the sources fits a word. *)
Lemma small_count n : n < 2 ^ 31 → n < 2 ^ seL4_WordBits.
Proof. intros Hn. etrans; [done|]. destruct word_bits_law as [-> | ->]; done. Qed.
End laws.

#[export] Hint Resolve word_bits_pos word_bits_nonneg ccnt_bits_pos ccnt_bits_nonneg : word.

(** [SEL4BENCH_NUM_GENERIC_EVENTS], and the events of [benchmark.h] counted
    from it. *)
Definition SEL4BENCH_NUM_GENERIC_EVENTS `{Platform} : Z := Z.of_nat (length GENERIC_EVENT_NAMES).
Definition NUM_AVERAGE_EVENTS `{Platform} : Z := SEL4BENCH_NUM_GENERIC_EVENTS + 1.
Definition CYCLE_COUNT_EVENT `{Platform} : Z := SEL4BENCH_NUM_GENERIC_EVENTS.

(** The widths of [int] and [unsigned int] on every target. *)
Definition int_bits : Z := 32.

Ltac platform_laws := first [left; reflexivity | right; reflexivity | lia].

Definition x86_64 : Platform.
Proof.
  refine {| seL4_WordBits := 64; ccnt_bits := 64; ld_prec := 64; ld_emax := 16384;
            seL4_PageBits := 12; seL4_MinPrio := 0; seL4_MaxPrio := 255;
            CONFIG_KERNEL_MCS := false; CONFIG_X86_64 := true; CONFIG_ARCH_ARM := false; CONFIG_ARCH_X86 := true;
            SEL4UTILS_ENDPOINT_SLOT := 2; SEL4UTILS_PD_SLOT := 3; SEL4UTILS_ASID_POOL_SLOT := 4;
            SEL4UTILS_TCB_SLOT := 5; SEL4UTILS_SCHED_CONTEXT_SLOT := 6;
            CONFIG_SEL4UTILS_CSPACE_SIZE_BITS := 12; CONFIG_SEL4UTILS_STACK_SIZE := 65536;
            STACK_CALL_ALIGNMENT := 16; seL4_MaxUntypedBits := 47; CONFIG_ITERATIONS := 1;
            CONFIG_ALLOW_UNSTABLE_OVERHEAD := true; CONFIG_OUTPUT_RAW_RESULTS := true;
            CONFIG_MAX_NUM_NODES := 1; GENERIC_EVENT_NAMES := ["event 0"; "event 1"]%string |}; platform_laws.
Defined.

Definition aarch64 : Platform.
Proof.
  refine {| seL4_WordBits := 64; ccnt_bits := 64; ld_prec := 113; ld_emax := 16384;
            seL4_PageBits := 12; seL4_MinPrio := 0; seL4_MaxPrio := 255;
            CONFIG_KERNEL_MCS := true; CONFIG_X86_64 := false; CONFIG_ARCH_ARM := true; CONFIG_ARCH_X86 := false;
            SEL4UTILS_ENDPOINT_SLOT := 2; SEL4UTILS_PD_SLOT := 3; SEL4UTILS_ASID_POOL_SLOT := 4;
            SEL4UTILS_TCB_SLOT := 5; SEL4UTILS_SCHED_CONTEXT_SLOT := 6;
            CONFIG_SEL4UTILS_CSPACE_SIZE_BITS := 12; CONFIG_SEL4UTILS_STACK_SIZE := 65536;
            STACK_CALL_ALIGNMENT := 16; seL4_MaxUntypedBits := 47; CONFIG_ITERATIONS := 1;
            CONFIG_ALLOW_UNSTABLE_OVERHEAD := false; CONFIG_OUTPUT_RAW_RESULTS := true;
            CONFIG_MAX_NUM_NODES := 4; GENERIC_EVENT_NAMES := ["event 0"; "event 1"]%string |}; platform_laws.
Defined.

Definition aarch32 : Platform.
Proof.
  refine {| seL4_WordBits := 32; ccnt_bits := 32; ld_prec := 53; ld_emax := 1024;
            seL4_PageBits := 12; seL4_MinPrio := 0; seL4_MaxPrio := 255;
            CONFIG_KERNEL_MCS := false; CONFIG_X86_64 := false; CONFIG_ARCH_ARM := true; CONFIG_ARCH_X86 := false;
            SEL4UTILS_ENDPOINT_SLOT := 2; SEL4UTILS_PD_SLOT := 3; SEL4UTILS_ASID_POOL_SLOT := 4;
            SEL4UTILS_TCB_SLOT := 5; SEL4UTILS_SCHED_CONTEXT_SLOT := 6;
            CONFIG_SEL4UTILS_CSPACE_SIZE_BITS := 12; CONFIG_SEL4UTILS_STACK_SIZE := 65536;
            STACK_CALL_ALIGNMENT := 8; seL4_MaxUntypedBits := 29; CONFIG_ITERATIONS := 1;
            CONFIG_ALLOW_UNSTABLE_OVERHEAD := false; CONFIG_OUTPUT_RAW_RESULTS := true;
            CONFIG_MAX_NUM_NODES := 1; GENERIC_EVENT_NAMES := ["event 0"; "event 1"]%string |}; platform_laws.
Defined.

Definition ia32 : Platform.
Proof.
  refine {| seL4_WordBits := 32; ccnt_bits := 64; ld_prec := 64; ld_emax := 16384;
            seL4_PageBits := 12; seL4_MinPrio := 0; seL4_MaxPrio := 255;
            CONFIG_KERNEL_MCS := false; CONFIG_X86_64 := false; CONFIG_ARCH_ARM := false; CONFIG_ARCH_X86 := true;
            SEL4UTILS_ENDPOINT_SLOT := 2; SEL4UTILS_PD_SLOT := 3; SEL4UTILS_ASID_POOL_SLOT := 4;
            SEL4UTILS_TCB_SLOT := 5; SEL4UTILS_SCHED_CONTEXT_SLOT := 6;
            CONFIG_SEL4UTILS_CSPACE_SIZE_BITS := 12; CONFIG_SEL4UTILS_STACK_SIZE := 65536;
            STACK_CALL_ALIGNMENT := 16; seL4_MaxUntypedBits := 29; CONFIG_ITERATIONS := 1;
            CONFIG_ALLOW_UNSTABLE_OVERHEAD := true; CONFIG_OUTPUT_RAW_RESULTS := false;
            CONFIG_MAX_NUM_NODES := 1; GENERIC_EVENT_NAMES := ["event 0"; "event 1"]%string |}; platform_laws.
Defined.
