(* ===== verification/Memory.v ===== *)
(** * Memory: arrays of counter values and pointers into them

    The result structures a benchmark leaves in shared memory are arrays of
    [ccnt_t]; [sel4bench] updates them in place and keeps pointers into them
    ([result_t.raw_data]).  A [heap] maps a block to its contents; a pointer is
    a block and an offset, as [&array[k]] makes it. *)

From S2P Require Import Prelude.

Record ptr := Ptr { p_block : positive; p_off : Z }.

#[export] Instance ptr_eq_dec : EqDecision ptr.
Proof. solve_decision. Defined.

(** What a word passed as an argument denotes: an integer (or [NULL]), the
    address of an object, the address of a function. *)
Inductive val := Vint (z : Z) | Vptr (p : ptr) | Vfn (name : string).

#[export] Instance val_eq_dec : EqDecision val.
Proof. solve_decision. Defined.

(** [blocks] are the live arrays, [avail] the number of [ccnt_t] that [calloc]
    can still serve. *)
Record heap := Heap { blocks : gmap positive (list Z); avail : Z }.

(** [&p[i]] *)
Definition ptr_add (p : ptr) (i : Z) : ptr := Ptr (p_block p) (p_off p + i).

(** [p[i]] *)
Definition load (p : ptr) (i : Z) (h : heap) : outcome Z :=
  match blocks h !! p_block p with
  | Some l => defined (aget l (p_off p + i))
  | None => Undef
  end.

(** [p[i] = v] *)
Definition store (p : ptr) (i v : Z) (h : heap) : outcome heap :=
  match blocks h !! p_block p with
  | Some l =>
      l' ← defined (aset l (p_off p + i) v);
      Ok (Heap (<[p_block p := l']> (blocks h)) (avail h))
  | None => Undef
  end.

(** [calloc(n, sizeof(ccnt_t))]: a fresh block of zeros, or [NULL]. *)
Definition calloc (n : Z) (h : heap) : option ptr * heap :=
  if n <=? avail h then
    let b := fresh (dom (blocks h)) in
    (Some (Ptr b 0), Heap (<[b := replicate (Z.to_nat n) 0]> (blocks h)) (avail h - n))
  else (None, h).

(** The [n] elements from [p] on, when all of them are inside the block: what
    a callee that takes [ccnt_t array[n]] may read. *)
Definition view (p : ptr) (n : Z) (h : heap) : outcome (list Z) :=
  match blocks h !! p_block p with
  | Some l =>
      if bool_decide (0 <= n ∧ 0 <= p_off p ∧ p_off p + n <= Z.of_nat (length l))
      then Ok (take (Z.to_nat n) (drop (Z.to_nat (p_off p)) l))
      else Undef
  | None => Undef
  end.

(** [h] holds the array [l] in block [b]. *)
Definition holds (h : heap) (b : positive) (l : list Z) : Prop := blocks h !! b = Some l.

Lemma load_holds h b l k i x :
  holds h b l → 0 <= k + i → l !! Z.to_nat (k + i) = Some x → load (Ptr b k) i h = Ok x.
Proof. intros Hh Hk Hl. unfold load; simpl. rewrite Hh, aget_pos by done. by rewrite Hl. Qed.

Lemma store_holds h b l k i v :
  holds h b l → 0 <= k + i < Z.of_nat (length l) →
  store (Ptr b k) i v h = Ok (Heap (<[b := <[Z.to_nat (k + i) := v]> l]> (blocks h)) (avail h)).
Proof. intros Hh Hk. unfold store; simpl. by rewrite Hh, aset_Some. Qed.

(** A store inside a block changes that element and nothing else. *)
Lemma store_frame h b l k i v :
  holds h b l → 0 <= k + i < Z.of_nat (length l) →
  ∃ h', store (Ptr b k) i v h = Ok h' ∧ holds h' b (<[Z.to_nat (k + i) := v]> l) ∧
    ∀ b' l', b' ≠ b → holds h b' l' → holds h' b' l'.
Proof.
  intros Hh Hk. eexists. split; [by apply store_holds|]. unfold holds; simpl.
  split; [by rewrite lookup_insert_eq|]. intros b' l' Hne Hb'. by rewrite lookup_insert_ne by done.
Qed.

Lemma view_holds h b l k n :
  holds h b l → 0 <= n → 0 <= k → k + n <= Z.of_nat (length l) →
  view (Ptr b k) n h = Ok (take (Z.to_nat n) (drop (Z.to_nat k) l)).
Proof. intros Hh Hn Hk Hl. unfold view; simpl. rewrite Hh. by rewrite bool_decide_true. Qed.

Lemma calloc_fresh n h p h' :
  calloc n h = (Some p, h') →
  blocks h !! p_block p = None ∧ p_off p = 0 ∧
  holds h' (p_block p) (replicate (Z.to_nat n) 0) ∧
  (∀ b l, holds h b l → holds h' b l ∧ b ≠ p_block p).
Proof.
  unfold calloc. destruct (n <=? avail h); [|done]. intros [= <- <-]. simpl.
  assert (blocks h !! fresh (dom (blocks h)) = None) as Hfresh.
  { apply not_elem_of_dom, is_fresh. }
  split; [done|]. split; [done|]. unfold holds; simpl. split; [by rewrite lookup_insert_eq|].
  intros b l Hb. assert (b ≠ fresh (dom (blocks h))) by congruence.
  by rewrite lookup_insert_ne.
Qed.

Lemma view_load p n h l i :
  view p n h = Ok l → 0 <= i < n → ∃ x, load p i h = Ok x ∧ l !! Z.to_nat i = Some x.
Proof.
  unfold view, load. destruct (blocks h !! p_block p) as [b|]; [|done].
  destruct (bool_decide _) eqn:Hb; [|done]. apply bool_decide_eq_true in Hb.
  intros [= <-] Hi. destruct (lookup_lt_is_Some_2 b (Z.to_nat (p_off p + i))) as [x Hx]; [lia|].
  exists x. rewrite aget_pos, Hx by lia. split; [done|].
  rewrite lookup_take_lt, lookup_drop by lia. rewrite <-Hx. f_equal. lia.
Qed.

Lemma view_length p n h l : view p n h = Ok l → Z.of_nat (length l) = n.
Proof.
  unfold view. destruct (blocks h !! p_block p) as [b|]; [|done].
  destruct (bool_decide _) eqn:Hb; [|done]. apply bool_decide_eq_true in Hb.
  intros [= <-]. rewrite length_take, length_drop. lia.
Qed.
