(* ===== verification/Floats.v ===== *)
(** * Floats: the floating-point arithmetic of the C implementation

    [float], [double] and [long double] are the binary formats of IEEE 754
    with rounding to nearest, ties to even, which is what every target of the
    suite implements; an expression is evaluated in the format of its type
    ([FLT_EVAL_METHOD = 0]).  The operations are the ones of the Standard
    Library's [SpecFloat]; conversions and the rounding functions of [math.h]
    are defined here.

    The second half is a calculus of exact results: [dyadic f c k] is the
    float of value [c * 2^k], and the operations on dyadics whose result fits
    in the mantissa are shown to be exact. *)

From S2P Require Import Prelude Platform.
From Stdlib Require Export SpecFloat.

#[global] Open Scope Z_scope.

Record format := Format { f_prec : Z; f_emax : Z }.

Class IEEE (f : format) : Prop := {
  prec_law : 1 < f_prec f;
  emax_law : 2 * f_prec f < f_emax f;
}.

Definition single : format := Format 24 128.
Definition double : format := Format 53 1024.
Definition long_double `{Platform} : format := Format ld_prec ld_emax.

#[export] Instance single_ieee : IEEE single.
Proof. done. Qed.
#[export] Instance double_ieee : IEEE double.
Proof. done. Qed.
#[export] Instance long_double_ieee `{Platform} : IEEE long_double.
Proof. pose proof ld_law. split; simpl; lia. Qed.

#[export] Instance spec_float_eq_dec : EqDecision spec_float.
Proof. solve_decision. Defined.

(** ** Operations *)

(** [x + y], [x - y], [x * y], [x / y] and [sqrt(x)] in format [f]. *)
Definition fadd (f : format) := SFadd (f_prec f) (f_emax f).
Definition fsub (f : format) := SFsub (f_prec f) (f_emax f).
Definition fmul (f : format) := SFmul (f_prec f) (f_emax f).
Definition fdiv (f : format) := SFdiv (f_prec f) (f_emax f).
Definition fsqrt (f : format) := SFsqrt (f_prec f) (f_emax f).

(** Conversion of an integer to format [f]. *)
Definition of_Z (f : format) (z : Z) : spec_float :=
  binary_normalize (f_prec f) (f_emax f) z 0 false.

(** Conversion to format [f] from another format. *)
Definition convert (f : format) (x : spec_float) : spec_float :=
  match x with
  | S754_finite s m e => binary_round (f_prec f) (f_emax f) s m e
  | _ => x
  end.

(** The integer part of a float, towards zero. *)
Definition truncate (x : spec_float) : option Z :=
  match x with
  | S754_zero _ => Some 0
  | S754_finite s m e =>
      let a := if 0 <=? e then Zpos m * 2 ^ e else Zpos m `div` 2 ^ (- e) in
      Some (if s then - a else a)
  | _ => None
  end.

(** Conversion to an unsigned type of [w] bits, and to [int]: undefined when
    the integer part is not a value of the type. *)
Definition to_unsigned (w : Z) (x : spec_float) : outcome Z :=
  match truncate x with
  | Some z => if decide (in_word w z) then Ok z else Undef
  | None => Undef
  end.
Definition to_int (x : spec_float) : outcome Z :=
  match truncate x with
  | Some z => if decide (- 2 ^ (int_bits - 1) <= z < 2 ^ (int_bits - 1)) then Ok z else Undef
  | None => Undef
  end.

(** A function of [math.h] that rounds to an integral value, given how it
    rounds the magnitude [m / d]. *)
Definition round_integral (f : format) (nearest : Z → Z → Z) (x : spec_float) : spec_float :=
  match x with
  | S754_finite s m e =>
      if 0 <=? e then x
      else
        match nearest (Zpos m) (2 ^ (- e)) with
        | Zpos q => binary_round (f_prec f) (f_emax f) s q 0
        | _ => S754_zero s
        end
  | _ => x
  end.

(** [round]/[roundl]: halfway cases away from zero. *)
Definition half_away (m d : Z) : Z := (2 * m + d) `div` (2 * d).
(** [nearbyint] in the default mode: halfway cases to even. *)
Definition half_even (m d : Z) : Z :=
  let q := m `div` d in
  match (2 * (m `mod` d)) ?= d with
  | Lt => q
  | Gt => q + 1
  | Eq => if Z.even q then q else q + 1
  end.
Definition fround (f : format) : spec_float → spec_float := round_integral f half_away.
Definition nearbyint (f : format) : spec_float → spec_float := round_integral f half_even.

Definition is_nan (x : spec_float) : bool := match x with S754_nan => true | _ => false end.
Definition is_finite (x : spec_float) : bool :=
  match x with S754_zero _ | S754_finite _ _ _ => true | _ => false end.

(** ** Digits and shifts *)

Definition digits (z : Z) : Z := Z.log2 z + 1.

Lemma digits2_pos_digits p : Zpos (digits2_pos p) = digits (Zpos p).
Proof.
  unfold digits. induction p as [p IH|p IH|]; [| |done]; simpl digits2_pos; rewrite Pos2Z.inj_succ, IH.
  - rewrite (Pos2Z.inj_xI p), Z.log2_succ_double by lia. lia.
  - rewrite (Pos2Z.inj_xO p), Z.log2_double by lia. lia.
Qed.

Lemma Zdigits2_digits z : 0 < z → Zdigits2 z = digits z.
Proof. destruct z; [lia| |lia]. intros _. apply digits2_pos_digits. Qed.

Lemma digits_bounds z : 0 < z → 1 <= digits z ∧ 2 ^ (digits z - 1) <= z < 2 ^ digits z.
Proof.
  intros Hz. unfold digits. pose proof (Z.log2_nonneg z).
  destruct (Z.log2_spec z Hz). rewrite Z.add_simpl_r, Z.add_1_r. lia.
Qed.

Lemma digits_unique z d : 0 < d → 2 ^ (d - 1) <= z < 2 ^ d → digits z = d.
Proof.
  intros Hd Hz. unfold digits. rewrite (Z.log2_unique z (d - 1)); [lia|lia|].
  by replace (Z.succ (d - 1)) with d by lia.
Qed.

Lemma digits_le z d : 0 < z < 2 ^ d → 0 <= d → digits z <= d.
Proof. intros Hz Hd. unfold digits. destruct (Z.log2_lt_pow2 z d); lia. Qed.

Lemma digits_shift z n : 0 < z → 0 <= n → digits (z * 2 ^ n) = digits z + n.
Proof. intros. unfold digits. rewrite Z.log2_mul_pow2; lia. Qed.

Lemma iter_pos_nat {A} (g : A → A) p x : iter_pos g p x = Nat.iter (Pos.to_nat p) g x.
Proof.
  revert x. induction p as [p IH|p IH|]; intros x; cbn [iter_pos].
  - rewrite !IH, Pos2Nat.inj_xI, <-Nat.iter_add, Nat.iter_succ_r. f_equal. lia.
  - rewrite !IH, Pos2Nat.inj_xO, <-Nat.iter_add. f_equal. lia.
  - done.
Qed.

Lemma shr_1_even q : 0 <= q →
  shr_1 {| shr_m := q * 2; shr_r := false; shr_s := false |} =
  {| shr_m := q; shr_r := false; shr_s := false |}.
Proof. destruct q; [done| |lia]. intros _. by rewrite Z.mul_comm. Qed.

Lemma shr_1_iter_exact n q : 0 <= q →
  Nat.iter n shr_1 {| shr_m := q * 2 ^ Z.of_nat n; shr_r := false; shr_s := false |} =
  {| shr_m := q; shr_r := false; shr_s := false |}.
Proof.
  intros Hq. revert q Hq. induction n as [|n IH]; intros q Hq; [by rewrite Z.mul_1_r|].
  rewrite Nat.iter_succ, Nat2Z.inj_succ, Z.pow_succ_r, Z.mul_assoc by lia.
  by rewrite IH, shr_1_even by lia.
Qed.

Lemma shr_1_m mrs : 0 <= shr_m mrs → shr_m (shr_1 mrs) = shr_m mrs `div` 2.
Proof.
  destruct mrs as [[|[p|p|]|p] r s]; simpl; intros H; try done; try lia.
  - rewrite (Pos2Z.inj_xI p), Z.mul_comm, Z.div_add_l by lia. by rewrite Z.add_0_r.
  - by rewrite (Pos2Z.inj_xO p), Z.mul_comm, Z.div_mul.
Qed.

Lemma shr_1_iter_m n mrs : 0 <= shr_m mrs →
  shr_m (Nat.iter n shr_1 mrs) = shr_m mrs `div` 2 ^ Z.of_nat n.
Proof.
  intros Hm. induction n as [|n IH]; [by rewrite Z.div_1_r|].
  rewrite Nat.iter_succ, shr_1_m, IH.
  - rewrite Z.div_div, Nat2Z.inj_succ, Z.pow_succ_r by lia. f_equal. lia.
  - rewrite IH. apply Z.div_pos; lia.
Qed.

(** ** Exact results *)

Lemma div_eucl_mul q d : 0 < d → Z.div_eucl (q * d) d = (q, 0).
Proof.
  intros Hd. pose proof (Z.div_mul q d) as H1. pose proof (Z.mod_mul q d) as H2.
  unfold Z.div, Z.modulo in *. destruct (Z.div_eucl (q * d) d).
  rewrite H1, H2 by lia. done.
Qed.

Lemma new_location_0 d : new_location d 0 = loc_Exact.
Proof. unfold new_location. by destruct (Z.even d). Qed.

Lemma scale_mantissa m s : 0 <= s →
  match s with Z0 => m | Zpos _ => Z.shiftl m s | Zneg _ => Z0 end = m * 2 ^ s.
Proof. intros. rewrite <-Z.shiftl_mul_pow2 by done. by destruct s. Qed.

Section exact.
#[local] Set Default Proof Using "Type*".
Context (f : format).
#[local] Notation prec := (f_prec f).
#[local] Notation emax := (f_emax f).

(** The float of value [c * 2^k]: the mantissa has exactly [prec] digits. *)
Definition dyadic (c k : Z) : spec_float :=
  match c with
  | Z0 => S754_zero false
  | _ => let n := f_prec f - digits c in S754_finite false (Z.to_pos (c * 2 ^ n)) (k - n)
  end.

(** [c * 2^k] fits the mantissa and the exponent range. *)
Definition fits (c k : Z) : Prop :=
  0 <= c < 2 ^ f_prec f ∧ 4 - f_emax f <= k ∧ k + f_prec f <= f_emax f.

Context {Hf : IEEE f}.
Let Hprec : 1 < prec := prec_law.
Let Hemax : 2 * prec < emax := emax_law.

Lemma digits_fits c : 0 < c < 2 ^ prec → 1 <= digits c <= prec.
Proof.
  intros Hc. split; [apply digits_bounds; lia|]. apply digits_le; lia.
Qed.

Lemma dyadic_pos c k : 0 < c →
  dyadic c k = S754_finite false (Z.to_pos (c * 2 ^ (prec - digits c))) (k - (prec - digits c)).
Proof. by destruct c. Qed.

(** The mantissa of a positive dyadic has [prec] digits. *)
Lemma dyadic_mantissa c : 0 < c < 2 ^ prec →
  2 ^ (prec - 1) <= c * 2 ^ (prec - digits c) < 2 ^ prec.
Proof.
  intros Hc. destruct (digits_fits c Hc). destruct (digits_bounds c) as (_ & H1 & H2); [lia|].
  replace (prec - 1) with ((digits c - 1) + (prec - digits c)) at 1 by lia.
  replace prec with (digits c + (prec - digits c)) at 4 by lia.
  rewrite !Z.pow_add_r by lia.
  pose proof (pow2_pos (prec - digits c)). nia.
Qed.

Lemma digits_mantissa c : 0 < c < 2 ^ prec → digits (c * 2 ^ (prec - digits c)) = prec.
Proof.
  intros Hc. destruct (digits_fits c Hc). rewrite digits_shift; lia.
Qed.

(** The value does not depend on how it is written. *)
Lemma dyadic_shift c k n :
  0 <= c → 0 <= n → c * 2 ^ n < 2 ^ prec → dyadic (c * 2 ^ n) k = dyadic c (k + n).
Proof.
  intros Hc Hn Hlt. destruct (decide (c = 0)) as [->|]; [done|].
  pose proof (pow2_pos n Hn).
  assert (digits (c * 2 ^ n) = digits c + n) as Hd by (apply digits_shift; lia).
  destruct (digits_fits (c * 2 ^ n)); [nia|].
  rewrite !dyadic_pos by nia. rewrite Hd. f_equal; [|lia].
  f_equal. rewrite <-Z.mul_assoc, <-Z.pow_add_r by lia. do 2 f_equal. lia.
Qed.

Lemma fexp_normal d e : 3 - emax - prec <= d + e - prec → fexp prec emax (d + e) = d + e - prec.
Proof. unfold fexp, emin. lia. Qed.

Lemma shr_fexp_exact m n e :
  0 < m → digits m = prec → 0 <= n → 3 - emax - prec <= e + n →
  shr_fexp prec emax (m * 2 ^ n) e loc_Exact =
    ({| shr_m := m; shr_r := false; shr_s := false |}, e + n).
Proof.
  intros Hm Hd Hn He. unfold shr_fexp.
  pose proof (pow2_pos n Hn).
  rewrite Zdigits2_digits, digits_shift, Hd, fexp_normal by nia.
  replace (prec + n + e - prec - e) with n by lia.
  destruct n as [|p|p]; [by rewrite Z.mul_1_r, Z.add_0_r| |lia].
  cbn [shr shr_record_of_loc]. f_equal. rewrite iter_pos_nat, <-(positive_nat_Z p).
  apply shr_1_iter_exact. lia.
Qed.

Lemma round_aux_exact sx m n e :
  0 < m → digits m = prec → 0 <= n → 3 - emax - prec <= e + n → e + n <= emax - prec →
  binary_round_aux prec emax sx (m * 2 ^ n) e loc_Exact = S754_finite sx (Z.to_pos m) (e + n).
Proof.
  intros Hm Hd Hn He1 He2. unfold binary_round_aux.
  rewrite shr_fexp_exact by done. cbn [shr_m loc_of_shr_record round_nearest_even].
  rewrite <-(Z.mul_1_r m) at 1. change 1 with (2 ^ 0).
  rewrite shr_fexp_exact by (rewrite ?Z.add_0_r; done). rewrite Z.add_0_r. cbn [shr_m].
  destruct m; [lia| |lia]. by destruct (Z.leb_spec (e + n) (emax - prec)); [|lia].
Qed.

(** Rounding an integer mantissa whose value is a dyadic. *)
Lemma normalize_dyadic c k m e n :
  0 < c → fits c k → 0 <= n → m = c * 2 ^ n → e = k - n →
  binary_normalize prec emax m e false = dyadic c k.
Proof.
  intros Hc (Hc' & Hk1 & Hk2) Hn -> ->.
  destruct (digits_fits c); [lia|].
  pose proof (pow2_pos n Hn). rewrite dyadic_pos by done.
  set (x := prec - digits c) in *.
  assert (Hmant : digits (c * 2 ^ x) = prec) by (rewrite digits_shift; lia).
  assert (0 < c * 2 ^ x) by (pose proof (pow2_pos x); nia).
  assert (Hd : digits (c * 2 ^ n) = digits c + n) by (apply digits_shift; lia).
  destruct (c * 2 ^ n) as [|p|p] eqn:Ep; [nia| |nia]. cbn [binary_normalize].
  unfold binary_round, shl_align. rewrite digits2_pos_digits, Hd.
  rewrite fexp_normal by lia. replace (digits c + n + (k - n) - prec) with (k - x) by lia.
  destruct (k - x - (k - n)) as [|q|q] eqn:Eq.
  - rewrite <-Ep. replace n with x by lia. rewrite <-(Z.mul_1_r (_ * _)).
    change 1 with (2 ^ 0). rewrite round_aux_exact; [f_equal; lia|lia..].
  - rewrite <-Ep. replace n with (x + Z.pos q) by lia. rewrite Z.pow_add_r, Z.mul_assoc by lia.
    rewrite round_aux_exact; [f_equal; lia|lia..].
  - assert (Zpos (Pos.iter xO p q) = c * 2 ^ x) as ->.
    { replace x with (n + Zpos q) by lia. rewrite Z.pow_add_r, Z.mul_assoc, Ep by lia.
      rewrite <-Z.shiftl_mul_pow2 by lia.
      by apply (Pos.iter_swap_gen _ _ Zpos xO (Z.mul 2)). }
    rewrite <-(Z.mul_1_r (_ * _)). change 1 with (2 ^ 0).
    rewrite round_aux_exact; [f_equal; lia|lia..].
Qed.

Lemma fits_exp c k c' k' :
  fits c k → 0 <= c' < 2 ^ prec → 4 - emax <= k' → k' + prec <= emax → fits c' k'.
Proof. unfold fits. tauto. Qed.

Lemma of_Z_exact z : 0 <= z < 2 ^ prec → of_Z f z = dyadic z 0.
Proof.
  intros Hz. destruct (decide (z = 0)) as [->|]; [done|].
  apply (normalize_dyadic z 0 z 0 0); [lia|unfold fits; lia|lia|by rewrite Z.mul_1_r|lia].
Qed.

Lemma fmul_dyadic a b j k :
  fits a j → fits b k → fits (a * b) (j + k) →
  fmul f (dyadic a j) (dyadic b k) = dyadic (a * b) (j + k).
Proof.
  intros (Ha & _) (Hb & _) (Hab & Hj & Hk).
  destruct (decide (a = 0)) as [->|]; [by destruct b|].
  destruct (decide (b = 0)) as [->|]; [by rewrite Z.mul_0_r; destruct a|].
  assert (0 < a * b) by nia.
  destruct (digits_fits a), (digits_fits b), (digits_fits (a * b)); [lia..|].
  assert (digits a + digits b - 1 <= digits (a * b)).
  { unfold digits. pose proof (Z.log2_mul_below a b). lia. }
  rewrite !dyadic_pos by lia. unfold fmul, SFmul. cbn [xorb].
  set (x := prec - digits a). set (y := prec - digits b). set (z := prec - digits (a * b)).
  pose proof (pow2_pos x). pose proof (pow2_pos y). pose proof (pow2_pos z).
  rewrite Pos2Z.inj_mul, !Z2Pos.id by nia.
  replace (a * 2 ^ x * (b * 2 ^ y)) with (a * b * 2 ^ z * 2 ^ (x + y - z)).
  - rewrite round_aux_exact; [f_equal; lia|nia|apply digits_mantissa; lia|lia..].
  - rewrite <-Z.mul_assoc, <-Z.pow_add_r by lia.
    replace (z + (x + y - z)) with (x + y) by lia. rewrite Z.pow_add_r by lia. ring.
Qed.

Lemma shl_align_fst m e ez : ez <= e → Zpos (fst (shl_align m e ez)) = Zpos m * 2 ^ (e - ez).
Proof.
  intros He. unfold shl_align. destruct (ez - e) as [|q|q] eqn:Eq; [|lia|].
  - replace (e - ez) with 0 by lia. cbn. lia.
  - replace (e - ez) with (Zpos q) by lia. cbn [fst].
    rewrite <-Z.shiftl_mul_pow2 by lia. by apply (Pos.iter_swap_gen _ _ Zpos xO (Z.mul 2)).
Qed.

(** Aligning the mantissa of a dyadic to a smaller exponent. *)
Lemma align_dyadic c k ez :
  0 < c < 2 ^ prec → ez <= k - (prec - digits c) →
  Zpos (fst (shl_align (Z.to_pos (c * 2 ^ (prec - digits c))) (k - (prec - digits c)) ez)) =
    c * 2 ^ (k - ez).
Proof.
  intros Hc He. destruct (digits_fits c Hc).
  pose proof (pow2_pos (prec - digits c)). rewrite shl_align_fst, Z2Pos.id by nia.
  rewrite <-Z.mul_assoc, <-Z.pow_add_r by lia. do 2 f_equal. lia.
Qed.

Lemma fadd_dyadic a b k :
  fits a k → fits b k → fits (a + b) k →
  fadd f (dyadic a k) (dyadic b k) = dyadic (a + b) k.
Proof.
  intros (Ha & _) (Hb & _) Hab.
  destruct (decide (a = 0)) as [->|]; [by destruct b|].
  destruct (decide (b = 0)) as [->|]; [by rewrite Z.add_0_r; destruct a|].
  destruct (digits_fits a), (digits_fits b); [lia..|].
  rewrite (dyadic_pos a), (dyadic_pos b) by lia. unfold fadd, SFadd. cbv zeta.
  set (ez := Z.min _ _). cbn [cond_Zopp]. rewrite !align_dyadic by lia.
  apply (normalize_dyadic _ _ _ _ (k - ez)); [lia|done|lia|ring|lia].
Qed.

Lemma fsub_dyadic a b k :
  fits a k → fits b k → b <= a →
  fsub f (dyadic a k) (dyadic b k) = dyadic (a - b) k.
Proof.
  intros Ha Hb Hba. destruct Ha as (Ha & Hk). destruct Hb as (Hb & _).
  destruct (decide (b = 0)) as [->|]; [by rewrite Z.sub_0_r; destruct a|].
  destruct (digits_fits a), (digits_fits b); [lia..|].
  rewrite (dyadic_pos a), (dyadic_pos b) by lia. unfold fsub, SFsub. cbv zeta.
  set (ez := Z.min _ _). cbn [cond_Zopp]. rewrite !align_dyadic, <-Z.mul_sub_distr_r by lia.
  destruct (decide (a = b)) as [->|]; [by rewrite Z.sub_diag|].
  apply (normalize_dyadic _ _ _ _ (k - ez)); [lia| |lia..]. unfold fits. lia.
Qed.

Lemma fdiv_dyadic a b j k :
  0 < b → fits (a * b) j → fits b k → fits a (j - k) →
  fdiv f (dyadic (a * b) j) (dyadic b k) = dyadic a (j - k).
Proof.
  intros Hb (Hab & _) (Hb' & _) (Ha & Hj & Hk).
  destruct (decide (a = 0)) as [->|]; [by destruct b|].
  assert (0 < a * b) by nia.
  destruct (digits_fits a), (digits_fits b), (digits_fits (a * b)); [lia..|].
  assert (digits a + digits b - 1 <= digits (a * b) <= digits a + digits b).
  { unfold digits. pose proof (Z.log2_mul_below a b). pose proof (Z.log2_mul_above a b). lia. }
  rewrite !dyadic_pos by lia. unfold fdiv, SFdiv, SFdiv_core_binary.
  set (x := prec - digits a). set (y := prec - digits b). set (z := prec - digits (a * b)).
  pose proof (pow2_pos x). pose proof (pow2_pos y). pose proof (pow2_pos z).
  rewrite !Z2Pos.id, !Zdigits2_digits by nia.
  unfold z, y. rewrite !digits_mantissa by lia. fold y z.
  replace (prec + (j - z) - (prec + (k - y))) with (0 + (j - z - (k - y))) by lia.
  rewrite fexp_normal by lia.
  rewrite Z.min_l by lia.
  replace (j - z - (k - y) - (0 + (j - z - (k - y)) - prec)) with prec by lia.
  rewrite scale_mantissa by lia.
  replace (a * b * 2 ^ z * 2 ^ prec)
    with (a * 2 ^ x * 2 ^ (digits a + digits b - digits (a * b)) * (b * 2 ^ y)).
  - rewrite div_eucl_mul by nia. cbv beta iota. rewrite new_location_0.
    cbn [xorb]. rewrite round_aux_exact; [f_equal; lia|nia|apply digits_mantissa; lia|lia..].
  - transitivity (a * b * (2 ^ x * 2 ^ (digits a + digits b - digits (a * b)) * 2 ^ y)); [ring|].
    rewrite <-(Z.mul_assoc (a * b) (2 ^ z)), <-!Z.pow_add_r by lia. do 2 f_equal. lia.
Qed.

Lemma truncate_dyadic c k : 0 <= c < 2 ^ prec → k <= 0 → truncate (dyadic c k) = Some (c `div` 2 ^ (- k)).
Proof.
  intros Hc Hk. pose proof (pow2_pos (- k)).
  destruct (decide (c = 0)) as [->|]; [by rewrite Z.div_0_l by lia|].
  destruct (digits_fits c); [lia|]. rewrite dyadic_pos by lia. cbn [truncate].
  set (x := prec - digits c) in *. pose proof (pow2_pos x). rewrite Z2Pos.id by nia. f_equal.
  destruct (Z.leb_spec 0 (k - x)).
  - replace (k - x) with 0 by lia. replace x with 0 by lia. replace k with 0 by lia.
    by rewrite Z.div_1_r, Z.mul_1_r, Z.mul_1_r.
  - replace (- (k - x)) with (- k + x) by lia. rewrite Z.pow_add_r by lia.
    by rewrite Z.div_mul_cancel_r by lia.
Qed.

Lemma fround_dyadic c : 0 <= c < 2 ^ prec → fround f (dyadic c 0) = dyadic c 0.
Proof.
  intros Hc. destruct (decide (c = 0)) as [->|]; [done|].
  destruct (digits_fits c); [lia|]. rewrite dyadic_pos by lia. cbn [fround round_integral].
  set (x := prec - digits c) in *. pose proof (pow2_pos x). unfold fround, round_integral.
  destruct (Z.leb_spec 0 (0 - x)) as [|Hx]; [done|].
  rewrite Z2Pos.id by nia. replace (- (0 - x)) with x by lia.
  assert (half_away (c * 2 ^ x) (2 ^ x) = c) as ->.
  { unfold half_away. symmetry. apply (Z.div_unique _ _ _ (2 ^ x)); nia. }
  destruct c as [|c|c]; [lia| |lia].
  transitivity (dyadic (Zpos c) 0); [|by rewrite dyadic_pos].
  apply (of_Z_exact (Zpos c)). lia.
Qed.

(** A rounded positive mantissa is finite and not zero when its magnitude is
    below the largest power of two of the format. *)
Lemma round_aux_finite sx m e l :
  0 < m → prec <= digits m → 3 - emax <= digits m + e < emax →
  ∃ m' e', binary_round_aux prec emax sx m e l = S754_finite sx m' e' ∧
    digits (Zpos m') = prec ∧ digits m + e - prec <= e' <= digits m + e - prec + 1.
Proof.
  intros Hm Hd He. unfold binary_round_aux, shr_fexp.
  rewrite Zdigits2_digits, fexp_normal by lia.
  set (n := digits m + e - prec - e).
  assert (∃ mrs, shr (shr_record_of_loc m l) e n = (mrs, e + n) ∧ shr_m mrs = m `div` 2 ^ n)
    as (mrs & -> & Hq).
  { assert (shr_m (shr_record_of_loc m l) = m) as Hml by (by destruct l as [|[]]).
    destruct n as [|p|p] eqn:En; [|eexists; split; [done|]|lia].
    - eexists. split; [by rewrite Z.add_0_r|]. by rewrite Hml, Z.div_1_r.
    - rewrite iter_pos_nat, shr_1_iter_m, positive_nat_Z, Hml by lia. done. }
  assert (2 ^ (prec - 1) <= m `div` 2 ^ n < 2 ^ prec) as Hb.
  { destruct (digits_bounds m Hm) as (_ & Hlo & Hhi). pose proof (pow2_pos n). split.
    - apply Z.div_le_lower_bound; [lia|]. rewrite <-Z.pow_add_r by lia.
      by replace (n + (prec - 1)) with (digits m - 1) by lia.
    - apply Z.div_lt_upper_bound; [lia|]. rewrite <-Z.pow_add_r by lia.
      by replace (n + prec) with (digits m) by lia. }
  rewrite Hq. set (q := m `div` 2 ^ n) in *.
  assert (∃ r, round_nearest_even q (loc_of_shr_record mrs) = r ∧ q <= r <= q + 1) as (r & -> & Hr).
  { eexists. split; [done|]. destruct (loc_of_shr_record mrs) as [|[]]; simpl; try lia.
    destruct (Z.even q); lia. }
  pose proof (pow2_pos (prec - 1)).
  destruct (decide (r = 2 ^ prec)) as [->|].
  - assert (digits (2 ^ prec) = prec + 1) as Hdp
      by (unfold digits; rewrite Z.log2_pow2; lia).
    rewrite Zdigits2_digits, Hdp, fexp_normal by lia.
    replace (prec + 1 + (e + n) - prec - (e + n)) with 1 by lia.
    cbn [shr iter_pos shr_record_of_loc].
    assert (2 ^ prec = 2 ^ (prec - 1) * 2) as ->.
    { rewrite <-(Z.pow_1_r 2) at 3. rewrite <-Z.pow_add_r by lia. f_equal. lia. }
    rewrite shr_1_even by lia. cbn [shr_m].
    assert (digits (2 ^ (prec - 1)) = prec) as Hdq
      by (unfold digits; rewrite Z.log2_pow2; lia).
    destruct (2 ^ (prec - 1)) as [|p|p]; [lia| |lia].
    destruct (Z.leb_spec (e + n + 1) (emax - prec)); [|lia].
    eexists _, _. split; [done|]. split; [done|lia].
  - assert (digits r = prec) as Hdr by (apply digits_unique; lia).
    rewrite Zdigits2_digits, Hdr, fexp_normal by lia.
    replace (prec + (e + n) - prec - (e + n)) with 0 by lia. cbn.
    destruct r as [|p|p]; [lia| |lia].
    destruct (Z.leb_spec (e + n) (emax - prec)); [|lia].
    eexists _, _. split; [done|]. split; [done|lia].
Qed.

Lemma fdiv_finite a b : 0 < a < 2 ^ prec → 0 < b < 2 ^ prec →
  ∃ c k, fdiv f (dyadic a 0) (dyadic b 0) = dyadic c k ∧
    0 < c < 2 ^ prec ∧ - 2 * prec <= k <= 2.
Proof.
  intros Ha Hb. destruct (digits_fits a Ha), (digits_fits b Hb).
  destruct (dyadic_mantissa a Ha), (dyadic_mantissa b Hb).
  pose proof (pow2_pos (prec - 1)).
  rewrite !dyadic_pos by lia. unfold fdiv, SFdiv, SFdiv_core_binary.
  rewrite !Z2Pos.id, !Zdigits2_digits, !digits_mantissa by lia.
  set (x := prec - digits a) in *. set (y := prec - digits b) in *.
  replace (prec + (0 - x) - (prec + (0 - y))) with (0 + (y - x)) by lia.
  rewrite fexp_normal by lia. rewrite Z.min_l by lia.
  replace (0 - x - (0 - y) - (0 + (y - x) - prec)) with prec by lia.
  rewrite scale_mantissa by lia.
  set (ma := a * 2 ^ x) in *. set (mb := b * 2 ^ y) in *.
  assert (2 ^ prec = 2 * 2 ^ (prec - 1)).
  { rewrite <-Z.pow_succ_r by lia. f_equal. lia. }
  pose proof (Z.div_mod (ma * 2 ^ prec) mb ltac:(lia)) as Hdm.
  pose proof (Z.mod_pos_bound (ma * 2 ^ prec) mb ltac:(lia)) as Hmod.
  unfold Z.div, Z.modulo in *. destruct (Z.div_eucl (ma * 2 ^ prec) mb) as [q r].
  assert (2 ^ (prec - 1) <= q < 2 ^ (prec + 1)) as Hq.
  { rewrite (Z.pow_add_r 2 prec 1) by lia. split; nia. }
  assert (prec <= digits q <= prec + 1) as Hd.
  { split; [|apply digits_le; lia]. unfold digits.
    pose proof (Z.log2_le_pow2 q (prec - 1) ltac:(lia)). lia. }
  edestruct (round_aux_finite false q) as (m & e & Hround & Hm & He); [| | |].
  4:{ rewrite Hround. exists (Zpos m), e.
      destruct (digits_bounds (Zpos m)) as (_ & Hlo & Hhi); [lia|]. rewrite Hm in Hlo, Hhi.
      split; [|lia]. rewrite dyadic_pos, Hm, Z.sub_diag, Z.mul_1_r, Z.sub_0_r by lia. done. }
  all: lia.
Qed.
End exact.

Lemma convert_dyadic f g `{!IEEE f, !IEEE g} c k :
  0 <= c < 2 ^ f_prec f → fits g c k →
  convert g (dyadic f c k) = dyadic g c k.
Proof.
  intros Hc Hg. destruct (decide (c = 0)) as [->|]; [done|].
  destruct (digits_fits f c); [lia|].
  rewrite (dyadic_pos f) by lia. cbn [convert].
  pose proof (pow2_pos (f_prec f - digits c)).
  transitivity (binary_normalize (f_prec g) (f_emax g)
    (c * 2 ^ (f_prec f - digits c)) (k - (f_prec f - digits c)) false).
  - destruct (c * 2 ^ (f_prec f - digits c)) eqn:E; [nia|done|nia].
  - apply (normalize_dyadic g c k _ _ (f_prec f - digits c)); lia || done.
Qed.

Lemma fmul_zero_finite f x :
  match x with S754_finite false _ _ | S754_zero false => true | _ => false end = true →
  fmul f (S754_zero false) x = S754_zero false.
Proof. by destruct x as [[]| | |[]]. Qed.

(** [fits] and the format laws, at the concrete formats. *)
Ltac format_solve :=
  unfold fits, long_double, double, single in *; cbn [f_prec f_emax] in *;
  change (2 ^ 53) with 9007199254740992 in *; change (2 ^ 24) with 16777216 in *;
  first [lia | nia].
