(* ===== verification/Rounding.v ===== *)
(** * Rounding: faithful rounding of the floating-point operations

    The operations of Floats on values that are not exact: every result is a
    representable number on the right side of every representable bound of the
    exact result.  That is enough to bound a computation by induction, without
    an error analysis.  Values are measured in units of the smallest positive
    float, so that they are integers. *)

From S2P Require Import Prelude Platform Floats.

Section rounding.
Context (f : format) {Hf : IEEE f}.
#[local] Set Default Proof Using "Type*".
#[local] Notation prec := (f_prec f).
#[local] Notation emax := (f_emax f).
#[local] Notation emin := (SpecFloat.emin (f_prec f) (f_emax f)).
Let Hprec : 1 < prec := prec_law.
Let Hemax : 2 * prec < emax := emax_law.

Lemma fexp_eq e : fexp prec emax e = Z.max (e - prec) emin.
Proof. done. Qed.

(** [r] units are a representable value. *)
Definition repr (r : Z) : Prop := ∃ c k, 0 <= c < 2 ^ prec ∧ 0 <= k ∧ r = c * 2 ^ k.

(** [x] is the float of sign [s] whose magnitude is [r] units. *)
Definition units (s : bool) (x : spec_float) (r : Z) : Prop :=
  match x with
  | S754_zero s' => s' = s ∧ r = 0
  | S754_finite s' m e =>
      s' = s ∧ Zpos m < 2 ^ prec ∧ emin <= e ∧ r = Zpos m * 2 ^ (e - emin)
  | _ => False
  end.

(** [r] is a faithful rounding of the rational [n / d]. *)
Definition rounds (n d r : Z) : Prop :=
  repr r ∧ (∀ R, repr R → n <= R * d → r <= R) ∧ (∀ R, repr R → R * d <= n → R <= r).

Lemma units_repr s x r : units s x r → repr r.
Proof.
  destruct x as [s'| | |s' m e]; simpl; try done.
  - intros [_ ->]. exists 0, 0. pose proof (pow2_pos prec). lia.
  - intros (_ & Hm & He & ->). exists (Zpos m), (e - emin). lia.
Qed.

Lemma repr_nonneg r : repr r → 0 <= r.
Proof. intros (c & k & Hc & Hk & ->). pose proof (pow2_pos k). nia. Qed.

Lemma repr_pow2 k : 0 <= k → repr (2 ^ k).
Proof.
  intros Hk. exists 1, k. split; [|lia]. pose proof (Z.pow_gt_1 2 prec). lia.
Qed.

Lemma rounds_exact r : repr r → rounds r 1 r.
Proof. intros Hr. split; [done|]. split; intros; lia. Qed.

Lemma rounds_unique_exact n d r r' : 0 < d → rounds n d r → repr r' → n = r' * d → r = r'.
Proof. intros Hd (Hr & Hup & Hlo) Hr' ->. specialize (Hup r' Hr'). specialize (Hlo r' Hr'). lia. Qed.

(** Rounding, then dividing by at least two, does not exceed the original. *)
Lemma rounds_halve D d i q :
  0 <= D → 2 <= i → rounds D 1 d → rounds d i q → q <= D.
Proof.
  intros HD Hi (Hd & Hup & _) (Hq & Hupq & _).
  destruct (decide (D = 0)) as [->|].
  - specialize (Hup 0). pose proof (repr_nonneg d Hd).
    assert (repr 0) as H0 by (exists 0, 0; pose proof (pow2_pos prec); lia).
    apply Hupq; [done|]. specialize (Hup H0). lia.
  - destruct (digits_bounds D ltac:(lia)) as (Hj & Hlo & Hhi).
    assert (d <= 2 ^ digits D) by (apply Hup; [apply repr_pow2; lia|lia]).
    assert (q <= 2 ^ (digits D - 1)); [|lia].
    apply Hupq; [apply repr_pow2; lia|].
    replace (digits D) with (digits D - 1 + 1) in H by lia. rewrite Z.pow_add_r in H by lia.
    pose proof (pow2_pos (digits D - 1)). nia.
Qed.

(** ** Shifting with a sticky location *)

Definition loc_exact (l : location) : bool := match l with loc_Exact => true | _ => false end.

Lemma shr_1_exact mrs : 0 <= shr_m mrs →
  loc_exact (loc_of_shr_record (shr_1 mrs)) =
    loc_exact (loc_of_shr_record mrs) && Z.even (shr_m mrs).
Proof.
  destruct mrs as [[|[p|p|]|p] r s]; simpl; intros Hm; [..|lia]; by destruct r, s.
Qed.

Lemma shr_iter_exact n mrs : 0 <= shr_m mrs →
  loc_exact (loc_of_shr_record (Nat.iter n shr_1 mrs)) = true ↔
    loc_exact (loc_of_shr_record mrs) = true ∧ (2 ^ Z.of_nat n | shr_m mrs).
Proof.
  intros Hm. induction n as [|n IH].
  - simpl. split; [|tauto]. intros ?. split; [done|]. apply Z.divide_1_l.
  - rewrite Nat.iter_succ, shr_1_exact, andb_true_iff, IH, shr_1_iter_m, Z.even_spec by
      (rewrite ?shr_1_iter_m by done; apply Z.div_pos || done; pose proof (pow2_pos (Z.of_nat n)); lia).
    rewrite Nat2Z.inj_succ, Z.pow_succ_r by lia. pose proof (pow2_pos (Z.of_nat n) ltac:(lia)).
    split.
    + intros [[He [q Hq]] [x Hx]]. split; [done|]. exists x.
      rewrite Hq, Z.div_mul in Hx by lia. rewrite Hq, Hx. ring.
    + intros [He [q Hq]]. split; [split; [done|]|].
      * exists (q * 2). rewrite Hq. ring.
      * exists q. rewrite Hq. rewrite Z.mul_assoc, Z.div_mul by lia. ring.
Qed.

Lemma shr_spec m e l n : 0 <= m → 0 <= n →
  ∃ mrs, shr (shr_record_of_loc m l) e n = (mrs, e + n) ∧ shr_m mrs = m `div` 2 ^ n ∧
    (loc_exact (loc_of_shr_record mrs) = true ↔ loc_exact l = true ∧ (2 ^ n | m)).
Proof.
  intros Hm Hn. assert (shr_m (shr_record_of_loc m l) = m) as Hml by (by destruct l as [|[]]).
  assert (loc_exact (loc_of_shr_record (shr_record_of_loc m l)) = loc_exact l) as Hll
    by (by destruct l as [|[]]).
  destruct n as [|p|p]; [| |lia].
  - eexists. split; [by rewrite Z.add_0_r|]. rewrite Hml, Z.div_1_r, Hll.
    split; [done|]. split; [|tauto]. intros ?. split; [done|apply Z.divide_1_l].
  - eexists. split; [done|]. rewrite iter_pos_nat, shr_1_iter_m, shr_iter_exact, Hml, Hll by
      (rewrite Hml; lia). by rewrite positive_nat_Z.
Qed.

Lemma Zdigits2_cases m : 0 <= m → m = 0 ∧ Zdigits2 m = 0 ∨ 0 < m ∧ Zdigits2 m = digits m.
Proof. intros Hm. destruct m; [by left|right; split; [lia|by apply Zdigits2_digits]|lia]. Qed.

(** The candidate of the first shift: the mantissa [M] at exponent [E] lies
    below the exact value by less than one unit, and [E] is the exponent at
    which the value is rounded. *)
Lemma first_shift m e l n d :
  0 <= m → emin <= e → 0 < d →
  m * 2 ^ (e - emin) * d <= n < (m + 1) * 2 ^ (e - emin) * d →
  (loc_exact l = true ↔ n = m * 2 ^ (e - emin) * d) →
  e <= fexp prec emax (Zdigits2 m + e) →
  ∃ mrs E, shr_fexp prec emax m e l = (mrs, E) ∧ E = fexp prec emax (Zdigits2 m + e) ∧
    let M := shr_m mrs in
    0 <= M < 2 ^ prec ∧ (E = emin ∨ 2 ^ (prec - 1) <= M) ∧ emin <= E ∧
    M * 2 ^ (E - emin) * d <= n < (M + 1) * 2 ^ (E - emin) * d ∧
    (loc_exact (loc_of_shr_record mrs) = true ↔ n = M * 2 ^ (E - emin) * d).
Proof.
  intros Hm He Hd Hn Hl Hfe. unfold shr_fexp.
  set (E := fexp prec emax (Zdigits2 m + e)) in *. set (k := E - e).
  destruct (shr_spec m e l k Hm ltac:(lia)) as (mrs & -> & Hq & Hex).
  exists mrs, E. split; [f_equal; lia|]. split; [done|]. cbv zeta. rewrite Hq.
  assert (HE : E = Z.max (Zdigits2 m + e - prec) emin) by done.
  pose proof (pow2_pos k ltac:(lia)) as Hk. pose proof (pow2_pos (e - emin) ltac:(lia)) as Hu.
  pose proof (Z.div_mod m (2 ^ k) ltac:(lia)) as Hdm.
  pose proof (Z.mod_pos_bound m (2 ^ k) ltac:(lia)) as Hmod.
  set (M := m `div` 2 ^ k) in *. set (rem := m mod 2 ^ k) in *.
  assert (HM0 : 0 <= M) by (apply Z.div_pos; lia).
  assert (HEu : 2 ^ (E - emin) = 2 ^ k * 2 ^ (e - emin)).
  { rewrite <-Z.pow_add_r by lia. f_equal. lia. }
  set (w := 2 ^ (e - emin) * d) in *.
  assert (Hw : 0 < w) by (unfold w; nia).
  assert (Hn' : m * w <= n < (m + 1) * w) by (unfold w; rewrite !Z.mul_assoc; done).
  assert (Hl' : loc_exact l = true ↔ n = m * w) by (unfold w; rewrite !Z.mul_assoc; done).
  rewrite HEu.
  replace (M * (2 ^ k * 2 ^ (e - emin)) * d) with (2 ^ k * M * w) by (unfold w; ring).
  replace ((M + 1) * (2 ^ k * 2 ^ (e - emin)) * d) with (2 ^ k * (M + 1) * w) by (unfold w; ring).
  split; [split; [done|]|split; [|split; [lia|split]]].
  - destruct (Zdigits2_cases m Hm) as [[-> _]|[Hpos Hdg]].
    + unfold M. rewrite Z.div_0_l by lia. apply pow2_pos. lia.
    + apply Z.div_lt_upper_bound; [lia|]. rewrite <-Z.pow_add_r by lia.
      destruct (digits_bounds m Hpos) as (_ & _ & Hhi).
      eapply Z.lt_le_trans; [done|]. apply Z.pow_le_mono_r; lia.
  - destruct (decide (E = emin)) as [|Hne]; [by left|right].
    destruct (Zdigits2_cases m Hm) as [[_ Hz]|[Hpos Hdg]]; [lia|].
    destruct (digits_bounds m Hpos) as (_ & Hlo & _).
    apply Z.div_le_lower_bound; [lia|]. rewrite <-Z.pow_add_r by lia.
    replace (k + (prec - 1)) with (digits m - 1) by lia. done.
  - assert (2 ^ k * M <= m < 2 ^ k * (M + 1)) by lia. split; nia.
  - rewrite Hex, Hl'. split.
    + intros [-> Hdiv%Z.mod_divide]; [|lia]. fold rem in Hdiv. rewrite Hdm, Hdiv. ring.
    + intros ->. assert (rem = 0) as Hr by nia.
      split; [rewrite Hdm, Hr; ring|]. apply Z.mod_divide; [lia|done].
Qed.

(** Rounding the candidate to [r] at the same exponent is faithful. *)
Lemma candidate_rounds M E n d r :
  0 < d → 0 <= M < 2 ^ prec → E = emin ∨ 2 ^ (prec - 1) <= M → emin <= E →
  M * 2 ^ (E - emin) * d <= n < (M + 1) * 2 ^ (E - emin) * d →
  (r = M ∨ r = M + 1 ∧ n ≠ M * 2 ^ (E - emin) * d) →
  rounds n d (r * 2 ^ (E - emin)).
Proof.
  intros Hd HM Hnorm HE Hn Hr. set (u := 2 ^ (E - emin)) in *.
  assert (Hu : 0 < u) by (apply pow2_pos; lia).
  assert (HP : 2 ^ prec = 2 * 2 ^ (prec - 1)).
  { rewrite <-Z.pow_succ_r by lia. f_equal. lia. }
  assert (Hmult : ∀ R, repr R → (∃ c, R = c * u) ∨ R < 2 ^ (prec - 1) * u ∧ 2 ^ (prec - 1) <= M).
  { intros R (c & k & Hc & Hk & ->). destruct (decide (E - emin <= k)).
    - left. exists (c * 2 ^ (k - (E - emin))). rewrite <-Z.mul_assoc. unfold u.
      rewrite <-Z.pow_add_r by lia. do 2 f_equal. lia.
    - right. split; [|destruct Hnorm; lia].
      assert (u = 2 ^ (E - emin - k - 1) * 2 * 2 ^ k) as ->.
      { unfold u. transitivity (2 ^ ((E - emin - k - 1) + 1 + k)); [f_equal; lia|].
        by rewrite !Z.pow_add_r by lia. }
      pose proof (pow2_pos (E - emin - k - 1) ltac:(lia)). pose proof (pow2_pos k Hk). nia. }
  split; [|split].
  - destruct (decide (r = 2 ^ prec)) as [->|].
    + exists 1, (prec + (E - emin)). pose proof (Z.pow_gt_1 2 prec).
      split; [lia|]. split; [lia|]. unfold u. rewrite Z.pow_add_r by lia. ring.
    + exists r, (E - emin). split; [lia|]. split; [lia|done].
  - intros R HR HnR. destruct (Hmult R HR) as [[c ->]|[Hlt Hge]].
    + assert (M <= c) by (apply (Z.mul_le_mono_pos_r _ _ (u * d)); lia).
      destruct Hr as [->|[-> Hne]]; [apply Z.mul_le_mono_nonneg_r; lia|].
      assert (c ≠ M) by (intros ->; lia). apply Z.mul_le_mono_nonneg_r; lia.
    + assert (R * d < M * u * d); [|lia]. apply Z.mul_lt_mono_pos_r; [done|].
      eapply Z.lt_le_trans; [done|]. apply Z.mul_le_mono_nonneg_r; lia.
  - intros R HR HRn.
    assert (M * u <= r * u) by (apply Z.mul_le_mono_nonneg_r; lia).
    destruct (Hmult R HR) as [[c ->]|[Hlt Hge]].
    + assert (c < M + 1) by (apply (Z.mul_lt_mono_pos_r (u * d)); lia).
      etransitivity; [|done]. apply Z.mul_le_mono_nonneg_r; lia.
    + assert (2 ^ (prec - 1) * u <= M * u) by (apply Z.mul_le_mono_nonneg_r; lia). lia.
Qed.

(** The second shift, after the mantissa was rounded to [r]. *)
Lemma second_shift sx r E :
  0 <= r <= 2 ^ prec → E = emin ∨ 2 ^ (prec - 1) <= r → emin <= E → E + prec < emax →
  let '(mrs, E') := shr_fexp prec emax r E loc_Exact in
  units sx (match shr_m mrs with
            | Z0 => S754_zero sx
            | Zpos m => if E' <=? emax - prec then S754_finite sx m E' else S754_infinity sx
            | _ => S754_nan
            end) (r * 2 ^ (E - emin)).
Proof.
  intros Hr Hnorm HE Hover.
  assert (HP : 2 ^ prec = 2 ^ (prec - 1) * 2).
  { rewrite Z.mul_comm, <-Z.pow_succ_r by lia. f_equal. lia. }
  pose proof (pow2_pos (prec - 1) ltac:(lia)).
  destruct (decide (r = 2 ^ prec)) as [->|Hne].
  - assert (digits (2 ^ prec) = prec + 1) as Hd by (unfold digits; rewrite Z.log2_pow2; lia).
    unfold shr_fexp. rewrite Zdigits2_digits, Hd by lia.
    unfold fexp. replace (Z.max (prec + 1 + E - prec) emin - E) with 1 by lia.
    cbn [shr iter_pos shr_record_of_loc]. rewrite HP, shr_1_even by lia. cbn [shr_m].
    destruct (2 ^ (prec - 1)) as [|p|p] eqn:Ep; [lia| |lia].
    destruct (Z.leb_spec (E + 1) (emax - prec)); [|lia].
    cbn [units]. split; [done|]. split; [lia|]. split; [lia|].
    replace (E + 1 - emin) with (E - emin + 1) by lia. rewrite Z.pow_add_r by lia. ring.
  - assert (fexp prec emax (Zdigits2 r + E) = E) as Hfe.
    { unfold fexp. destruct (Zdigits2_cases r) as [[-> Hz]|[Hpos Hd]]; [lia|lia|].
      rewrite Hd. pose proof (digits_le r prec ltac:(lia) ltac:(lia)).
      destruct Hnorm as [|Hn]; [lia|]. rewrite (digits_unique r prec); lia. }
    unfold shr_fexp. rewrite Hfe, Z.sub_diag. cbn [shr shr_record_of_loc shr_m].
    destruct r as [|p|p]; [done| |lia].
    destruct (Z.leb_spec E (emax - prec)); [|lia]. cbn [units]. split; [done|lia].
Qed.

(** Rounding a mantissa with a location is faithful. *)
Lemma round_aux_rounds sx m e l n d :
  0 <= m → emin <= e → 0 < d →
  m * 2 ^ (e - emin) * d <= n < (m + 1) * 2 ^ (e - emin) * d →
  (loc_exact l = true ↔ n = m * 2 ^ (e - emin) * d) →
  e <= fexp prec emax (Zdigits2 m + e) → Zdigits2 m + e < emax →
  ∃ r, units sx (binary_round_aux prec emax sx m e l) r ∧ rounds n d r.
Proof.
  intros Hm He Hd Hn Hl Hfe Hover.
  destruct (first_shift m e l n d Hm He Hd Hn Hl Hfe)
    as (mrs & E & Hshift & HE & HM & Hnorm & HEmin & Hn' & Hex).
  unfold binary_round_aux. rewrite Hshift. set (M := shr_m mrs) in *.
  set (r := round_nearest_even M (loc_of_shr_record mrs)).
  assert (Hr : r = M ∨ r = M + 1 ∧ n ≠ M * 2 ^ (E - emin) * d).
  { unfold r. destruct (loc_of_shr_record mrs) as [|c] eqn:El; [by left|].
    assert (n ≠ M * 2 ^ (E - emin) * d) by (intros Heq; by apply Hex in Heq).
    destruct c; simpl; [destruct (Z.even M)| |]; auto. }
  exists (r * 2 ^ (E - emin)). split.
  - pose proof (second_shift sx r E) as H2.
    destruct (shr_fexp prec emax r E loc_Exact) as [mrs' E'].
    apply H2; [lia|lia|done|]. unfold fexp, SpecFloat.emin in *. lia.
  - by eapply candidate_rounds.
Qed.

(** No overflow: a magnitude below half the largest power of two. *)
Definition small (r : Z) : Prop := r < 2 ^ (emax - 1 - emin).

Lemma small_digits m e :
  0 < m → emin <= e → small (m * 2 ^ (e - emin)) → digits m + e < emax.
Proof.
  intros Hm He Hs. unfold small in Hs. pose proof (pow2_pos (e - emin) ltac:(lia)).
  assert (digits (m * 2 ^ (e - emin)) <= emax - 1 - emin) as Hd.
  { apply digits_le; [nia|]. unfold SpecFloat.emin. lia. }
  rewrite digits_shift in Hd by lia. lia.
Qed.

Lemma shl_align_snd m e ez : snd (shl_align m e ez) = Z.min e ez.
Proof. unfold shl_align. destruct (ez - e) eqn:E; cbn [snd]; lia. Qed.

(** Rounding an integer mantissa. *)
Lemma round_rounds sx m e :
  emin <= e → small (Zpos m * 2 ^ (e - emin)) →
  ∃ r, units sx (binary_round prec emax sx m e) r ∧ rounds (Zpos m * 2 ^ (e - emin)) 1 r.
Proof.
  intros He Hs. apply small_digits in Hs; [|lia..]. unfold binary_round.
  rewrite digits2_pos_digits. set (ef := fexp prec emax (digits (Zpos m) + e)).
  assert (Hef : ef = Z.max (digits (Zpos m) + e - prec) emin) by done.
  pose proof (shl_align_snd m e ef) as Hsnd.
  assert (Hfst : Zpos (fst (shl_align m e ef)) = Zpos m * 2 ^ (e - Z.min e ef)).
  { destruct (Z.leb_spec ef e) as [Hle|Hgt].
    - rewrite Z.min_r by done. by apply shl_align_fst.
    - rewrite Z.min_l by lia. rewrite Z.sub_diag, Z.mul_1_r.
      unfold shl_align. destruct (ef - e) eqn:E; [lia|done|lia]. }
  destruct (shl_align m e ef) as [mz ez]. cbn [fst snd] in *. subst ez.
  set (ez := Z.min e ef) in *.
  assert (Hd : digits (Zpos mz) + ez = digits (Zpos m) + e).
  { rewrite Hfst, digits_shift by lia. lia. }
  assert (Hval : Zpos mz * 2 ^ (ez - emin) = Zpos m * 2 ^ (e - emin)).
  { rewrite Hfst, <-Z.mul_assoc, <-Z.pow_add_r by lia. do 2 f_equal. lia. }
  rewrite <-Hval.
  pose proof (pow2_pos (ez - emin) ltac:(lia)) as Hu.
  assert (Hdz : Zdigits2 (Zpos mz) + ez = digits (Zpos m) + e)
    by (rewrite Zdigits2_digits by lia; done).
  apply (round_aux_rounds sx (Zpos mz) ez loc_Exact _ 1); [lia|lia|lia|nia| | |].
  - by rewrite Z.mul_1_r.
  - rewrite Hdz. fold ef. lia.
  - rewrite Hdz. done.
Qed.

Lemma normalize_rounds m e :
  0 < m → emin <= e → small (m * 2 ^ (e - emin)) →
  ∃ r, units false (binary_normalize prec emax m e false) r ∧ rounds (m * 2 ^ (e - emin)) 1 r.
Proof. intros Hm He Hs. destruct m as [|m|m]; [lia| |lia]. by apply round_rounds. Qed.

(** The mantissas of two floats aligned to the smaller exponent. *)
Lemma align_units m e ez :
  emin <= ez <= e →
  Zpos (fst (shl_align m e ez)) * 2 ^ (ez - emin) = Zpos m * 2 ^ (e - emin).
Proof.
  intros He. rewrite shl_align_fst by lia. rewrite <-Z.mul_assoc, <-Z.pow_add_r by lia.
  do 2 f_equal. lia.
Qed.

Lemma fadd_rounds x y r1 r2 :
  units false x r1 → units false y r2 → small (r1 + r2) →
  ∃ r, units false (fadd f x y) r ∧ rounds (r1 + r2) 1 r.
Proof.
  intros Hx Hy Hs. pose proof (units_repr _ _ _ Hx) as Rx. pose proof (units_repr _ _ _ Hy) as Ry.
  destruct x as [s1| | |s1 m1 e1], y as [s2| | |s2 m2 e2]; try done.
  - destruct Hx as [-> ->], Hy as [-> ->]. exists 0. split; [done|by apply rounds_exact].
  - destruct Hx as [-> ->]. exists r2. split; [done|]. by apply rounds_exact.
  - destruct Hy as [-> ->]. rewrite Z.add_0_r. exists r1. split; [done|]. by apply rounds_exact.
  - destruct Hx as (-> & H1 & He1 & ->), Hy as (-> & H2 & He2 & ->).
    unfold fadd, SFadd. cbv zeta. set (ez := Z.min e1 e2). cbn [cond_Zopp].
    rewrite <-(align_units m1 e1 ez), <-(align_units m2 e2 ez), <-Z.mul_add_distr_r in Hs |- * by lia.
    apply normalize_rounds; [lia|lia|done].
Qed.

(** The difference of two positive floats, as both subtractions compute it. *)
Lemma sub_rounds m1 e1 m2 e2 :
  emin <= e1 → emin <= e2 →
  let r1 := Zpos m1 * 2 ^ (e1 - emin) in
  let r2 := Zpos m2 * 2 ^ (e2 - emin) in
  small (Z.abs (r1 - r2)) →
  let ez := Z.min e1 e2 in
  let x := binary_normalize prec emax
    (Zpos (fst (shl_align m1 e1 ez)) - Zpos (fst (shl_align m2 e2 ez))) ez false in
  ∃ r, units (r1 <? r2) x r ∧ rounds (Z.abs (r1 - r2)) 1 r.
Proof.
  intros He1 He2 r1 r2 Hs ez x. unfold x.
  set (a := Zpos (fst (shl_align m1 e1 ez))). set (b := Zpos (fst (shl_align m2 e2 ez))).
  assert (H1 : r1 = a * 2 ^ (ez - emin)) by (symmetry; apply align_units; lia).
  assert (H2 : r2 = b * 2 ^ (ez - emin)) by (symmetry; apply align_units; lia).
  pose proof (pow2_pos (ez - emin) ltac:(lia)) as Hu.
  rewrite H1, H2, <-Z.mul_sub_distr_r, Z.abs_mul, (Z.abs_eq (2 ^ _)) in Hs |- * by lia.
  assert ((a * 2 ^ (ez - emin) <? b * 2 ^ (ez - emin)) = (a <? b)) as ->.
  { destruct (Z.ltb_spec a b); [apply Z.ltb_lt|apply Z.ltb_ge]; nia. }
  destruct (a - b) as [|m|m] eqn:Eab.
  - exists 0. destruct (Z.ltb_spec a b); [lia|]. split; [done|].
    apply rounds_exact. exists 0, 0. pose proof (pow2_pos prec). lia.
  - destruct (Z.ltb_spec a b); [lia|]. by apply round_rounds; [lia|].
  - destruct (Z.ltb_spec a b); [|lia]. by apply round_rounds; [lia|].
Qed.

Lemma fsub_rounds x y r1 r2 :
  units false x r1 → units false y r2 → small (Z.abs (r1 - r2)) →
  ∃ r, units (r1 <? r2) (fsub f x y) r ∧ rounds (Z.abs (r1 - r2)) 1 r.
Proof.
  intros Hx Hy Hs. pose proof (units_repr _ _ _ Hx) as Rx. pose proof (units_repr _ _ _ Hy) as Ry.
  pose proof (repr_nonneg _ Rx). pose proof (repr_nonneg _ Ry).
  destruct x as [s1| | |s1 m1 e1], y as [s2| | |s2 m2 e2]; try done.
  - destruct Hx as [-> ->], Hy as [-> ->]. exists 0. split; [done|by apply rounds_exact].
  - destruct Hx as [-> ->], Hy as (-> & H2 & He2 & ->).
    pose proof (pow2_pos (e2 - emin) ltac:(lia)).
    exists (Zpos m2 * 2 ^ (e2 - emin)). rewrite Z.sub_0_l, Z.abs_opp, Z.abs_eq by lia.
    split; [|by apply rounds_exact]. destruct (Z.ltb_spec 0 (Zpos m2 * 2 ^ (e2 - emin))); [|nia].
    simpl. done.
  - destruct Hy as [-> ->]. rewrite Z.sub_0_r, Z.abs_eq by lia. exists r1.
    destruct (Z.ltb_spec r1 0); [lia|]. split; [done|]. by apply rounds_exact.
  - destruct Hx as (-> & H1 & He1 & ->), Hy as (-> & H2 & He2 & ->).
    unfold fsub, SFsub. cbv zeta. cbn [cond_Zopp]. by apply sub_rounds.
Qed.

(** Adding a negative float of smaller magnitude. *)
Lemma fadd_neg_rounds x y r1 r2 :
  units false x r1 → units true y r2 → r2 <= r1 → small r1 →
  ∃ r, units false (fadd f x y) r ∧ rounds (r1 - r2) 1 r.
Proof.
  intros Hx Hy Hle Hs. pose proof (units_repr _ _ _ Hx) as Rx. pose proof (units_repr _ _ _ Hy) as Ry.
  pose proof (repr_nonneg _ Rx). pose proof (repr_nonneg _ Ry).
  destruct x as [s1| | |s1 m1 e1], y as [s2| | |s2 m2 e2]; try done.
  - destruct Hx as [-> ->], Hy as [-> ->]. exists 0. split; [done|by apply rounds_exact].
  - destruct Hx as [-> ->], Hy as (-> & H2 & He2 & ->).
    pose proof (pow2_pos (e2 - emin) ltac:(lia)). nia.
  - destruct Hy as [-> ->]. rewrite Z.sub_0_r. exists r1. split; [done|]. by apply rounds_exact.
  - destruct Hx as (-> & H1 & He1 & ->), Hy as (-> & H2 & He2 & ->).
    unfold fadd, SFadd. cbv zeta. cbn [cond_Zopp].
    destruct (sub_rounds m1 e1 m2 e2 He1 He2) as (r & Hr & Hround).
    { unfold small in *. lia. }
    exists r. rewrite Z.abs_eq in Hround by lia. split; [|done].
    destruct (Z.ltb_spec (Zpos m1 * 2 ^ (e1 - emin)) (Zpos m2 * 2 ^ (e2 - emin))); [lia|done].
Qed.

Lemma new_location_exact d r : 0 < d → 0 <= r →
  loc_exact (new_location d r) = true ↔ r = 0.
Proof.
  intros Hd Hr. unfold new_location, new_location_even, new_location_odd.
  destruct (Z.even d); destruct (Z.eqb_spec r 0); split; try done; lia.
Qed.

(** The exponents of a division by an integer that leaves a spare digit. *)
Lemma div_exponents m1 e1 k :
  0 < m1 < 2 ^ prec → emin <= e1 → 0 < k < 2 ^ (prec - 1) →
  let y := prec - digits k in
  let e' := Z.min (fexp prec emax (digits m1 + e1 - (prec + - y))) (e1 - - y) in
  let s := e1 - - y - e' in
  emin <= e' ∧ 0 <= s ∧
  (let q := (m1 * 2 ^ s) `div` (k * 2 ^ y) in
   e' <= fexp prec emax (Zdigits2 q + e') ∧ Zdigits2 q + e' <= digits m1 + e1).
Proof.
  intros Hm He Hk y e' s.
  assert (Hdk : 1 <= digits k <= prec - 1).
  { split; [apply digits_bounds; lia|]. apply digits_le; lia. }
  assert (Hdm : 1 <= digits m1 <= prec) by (apply digits_fits; done).
  set (X := digits m1 + e1 - (prec + - y)) in *.
  assert (HX : X = digits m1 + e1 - prec + y) by (unfold X; lia).
  assert (Hy : 1 <= y) by (unfold y; lia).
  assert (HeX : e' = Z.max (X - prec) emin) by (unfold e'; rewrite fexp_eq; lia).
  assert (Hs : 0 <= s) by lia.
  split; [lia|]. split; [done|]. intros q.
  assert (Hmant : 2 ^ (prec - 1) <= k * 2 ^ y < 2 ^ prec).
  { apply dyadic_mantissa; [done|]. split; [lia|].
    eapply Z.lt_trans; [apply Hk|]. apply Z.pow_lt_mono_r; lia. }
  pose proof (pow2_pos (prec - 1) ltac:(lia)). pose proof (pow2_pos s Hs).
  assert (Hms : 0 < m1 * 2 ^ s) by nia.
  assert (Hdms : digits (m1 * 2 ^ s) = digits m1 + s) by (apply digits_shift; lia).
  destruct (digits_bounds (m1 * 2 ^ s) Hms) as (_ & Hlo & Hhi). rewrite Hdms in Hlo, Hhi.
  assert (Hq0 : 0 <= q) by (apply Z.div_pos; lia).
  assert (Hup : q < 2 ^ Z.max 0 (digits m1 + s - (prec - 1))).
  { apply Z.div_lt_upper_bound; [lia|]. eapply Z.lt_le_trans; [apply Hhi|].
    transitivity (2 ^ (prec - 1) * 2 ^ Z.max 0 (digits m1 + s - (prec - 1))).
    - rewrite <-Z.pow_add_r by lia. apply Z.pow_le_mono_r; lia.
    - apply Z.mul_le_mono_nonneg_r; [|lia]. apply Z.pow_nonneg. lia. }
  assert (Hlow : X - prec < e' ∨ 2 ^ (prec - 1) <= q).
  { destruct (decide (X - prec < e')) as [|]; [by left|right].
    apply Z.div_le_lower_bound; [lia|].
    assert (digits m1 + s = prec + prec) as Hsum by lia.
    transitivity (2 ^ prec * 2 ^ (prec - 1)); [apply Z.mul_le_mono_nonneg_r; lia|].
    rewrite <-Z.pow_add_r by lia. replace (prec + (prec - 1)) with (digits m1 + s - 1) by lia. done. }
  destruct (Zdigits2_cases q Hq0) as [[Hz ->]|[Hpos ->]].
  - split; [rewrite fexp_eq; destruct Hlow; lia|]. lia.
  - assert (digits q <= Z.max 0 (digits m1 + s - (prec - 1))) by (apply digits_le; lia).
    assert (1 <= digits q) by (apply digits_bounds; lia).
    split; [|lia]. rewrite fexp_eq. destruct Hlow as [|Hlow]; [lia|].
    destruct (digits_bounds q Hpos) as (? & _ & Hqhi).
    assert (prec - 1 < digits q); [|lia].
    apply (Z.pow_lt_mono_r_iff 2); lia.
Qed.

Lemma fdiv_rounds s x r k :
  units s x r → small r → 0 < k < 2 ^ (prec - 1) →
  ∃ q, units s (fdiv f x (dyadic f k 0)) q ∧ rounds r k q.
Proof.
  intros Hx Hs Hk.
  assert (Hk' : 0 < k < 2 ^ prec).
  { split; [lia|]. eapply Z.lt_trans; [apply Hk|]. apply Z.pow_lt_mono_r; lia. }
  destruct (digits_fits f k Hk').
  rewrite (dyadic_pos f k) by lia. destruct x as [s1| | |s1 m1 e1]; try done.
  - destruct Hx as [-> ->]. exists 0. simpl. rewrite xorb_false_r. split; [done|].
    assert (repr 0) by (exists 0, 0; pose proof (pow2_pos prec); lia).
    split; [done|]. split; [|intros; nia]. intros R HR _. by apply repr_nonneg.
  - destruct Hx as (-> & H1 & He1 & ->). apply small_digits in Hs; [|lia..].
    pose proof (div_exponents (Zpos m1) e1 k ltac:(lia) He1 Hk) as Hexp. cbv zeta in Hexp.
    unfold fdiv, SFdiv, SFdiv_core_binary. rewrite xorb_false_r.
    pose proof (dyadic_mantissa f k Hk').
    set (y := prec - digits k) in *. pose proof (pow2_pos y ltac:(lia)) as Hy.
    assert (Hmd : digits (k * 2 ^ y) = prec) by by apply digits_mantissa.
    rewrite Z2Pos.id, !Zdigits2_digits, Hmd, !Z.sub_0_l by nia.
    set (e' := Z.min _ _) in *. set (sh := e1 - - y - e') in *.
    destruct Hexp as (He' & Hsh & Hfe & Hov). rewrite scale_mantissa by done.
    pose proof (Z.div_mod (Zpos m1 * 2 ^ sh) (k * 2 ^ y) ltac:(nia)) as Hdm.
    pose proof (Z.mod_pos_bound (Zpos m1 * 2 ^ sh) (k * 2 ^ y) ltac:(nia)) as Hmod.
    pose proof (Z.div_pos (Zpos m1 * 2 ^ sh) (k * 2 ^ y)) as Hqpos.
    pose proof (pow2_pos sh Hsh).
    unfold Z.div, Z.modulo in *.
    destruct (Z.div_eucl (Zpos m1 * 2 ^ sh) (k * 2 ^ y)) as [q rem].
    pose proof (pow2_pos (e' - emin) ltac:(lia)) as Hu.
    assert (Hval : Zpos m1 * 2 ^ (e1 - emin) * 2 ^ y =
      (q * 2 ^ (e' - emin) * k) * 2 ^ y + rem * 2 ^ (e' - emin)).
    { transitivity (Zpos m1 * 2 ^ sh * 2 ^ (e' - emin)); [|rewrite Hdm; ring].
      rewrite <-!Z.mul_assoc, <-!Z.pow_add_r by lia. do 2 f_equal. lia. }
    apply round_aux_rounds; [apply Hqpos; nia|done|lia| | |done|lia].
    + split; [nia|].
      apply (Z.mul_lt_mono_pos_r (2 ^ y)); [done|]. rewrite Hval.
      assert (rem * 2 ^ (e' - emin) < k * 2 ^ y * 2 ^ (e' - emin))
        by (apply Z.mul_lt_mono_pos_r; lia). nia.
    + rewrite new_location_exact by nia. split.
      * intros ->. apply (Z.mul_reg_r _ _ (2 ^ y)); [lia|]. rewrite Hval. ring.
      * intros Heq. rewrite Heq in Hval. nia.
Qed.
End rounding.
