(* ===== verification/Accuracy.v ===== *)
(** * Accuracy: relative error of floating-point expressions

    Two further calculi over Floats and Rounding.  [signed f c k] is the float
    of value [c * 2^k] for an integer [c] of either sign: sums and differences
    that fit the mantissa are exact.  [value x] is the rational a finite float
    stands for, and [within eps x y] says that [x] is [y] up to a relative error
    of [eps]: products, quotients by integers, square roots and conversions are
    within the unit of the format of what they round, and errors compose. *)

From S2P Require Import Prelude Platform Floats Rounding.
From Stdlib Require Import QArith Qabs Qpower Lqa.

#[global] Open Scope Z_scope.

(** ** Signed exact results *)
Section signed.
Context (f : format) {Hf : IEEE f}.
#[local] Set Default Proof Using "Type*".
#[local] Notation prec := (f_prec f).
#[local] Notation emax := (f_emax f).

Definition signed (c k : Z) : spec_float :=
  if c <? 0 then SFopp (dyadic f (- c) k) else dyadic f c k.

Lemma signed_nonneg c k : 0 <= c → signed c k = dyadic f c k.
Proof. unfold signed. by destruct (Z.ltb_spec c 0); [lia|]. Qed.

Lemma signed_finite c k : c ≠ 0 →
  signed c k = S754_finite (c <? 0) (Z.to_pos (Z.abs c * 2 ^ (prec - digits (Z.abs c))))
                 (k - (prec - digits (Z.abs c))).
Proof.
  intros Hc. unfold signed. destruct (Z.ltb_spec c 0).
  - rewrite Z.abs_neq, (dyadic_pos f) by lia. done.
  - rewrite Z.abs_eq, (dyadic_pos f) by lia. done.
Qed.

Lemma binary_round_opp m e :
  binary_round prec emax true m e = SFopp (binary_round prec emax false m e).
Proof.
  unfold binary_round, binary_round_aux. destruct (shl_align _ _ _) as [mz ez].
  destruct (shr_fexp _ _ _ ez _) as [r1 e1]. destruct (shr_fexp _ _ _ e1 _) as [r2 e2].
  destruct (shr_m r2); [done| |done]. by destruct (_ <=? _).
Qed.

Lemma normalize_signed c k m e n :
  fits f (Z.abs c) k → 0 <= n → m = c * 2 ^ n → e = k - n →
  binary_normalize prec emax m e false = signed c k.
Proof.
  intros Hc Hn -> ->. pose proof (pow2_pos n Hn).
  destruct (Z.lt_trichotomy c 0) as [Hneg|[->|Hpos]]; [|done|].
  - assert (Hd : binary_normalize prec emax (- c * 2 ^ n) (k - n) false = dyadic f (- c) k).
    { rewrite Z.abs_neq in Hc by lia. by apply (normalize_dyadic f (- c) k _ _ n); [lia|..]. }
    unfold signed. destruct (Z.ltb_spec c 0); [|lia]. rewrite <-Hd.
    destruct (c * 2 ^ n) as [|p|p] eqn:Ep; [nia|nia|].
    rewrite Z.mul_opp_l, Ep. apply binary_round_opp.
  - rewrite Z.abs_eq in Hc by lia. rewrite signed_nonneg by lia.
    by apply (normalize_dyadic f c k _ _ n).
Qed.

Lemma cond_opp_abs c n : cond_Zopp (c <? 0) (Z.abs c * n) = c * n.
Proof. unfold cond_Zopp. destruct (Z.ltb_spec c 0); nia. Qed.

Lemma abs_fits c k : c ≠ 0 → fits f (Z.abs c) k → 0 < Z.abs c < 2 ^ prec.
Proof. unfold fits. lia. Qed.

Lemma fadd_signed a b k :
  fits f (Z.abs a) k → fits f (Z.abs b) k → fits f (Z.abs (a + b)) k →
  fadd f (signed a k) (signed b k) = signed (a + b) k.
Proof.
  intros Ha Hb Hab.
  destruct (decide (b = 0)) as [->|Hb0].
  { rewrite Z.add_0_r. destruct (decide (a = 0)) as [->|]; [done|].
    by rewrite (signed_finite a) by done. }
  destruct (decide (a = 0)) as [->|Ha0]; [by rewrite Z.add_0_l, (signed_finite b)|].
  pose proof (abs_fits a k Ha0 Ha) as Ha'. pose proof (abs_fits b k Hb0 Hb) as Hb'.
  rewrite (signed_finite a), (signed_finite b) by done. unfold fadd, SFadd. cbv zeta.
  set (ez := Z.min _ _). rewrite !align_dyadic, !cond_opp_abs by (done || lia).
  apply (normalize_signed _ _ _ _ (k - ez)); [done| |ring|lia].
  pose proof (digits_fits f _ Ha'). lia.
Qed.

Lemma fsub_signed a b k :
  fits f (Z.abs a) k → fits f (Z.abs b) k → fits f (Z.abs (a - b)) k →
  fsub f (signed a k) (signed b k) = signed (a - b) k.
Proof.
  intros Ha Hb Hab.
  destruct (decide (b = 0)) as [->|Hb0].
  { rewrite Z.sub_0_r. destruct (decide (a = 0)) as [->|]; [done|].
    by rewrite (signed_finite a) by done. }
  destruct (decide (a = 0)) as [->|Ha0].
  { rewrite (signed_finite b), Z.sub_0_l, (signed_finite (- b)), Z.abs_opp by lia.
    change (fsub f (signed 0 k)) with (fsub f (S754_zero false)). cbn. f_equal.
    destruct (Z.ltb_spec b 0), (Z.ltb_spec (- b) 0); done || lia. }
  pose proof (abs_fits a k Ha0 Ha) as Ha'. pose proof (abs_fits b k Hb0 Hb) as Hb'.
  rewrite (signed_finite a), (signed_finite b) by done. unfold fsub, SFsub. cbv zeta.
  set (ez := Z.min _ _). rewrite !align_dyadic, !cond_opp_abs by (done || lia).
  apply (normalize_signed _ _ _ _ (k - ez)); [done| |ring|lia].
  pose proof (digits_fits f _ Ha'). lia.
Qed.
End signed.

(** ** Rounding results of any exponent *)
Section rounding.
Context (f : format) {Hf : IEEE f}.
#[local] Set Default Proof Using "Type*".
#[local] Notation prec := (f_prec f).
#[local] Notation emax := (f_emax f).
#[local] Notation emin := (SpecFloat.emin (f_prec f) (f_emax f)).
#[local] Notation units := (units f).
#[local] Notation rounds := (rounds f).
#[local] Notation repr := (repr f).
Let Hprec : 1 < prec := prec_law.
Let Hemax : 2 * prec < emax := emax_law.

(** The number one, in units. *)
Definition one : Z := 2 ^ (- emin).

Lemma emin_eq : emin = 3 - emax - prec.
Proof. done. Qed.

Lemma one_pos : 0 < one.
Proof. apply pow2_pos. rewrite emin_eq. lia. Qed.

Lemma rounds_cross n d n' d' r :
  0 < d → 0 < d' → n * d' = n' * d → rounds n d r → rounds n' d' r.
Proof.
  intros Hd Hd' Heq (Hr & Hup & Hlo). split; [done|]. split; intros R HR HnR.
  - apply Hup; [done|]. apply (Z.mul_le_mono_pos_r _ _ d'); [done|]. rewrite Heq.
    transitivity (R * d' * d); [by apply Z.mul_le_mono_pos_r|]. lia.
  - apply Hlo; [done|]. apply (Z.mul_le_mono_pos_r _ _ d'); [done|]. rewrite Heq.
    transitivity (R * d' * d); [lia|by apply Z.mul_le_mono_pos_r].
Qed.

(** Neighbouring representable values around an integer in the normal range. *)
Lemma bracket q : 2 ^ (prec - 1) <= q →
  ∃ A u, repr A ∧ repr (A + u) ∧ A <= q ∧ q + 1 <= A + u ∧ 0 < u ∧ 2 ^ (prec - 1) * u <= A.
Proof.
  intros Hq. pose proof (pow2_pos (prec - 1) ltac:(lia)) as HP.
  destruct (digits_bounds q ltac:(lia)) as (Hd1 & Hlo & Hhi).
  assert (Hd : prec <= digits q).
  { assert (prec - 1 < digits q); [|lia]. apply (Z.pow_lt_mono_r_iff 2); lia. }
  set (k := digits q - prec). pose proof (pow2_pos k ltac:(lia)) as Hk.
  assert (HP2 : 2 ^ prec = 2 * 2 ^ (prec - 1)).
  { rewrite <-Z.pow_succ_r by lia. f_equal. lia. }
  replace (digits q - 1) with (prec - 1 + k) in Hlo by lia.
  replace (digits q) with (prec + k) in Hhi by lia. rewrite Z.pow_add_r in Hlo, Hhi by lia.
  pose proof (Z.div_mod q (2 ^ k) ltac:(lia)). pose proof (Z.mod_pos_bound q (2 ^ k) Hk).
  set (M := q `div` 2 ^ k) in *.
  assert (HM : 2 ^ (prec - 1) <= M < 2 ^ prec).
  { split; [apply Z.div_le_lower_bound; lia|apply Z.div_lt_upper_bound; lia]. }
  exists (M * 2 ^ k), (2 ^ k). split; [exists M, k; lia|]. split.
  { destruct (decide (M + 1 = 2 ^ prec)) as [E|].
    - replace (M * 2 ^ k + 2 ^ k) with (2 ^ (prec + k)); [apply repr_pow2; [done|lia]|].
      rewrite Z.pow_add_r, <-E by lia. ring.
    - exists (M + 1), k. split; [lia|]. split; [lia|ring]. }
  repeat split; nia.
Qed.

Lemma rounds_near n d r :
  0 < d → 2 ^ (prec - 1) * d <= n → rounds n d r → 2 ^ (prec - 1) * Z.abs (r * d - n) <= n.
Proof.
  intros Hd Hn (_ & Hup & Hlo).
  destruct (bracket (n `div` d)) as (A & u & HA & HAu & H1 & H2 & Hu & Hrel).
  { apply Z.div_le_lower_bound; lia. }
  pose proof (Z.div_mod n d ltac:(lia)). pose proof (Z.mod_pos_bound n d Hd).
  set (q := n `div` d) in *.
  assert (A * d <= n) by nia. assert (n <= (A + u) * d) by nia.
  assert (A <= r) by by apply Hlo. assert (r <= A + u) by by apply Hup.
  assert (Z.abs (r * d - n) <= u * d) by (apply Z.abs_le; nia).
  pose proof (pow2_pos (prec - 1) ltac:(lia)). nia.
Qed.

Lemma shr_split mrs e a b : 0 <= a → 0 <= b →
  shr mrs e (a + b) = shr (shr mrs e a).1 (e + a) b.
Proof.
  intros Ha Hb. destruct a as [|a|a]; [by rewrite Z.add_0_r|..|lia].
  destruct b as [|b|b]; [by rewrite Z.add_0_r|..|lia].
  change (Zpos a + Zpos b) with (Zpos (a + b)). cbn [shr fst].
  rewrite !iter_pos_nat, Pos2Nat.inj_add, Nat.add_comm, Nat.iter_add. f_equal. lia.
Qed.

Lemma record_loc mrs : shr_record_of_loc (shr_m mrs) (loc_of_shr_record mrs) = mrs.
Proof. by destruct mrs as [m [] []]. Qed.

(** A mantissa below the smallest exponent is first shifted to it. *)
Lemma shr_fexp_low m e : 0 < m → e < emin →
  ∃ l, shr_fexp prec emax m e loc_Exact = shr_fexp prec emax (m `div` 2 ^ (emin - e)) emin l ∧
    (loc_exact l = true ↔ (2 ^ (emin - e) | m)) ∧
    Zdigits2 (m `div` 2 ^ (emin - e)) + emin <= Z.max emin (digits m + e).
Proof.
  intros Hm He. set (j := emin - e). pose proof (pow2_pos j ltac:(lia)) as Hj.
  destruct (shr_spec m e loc_Exact j ltac:(lia) ltac:(lia)) as (mrs & Hshr & Hq & Hex).
  exists (loc_of_shr_record mrs).
  assert (Hm' : 0 <= m `div` 2 ^ j) by (apply Z.div_pos; lia).
  assert (Hdig : fexp prec emax (Zdigits2 (m `div` 2 ^ j) + emin) = fexp prec emax (Zdigits2 m + e) ∧
    Zdigits2 (m `div` 2 ^ j) + emin <= Z.max emin (digits m + e)).
  { rewrite (Zdigits2_digits m Hm), !(fexp_eq f).
    destruct (Zdigits2_cases _ Hm') as [[Hz ->]|[Hpos ->]].
    - assert (m < 2 ^ j) by (apply Z.div_small_iff in Hz; lia).
      pose proof (digits_le m j ltac:(lia) ltac:(lia)). lia.
    - assert (digits m = digits (m `div` 2 ^ j) + j); [|lia].
      unfold digits in *. rewrite <-Z.shiftr_div_pow2 by lia. rewrite Z.log2_shiftr by lia.
      assert (j <= Z.log2 m); [|lia]. apply Z.log2_le_pow2; [lia|].
      pose proof (Z.mul_div_le m (2 ^ j) Hj). nia. }
  destruct Hdig as [Hdig Hle]. split; [|split; [rewrite Hex; simpl; tauto|done]].
  unfold shr_fexp. rewrite Hdig, <-Hq, record_loc.
  set (F := fexp prec emax (Zdigits2 m + e)). assert (emin <= F) by (unfold F; rewrite (fexp_eq f); lia).
  replace (F - e) with (j + (F - emin)) by lia. rewrite shr_split, Hshr by lia. cbn [fst].
  f_equal. lia.
Qed.

(** Rounding any mantissa at any exponent, short of an overflow. *)
Lemma round_aux_wide sx m e :
  0 < m → digits m + e < emax → e <= emax - prec →
  ∃ r, units sx (binary_round_aux prec emax sx m e loc_Exact) r ∧
    rounds (m * 2 ^ Z.max 0 (e - emin)) (2 ^ Z.max 0 (emin - e)) r.
Proof.
  intros Hm Hov He. destruct (Z.leb_spec emin e) as [Hle|Hlt].
  - rewrite (Z.max_r 0 (e - emin)), (Z.max_l 0 (emin - e)) by lia. change (2 ^ 0) with 1.
    destruct (Z.leb_spec e (fexp prec emax (Zdigits2 m + e))) as [Hfe|Hfe].
    + pose proof (pow2_pos (e - emin) ltac:(lia)).
      apply (round_aux_rounds f sx m e loc_Exact); try done; try lia.
      * by rewrite Z.mul_1_r.
      * by rewrite Zdigits2_digits.
    + (* the mantissa is short, and the value exact *)
      assert (Hshr : ∀ r, shr_fexp prec emax m e loc_Exact = r → r = (shr_record_of_loc m loc_Exact, e)).
      { intros r <-. unfold shr_fexp. by destruct (_ - e) eqn:E; [done|lia|]. }
      unfold binary_round_aux. rewrite (Hshr _ eq_refl). cbn [shr_m shr_record_of_loc loc_of_shr_record
        round_nearest_even]. rewrite (Hshr _ eq_refl). cbn [shr_m shr_record_of_loc].
      rewrite (Zdigits2_digits m Hm), (fexp_eq f) in Hfe.
      destruct m as [|p|p]; [lia| |lia]. destruct (Z.leb_spec e (emax - prec)); [|lia].
      destruct (digits_bounds (Zpos p) Hm) as (_ & _ & Hp).
      assert (Zpos p < 2 ^ prec).
      { eapply Z.lt_le_trans; [apply Hp|]. apply Z.pow_le_mono_r; lia. }
      exists (Zpos p * 2 ^ (e - emin)). split; [done|]. apply (rounds_exact f).
      exists (Zpos p), (e - emin). lia.
  - rewrite (Z.max_l 0 (e - emin)), (Z.max_r 0 (emin - e)), Z.mul_1_r by lia.
    destruct (shr_fexp_low m e Hm Hlt) as (l & Hl & Hex & Hdg).
    unfold binary_round_aux. rewrite Hl. fold (binary_round_aux prec emax sx (m `div` 2 ^ (emin - e)) emin l).
    pose proof (pow2_pos (emin - e) ltac:(lia)) as Hj.
    pose proof (Z.div_mod m (2 ^ (emin - e)) ltac:(lia)).
    pose proof (Z.mod_pos_bound m (2 ^ (emin - e)) Hj).
    assert (0 <= m `div` 2 ^ (emin - e)) by (apply Z.div_pos; lia).
    apply (round_aux_rounds f); try lia.
    + rewrite Z.sub_diag. change (2 ^ 0) with 1. lia.
    + rewrite Z.sub_diag, Hex. change (2 ^ 0) with 1. rewrite Z.mul_1_r. split.
      * intros [q Hq]. rewrite Hq at 2. rewrite Z.div_mul by lia. done.
      * intros Heq. by exists (m `div` 2 ^ (emin - e)).
    + rewrite (fexp_eq f). lia.
    + rewrite emin_eq in *. lia.
Qed.

Lemma round_wide sx m e :
  digits (Zpos m) + e < emax →
  ∃ r, units sx (binary_round prec emax sx m e) r ∧
    rounds (Zpos m * 2 ^ Z.max 0 (e - emin)) (2 ^ Z.max 0 (emin - e)) r.
Proof.
  intros Hov. destruct (Z.leb_spec emin e) as [Hle|Hlt].
  - rewrite (Z.max_r 0 (e - emin)), (Z.max_l 0 (emin - e)) by lia. apply (round_rounds f); [done|].
    unfold small. destruct (digits_bounds (Zpos m) ltac:(lia)) as (_ & _ & Hm).
    replace (emax - 1 - emin) with (emax - 1 - e + (e - emin)) by lia.
    destruct (digits_bounds (Zpos m) ltac:(lia)) as (Hd & _).
    rewrite emin_eq in *.
    assert (0 <= emax - 1 - e) by lia. rewrite Z.pow_add_r by lia.
    apply Z.mul_lt_mono_pos_r; [apply pow2_pos; lia|]. eapply Z.lt_le_trans; [apply Hm|].
    apply Z.pow_le_mono_r; lia.
  - unfold binary_round. rewrite digits2_pos_digits.
    set (F := fexp prec emax (digits (Zpos m) + e)).
    assert (emin <= F) by (unfold F; rewrite (fexp_eq f); lia).
    assert (shl_align m e F = (m, e)) as ->.
    { unfold shl_align. by destruct (F - e) eqn:E; [done|done|lia]. }
    apply round_aux_wide; [lia|done|]. rewrite emin_eq in *. lia.
Qed.
End rounding.

(** ** Products, conversions and square roots *)

(** The integer square root has half the digits. *)
Lemma sqrt_digits n q h D :
  0 < n → digits n = D → q * q <= n < (q + 1) * (q + 1) → 0 <= q → D <= 2 * h <= D + 1 → digits q = h.
Proof.
  intros Hn HD Hq Hq0 Hh. destruct (digits_bounds n Hn) as (HD1 & Hlo & Hhi). rewrite HD in *.
  assert (2 ^ (2 * (h - 1)) <= n ∧ n < 2 ^ (2 * h)) as [Hlo' Hhi'].
  { split.
    - etransitivity; [|apply Hlo]. apply Z.pow_le_mono_r; lia.
    - eapply Z.lt_le_trans; [apply Hhi|]. apply Z.pow_le_mono_r; lia. }
  assert (Hsq : ∀ k, 0 <= k → 2 ^ (2 * k) = 2 ^ k * 2 ^ k).
  { intros k Hk. rewrite <-Z.pow_add_r by lia. f_equal. lia. }
  rewrite Hsq in Hlo', Hhi' by lia. pose proof (pow2_pos h ltac:(lia)).
  pose proof (pow2_pos (h - 1) ltac:(lia)). apply digits_unique; [lia|]. split; nia.
Qed.

(** Two values in the same bracket have close squares. *)
Lemma square_near P A u w N q :
  0 < P → 0 < u → 0 < w → P * u <= A → A * A <= N <= (A + u) * (A + u) →
  A * w <= q <= (A + u) * w →
  P * P * Z.abs (q * q - N * (w * w)) <= (2 * P + 1) * (N * (w * w)).
Proof.
  intros HP Hu Hw HA [HN1 HN2] [Hq1 Hq2].
  assert (0 < P * u) by (by apply Z.mul_pos_pos). assert (0 < w * w) by (by apply Z.mul_pos_pos).
  assert (0 <= A * w) by (apply Z.mul_nonneg_nonneg; lia).
  assert (A * w * (A * w) <= q * q) by (apply Z.mul_le_mono_nonneg; lia).
  assert (q * q <= (A + u) * w * ((A + u) * w)) by (apply Z.mul_le_mono_nonneg; lia).
  assert (A * A * (w * w) <= N * (w * w)) as HAN by (apply Z.mul_le_mono_nonneg_r; lia).
  assert (N * (w * w) <= (A + u) * (A + u) * (w * w)) by (apply Z.mul_le_mono_nonneg_r; lia).
  assert (Z.abs (q * q - N * (w * w)) <= (2 * A * u + u * u) * (w * w)) as Habs.
  { apply Z.abs_le. lia. }
  assert (P * P * (2 * A * u + u * u) <= (2 * P + 1) * (A * A)) as HPA.
  { assert (P * A * (P * u) <= P * A * A).
    { apply Z.mul_le_mono_nonneg_l; [apply Z.mul_nonneg_nonneg; lia|done]. }
    assert (P * u * (P * u) <= A * A) by (apply Z.mul_le_mono_nonneg; lia). lia. }
  transitivity (P * P * ((2 * A * u + u * u) * (w * w))).
  { apply Z.mul_le_mono_nonneg_l; [|done]. apply Z.mul_nonneg_nonneg; lia. }
  rewrite Z.mul_assoc. transitivity ((2 * P + 1) * (A * A) * (w * w)).
  { apply Z.mul_le_mono_nonneg_r; lia. }
  rewrite <-Z.mul_assoc. apply Z.mul_le_mono_nonneg_l; lia.
Qed.

Section operations.
Context (f : format) {Hf : IEEE f}.
#[local] Set Default Proof Using "Type*".
#[local] Notation prec := (f_prec f).
#[local] Notation emax := (f_emax f).
#[local] Notation emin := (SpecFloat.emin (f_prec f) (f_emax f)).
Let Hprec : 1 < prec := prec_law.
Let Hemax : 2 * prec < emax := emax_law.

Lemma rounds_0 d : 0 < d → rounds f 0 d 0.
Proof.
  intros Hd. assert (repr f 0) by (exists 0, 0; pose proof (pow2_pos prec); lia).
  split; [done|]. split; intros R HR HnR; [by apply (repr_nonneg f)|nia].
Qed.

Lemma repr_scale r k : 0 <= k → repr f r → repr f (r * 2 ^ k).
Proof.
  intros Hk (c & j & Hc & Hj & ->). exists c, (j + k). split; [done|]. split; [lia|].
  rewrite Z.pow_add_r by lia. ring.
Qed.

Lemma fmul_rounds x y r1 r2 :
  units f false x r1 → units f false y r2 → r1 * r2 < 2 ^ (emax - prec - 2 * emin) →
  ∃ r, units f false (fmul f x y) r ∧ rounds f (r1 * r2) (one f) r.
Proof.
  intros Hx Hy Hs. pose proof (one_pos f). unfold one in *.
  destruct x as [s1| | |s1 m1 e1], y as [s2| | |s2 m2 e2]; try done.
  - destruct Hx as [-> ->], Hy as [-> ->]. exists 0. split; [done|by apply rounds_0].
  - destruct Hx as [-> ->], Hy as (-> & _). exists 0. split; [done|by apply rounds_0].
  - destruct Hx as (-> & _), Hy as [-> ->]. exists 0. rewrite Z.mul_0_r. split; [done|by apply rounds_0].
  - destruct Hx as (-> & _ & He1 & ->), Hy as (-> & _ & He2 & ->).
    assert (Heq : Zpos m1 * 2 ^ (e1 - emin) * (Zpos m2 * 2 ^ (e2 - emin)) =
      Zpos (m1 * m2) * 2 ^ (e1 + e2 - 2 * emin)).
    { replace (e1 + e2 - 2 * emin) with ((e1 - emin) + (e2 - emin)) by lia.
      rewrite Z.pow_add_r, Pos2Z.inj_mul by lia. ring. }
    rewrite Heq in Hs |- *. pose proof (emin_eq f).
    assert (Hd : digits (Zpos (m1 * m2)) + (e1 + e2 - 2 * emin) <= emax - prec - 2 * emin).
    { rewrite <-digits_shift by lia. apply digits_le; [|lia]. split; [|done].
      pose proof (pow2_pos (e1 + e2 - 2 * emin) ltac:(lia)). lia. }
    destruct (digits_bounds (Zpos (m1 * m2)) ltac:(lia)) as (Hd1 & _).
    unfold fmul, SFmul. cbn [xorb].
    destruct (round_aux_wide f false (Zpos (m1 * m2)) (e1 + e2)) as (r & Hr & Hround); [lia..|].
    exists r. split; [done|]. refine (rounds_cross f _ _ _ _ _ _ _ _ Hround).
    + apply pow2_pos. lia.
    + done.
    + rewrite <-!Z.mul_assoc, <-!Z.pow_add_r by lia. do 2 f_equal. lia.
Qed.

Lemma convert_rounds (g : format) `{!IEEE g} x r :
  units f false x r → r < 2 ^ (f_emax g - 1 - emin) →
  ∃ r', units g false (convert g x) r' ∧ rounds g (r * one g) (one f) r'.
Proof.
  intros Hx Hs. pose proof (one_pos f) as Hone. unfold one in *.
  destruct x as [s1| | |s1 m e]; try done.
  - destruct Hx as [-> ->]. exists 0. split; [done|].
    assert (repr g 0) by (exists 0, 0; pose proof (pow2_pos (f_prec g)); pose proof (prec_law (f := g)); lia).
    split; [done|]. split; intros R HR HnR; [by apply (repr_nonneg g)|nia].
  - destruct Hx as (-> & _ & He & ->). pose proof (emin_eq f). pose proof (emin_eq g).
    pose proof (prec_law (f := g)). pose proof (emax_law (f := g)).
    pose proof (pow2_pos (e - emin) ltac:(lia)).
    assert (Hd : digits (Zpos m) + (e - emin) <= f_emax g - 1 - emin).
    { rewrite <-digits_shift by lia. apply digits_le; lia. }
    cbn [convert]. destruct (round_wide g false m e) as (r & Hr & Hround); [lia|].
    exists r. split; [done|]. refine (rounds_cross g _ _ _ _ _ _ _ _ Hround).
    + apply pow2_pos. lia.
    + done.
    + rewrite <-!Z.mul_assoc, <-!Z.pow_add_r by lia. do 2 f_equal. lia.
Qed.

(** The exponent of a square root leaves its mantissa [prec] digits. *)
Lemma sqrt_exponents d e :
  1 <= d <= prec → emin <= e →
  let X := Z.div2 (d + e + 1) in
  let e' := Z.min (fexp prec emax X) (Z.div2 e) in
  d + e <= 2 * X <= d + e + 1 ∧ emin <= e' ∧ e' <= X - prec ∧ 0 <= e - 2 * e'.
Proof.
  intros Hd He X e'. pose proof (emin_eq f) as Hemin.
  assert (HX : d + e <= 2 * X <= d + e + 1).
  { unfold X. rewrite Z.div2_div. pose proof (Z.div_mod (d + e + 1) 2 ltac:(done)).
    pose proof (Z.mod_pos_bound (d + e + 1) 2 ltac:(done)). lia. }
  assert (Hfx : fexp prec emax X = X - prec) by (rewrite (fexp_eq f); lia).
  split; [done|]. unfold e'. rewrite Hfx, Z.div2_div. pose proof (Z.div_mod e 2 ltac:(done)).
  pose proof (Z.mod_pos_bound e 2 ltac:(done)). lia.
Qed.

(** Rounding an integer square root with the location its remainder gives. *)
Lemma sqrt_rounds N q0 rem e' :
  N = q0 * q0 + rem → 0 <= rem <= 2 * q0 → 0 < q0 → prec <= digits q0 →
  emin <= e' → digits q0 + e' < emax →
  let l := if rem =? 0 then loc_Exact else loc_Inexact (if rem <=? q0 then Lt else Gt) in
  let w := 2 ^ (e' - emin) in
  ∃ q, units f false (binary_round_aux prec emax false q0 e' l) q ∧
    2 ^ (prec - 1) * 2 ^ (prec - 1) * Z.abs (q * q - N * (w * w)) <=
      (2 * 2 ^ (prec - 1) + 1) * (N * (w * w)).
Proof.
  intros HN Hrem Hq0 Hdq He' Hov l w. pose proof (pow2_pos (e' - emin) ltac:(lia)) as Hw. fold w in Hw.
  destruct (digits_bounds q0 Hq0) as (_ & Hlo & _).
  destruct (bracket f q0) as (A & u & HA & HAu & H1 & H2 & Hu & Hrel).
  { etransitivity; [|apply Hlo]. apply Z.pow_le_mono_r; lia. }
  destruct (round_aux_rounds f false q0 e' l (if rem =? 0 then q0 * w else (2 * q0 + 1) * w)
    (if rem =? 0 then 1 else 2)) as (q & Hq & Hround); fold w; try lia.
  - destruct (rem =? 0); lia.
  - destruct (rem =? 0); nia.
  - unfold l. destruct (rem =? 0); simpl; [split; [intros _; ring|done]|]. split; [done|nia].
  - rewrite Zdigits2_digits, (fexp_eq f) by done. lia.
  - rewrite Zdigits2_digits by done. lia.
  - exists q. split; [done|]. destruct Hround as (_ & Hup & Hdown).
    assert (A * w <= q) by (apply Hdown; [apply repr_scale; [lia|done]|destruct (rem =? 0); nia]).
    assert (q <= (A + u) * w) by (apply Hup; [apply repr_scale; [lia|done]|destruct (rem =? 0); nia]).
    apply (square_near _ A u); try done; [apply pow2_pos; lia|].
    pose proof (repr_nonneg f _ HA). split.
    + transitivity (q0 * q0); [apply Z.mul_le_mono_nonneg|]; lia.
    + transitivity ((q0 + 1) * (q0 + 1)); [lia|]. apply Z.mul_le_mono_nonneg; lia.
Qed.

(** A square root is within one part in [2^(prec-1)] of the exact one, so its
    square is within about twice that of its argument. *)
Lemma fsqrt_near x r :
  units f false x r → small f r →
  ∃ q, units f false (fsqrt f x) q ∧
    2 ^ (prec - 1) * 2 ^ (prec - 1) * Z.abs (q * q - r * one f) <= (2 * 2 ^ (prec - 1) + 1) * (r * one f).
Proof.
  intros Hx Hs. pose proof (emin_eq f) as Hemin. destruct x as [s| | |s m e]; try done.
  { destruct Hx as [-> ->]. exists 0. split; [done|]. simpl. lia. }
  destruct Hx as (-> & Hm & He & ->). apply (small_digits f) in Hs; [|lia|done].
  unfold fsqrt, SFsqrt, SFsqrt_core_binary. rewrite Zdigits2_digits by lia.
  destruct (digits_bounds (Zpos m) ltac:(lia)) as (Hd1 & _).
  pose proof (digits_le (Zpos m) prec ltac:(lia) ltac:(lia)) as Hdp.
  pose proof (sqrt_exponents (digits (Zpos m)) e ltac:(lia) He) as Hexp. cbv zeta in Hexp.
  set (X := Z.div2 _) in *. set (e' := Z.min _ _) in *.
  destruct Hexp as (HX & He'1 & He'2 & Hsh). rewrite scale_mantissa by done.
  pose proof (pow2_pos _ Hsh) as Hpsh. set (N := Zpos m * 2 ^ (e - 2 * e')).
  assert (HN : 0 < N) by (unfold N; lia).
  pose proof (Z.sqrtrem_spec N ltac:(lia)) as Hsq. destruct (Z.sqrtrem N) as [q0 rem].
  destruct Hsq as [HNq Hrem]. assert (Hq0 : 0 < q0) by nia.
  assert (Hdq : digits q0 = X - e').
  { apply (sqrt_digits N _ _ (digits (Zpos m) + (e - 2 * e'))); [done| |lia..].
    unfold N. apply digits_shift; lia. }
  assert (Hval : Zpos m * 2 ^ (e - emin) * one f = N * (2 ^ (e' - emin) * 2 ^ (e' - emin))).
  { unfold N, one. rewrite <-!Z.pow_add_r, <-!Z.mul_assoc, <-!Z.pow_add_r by lia. do 2 f_equal. lia. }
  rewrite Hval. apply sqrt_rounds; lia.
Qed.
End operations.

(** ** Values and relative errors *)

(** The rational a finite float stands for. *)
Definition value (x : spec_float) : Q :=
  match x with
  | S754_finite s m e => inject_Z (cond_Zopp s (Zpos m)) * inject_Z 2 ^ e
  | _ => 0
  end%Q.

(** [x] is [y] up to a relative error of [eps]. *)
Definition within (eps x y : Q) : Prop := (Qabs (x - y) <= eps * y)%Q.

Section within.
#[local] Open Scope Q_scope.

Lemma within_iff eps x y : within eps x y ↔ y - eps * y <= x ∧ x <= y + eps * y.
Proof. unfold within. rewrite Qabs_Qle_condition. split; intros [? ?]; split; lra. Qed.

Lemma within_mono eps eps' x y : eps <= eps' → 0 <= y → within eps x y → within eps' x y.
Proof. rewrite !within_iff. intros He Hy [? ?]. split; nra. Qed.

Lemma within_trans a b x y z :
  0 <= a <= 1 → 0 <= b <= 1 → 0 <= z → within a x y → within b y z → within (a + b + a * b) x z.
Proof.
  rewrite !within_iff. intros Ha Hb Hz [H1 H2] [H3 H4].
  assert (0 <= a * b * z) by (apply Qmult_le_0_compat; [apply Qmult_le_0_compat|]; lra).
  assert ((1 - a) * (z - b * z) <= (1 - a) * y) by (apply Qmult_le_l_compat || nra).
  assert ((1 + a) * y <= (1 + a) * (z + b * z)) by nra. split; nra.
Qed.

Lemma within_mult a b x y x' y' :
  0 <= a <= 1 → 0 <= b <= 1 → 0 <= y → 0 <= y' →
  within a x y → within b x' y' → within (a + b + a * b) (x * x') (y * y').
Proof.
  rewrite !within_iff. intros Ha Hb Hy Hy' [H1 H2] [H3 H4].
  assert (0 <= y * y') by by apply Qmult_le_0_compat.
  assert (0 <= a * b * (y * y')) by (apply Qmult_le_0_compat; [apply Qmult_le_0_compat|]; lra).
  assert (0 <= y - a * y ∧ 0 <= y' - b * y') as [HA HB] by (split; nra).
  split.
  - assert ((y - a * y) * (y' - b * y') <= x * x'); [|nra].
    apply Qmult_le_compat_nonneg; split; done.
  - assert (x * x' <= (y + a * y) * (y' + b * y')); [|nra].
    apply Qmult_le_compat_nonneg; split; lra.
Qed.

Lemma within_scale eps a b c : 0 < c → within eps (a * c) (b * c) → within eps a b.
Proof.
  rewrite !within_iff. intros Hc [H1 H2]. split; apply (Qmult_le_r _ _ c Hc); lra.
Qed.

#[export] Instance within_proper : Proper (Qeq ==> Qeq ==> Qeq ==> iff) within.
Proof. intros ? ? E1 ? ? E2 ? ? E3. unfold within. by rewrite E1, E2, E3. Qed.

Lemma inject_pos z : (0 < z)%Z → 0 < inject_Z z.
Proof. intros Hz. unfold Qlt. simpl. lia. Qed.

Lemma inject_nonneg z : (0 <= z)%Z → 0 <= inject_Z z.
Proof. intros Hz. unfold Qle. simpl. lia. Qed.

Lemma within_of_Z K L a n eps :
  (0 < K)%Z → (0 <= n)%Z → (K * Z.abs (a - n) <= L * n)%Z →
  inject_Z L <= eps * inject_Z K → within eps (inject_Z a) (inject_Z n).
Proof.
  intros HK Hn Ha Heps. pose proof (inject_pos K HK) as HK'.
  pose proof (inject_nonneg n Hn) as Hn'.
  assert (inject_Z K * (inject_Z a - inject_Z n) <= inject_Z L * inject_Z n ∧
          - (inject_Z L * inject_Z n) <= inject_Z K * (inject_Z a - inject_Z n)) as [H1 H2].
  { unfold Qminus. rewrite <-!inject_Z_opp, <-!inject_Z_mult, <-inject_Z_plus, <-!inject_Z_opp, <-!inject_Z_mult.
    rewrite <-!Zle_Qle. split; nia. }
  assert (inject_Z L * inject_Z n <= eps * inject_Z K * inject_Z n) by by apply Qmult_le_compat_r.
  apply within_iff. split; apply (Qmult_le_l _ _ _ HK'); lra.
Qed.
End within.

(** A relative error in units is one of the values. *)
Section units_value.
Context (f : format) {Hf : IEEE f}.
#[local] Set Default Proof Using "Type*".
#[local] Notation prec := (f_prec f).
#[local] Notation emin := (SpecFloat.emin (f_prec f) (f_emax f)).

Lemma value_units x r : units f false x r → (value x == inject_Z r / inject_Z (one f))%Q.
Proof.
  pose proof (inject_pos _ (one_pos f)) as H1. destruct x as [s| | |s m e]; try done.
  - intros [_ ->]. unfold value. field. lra.
  - intros (-> & _ & He & ->). cbn [value cond_Zopp]. unfold one in *.
    assert (Hp : (0 < inject_Z 2 ^ e)%Q) by by apply Qpower_0_lt.
    rewrite inject_Z_mult, (Zpower_Qpower 2 (e - emin)) by lia.
    assert (E : (inject_Z (2 ^ (- emin)) * inject_Z 2 ^ e == inject_Z 2 ^ (e - emin))%Q).
    { pose proof (emin_eq f). pose proof (prec_law (f := f)). pose proof (emax_law (f := f)).
      rewrite Zpower_Qpower by lia. rewrite <-Qpower_plus by done. by replace (- emin + e) with (e - emin) by lia. }
    rewrite <-E. field. lra.
Qed.

Lemma units_dyadic z : 0 <= z < 2 ^ prec → units f false (dyadic f z 0) (z * one f).
Proof.
  intros Hz. pose proof (prec_law (f := f)). pose proof (emax_law (f := f)).
  pose proof (emin_eq f). destruct (decide (z = 0)) as [->|]; [done|].
  destruct (digits_fits f z); [lia|]. destruct (dyadic_mantissa f z); [lia|].
  rewrite (dyadic_pos f) by lia. cbn [units]. set (k := prec - digits z) in *.
  pose proof (pow2_pos k ltac:(lia)). split; [done|]. rewrite Z2Pos.id by nia.
  split; [lia|]. split; [lia|]. unfold one.
  rewrite <-Z.mul_assoc, <-Z.pow_add_r by lia. do 2 f_equal. lia.
Qed.

Lemma repr_int z : 0 <= z < 2 ^ prec → repr f (z * one f).
Proof. intros Hz. apply (units_repr f false (dyadic f z 0)). by apply units_dyadic. Qed.

(** A fraction of one that is a power of two. *)
Lemma one_split k : 0 <= k <= 100 → 1000 <= f_emax f →
  ∃ o, one f = 2 ^ k * o ∧ repr f o ∧ 2 ^ (prec - 1 + 200) <= o.
Proof.
  intros Hk He. pose proof (prec_law (f := f)). pose proof (emin_eq f).
  exists (2 ^ (- emin - k)). split; [|split].
  - unfold one. rewrite <-Z.pow_add_r by lia. f_equal. lia.
  - apply (repr_pow2 f). lia.
  - apply Z.pow_le_mono_r; lia.
Qed.

Lemma rounds_within x r n d eps :
  units f false x r → rounds f n d r → 0 < d → 2 ^ (prec - 1) * d <= n →
  (1 <= eps * inject_Z (2 ^ (prec - 1)))%Q →
  within eps (value x) (inject_Z n / (inject_Z d * inject_Z (one f))).
Proof.
  intros Hx Hr Hd Hn Heps. pose proof (rounds_near f n d r Hd Hn Hr) as Hnear.
  rewrite (value_units x r Hx). pose proof (inject_pos _ (one_pos f)) as H1.
  pose proof (inject_pos _ Hd) as Hd'.
  assert (0 < 2 ^ (prec - 1)) as HP by (apply pow2_pos; pose proof (prec_law (f := f)); lia).
  assert (Hw : within eps (inject_Z (r * d)) (inject_Z n)).
  { assert (0 < 2 ^ (prec - 1) * d) by (by apply Z.mul_pos_pos).
    apply (within_of_Z (2 ^ (prec - 1)) 1); [done|lia|lia|done]. }
  assert (Hdo : (0 < inject_Z d * inject_Z (one f))%Q) by by apply Qmult_lt_0_compat.
  apply (within_scale _ _ _ _ Hdo). rewrite inject_Z_mult in Hw.
  assert (inject_Z r / inject_Z (one f) * (inject_Z d * inject_Z (one f)) ==
    inject_Z r * inject_Z d)%Q as -> by (field; lra).
  assert (inject_Z n / (inject_Z d * inject_Z (one f)) * (inject_Z d * inject_Z (one f)) ==
    inject_Z n)%Q as -> by (field; lra).
  done.
Qed.

Lemma fsqrt_within x r eps :
  units f false x r → small f r →
  (inject_Z (2 * 2 ^ (prec - 1) + 1) <= eps * inject_Z (2 ^ (prec - 1) * 2 ^ (prec - 1)))%Q →
  ∃ q, units f false (fsqrt f x) q ∧
    within eps (value (fsqrt f x) * value (fsqrt f x)) (value x).
Proof.
  intros Hx Hs Heps. destruct (fsqrt_near f x r Hx Hs) as (q & Hq & Hnear).
  exists q. split; [done|]. rewrite (value_units _ _ Hq), (value_units _ _ Hx).
  pose proof (inject_pos _ (one_pos f)) as H1. pose proof (one_pos f).
  pose proof (repr_nonneg f r (units_repr f _ _ _ Hx)).
  assert (0 < 2 ^ (prec - 1)) as HP by (apply pow2_pos; pose proof (prec_law (f := f)); lia).
  assert (Hw : within eps (inject_Z (q * q)) (inject_Z (r * one f))).
  { assert (0 <= r * one f) by (apply Z.mul_nonneg_nonneg; lia).
    apply (within_of_Z (2 ^ (prec - 1) * 2 ^ (prec - 1)) (2 * 2 ^ (prec - 1) + 1)); [|done..].
    by apply Z.mul_pos_pos. }
  assert (Ho : (0 < inject_Z (one f) * inject_Z (one f))%Q) by by apply Qmult_lt_0_compat.
  apply (within_scale _ _ _ _ Ho). rewrite !inject_Z_mult in Hw.
  assert (inject_Z q / inject_Z (one f) * (inject_Z q / inject_Z (one f)) *
    (inject_Z (one f) * inject_Z (one f)) == inject_Z q * inject_Z q)%Q as -> by (field; lra).
  assert (inject_Z r / inject_Z (one f) * (inject_Z (one f) * inject_Z (one f)) ==
    inject_Z r * inject_Z (one f))%Q as -> by (field; lra).
  done.
Qed.
End units_value.
