(* ===== verification/Collect.v ===== *)
(** * Collect: gathering samples inside a benchmark process

    The data-collection macros of [libsel4benchsupport/include/benchmark.h]
    ([DATACOLLECT_INIT], [DATACOLLECT_GET_SUMS]), [getMinOverhead],
    [send_result] and [get_result] of [libsel4benchsupport/src/support.c], and
    [results_stable] of [libsel4benchsupport/include/ipc.h].

    A cycle-counter value is a [ccnt_bits]-bit word, a loop index of the
    early-processing loops a [seL4_WordBits]-bit word. *)

From S2P Require Import Prelude Platform.

(** How often an averaged operation runs under one counter. *)
Definition AVERAGE_RUNS : Z := 10000.

(** ** Early processing *)
Module EarlyProc.
Section early.
Context `{Platform}.

(** The accumulators a loop passes as [par_sum] and [par_sum2]. *)
Record sums := mkSums { par_sum : Z; par_sum2 : Z }.

(** [( ~(i - n) ) >> (seL4_WordBits - 1)], all in [seL4_Word]: the borrow of
    [i - n], used as a 0/1 factor instead of a branch. *)
Definition is_counted (i n : Z) : Z :=
  Z.shiftr (∼[seL4_WordBits] (i ⊟[seL4_WordBits] n)) (seL4_WordBits - 1).

(** [DATACOLLECT_GET_SUMS(i, n, s, e, o, par_sum, par_sum2)]; [w] is the
    width of the type of [s] and [e] ([ccnt_t], and [seL4_Word] in irquser),
    [o] is a [ccnt_t]. *)
Definition sample_of (w s e o : Z) : Z := (e ⊟[w] s) ⊟[ccnt_bits] o.

Definition DATACOLLECT_GET_SUMS (w i n s e o : Z) (p : sums) : sums :=
  let sample := is_counted i n ⊠[ccnt_bits] sample_of w s e o in
  mkSums (par_sum p ⊞[ccnt_bits] sample)
         (par_sum2 p ⊞[ccnt_bits] (sample ⊠[ccnt_bits] sample)).

(** [for (seL4_Word i = i0; i < N_RUNS; i++) { ...; DATACOLLECT_GET_SUMS }]
    over the pairs of counter values the iterations read. *)
Fixpoint collect_from (w n o i : Z) (readings : list (Z * Z)) (p : sums) : sums :=
  match readings with
  | [] => p
  | (s, e) :: readings =>
      collect_from w n o (i ⊞[seL4_WordBits] 1) readings
        (DATACOLLECT_GET_SUMS w i n s e o p)
  end.

Definition collect (w n o : Z) (readings : list (Z * Z)) : sums :=
  collect_from w n o 0 readings (mkSums 0 0).

(** What the loop is meant to sum: the overhead-corrected samples that come
    after the [n] warm-up ones. *)
Definition corrected (w o : Z) (readings : list (Z * Z)) : list Z :=
  (λ se, sample_of w se.1 se.2 o) <$> readings.
Definition counted_samples (w n o : Z) (readings : list (Z * Z)) : list Z :=
  drop (Z.to_nat n) (corrected w o readings).

(** The borrow trick is a comparison, for indices below half the range. *)
Lemma is_counted_spec i n :
  0 <= i < 2 ^ (seL4_WordBits - 1) → 0 <= n < 2 ^ (seL4_WordBits - 1) →
  is_counted i n = if decide (n <= i) then 1 else 0.
Proof.
  intros Hi Hn. unfold is_counted. pose proof word_bits_pos as Hw.
  set (W := seL4_WordBits) in *.
  assert (Hp : 2 ^ W = 2 * 2 ^ (W - 1)).
  { rewrite <-Z.pow_succ_r by lia. f_equal. lia. }
  rewrite wrap_lnot by auto using wrap_in_word with lia.
  rewrite Z.shiftr_div_pow2 by lia.
  case_decide.
  - rewrite wrap_small by (unfold in_word; lia).
    symmetry. apply (Z.div_unique _ _ _ (2 ^ (W - 1) - 1 - (i - n))); lia.
  - replace (i ⊟[W] n) with (i - n + 2 ^ W).
    + apply Z.div_small. lia.
    + symmetry. apply wrap_eq; [unfold in_word; lia|].
      unfold eqw, wrap. rewrite <-(Z.mod_add (i - n) 1) by lia. f_equal. lia.
Qed.

Definition square (x : Z) : Z := x * x.

Lemma get_sums_in_word w i n s e o p :
  in_word ccnt_bits (par_sum (DATACOLLECT_GET_SUMS w i n s e o p)) ∧
  in_word ccnt_bits (par_sum2 (DATACOLLECT_GET_SUMS w i n s e o p)).
Proof. split; apply wrap_in_word, ccnt_bits_nonneg. Qed.

(** One iteration adds the corrected sample, or nothing, to each sum. *)
Lemma get_sums_spec w i n s e o p :
  0 <= i < 2 ^ (seL4_WordBits - 1) → 0 <= n < 2 ^ (seL4_WordBits - 1) →
  let d := if decide (n <= i) then sample_of w s e o else 0 in
  par_sum (DATACOLLECT_GET_SUMS w i n s e o p) ≡[ccnt_bits] par_sum p + d ∧
  par_sum2 (DATACOLLECT_GET_SUMS w i n s e o p) ≡[ccnt_bits] par_sum2 p + square d.
Proof.
  intros Hi Hn. unfold DATACOLLECT_GET_SUMS, square; simpl.
  rewrite is_counted_spec by done. case_decide; split; word_eq.
Qed.

(** One more iteration, for a loop index that does not wrap. *)
Lemma collect_from_snoc w n o i l s e p :
  0 <= i → i + Z.of_nat (length l) < 2 ^ seL4_WordBits →
  collect_from w n o i (l ++ [(s, e)]) p =
    DATACOLLECT_GET_SUMS w (i + Z.of_nat (length l)) n s e o (collect_from w n o i l p).
Proof.
  revert i p. induction l as [|[s' e'] l IH]; intros i p Hi Hl; cbn [collect_from app length].
  - by rewrite Z.add_0_r.
  - cbn [length] in Hl. rewrite (wrap_small _ (i + 1)) by (unfold in_word; lia).
    rewrite IH by lia. f_equal. lia.
Qed.

Lemma collect_snoc w n o l s e :
  Z.of_nat (length l) < 2 ^ seL4_WordBits →
  collect w n o (l ++ [(s, e)]) =
    DATACOLLECT_GET_SUMS w (Z.of_nat (length l)) n s e o (collect w n o l).
Proof. intros Hl. unfold collect. by rewrite collect_from_snoc. Qed.

Lemma drop_corrected_cons w n o i s e l :
  0 <= i →
  sumZ (drop (Z.to_nat (n - i)) (corrected w o ((s, e) :: l))) =
    (if decide (n <= i) then sample_of w s e o else 0) +
    sumZ (drop (Z.to_nat (n - (i + 1))) (corrected w o l)) ∧
  sumZ (square <$> drop (Z.to_nat (n - i)) (corrected w o ((s, e) :: l))) =
    square (if decide (n <= i) then sample_of w s e o else 0) +
    sumZ (square <$> drop (Z.to_nat (n - (i + 1))) (corrected w o l)).
Proof.
  intros Hi. case_decide.
  - replace (Z.to_nat (n - i)) with 0%nat by lia.
    by replace (Z.to_nat (n - (i + 1))) with 0%nat by lia.
  - by replace (Z.to_nat (n - i)) with (S (Z.to_nat (n - (i + 1)))) by lia.
Qed.

Lemma collect_from_spec w n o i l p :
  0 <= i → i + Z.of_nat (length l) <= 2 ^ (seL4_WordBits - 1) →
  0 <= n < 2 ^ (seL4_WordBits - 1) →
  par_sum (collect_from w n o i l p) ≡[ccnt_bits]
    par_sum p + sumZ (drop (Z.to_nat (n - i)) (corrected w o l)) ∧
  par_sum2 (collect_from w n o i l p) ≡[ccnt_bits]
    par_sum2 p + sumZ (square <$> drop (Z.to_nat (n - i)) (corrected w o l)).
Proof.
  revert i p. induction l as [|[s e] l IH]; intros i p Hi Hlen Hn.
  - simpl. by rewrite drop_nil, !Z.add_0_r.
  - cbn [length] in Hlen. pose proof word_bits_pos.
    assert (2 ^ (seL4_WordBits - 1) < 2 ^ seL4_WordBits) by (apply Z.pow_lt_mono_r; lia).
    assert (i < 2 ^ (seL4_WordBits - 1)) by lia.
    cbn [collect_from]. rewrite (wrap_small _ (i + 1)) by (unfold in_word; lia).
    destruct (IH (i + 1) (DATACOLLECT_GET_SUMS w i n s e o p)) as [-> ->]; [lia..|].
    destruct (get_sums_spec w i n s e o p) as [-> ->]; [lia..|].
    destruct (drop_corrected_cons w n o i s e l Hi) as [-> ->].
    by rewrite !Z.add_assoc.
Qed.

Lemma collect_from_in_word w n o i l p :
  in_word ccnt_bits (par_sum p) ∧ in_word ccnt_bits (par_sum2 p) →
  in_word ccnt_bits (par_sum (collect_from w n o i l p)) ∧
  in_word ccnt_bits (par_sum2 (collect_from w n o i l p)).
Proof.
  revert i p. induction l as [|[s e] l IH]; intros i p Hp; simpl; [done|].
  apply IH, get_sums_in_word.
Qed.

(** C4.  The early-processing loop computes the sum and the sum of squares,
    modulo [2^ccnt_bits], of exactly the overhead-corrected samples that
    follow the first [n] (ignored) ones, for every sequence of counter
    readings the loop index can count. *)
Theorem collect_correct w n o readings :
  0 <= n < 2 ^ (seL4_WordBits - 1) →
  Z.of_nat (length readings) <= 2 ^ (seL4_WordBits - 1) →
  collect w n o readings =
    mkSums (wrap ccnt_bits (sumZ (counted_samples w n o readings)))
           (wrap ccnt_bits (sumZ (square <$> counted_samples w n o readings))).
Proof.
  intros Hn Hlen. unfold collect.
  destruct (collect_from_spec w n o 0 readings (mkSums 0 0)) as [H1 H2]; [lia..|].
  destruct (collect_from_in_word w n o 0 readings (mkSums 0 0)) as [W1 W2].
  { split; apply in_word_0, ccnt_bits_nonneg. }
  destruct (collect_from _ _ _ _ _ _) as [a b]; simpl in *.
  rewrite Z.sub_0_r in H1, H2. f_equal; symmetry.
  - apply wrap_eq; [done|by rewrite H1].
  - apply wrap_eq; [done|by rewrite H2].
Qed.
End early.

(** Two warm-up readings, then samples of 90 and 95 cycles after a 10-cycle
    overhead, the last across the wrap of the counter. *)
Lemma collect_correct_witness :
  @collect x86_64 64 2 10 [(0, 500); (0, 300); (7, 107); (2 ^ 64 - 5, 100)] =
    mkSums (90 + 95) (90 * 90 + 95 * 95).
Proof.
  rewrite (@collect_correct x86_64) by first [by vm_compute | split; by vm_compute].
  by vm_compute.
Defined.
End EarlyProc.

(** ** The minimum overhead *)
Module MinOverhead.
Section min_overhead.
Context `{Platform}.

(** [ccnt_t min = -1; for (i < overhead_size)
     min = (overhead[i] < min) ? overhead[i] : min;] *)
Definition getMinOverhead (overhead : list Z) (overhead_size : Z) : outcome Z :=
  fold_outcome
    (λ min i,
       x ← defined (aget overhead i);
       Ok (if x <? min then x else min))
    (seqZ 0 overhead_size) (wrap ccnt_bits (-1)).

Fixpoint minimum (d : Z) (l : list Z) : Z :=
  match l with [] => d | x :: l => minimum (if x <? d then x else d) l end.

Lemma minimum_spec d l :
  minimum d l ∈ d :: l ∧ minimum d l <= d ∧ Forall (λ x, minimum d l <= x) l.
Proof.
  revert d. induction l as [|y l IH]; intros d; simpl.
  - split; [by apply elem_of_cons; left|]. done.
  - destruct (IH (if y <? d then y else d)) as (Hin & Hle & Hall).
    rewrite list.Forall_cons. apply elem_of_cons in Hin.
    rewrite !elem_of_cons. destruct (Z.ltb_spec y d);
      (split; [tauto|split; [lia|split; [lia|done]]]).
Qed.

Lemma getMinOverhead_minimum overhead :
  getMinOverhead overhead (Z.of_nat (length overhead)) =
    Ok (minimum (2 ^ ccnt_bits - 1) overhead).
Proof.
  unfold getMinOverhead.
  replace (wrap ccnt_bits (-1)) with (2 ^ ccnt_bits - 1).
  2:{ change (-1) with (Z.lnot 0). rewrite wrap_lnot; auto with word. lia. }
  generalize (2 ^ ccnt_bits - 1) as d.
  assert (∀ (k : nat) d, (k <= length overhead)%nat →
    fold_outcome (λ min i, x ← defined (aget overhead i); Ok (if x <? min then x else min))
      (seqZ (Z.of_nat k) (Z.of_nat (length overhead - k))) d
    = Ok (minimum d (drop k overhead))) as Hgen.
  { intros k d Hk. remember (length overhead - k)%nat as m eqn:Hm.
    revert k d Hk Hm. induction m as [|m IH]; intros k d Hk Hm.
    - rewrite drop_ge by lia. done.
    - destruct (lookup_lt_is_Some_2 overhead k) as [x Hx]; [lia|].
      rewrite seqZ_succ_l by lia. rewrite (drop_S overhead x k) by done. simpl.
      rewrite aget_nat, Hx. simpl.
      replace (Z.of_nat k + 1) with (Z.of_nat (S k)) by lia.
      replace (Z.of_nat (S m) - 1) with (Z.of_nat m) by lia.
      apply IH; lia. }
  intros d. specialize (Hgen 0%nat d). rewrite Nat.sub_0_r in Hgen.
  apply Hgen. lia.
Qed.

(** On a non-empty array of counter values [getMinOverhead] returns the
    minimum: an element of the array that no element is below.  The initial
    [-1] (all ones) never wins against a real sample. *)
Theorem getMinOverhead_correct overhead :
  overhead ≠ [] → Forall (in_word ccnt_bits) overhead →
  ∃ m, getMinOverhead overhead (Z.of_nat (length overhead)) = Ok m ∧
       m ∈ overhead ∧ Forall (λ x, m <= x) overhead.
Proof.
  intros Hne Hw. eexists. split; [apply getMinOverhead_minimum|].
  set (d := 2 ^ ccnt_bits - 1). destruct (minimum_spec d overhead) as (Hin & Hle & Hall).
  split; [|done]. apply elem_of_cons in Hin as [Heq|]; [|done].
  destruct overhead as [|x l]; [done|].
  assert (x = minimum d (x :: l)) as Hx; [|rewrite <-Hx at 1; set_solver].
  apply list.Forall_cons in Hw as [Hxw _]. apply list.Forall_cons in Hall as [Hx _].
  unfold in_word in Hxw. lia.
Qed.

(** An array read past its end is undefined behaviour. *)
Lemma getMinOverhead_empty : getMinOverhead [] 0 = Ok (2 ^ ccnt_bits - 1).
Proof. apply (getMinOverhead_minimum []). Qed.
End min_overhead.

Lemma getMinOverhead_correct_witness :
  ∃ m, @getMinOverhead ia32 [41; 38; 39] 3 = Ok m ∧
       m ∈ [41; 38; 39] ∧ Forall (λ x, m <= x) [41; 38; 39].
Proof.
  apply (@getMinOverhead_correct ia32); [done|].
  repeat constructor; by vm_compute.
Defined.
End MinOverhead.

(** ** Sending one counter value over an endpoint *)
Module Transfer.
Section transfer.
Context `{Platform}.

(** [sizeof(ccnt_t) / sizeof(seL4_Word)] *)
Definition result_length : Z := (ccnt_bits `div` 8) `div` (seL4_WordBits `div` 8).

(** [length > 1u ? seL4_WordBits : 0] *)
Definition result_shift (length : Z) : Z := if 1 <? length then seL4_WordBits else 0.

(** The loop of [send_result]: the message registers, and the length of the
    tag passed to [seL4_Send]. *)
Definition send_result (mrs : list Z) (result : Z) : outcome (list Z * Z) :=
  let length := result_length in
  let shift := result_shift length in
  '(mrs, _) ← fold_outcome
    (λ '(mrs, result) i,
       mrs ← defined (aset mrs i (wrap seL4_WordBits result));
       Ok (mrs, Z.shiftr result shift))
    (reverse (seqZ 0 length)) (mrs, result);
  Ok (mrs, length).

(** The loop of [get_result], on the registers and the length received. *)
Definition get_result (mrs : list Z) (length : Z) : outcome Z :=
  let shift := result_shift length in
  fold_outcome
    (λ result i,
       mr ← defined (aget mrs i);
       Ok (wrap ccnt_bits (Z.shiftl result shift) ⊞[ccnt_bits] mr))
    (seqZ 0 length) 0.

Lemma result_length_cases :
  result_length = 1 ∧ ccnt_bits = seL4_WordBits ∨
  result_length = 2 ∧ ccnt_bits = seL4_WordBits + seL4_WordBits.
Proof.
  unfold result_length.
  destruct ccnt_bits_law as [->| ->], word_bits_law as [->| ->];
    [left|left|right|right]; done.
Qed.

Lemma split_word result :
  0 <= result →
  wrap seL4_WordBits (Z.shiftr result seL4_WordBits) * 2 ^ seL4_WordBits +
  wrap seL4_WordBits result = wrap (seL4_WordBits + seL4_WordBits) result.
Proof.
  intros Hr. pose proof word_bits_pos. pose proof (pow2_pos seL4_WordBits).
  unfold wrap. rewrite Z.shiftr_div_pow2, Z.pow_add_r by lia.
  rewrite Z.rem_mul_r by lia. lia.
Qed.

(** The registers a value is sent in, most significant first. *)
Definition result_words (result : Z) : list Z :=
  if decide (result_length = 1) then [wrap seL4_WordBits result]
  else [wrap seL4_WordBits (Z.shiftr result seL4_WordBits); wrap seL4_WordBits result].

Lemma length_result_words result : Z.of_nat (length (result_words result)) = result_length.
Proof. unfold result_words. destruct result_length_cases as [[-> _]|[-> _]]; done. Qed.

Lemma send_result_words m0 m1 mrs result :
  ∃ rest, send_result (m0 :: m1 :: mrs) result = Ok (result_words result ++ rest, result_length).
Proof.
  unfold send_result, result_words. destruct result_length_cases as [[-> _]|[-> _]].
  - change (reverse (seqZ 0 1)) with [0]. eexists. cbn -[aset]. rewrite aset_0. reflexivity.
  - change (reverse (seqZ 0 2)) with [1; 0]. eexists.
    cbn -[aset]. rewrite aset_1. cbn -[aset]. rewrite aset_0. reflexivity.
Qed.

Lemma get_result_words result rest :
  in_word ccnt_bits result → get_result (result_words result ++ rest) result_length = Ok result.
Proof.
  intros Hr. pose proof word_bits_pos. unfold get_result, result_words.
  destruct result_length_cases as [[-> HC]|[-> HC]].
  - rewrite decide_True by done. change (seqZ 0 1) with [0]. cbn -[aget]. rewrite aget_0. cbn. f_equal.
    apply wrap_eq; [done|]. drop_wraps ccnt_bits. by rewrite HC, eqw_wrap.
  - rewrite decide_False by done. change (seqZ 0 2) with [0; 1]. change (result_shift 2) with seL4_WordBits.
    cbn -[aget]. rewrite aget_0. cbn -[aget]. rewrite aget_1. cbn. f_equal.
    apply wrap_eq; [done|]. drop_wraps ccnt_bits.
    rewrite !Z.shiftl_mul_pow2 by lia. drop_wraps ccnt_bits.
    rewrite Z.mul_0_l, Z.add_0_l, split_word by apply Hr. by rewrite <-HC, eqw_wrap.
Qed.

(** C24.  A counter value survives the transfer: for every [ccnt_t] value,
    [get_result] on the message [send_result] leaves in the registers
    returns it, with one message register where [ccnt_t] is a word and with
    two, most significant first, on the 32-bit targets with a 64-bit counter. *)
Theorem send_get_roundtrip mrs result :
  in_word ccnt_bits result → 2 <= Z.of_nat (length mrs) →
  ∃ mrs' len, send_result mrs result = Ok (mrs', len) ∧ get_result mrs' len = Ok result.
Proof.
  intros Hr Hl. destruct mrs as [|m0 [|m1 mrs]]; cbn in Hl; [lia..|].
  destruct (send_result_words m0 m1 mrs result) as [rest ->].
  eexists _, _. split; [done|]. by apply get_result_words.
Qed.
End transfer.

(** A 64-bit counter value over 32-bit message registers. *)
Lemma send_get_roundtrip_witness :
  ∃ mrs' len, @send_result ia32 [0; 0; 0; 0] 81985529216486895 = Ok (mrs', len) ∧
    @get_result ia32 mrs' len = Ok 81985529216486895.
Proof. apply (@send_get_roundtrip ia32); [split; by vm_compute|by vm_compute]. Defined.
End Transfer.

(** ** Stability of an array of measurements *)
Module Stable.
(** [results_stable(array, size)] *)
Fixpoint stable_from (array : list Z) (i : Z) (fuel : nat) : outcome bool :=
  match fuel with
  | O => Ok true
  | S fuel =>
      x ← defined (aget array i);
      y ← defined (aget array (i - 1));
      if x =? y then stable_from array (i + 1) fuel else Ok false
  end.
Definition results_stable (array : list Z) (size : Z) : outcome bool :=
  stable_from array 1 (Z.to_nat (size - 1)).

Lemma stable_from_spec array i fuel :
  1 <= i → i + Z.of_nat fuel <= Z.of_nat (length array) →
  ∃ b, stable_from array i fuel = Ok b ∧
    (b = true ↔ ∀ j, i <= j < i + Z.of_nat fuel → aget array j = aget array (j - 1)).
Proof.
  revert i. induction fuel as [|fuel IH]; intros i Hi Hlen; simpl.
  - exists true. split; [done|]. split; [lia|done].
  - destruct (aget_Some array i) as (x & Hx & _); [lia|].
    destruct (aget_Some array (i - 1)) as (y & Hy & _); [lia|].
    rewrite Hx, Hy; simpl. destruct (Z.eqb_spec x y) as [->|Hne].
    + destruct (IH (i + 1)) as (b & Hb & Hspec); [lia..|].
      exists b. split; [done|]. rewrite Hspec. split; intros Hall j Hj.
      * destruct (decide (j = i)) as [->|]; [by rewrite Hx, Hy|]. apply Hall. lia.
      * apply Hall. lia.
    + exists false. split; [done|]. split; [done|]. intros Hall.
      exfalso. apply Hne. specialize (Hall i ltac:(lia)). congruence.
Qed.

(** [results_stable] reads inside the array, returns, and answers true
    exactly when all the samples of the array are equal. *)
Lemma results_stable_spec array :
  ∃ b, results_stable array (Z.of_nat (length array)) = Ok b ∧
    (b = true ↔ ∀ x y, x ∈ array → y ∈ array → x = y).
Proof.
  unfold results_stable. destruct (decide (array = [])) as [->|Hne].
  { exists true. split; [done|]. set_solver. }
  assert (0 < length array)%nat by (destruct array; simpl; [done|lia]).
  destruct (stable_from_spec array 1 (Z.to_nat (Z.of_nat (length array) - 1)))
    as (b & -> & Hb); [lia..|].
  exists b. split; [done|]. rewrite Hb. split.
  - intros Hadj. assert (∀ k : nat, k < length array → array !! k = array !! 0%nat)%nat as H0.
    { induction k as [|k IH]; intros Hk; [done|]. rewrite <-IH by lia.
      rewrite <-!aget_nat. replace (Z.of_nat k) with (Z.of_nat (S k) - 1) by lia.
      apply Hadj. lia. }
    intros x y [i Hi]%list_elem_of_lookup [j Hj]%list_elem_of_lookup.
    pose proof (H0 i (lookup_lt_Some _ _ _ Hi)). pose proof (H0 j (lookup_lt_Some _ _ _ Hj)).
    congruence.
  - intros Hall j Hj.
    destruct (aget_Some array j) as (x & Hx & Hx'); [lia|].
    destruct (aget_Some array (j - 1)) as (y & Hy & Hy'); [lia|].
    rewrite Hx, Hy. f_equal. apply Hall; eapply list_elem_of_lookup_2; eassumption.
Qed.
End Stable.
