(* ===== verification/Stats.v ===== *)
(** * Stats: the statistics of [apps/sel4bench/src/math.c]

    [calculate_results] and the static functions it calls, in the arithmetic
    of the C types: [ccnt_t] values are [ccnt_bits]-bit words, [size_t] ones
    [seL4_WordBits]-bit words, [float]/[double]/[long double] the formats of
    Floats.  The two accumulation loops are written over a class of
    arithmetics, whose instances are a binary format (what the program
    computes) and the rationals (what the recurrence means). *)

From S2P Require Import Prelude Platform Memory Floats.
From stdpp Require Import sorting.
From Stdlib Require Import QArith Qcanon.

#[global] Open Scope Z_scope.

(** [result_t] *)
Record result_t := Result {
  variance : spec_float;
  stddev : spec_float;
  mean : spec_float;
  result_min : Z;
  result_max : Z;
  mode : Z;
  median : spec_float;
  first_quantile : spec_float;
  third_quantile : spec_float;
  samples : Z;
  raw_data : option ptr;
}.

(** [(result_t) { 0 }], and what [memset(&result, 0, sizeof(result))] leaves. *)
Definition result_zero : result_t :=
  let z := S754_zero false in Result z z z 0 0 0 z z z 0 None.

(** ** The accumulation loops *)

Class Arith (F : Type) := {
  a_of_Z : Z → F;
  a_add : F → F → F;
  a_sub : F → F → F;
  a_mul : F → F → F;
  a_div : F → F → F;
}.

Declare Scope arith_scope.
Delimit Scope arith_scope with arith.
Infix "+" := a_add : arith_scope.
Infix "-" := a_sub : arith_scope.
Infix "*" := a_mul : arith_scope.
Infix "/" := a_div : arith_scope.

Definition float_arith (f : format) : Arith spec_float := {|
  a_of_Z := of_Z f; a_add := fadd f; a_sub := fsub f; a_mul := fmul f; a_div := fdiv f |}.

Definition exact_arith : Arith Qc := {|
  a_of_Z := Qc_of_Z; a_add := Qcplus; a_sub := Qcminus;
  a_mul := Qcmult; a_div := Qcdiv |}.

Section loops.
Context `{Platform} {F : Type} {AF : Arith F}.

(** [for (i = 0; i < n; i++) mean += (array[i] - mean) / (i + 1);] *)
Fixpoint results_mean_loop (i : Z) (array : list Z) (mean : F) : F :=
  match array with
  | [] => mean
  | x :: array =>
      results_mean_loop (i ⊞[seL4_WordBits] 1) array
        (mean + (a_of_Z x - mean) / a_of_Z (i ⊞[seL4_WordBits] 1))%arith
  end.

(** [delta = (long double) array[i] - (long double) mean;
     variance += (delta * delta - variance) / (i + 1);] *)
Fixpoint results_variance_loop (i : Z) (array : list Z) (mean variance : F) : F :=
  match array with
  | [] => variance
  | x :: array =>
      let delta := (a_of_Z x - mean)%arith in
      results_variance_loop (i ⊞[seL4_WordBits] 1) array mean
        (variance + (delta * delta - variance) / a_of_Z (i ⊞[seL4_WordBits] 1))%arith
  end.

(** [(dsum2 - 2 * dm * dsum + num * dm * dm) / num] *)
Definition variance_of_sums (num sum sum2 mean : Z) : F :=
  let dm := a_of_Z mean in
  let dsum := a_of_Z sum in
  let dsum2 := a_of_Z sum2 in
  ((dsum2 - a_of_Z 2 * dm * dsum + a_of_Z num * dm * dm) / a_of_Z num)%arith.
End loops.

(** ** The functions of math.c *)
Section math.
Context `{Platform}.

#[local] Existing Instance float_arith.

Definition size_of (array : list Z) : Z := Z.of_nat (length array).

(** [static double results_mean(n, array)]; [n] is the array's length. *)
Definition results_mean (array : list Z) : spec_float :=
  convert double
    (fround long_double
      (results_mean_loop (AF := float_arith long_double) 0 array (of_Z long_double 0))).

(** [static double results_variance(n, array, mean)] *)
Definition results_variance (array : list Z) (mean : Z) : spec_float :=
  fround double
    (convert double
      (results_variance_loop (AF := float_arith long_double) 0 array
         (of_Z long_double mean) (of_Z long_double 0))).

(** [(double) n / (double)(n - 1.0f)] *)
Definition bessel (n : Z) : spec_float :=
  fdiv double (of_Z double n)
    (convert double (fsub single (of_Z single n) (of_Z single 1))).

(** [static double results_stddev(n, array, variance)] *)
Definition results_stddev (array : list Z) (variance : spec_float) : spec_float :=
  fsqrt double
    (convert double
      (fmul long_double variance (convert long_double (bessel (size_of array))))).

(** [static double results_median(n, sorted_data)] *)
Definition results_median (sorted_data : list Z) : outcome spec_float :=
  let n := size_of sorted_data in
  let lhs := (n ⊟[seL4_WordBits] 1) `div` 2 in
  let rhs := n `div` 2 in
  let stride := 1 in
  if n =? 0 then Ok (of_Z double 0)
  else if lhs =? rhs then
    x ← defined (aget sorted_data (lhs * stride));
    Ok (of_Z double x)
  else
    x ← defined (aget sorted_data (lhs * stride));
    y ← defined (aget sorted_data (rhs * stride));
    Ok (fdiv double (of_Z double (x ⊞[ccnt_bits] y)) (of_Z double 2)).

(** [static double results_quantile(n, sorted_data, quantile)] *)
Definition results_quantile (sorted_data : list Z) (quantile : spec_float)
  : outcome spec_float :=
  let n := size_of sorted_data in
  let index := fmul double quantile (of_Z double (n ⊟[seL4_WordBits] 1)) in
  lhs ← (i ← to_int index; Ok (wrap seL4_WordBits i));
  let delta := fsub double index (of_Z double lhs) in
  let stride := 1 in
  if n =? 0 then Ok (of_Z double 0)
  else if lhs =? (n ⊟[seL4_WordBits] 1) then
    x ← defined (aget sorted_data (lhs * stride));
    Ok (of_Z double x)
  else
    x ← defined (aget sorted_data (lhs * stride));
    y ← defined (aget sorted_data ((lhs + 1) * stride));
    Ok (fadd double
          (fmul double (fsub double (of_Z double 1) delta) (of_Z double x))
          (fmul double delta (of_Z double y))).

(** The loop of [results_mode]. *)
Fixpoint results_mode_loop (rest : list Z) (mode current_value current_freq mode_freq : Z) : Z :=
  match rest with
  | [] => mode
  | x :: rest =>
      if current_value =? x then
        results_mode_loop rest mode current_value (current_freq ⊞[ccnt_bits] 1) mode_freq
      else if mode_freq <? current_freq then
        results_mode_loop rest current_value x 1 current_freq
      else
        results_mode_loop rest mode x 1 mode_freq
  end.

(** [static ccnt_t results_mode(n, sorted_data)]; the assignment to
    [mode_freq] that follows the loop is dead. *)
Definition results_mode (sorted_data : list Z) : Z :=
  match sorted_data with
  | [] => 0
  | [x] => x
  | x :: rest => results_mode_loop rest x x 1 0
  end.

(** [(first > second) - (first < second)] *)
Definition ccnt_compare_fn (first second : Z) : Z :=
  (if second <? first then 1 else 0) - (if first <? second then 1 else 0).

(** [qsort(data, n, sizeof(ccnt_t), compare)] *)
Definition before (compare : Z → Z → Z) (x y : Z) : Prop := compare x y <= 0.
#[export] Instance before_dec compare x y : Decision (before compare x y).
Proof. unfold before. apply _. Defined.
Definition qsort (compare : Z → Z → Z) (data : list Z) : list Z :=
  merge_sort (before compare) data.

(** [0.25f] and [0.75f], promoted to [double]. *)
Definition quantile_25 : spec_float :=
  convert double (fdiv single (of_Z single 1) (of_Z single 4)).
Definition quantile_75 : spec_float :=
  convert double (fdiv single (of_Z single 3) (of_Z single 4)).

(** [result_t calculate_results(n, data)]; [p] is the pointer [data], which
    the result keeps. *)
Definition calculate_results (data : list Z) (p : ptr) : outcome result_t :=
  let n := size_of data in
  let sorted_data := qsort ccnt_compare_fn data in
  min ← defined (aget sorted_data 0);
  max ← defined (aget sorted_data (n ⊟[seL4_WordBits] 1));
  _ ← assert_ (min <=? max);
  let mean := results_mean sorted_data in
  mean_ccnt ← to_unsigned ccnt_bits mean;
  let variance := results_variance sorted_data mean_ccnt in
  let stddev := results_stddev sorted_data (convert long_double variance) in
  median ← results_median sorted_data;
  first_quantile ← results_quantile sorted_data quantile_25;
  third_quantile ← results_quantile sorted_data quantile_75;
  Ok (Result variance stddev mean min max (results_mode sorted_data)
        median first_quantile third_quantile n (Some p)).

(** [static double results_variance_early_proc(num, sum, sum2, mean)] *)
Definition results_variance_early_proc (num sum sum2 mean : Z) : spec_float :=
  convert double (variance_of_sums (AF := float_arith long_double) num sum sum2 mean).

(** [result_t calculate_results_early_proc(num, sum, sum2)] *)
Definition calculate_results_early_proc (num sum sum2 : Z) : outcome result_t :=
  if num =? 0 then Undef
  else
    let mean := of_Z double (sum `div` num) in
    mean_ccnt ← to_unsigned ccnt_bits mean;
    let variance := results_variance_early_proc (wrap seL4_WordBits num) sum sum2 mean_ccnt in
    let stddev := fsqrt double (fmul double variance (bessel num)) in
    let z := of_Z double 0 in
    Ok (Result variance stddev mean 0 0 0 z z z (wrap seL4_WordBits num) None).
End math.


(** How often [v] occurs. *)
Fixpoint freq (v : Z) (l : list Z) : Z :=
  match l with [] => 0 | x :: l => (if decide (x = v) then 1 else 0) + freq v l end.

(** ** Sorting *)

#[export] Instance before_ccnt_total : Total (before ccnt_compare_fn).
Proof.
  intros x y. unfold before, ccnt_compare_fn.
  destruct (Z.ltb_spec x y), (Z.ltb_spec y x); (left; lia) || (right; lia).
Qed.

Lemma before_ccnt x y : before ccnt_compare_fn x y ↔ x <= y.
Proof.
  unfold before, ccnt_compare_fn. destruct (Z.ltb_spec x y), (Z.ltb_spec y x); lia.
Qed.

#[export] Instance before_ccnt_trans : Transitive (before ccnt_compare_fn).
Proof. intros x y z. rewrite !before_ccnt. lia. Qed.

#[export] Instance before_ccnt_antisymm : AntiSymm (=) (before ccnt_compare_fn).
Proof. intros x y. rewrite !before_ccnt. lia. Qed.

Notation sorted := (StronglySorted (before ccnt_compare_fn)).

Lemma qsort_sorted data : sorted (qsort ccnt_compare_fn data).
Proof. apply StronglySorted_merge_sort; apply _. Qed.

Lemma qsort_permutation data : qsort ccnt_compare_fn data ≡ₚ data.
Proof. apply merge_sort_Permutation. Qed.

(** The C standard fixes neither the algorithm nor its stability: whatever
    [qsort] returns, it is this list. *)
Lemma qsort_unique data data' :
  sorted data' → data' ≡ₚ data → data' = qsort ccnt_compare_fn data.
Proof.
  intros Hs Hp. apply (StronglySorted_unique (before ccnt_compare_fn)); [done|apply qsort_sorted|].
  by rewrite qsort_permutation.
Qed.

Lemma qsort_length data : length (qsort ccnt_compare_fn data) = length data.
Proof. apply Permutation_length, qsort_permutation. Qed.

Lemma sorted_constant n c : sorted (replicate n c).
Proof.
  induction n; constructor; [done|]. apply Forall_replicate. by rewrite before_ccnt.
Qed.

Lemma qsort_constant n c : qsort ccnt_compare_fn (replicate n c) = replicate n c.
Proof. symmetry. apply qsort_unique; [apply sorted_constant|done]. Qed.

Lemma sorted_lookup l i j x y :
  sorted l → l !! i = Some x → l !! j = Some y → (i <= j)%nat → x <= y.
Proof.
  intros Hs. revert i j. induction Hs as [|z l Hs IH Hz]; intros i j Hi Hj Hij; [done|].
  rewrite list.Forall_forall in Hz.
  destruct i as [|i], j as [|j]; simplify_eq/=; [lia| |lia|].
  - apply before_ccnt, Hz. by eapply list_elem_of_lookup_2.
  - eapply IH; [done..|lia].
Qed.

(** The first and the last element of a sorted array bound the others. *)
Lemma sorted_bounds l x : sorted l → x ∈ l →
  ∃ a b, l !! 0%nat = Some a ∧ l !! (length l - 1)%nat = Some b ∧ a <= x <= b.
Proof.
  intros Hs [i Hi]%list_elem_of_lookup. pose proof (lookup_lt_Some _ _ _ Hi).
  destruct (lookup_lt_is_Some_2 l 0%nat) as [a Ha]; [lia|].
  destruct (lookup_lt_is_Some_2 l (length l - 1)%nat) as [b Hb]; [lia|].
  exists a, b. split; [done|]. split; [done|].
  split; eapply (sorted_lookup l); try done; lia.
Qed.

(** ** The mode *)

Lemma freq_app v l1 l2 : freq v (l1 ++ l2) = freq v l1 + freq v l2.
Proof. induction l1; simpl; lia. Qed.

Lemma freq_snoc_eq v l : freq v (l ++ [v]) = freq v l + 1.
Proof. rewrite freq_app. simpl. by rewrite decide_True. Qed.

Lemma freq_snoc_ne v l x : x ≠ v → freq v (l ++ [x]) = freq v l.
Proof. intros. rewrite freq_app. simpl. rewrite decide_False by done. lia. Qed.

Lemma freq_bounds v l : 0 <= freq v l <= size_of l.
Proof. unfold size_of. induction l; simpl; [lia|]. case_decide; lia. Qed.

Lemma freq_pos v l : v ∈ l ↔ 0 < freq v l.
Proof.
  induction l as [|x l IH]; simpl.
  - rewrite elem_of_nil. lia.
  - rewrite elem_of_cons, IH. pose proof (freq_bounds v l). case_decide; naive_solver lia.
Qed.

Section mode.
Context `{Platform}.

(** After the runs in [p] are read: the state of the loop of
    [results_mode]. *)
Definition mode_inv (p : list Z) (mode current_value current_freq mode_freq : Z) : Prop :=
  current_value ∈ p ∧ Forall (λ v, v <= current_value) p ∧
  current_freq = freq current_value p ∧
  (if decide (mode_freq = 0)
   then Forall (λ v, v = current_value) p ∧ mode = current_value
   else mode < current_value ∧ mode_freq = freq mode p ∧ 0 < mode_freq ∧
        (∀ v, v < current_value → freq v p <= mode_freq) ∧
        (∀ v, v < mode → freq v p < mode_freq)).

Lemma freq_above v c p : Forall (λ v, v <= c) p → c < v → freq v p = 0.
Proof.
  intros Hp Hv. pose proof (freq_bounds v p).
  destruct (decide (0 < freq v p)) as [Hf|]; [|lia].
  apply freq_pos in Hf. rewrite list.Forall_forall in Hp. specialize (Hp v Hf). lia.
Qed.

Lemma mode_inv_same p m cv cf mf :
  mode_inv p m cv cf mf → mode_inv (p ++ [cv]) m cv (cf + 1) mf.
Proof.
  intros (Hin & Hle & -> & Hm). unfold mode_inv.
  rewrite !Forall_app, !Forall_singleton, elem_of_app, freq_snoc_eq.
  split; [by left|]. split; [split; [done|lia]|]. split; [lia|].
  case_decide; [by rewrite Forall_app, Forall_singleton; destruct Hm|].
  destruct Hm as (Hlt & -> & Hpos & H1 & H2).
  split; [done|]. rewrite freq_snoc_ne by lia. split; [lia|]. split; [lia|].
  split; intros v Hv; rewrite freq_snoc_ne by lia; auto.
Qed.

(** Before a larger element, a run that is the longest so far beats every
    value below. *)
Lemma mode_inv_runs p m cv cf mf v :
  mode_inv p m cv cf mf → v ≠ cv → freq v p <= mf.
Proof.
  intros (Hin & Hle & -> & Hm) Hv.
  destruct (decide (cv < v)); [|revert Hm; case_decide as Hmf].
  - rewrite (freq_above v cv) by done. revert Hm. case_decide; lia.
  - intros [Hall _]. destruct (decide (0 < freq v p)) as [Hv'|]; [|lia].
    apply freq_pos in Hv'. rewrite list.Forall_forall in Hall. specialize (Hall v Hv'). lia.
  - intros (_ & _ & _ & H1 & _). apply H1. lia.
Qed.

Lemma mode_inv_new p m cv cf mf x :
  mode_inv p m cv cf mf → cv < x →
  if decide (mf < cf) then mode_inv (p ++ [x]) cv x 1 cf else mode_inv (p ++ [x]) m x 1 mf.
Proof.
  intros Hinv Hx.
  assert (Hruns : ∀ v, v ≠ cv → freq v p <= mf) by (intros; by eapply mode_inv_runs).
  destruct Hinv as (Hin & Hle & -> & Hm).
  assert (Hf : 0 < freq cv p) by by apply freq_pos.
  assert (Hle' : Forall (λ v, v <= x) (p ++ [x])).
  { apply Forall_app. split; [|apply Forall_singleton; lia].
    eapply Forall_impl; [done|simpl; lia]. }
  assert (Hfx : freq x (p ++ [x]) = 1).
  { rewrite freq_snoc_eq, (freq_above x cv) by done. done. }
  destruct (decide (mf < freq cv p)); (split; [apply elem_of_app; right; by left|split; [done|split; [done|]]]).
  - rewrite decide_False by lia. split; [done|]. rewrite freq_snoc_ne by lia.
    split; [done|]. split; [lia|].
    split; intros v Hv; rewrite freq_snoc_ne by lia.
    + destruct (decide (v = cv)) as [->|]; [lia|]. specialize (Hruns v ltac:(lia)). lia.
    + specialize (Hruns v ltac:(lia)). lia.
  - revert Hm. case_decide; [lia|]. intros (Hlt & -> & Hpos & H1 & H2).
    split; [lia|]. rewrite freq_snoc_ne by lia. split; [done|]. split; [done|].
    split; intros v Hv; rewrite freq_snoc_ne by lia; [|auto].
    destruct (decide (v = cv)) as [->|]; [lia|]. specialize (Hruns v ltac:(lia)). lia.
Qed.

Lemma results_mode_loop_inv p rest m cv cf mf :
  sorted (p ++ rest) → size_of (p ++ rest) < 2 ^ ccnt_bits →
  mode_inv p m cv cf mf →
  ∃ cv' cf' mf', mode_inv (p ++ rest) (results_mode_loop rest m cv cf mf) cv' cf' mf'.
Proof.
  revert p m cv cf mf. induction rest as [|x rest IH]; intros p m cv cf mf Hs Hlen Hinv.
  - rewrite app_nil_r. simpl. eauto.
  - assert (Hcv : cv <= x).
    { apply before_ccnt. eapply (StronglySorted_app_1_elem_of _ p); [done| |by left].
      apply Hinv. }
    assert (p ++ x :: rest = (p ++ [x]) ++ rest) as Hp by by rewrite <-app_assoc.
    rewrite Hp in Hs, Hlen |- *. cbn [results_mode_loop].
    destruct (Z.eqb_spec cv x) as [->|Hne].
    + rewrite wrap_small.
      * apply IH; [done..|]. by apply mode_inv_same.
      * destruct Hinv as (_ & _ & -> & _). pose proof (freq_bounds x p).
        unfold size_of, in_word in *. rewrite !length_app in Hlen. simpl in Hlen. lia.
    + pose proof (mode_inv_new p m cv cf mf x Hinv ltac:(lia)) as Hnew.
      destruct (Z.ltb_spec mf cf);
        [rewrite decide_True in Hnew by lia|rewrite decide_False in Hnew by lia]; by apply IH.
Qed.

Lemma results_mode_inv l :
  sorted l → l ≠ [] → size_of l < 2 ^ ccnt_bits →
  ∃ cv cf mf, mode_inv l (results_mode l) cv cf mf.
Proof.
  intros Hs Hne Hlen. destruct l as [|x [|y l]]; [done| |].
  - exists x, 1, 0. split; [by left|]. simpl. rewrite decide_True by done.
    repeat split; by repeat constructor.
  - apply (results_mode_loop_inv [x] (y :: l)); [done..|].
    split; [by left|]. simpl. rewrite decide_True by done.
    repeat split; by repeat constructor.
Qed.

(** C23.  What [results_mode] returns on sorted data: where all samples are
    equal, that sample; otherwise the smallest of the most frequent values
    {e below the maximum}.  The loop compares a run only when the next one
    starts, so the last run never takes part. *)
Theorem results_mode_correct l :
  sorted l → l ≠ [] → size_of l < 2 ^ ccnt_bits →
  let m := results_mode l in
  m ∈ l ∧
  ∃ b, b ∈ l ∧ Forall (λ v, v <= b) l ∧
    (m = b → Forall (λ v, v = b) l) ∧
    (m ≠ b → m < b ∧ ∀ v, v < b →
      freq v l <= freq m l ∧ (v < m → freq v l < freq m l)).
Proof.
  intros Hs Hne Hlen m.
  destruct (results_mode_inv l) as (cv & cf & mf & Hin & Hle & _ & Hm); [done..|].
  fold m in Hm. revert Hm. case_decide.
  - intros [Hall ->]. split; [done|]. exists cv. by repeat split.
  - intros (Hlt & Hmf & Hpos & H1 & H2). split; [apply freq_pos; lia|].
    exists cv. split; [done|]. split; [done|]. split; [lia|]. intros _. split; [done|].
    intros v Hv. rewrite <-Hmf. auto.
Qed.

(** The maximum is never reported as the mode of data that has another
    value, however often it occurs. *)
Theorem results_mode_not_max l b v :
  sorted l → size_of l < 2 ^ ccnt_bits →
  b ∈ l → Forall (λ v, v <= b) l → v ∈ l → v ≠ b → results_mode l ≠ b.
Proof.
  intros Hs Hlen Hb Hle Hv Hne Heq.
  destruct (results_mode_inv l) as (cv & cf & mf & Hin & Hle' & _ & Hm);
    [done|by intros ->; inversion Hb|done|].
  rewrite list.Forall_forall in Hle, Hle'.
  assert (cv = b) as -> by (specialize (Hle _ Hin); specialize (Hle' _ Hb); lia).
  rewrite Heq in Hm. revert Hm. case_decide; [|lia].
  intros [Hall _]. rewrite list.Forall_forall in Hall. by apply Hne, Hall.
Qed.
End mode.

(** ** Median and quantiles: exact on samples that fit a double *)
Section quantiles.
Context `{Platform}.

Lemma of_Z_double z : 0 <= z < 2 ^ 53 → of_Z double z = dyadic double z 0.
Proof. intros Hz. apply (of_Z_exact double); format_solve. Qed.

Lemma size_minus_1 l : l ≠ [] → size_of l < 2 ^ seL4_WordBits →
  size_of l ⊟[seL4_WordBits] 1 = size_of l - 1 ∧ 1 <= size_of l.
Proof.
  intros Hne Hl. destruct l as [|x l]; [done|]. unfold size_of in *. cbn [length] in *.
  split; [|lia]. apply wrap_small. unfold in_word. lia.
Qed.

Lemma aget_in l i : 0 <= i < size_of l → ∃ x, aget l i = Some x ∧ x ∈ l.
Proof.
  intros Hi. destruct (aget_Some l i Hi) as (x & Hx & Hx'). exists x. split; [done|].
  by eapply list_elem_of_lookup_2.
Qed.

Lemma results_median_exact l :
  l ≠ [] → size_of l < 2 ^ seL4_WordBits →
  Forall (λ x, 0 <= x ∧ 2 * x < 2 ^ 53 ∧ 2 * x < 2 ^ ccnt_bits) l →
  ∃ x y, aget l ((size_of l - 1) `div` 2) = Some x ∧ aget l (size_of l `div` 2) = Some y ∧
    results_median l = Ok (dyadic double (x + y) (-1)).
Proof.
  intros Hne Hlen Hall. destruct (size_minus_1 l Hne Hlen) as [Hsub Hpos].
  rewrite list.Forall_forall in Hall.
  destruct (aget_in l ((size_of l - 1) `div` 2)) as (x & Hx & Hxin).
  { split; [apply Z.div_pos; lia|]. apply Z.div_lt_upper_bound; lia. }
  destruct (aget_in l (size_of l `div` 2)) as (y & Hy & Hyin).
  { split; [apply Z.div_pos; lia|]. apply Z.div_lt_upper_bound; lia. }
  exists x, y. split; [done|]. split; [done|].
  destruct (Hall x Hxin) as (? & ? & ?), (Hall y Hyin) as (? & ? & ?).
  unfold results_median. rewrite Hsub, !Z.mul_1_r, Hx, Hy.
  destruct (Z.eqb_spec (size_of l) 0); [lia|]. cbn -[of_Z].
  destruct (Z.eqb_spec ((size_of l - 1) `div` 2) (size_of l `div` 2)) as [Heq|].
  - assert (y = x) as -> by congruence. f_equal.
    rewrite of_Z_double by lia.
    replace (x + x) with (x * 2 ^ 1) by lia.
    by rewrite (dyadic_shift double) by format_solve.
  - f_equal. rewrite wrap_small by (unfold in_word; lia).
    rewrite !of_Z_double by lia.
    change (dyadic double 2 0) with (dyadic double (1 * 2 ^ 1) 0).
    rewrite (dyadic_shift double) by format_solve.
    change (dyadic double 1 (0 + 1)) with (dyadic double 1 1).
    rewrite <-(Z.mul_1_r (x + y)) at 1.
    apply (fdiv_dyadic double (x + y) 1 0 1); format_solve.
Qed.

Lemma quantile_25_eq : quantile_25 = dyadic double 1 (-2).
Proof. by vm_compute. Qed.
Lemma quantile_75_eq : quantile_75 = dyadic double 3 (-2).
Proof. by vm_compute. Qed.

(** The index arithmetic of [results_quantile] for the quantile [q/4]:
    [(int)index] is the floor and [delta] the exact fractional part. *)
Lemma quantile_index q m :
  0 <= q < 4 → 0 <= m < 2 ^ 31 →
  let index := fmul double (dyadic double q (-2)) (of_Z double m) in
  to_int index = Ok ((q * m) `div` 4) ∧
  fsub double index (of_Z double ((q * m) `div` 4)) = dyadic double ((q * m) `mod` 4) (-2).
Proof.
  intros Hq Hm index. change (2 ^ 31) with 2147483648 in *.
  pose proof (Z.div_mod (q * m) 4 ltac:(lia)). pose proof (Z.mod_pos_bound (q * m) 4 ltac:(lia)).
  assert (0 <= (q * m) `div` 4 < 2147483648) by nia.
  assert (index = dyadic double (q * m) (-2)) as ->.
  { unfold index. rewrite of_Z_double by lia.
    apply (fmul_dyadic double q m (-2) 0); format_solve. }
  split.
  - unfold to_int. rewrite (truncate_dyadic double) by format_solve.
    change (2 ^ - -2) with 4. rewrite decide_True; [done|].
    change (2 ^ (int_bits - 1)) with 2147483648. lia.
  - rewrite of_Z_double by format_solve.
    change 0 with (-2 + 2) at 1. rewrite <-(dyadic_shift double) by format_solve.
    rewrite (fsub_dyadic double) by format_solve. f_equal. lia.
Qed.

Lemma results_quantile_exact l q :
  0 < q < 4 → l ≠ [] → size_of l <= 2 ^ 31 → Forall (λ x, 0 <= x < 2 ^ 51) l →
  let k := (q * (size_of l - 1)) `div` 4 in
  let d := (q * (size_of l - 1)) `mod` 4 in
  ∃ x y, aget l k = Some x ∧ (aget l (k + 1) = Some y ∨ size_of l = 1 ∧ y = x) ∧
    results_quantile l (dyadic double q (-2)) = Ok (dyadic double ((4 - d) * x + d * y) (-2)).
Proof.
  intros Hq Hne Hlen Hall k d. change (2 ^ 31) with 2147483648 in Hlen.
  assert (HW : 2 ^ 32 <= 2 ^ seL4_WordBits).
  { apply Z.pow_le_mono_r; [lia|]. destruct word_bits_law; lia. }
  change (2 ^ 32) with 4294967296 in HW.
  destruct (size_minus_1 l Hne) as [Hsub Hpos]; [lia|].
  rewrite list.Forall_forall in Hall.
  destruct (quantile_index q (size_of l - 1)) as [Hi Hdelta]; [lia|change (2 ^ 31) with 2147483648; lia|].
  fold k in Hi, Hdelta. fold d in Hdelta.
  pose proof (Z.div_mod (q * (size_of l - 1)) 4 ltac:(lia)) as Hdm. fold k d in Hdm.
  pose proof (Z.mod_pos_bound (q * (size_of l - 1)) 4 ltac:(lia)) as Hd. fold d in Hd.
  assert (0 <= k < size_of l) as Hkb by nia.
  destruct (aget_in l k) as (x & Hx & Hxin); [lia|].
  assert (0 <= x < 2251799813685248) as Hxb by by apply Hall.
  assert (Hwk : wrap seL4_WordBits k = k) by (apply wrap_small; unfold in_word; lia).
  unfold results_quantile. rewrite Hsub, Hi.
  cbn -[of_Z fmul fsub]. rewrite Hwk, Hdelta, !Z.mul_1_r, Hx.
  destruct (Z.eqb_spec (size_of l) 0); [lia|].
  destruct (Z.eqb_spec k (size_of l - 1)) as [Hk|Hk].
  - exists x, x. split; [done|]. split; [right; split; [nia|done]|]. cbn -[of_Z].
    rewrite of_Z_double by format_solve.
    replace ((4 - d) * x + d * x) with (x * 2 ^ 2) by lia.
    by rewrite (dyadic_shift double) by format_solve.
  - destruct (aget_in l (k + 1)) as (y & Hy & Hyin); [lia|].
    assert (0 <= y < 2251799813685248) as Hyb by by apply Hall.
    exists x, y. split; [done|]. split; [by left|]. rewrite Hy. cbn -[of_Z fadd fsub fmul].
    rewrite !of_Z_double by format_solve.
    change (dyadic double 1 0) with (dyadic double 4 (-2)).
    rewrite (fsub_dyadic double) by format_solve.
    rewrite !(fmul_dyadic double) by format_solve.
    change (-2 + 0) with (-2).
    rewrite (fadd_dyadic double) by format_solve.
    done.
Qed.
End quantiles.

(** ** Constant data *)
Section constant.
Context `{Platform}.

#[local] Notation ld := long_double.

Lemma of_Z_ld z : 0 <= z < 2 ^ 53 → of_Z ld z = dyadic ld z 0.
Proof.
  intros Hz. apply (of_Z_exact ld). pose proof ld_law.
  pose proof (Z.pow_le_mono_r 2 53 ld_prec). simpl. lia.
Qed.

Lemma fits_ld z : 0 <= z < 2 ^ 53 → fits ld z 0.
Proof.
  intros Hz. pose proof ld_law. pose proof (Z.pow_le_mono_r 2 53 ld_prec).
  unfold fits. simpl. lia.
Qed.

Lemma ld_sub_self z : 0 <= z < 2 ^ 53 → fsub ld (dyadic ld z 0) (dyadic ld z 0) = S754_zero false.
Proof.
  intros Hz. rewrite (fsub_dyadic ld) by (by apply fits_ld || lia). by rewrite Z.sub_diag.
Qed.

Lemma ld_add_zero z : fadd ld (dyadic ld z 0) (S754_zero false) = dyadic ld z 0.
Proof. by destruct z. Qed.

Lemma ld_zero_div n : 0 < n → fdiv ld (S754_zero false) (dyadic ld n 0) = S754_zero false.
Proof. by destruct n. Qed.

Lemma index_succ i n : 0 <= i → i + n < 2 ^ 24 → 0 < n →
  of_Z ld (i ⊞[seL4_WordBits] 1) = dyadic ld (i + 1) 0 ∧ i ⊞[seL4_WordBits] 1 = i + 1.
Proof.
  intros Hi Hn Hp. change (2 ^ 24) with 16777216 in Hn.
  assert (HW : 2 ^ 32 <= 2 ^ seL4_WordBits).
  { apply Z.pow_le_mono_r; [lia|]. destruct word_bits_law; lia. }
  change (2 ^ 32) with 4294967296 in HW.
  rewrite wrap_small by (unfold in_word; lia). split; [|done].
  apply of_Z_ld. change (2 ^ 53) with 9007199254740992. lia.
Qed.

(** Once the running mean is [c], samples equal to [c] leave it. *)
Lemma mean_loop_steady c i n : 0 <= c < 2 ^ 53 → 0 <= i → i + Z.of_nat n < 2 ^ 24 →
  results_mean_loop (AF := float_arith ld) i (replicate n c) (dyadic ld c 0) = dyadic ld c 0.
Proof.
  intros Hc. revert i. induction n as [|n IH]; intros i Hi Hn; [done|].
  cbn [replicate results_mean_loop float_arith a_of_Z a_add a_sub a_div].
  destruct (index_succ i (Z.of_nat (S n))) as [-> ->]; [lia..|].
  rewrite of_Z_ld, ld_sub_self, ld_zero_div, ld_add_zero by lia. apply IH; lia.
Qed.

Lemma results_mean_constant c n : 0 <= c < 2 ^ 53 → Z.of_nat (S n) < 2 ^ 24 →
  results_mean (replicate (S n) c) = dyadic double c 0.
Proof.
  intros Hc Hn. unfold results_mean.
  cbn [replicate results_mean_loop float_arith a_of_Z a_add a_sub a_div].
  destruct (index_succ 0 1) as [-> ->]; [lia|change (2 ^ 24) with 16777216; lia|lia|].
  rewrite !of_Z_ld by lia. change (0 + 1) with 1.
  assert (fsub ld (dyadic ld c 0) (dyadic ld 0 0) = dyadic ld c 0) as -> by by destruct c.
  assert (fdiv ld (dyadic ld c 0) (dyadic ld 1 0) = dyadic ld c 0) as ->.
  { rewrite <-(Z.mul_1_r c) at 1.
    apply (fdiv_dyadic ld c 1 0 0); [lia|rewrite Z.mul_1_r|..]; apply fits_ld; lia. }
  assert (fadd ld (dyadic ld 0 0) (dyadic ld c 0) = dyadic ld c 0) as -> by by destruct c.
  rewrite mean_loop_steady by lia.
  destruct (fits_ld c Hc) as (? & ?).
  rewrite (fround_dyadic ld) by done. apply (convert_dyadic ld double); [done|].
  format_solve.
Qed.

Lemma variance_loop_steady c i n : 0 <= c < 2 ^ 53 → 0 <= i → i + Z.of_nat n < 2 ^ 24 →
  results_variance_loop (AF := float_arith ld) i (replicate n c) (dyadic ld c 0) (S754_zero false)
    = S754_zero false.
Proof.
  intros Hc. revert i. induction n as [|n IH]; intros i Hi Hn; [done|].
  cbn [replicate results_variance_loop float_arith a_of_Z a_add a_sub a_div a_mul].
  destruct (index_succ i (Z.of_nat (S n))) as [-> ->]; [lia..|].
  rewrite of_Z_ld, ld_sub_self by lia.
  assert (fsub ld (fmul ld (S754_zero false) (S754_zero false)) (S754_zero false) = S754_zero false)
    as -> by done.
  rewrite ld_zero_div by lia. apply IH; lia.
Qed.

Lemma results_variance_constant c n : 0 <= c < 2 ^ 53 → Z.of_nat n < 2 ^ 24 →
  results_variance (replicate n c) c = S754_zero false.
Proof.
  intros Hc Hn. unfold results_variance. rewrite !of_Z_ld by lia.
  change (dyadic ld 0 0) with (S754_zero false). by rewrite variance_loop_steady by lia.
Qed.

Lemma bessel_finite n : 2 <= n < 2 ^ 24 →
  ∃ c k, bessel n = dyadic double c k ∧ 0 < c < 2 ^ 53 ∧ -106 <= k <= 2.
Proof.
  intros Hn. change (2 ^ 24) with 16777216 in Hn. unfold bessel.
  rewrite !(of_Z_exact single) by format_solve.
  rewrite (fsub_dyadic single) by format_solve.
  rewrite (convert_dyadic single double) by format_solve.
  rewrite of_Z_double by format_solve.
  apply (fdiv_finite double); format_solve.
Qed.

(** [variance * ((double) n / (double)(n - 1.0f))] of a zero variance: zero,
    except for one sample, where the factor is infinite. *)
Lemma zero_variance_stddev n :
  1 <= n < 2 ^ 24 →
  fsqrt double (convert double
    (fmul ld (S754_zero false) (convert ld (bessel n)))) =
    (if decide (n = 1) then S754_nan else S754_zero false) ∧
  fsqrt double (fmul double (S754_zero false) (bessel n)) =
    (if decide (n = 1) then S754_nan else S754_zero false).
Proof.
  intros Hn. case_decide as H1.
  - subst n. assert (bessel 1 = S754_infinity false) as -> by by vm_compute. done.
  - destruct (bessel_finite n) as (c & k & -> & Hc & Hk); [lia|].
    assert (fits ld c k) as Hf.
    { pose proof ld_law. pose proof (Z.pow_le_mono_r 2 53 ld_prec). unfold fits. simpl. lia. }
    rewrite (convert_dyadic double ld) by (done || (simpl; lia)).
    split; rewrite fmul_zero_finite by (destruct c; [lia|done|lia]); done.
Qed.

Lemma aget_constant (c : Z) n i x : aget (replicate n c) i = Some x → x = c.
Proof.
  unfold aget. destruct (0 <=? i); [|done]. intros Hx. by apply lookup_replicate_1 in Hx as [-> _].
Qed.

Lemma size_constant c n : size_of (replicate n c) = Z.of_nat n.
Proof. unfold size_of. by rewrite length_replicate. Qed.

Lemma median_constant c n :
  0 < Z.of_nat n < 2 ^ 24 → 0 <= c < 2 ^ 51 → 2 * c < 2 ^ ccnt_bits →
  results_median (replicate n c) = Ok (dyadic double c 0).
Proof.
  intros Hn Hc Hcc. change (2 ^ 24) with 16777216 in Hn. change (2 ^ 51) with 2251799813685248 in Hc.
  assert (HW : 2 ^ 32 <= 2 ^ seL4_WordBits).
  { apply Z.pow_le_mono_r; [lia|]. destruct word_bits_law; lia. }
  change (2 ^ 32) with 4294967296 in HW.
  destruct (results_median_exact (replicate n c)) as (x & y & Hx & Hy & ->).
  - destruct n; [lia|done].
  - rewrite size_constant. lia.
  - apply Forall_replicate. change (2 ^ 53) with 9007199254740992. lia.
  - apply aget_constant in Hx as ->. apply aget_constant in Hy as ->.
    replace (c + c) with (c * 2 ^ 1) by lia. by rewrite (dyadic_shift double) by format_solve.
Qed.

Lemma quantile_constant c n q :
  0 < q < 4 → 0 < Z.of_nat n < 2 ^ 24 → 0 <= c < 2 ^ 51 →
  results_quantile (replicate n c) (dyadic double q (-2)) = Ok (dyadic double c 0).
Proof.
  intros Hq Hn Hc. change (2 ^ 24) with 16777216 in Hn.
  destruct (results_quantile_exact (replicate n c) q) as (x & y & Hx & Hy & ->).
  - done.
  - destruct n; [lia|done].
  - rewrite size_constant. change (2 ^ 31) with 2147483648. lia.
  - by apply Forall_replicate.
  - apply aget_constant in Hx as ->.
    assert (y = c) as -> by (destruct Hy as [Hy%aget_constant| [_ ->]]; done).
    set (d := _ `mod` 4). replace ((4 - d) * c + d * c) with (c * 2 ^ 2) by lia.
    change (2 ^ 51) with 2251799813685248 in Hc.
    by rewrite (dyadic_shift double) by format_solve.
Qed.

Lemma mode_constant c n : 0 < Z.of_nat n < 2 ^ ccnt_bits → results_mode (replicate n c) = c.
Proof.
  intros Hn. destruct (results_mode_inv (replicate n c)) as (cv & cf & mf & Hin & _ & _ & Hm).
  - apply sorted_constant.
  - destruct n; [lia|done].
  - rewrite size_constant. lia.
  - apply elem_of_replicate_inv in Hin as ->. revert Hm. case_decide; [by intros [_ ->]|].
    intros (_ & Hmf & Hpos & _). rewrite Hmf in Hpos. apply freq_pos in Hpos.
    by apply elem_of_replicate_inv in Hpos.
Qed.

Lemma to_unsigned_exact w c : 0 <= c < 2 ^ 53 → in_word w c →
  to_unsigned w (dyadic double c 0) = Ok c.
Proof.
  intros Hc Hw. unfold to_unsigned. rewrite (truncate_dyadic double) by (done || lia).
  change (2 ^ - 0) with 1. rewrite Z.div_1_r. by rewrite decide_True.
Qed.

(** An array of [n] equal samples is summarised exactly, on every target:
    minimum, maximum, mode, mean, median and quantiles are the sample, the
    variance is zero, and the standard deviation is zero; except that for a
    single sample it is [0 * inf], not a number. *)
Theorem calculate_results_constant c n p :
  0 < Z.of_nat n < 2 ^ 24 → 0 <= c < 2 ^ 51 → 2 * c < 2 ^ ccnt_bits →
  let x := dyadic double c 0 in
  let z := S754_zero false in
  calculate_results (replicate n c) p =
    Ok (Result z (if decide (Z.of_nat n = 1) then S754_nan else z)
          x c c c x x x (Z.of_nat n) (Some p)).
Proof.
  intros Hn Hc Hcc x z. unfold calculate_results. rewrite qsort_constant, size_constant.
  assert (Hc53 : 0 <= c < 2 ^ 53).
  { change (2 ^ 51) with 2251799813685248 in Hc.
    change (2 ^ 53) with 9007199254740992. lia. }
  assert (HW : 2 ^ 32 <= 2 ^ seL4_WordBits ∧ 2 ^ 32 <= 2 ^ ccnt_bits).
  { split; (apply Z.pow_le_mono_r; [lia|]); destruct ccnt_bits_law, word_bits_law; lia. }
  assert (Hn' : 0 < Z.of_nat n < 2 ^ 32) by (split; [lia|]; etransitivity; [apply Hn|done]).
  rewrite wrap_small by (unfold in_word; lia).
  destruct (aget_in (replicate n c) 0) as (a & Ha & _); [rewrite size_constant; lia|].
  destruct (aget_in (replicate n c) (Z.of_nat n - 1)) as (b & Hb & _);
    [rewrite size_constant; lia|].
  rewrite Ha, Hb. apply aget_constant in Ha as ->. apply aget_constant in Hb as ->.
  cbn -[results_mean results_variance results_stddev results_median results_quantile
        results_mode to_unsigned]. rewrite Z.leb_refl.
  cbn -[results_mean results_variance results_stddev results_median results_quantile
        results_mode to_unsigned].
  assert (results_mean (replicate n c) = x) as ->.
  { destruct n as [|n]; [lia|]. apply results_mean_constant; [done|lia]. }
  assert (to_unsigned ccnt_bits x = Ok c) as ->.
  { apply to_unsigned_exact; [done|]. unfold in_word. lia. }
  cbn -[results_variance results_stddev results_median results_quantile results_mode].
  rewrite results_variance_constant by (done || lia).
  rewrite median_constant, quantile_25_eq, quantile_75_eq, !quantile_constant by (done || lia).
  rewrite mode_constant by lia. cbn -[results_stddev].
  unfold results_stddev. rewrite size_constant. cbn [convert].
  destruct (zero_variance_stddev (Z.of_nat n)) as [-> _]; [lia|]. done.
Qed.
End constant.

(** ** The recurrences in exact arithmetic *)
Section exact_loops.
Context `{Platform}.
#[local] Open Scope Qc_scope.

Definition sumQ (f : Z → Qc) (l : list Z) : Qc := foldr (λ x s, f x + s) 0 l.

Lemma sumQ_of_Z g l : sumQ (λ x, Qc_of_Z (g x)) l = Qc_of_Z (sumZ (g <$> l)).
Proof.
  induction l as [|x l IH]; [by apply Qc_is_canon|].
  cbn [fmap list_fmap sumZ]. by rewrite Z2Qc_inj_add, <-IH.
Qed.

Lemma Qc_of_Z_pos z : (0 < z)%Z → Qc_of_Z z ≠ 0.
Proof. intros Hz Heq. rewrite <-Z2Qc_inj_0 in Heq. apply Z2Qc_inj in Heq. lia. Qed.

Lemma quotient_of n x s : n ≠ 0 → n * x = 0 * 0 + s → x = s / n.
Proof. intros Hn Hx. replace s with (n * x) by (rewrite Hx; ring). field. done. Qed.

Lemma step_index i (l : list Z) x :
  (0 <= i)%Z → (i + size_of (x :: l) < 2 ^ seL4_WordBits)%Z →
  i ⊞[seL4_WordBits] 1 = (i + 1)%Z ∧ (0 <= i + 1)%Z ∧ (i + 1 + size_of l < 2 ^ seL4_WordBits)%Z ∧
  Qc_of_Z (i + size_of (x :: l)) = Qc_of_Z (i + 1 + size_of l).
Proof.
  unfold size_of. cbn [length]. intros Hi Hl. rewrite wrap_small by (unfold in_word; lia).
  repeat split; try lia. f_equal. lia.
Qed.

Lemma mean_loop_sum i l m :
  (0 <= i)%Z → (i + size_of l < 2 ^ seL4_WordBits)%Z →
  Qc_of_Z (i + size_of l) * results_mean_loop (AF := exact_arith) i l m =
    Qc_of_Z i * m + sumQ Qc_of_Z l.
Proof.
  revert i m. induction l as [|x l IH]; intros i m Hi Hl.
  - simpl. rewrite Z.add_0_r. ring.
  - cbn [results_mean_loop exact_arith a_of_Z a_add a_sub a_div sumQ foldr].
    destruct (step_index i l x Hi Hl) as (-> & Hi' & Hl' & ->). rewrite IH by done. unfold sumQ.
    rewrite Z2Qc_inj_add. pose proof (Qc_of_Z_pos (i + 1) ltac:(lia)) as Hne.
    rewrite Z2Qc_inj_add in Hne. rewrite Z2Qc_inj_1 in *. field. done.
Qed.

Lemma variance_loop_sum i l m v :
  (0 <= i)%Z → (i + size_of l < 2 ^ seL4_WordBits)%Z →
  Qc_of_Z (i + size_of l) * results_variance_loop (AF := exact_arith) i l m v =
    Qc_of_Z i * v + sumQ (λ x, (Qc_of_Z x - m) * (Qc_of_Z x - m)) l.
Proof.
  revert i v. induction l as [|x l IH]; intros i v Hi Hl.
  - simpl. rewrite Z.add_0_r. ring.
  - cbn [results_variance_loop exact_arith a_of_Z a_add a_sub a_div a_mul sumQ foldr].
    destruct (step_index i l x Hi Hl) as (-> & Hi' & Hl' & ->). rewrite IH by done. unfold sumQ.
    rewrite Z2Qc_inj_add. pose proof (Qc_of_Z_pos (i + 1) ltac:(lia)) as Hne.
    rewrite Z2Qc_inj_add in Hne. rewrite Z2Qc_inj_1 in *. field. done.
Qed.

Lemma sum_of_squares l m :
  sumQ (λ x, (Qc_of_Z x - m) * (Qc_of_Z x - m)) l =
  sumQ (λ x, Qc_of_Z (x * x)) l - (1 + 1) * m * sumQ Qc_of_Z l + Qc_of_Z (size_of l) * m * m.
Proof.
  induction l as [|x l IH]; unfold sumQ; simpl; [change (size_of []) with 0%Z; rewrite Z2Qc_inj_0; ring|].
  fold (sumQ (λ x, (Qc_of_Z x - m) * (Qc_of_Z x - m)) l). rewrite IH. unfold sumQ.
  replace (size_of (x :: l)) with (size_of l + 1)%Z by (unfold size_of; simpl; lia).
  rewrite Z2Qc_inj_add, Z2Qc_inj_mul, Z2Qc_inj_1. ring.
Qed.

(** C22.  In exact arithmetic the recurrence of [results_mean] is the
    arithmetic mean, the one of [results_variance] the mean squared distance
    to [mean], and the closed formula of the early-processing variance,
    applied to the sums of the same samples, is that same number. *)
Theorem recurrences_exact l m :
  l ≠ [] → (size_of l < 2 ^ seL4_WordBits)%Z →
  let n := size_of l in
  results_mean_loop (AF := exact_arith) 0 l 0 = sumQ Qc_of_Z l / Qc_of_Z n ∧
  results_variance_loop (AF := exact_arith) 0 l (Qc_of_Z m) 0 =
    sumQ (λ x, (Qc_of_Z x - Qc_of_Z m) * (Qc_of_Z x - Qc_of_Z m)) l / Qc_of_Z n ∧
  variance_of_sums (AF := exact_arith) n (sumZ l) (sumZ ((λ x, (x * x)%Z) <$> l)) m =
    results_variance_loop (AF := exact_arith) 0 l (Qc_of_Z m) 0.
Proof.
  intros Hne Hl n.
  assert (Hn : Qc_of_Z n ≠ 0).
  { apply Qc_of_Z_pos. destruct l; [done|]. unfold n, size_of. simpl. lia. }
  pose proof (mean_loop_sum 0 l 0 ltac:(lia) Hl) as Hm.
  pose proof (variance_loop_sum 0 l (Qc_of_Z m) 0 ltac:(lia) Hl) as Hv.
  rewrite Z.add_0_l in Hm, Hv. fold n in Hm, Hv. rewrite Z2Qc_inj_0 in Hm, Hv.
  assert (Hv' : results_variance_loop (AF := exact_arith) 0 l (Qc_of_Z m) 0 =
    sumQ (λ x, (Qc_of_Z x - Qc_of_Z m) * (Qc_of_Z x - Qc_of_Z m)) l / Qc_of_Z n).
  { by apply quotient_of. }
  split; [by apply quotient_of|]. split; [done|].
  rewrite Hv', sum_of_squares. unfold variance_of_sums.
  cbn [exact_arith a_of_Z a_add a_sub a_div a_mul]. fold n.
  rewrite <-sumQ_of_Z. replace (sumZ l) with (sumZ (id <$> l)) by by rewrite list_fmap_id.
  rewrite <-sumQ_of_Z. change 2%Z with (1 + 1)%Z.
  by rewrite Z2Qc_inj_add, Z2Qc_inj_1.
Qed.
End exact_loops.

(** ** Witnesses *)
Lemma results_mode_correct_witness :
  let l := [1; 1; 2; 2; 3; 3; 3] in
  let m := results_mode (H := x86_64) l in
  m ∈ l ∧
  ∃ b, b ∈ l ∧ Forall (λ v, v <= b) l ∧
    (m = b → Forall (λ v, v = b) l) ∧
    (m ≠ b → m < b ∧ ∀ v, v < b →
      freq v l <= freq m l ∧ (v < m → freq v l < freq m l)).
Proof. apply (@results_mode_correct x86_64); [|done|done]. by apply (bool_decide_eq_true_1 _). Defined.

(** Three of the four samples are 2, and 2 is not the mode. *)
Lemma results_mode_not_max_witness : results_mode (H := x86_64) [1; 2; 2; 2] ≠ 2.
Proof.
  apply (@results_mode_not_max x86_64 [1; 2; 2; 2] 2 1); try done.
  - by apply (bool_decide_eq_true_1 _).
  - right; by left.
  - by repeat constructor.
  - by left.
Defined.

Lemma calculate_results_constant_witness :
  let x := dyadic double 812 0 in
  let z := S754_zero false in
  calculate_results (H := aarch32) (replicate 16 812) (Ptr 1 0) =
    Ok (Result z z x 812 812 812 x x x 16 (Some (Ptr 1 0))).
Proof. by apply (@calculate_results_constant aarch32 812 16 (Ptr 1 0)). Defined.

Lemma recurrences_exact_witness :
  results_mean_loop (H := x86_64) (AF := exact_arith) 0 [3; 5] 0%Qc =
    (sumQ Qc_of_Z [3; 5] / Qc_of_Z 2)%Qc.
Proof. apply (@recurrences_exact x86_64 [3; 5] 0); done. Defined.
