(* ===== verification/Summary.v ===== *)
(** * Summary: calculate_results on arbitrary samples

    The running mean of [results_mean] stays between the smallest and the
    largest sample whatever the rounding errors are, so the conversion of the
    mean to a counter value is defined and [calculate_results] returns, with
    its minimum, maximum, median and quantiles exact.  The variance and the
    deviation of [calculate_results_early_proc] are compared with those of the
    samples behind its sums: every step before the division is exact, and the
    rest is bounded with Accuracy. *)

From S2P Require Import Prelude Platform Memory Floats Rounding Accuracy Stats.
From Stdlib Require Import QArith Qabs Lqa.

#[global] Open Scope Z_scope.

Section mean.
Context `{Platform}.

#[local] Notation ld := long_double.
#[local] Notation emin := (SpecFloat.emin (f_prec ld) (f_emax ld)).

(** The units of the integer [z]. *)
Definition int_units (z : Z) : Z := z * 2 ^ (- emin).

Lemma emin_neg : emin <= -1.
Proof. pose proof ld_law. unfold SpecFloat.emin. simpl. change (IntDef.Z.sub ?a ?b) with (a - b). lia. Qed.

Lemma unit_pos : 0 < 2 ^ (- emin).
Proof. apply pow2_pos. pose proof emin_neg. lia. Qed.

Lemma prec_53 : 2 ^ 53 <= 2 ^ f_prec ld.
Proof. pose proof ld_law. apply Z.pow_le_mono_r; simpl; lia. Qed.

Lemma int_units_le a b : a <= b ↔ int_units a <= int_units b.
Proof. unfold int_units. pose proof unit_pos. by apply Z.mul_le_mono_pos_r. Qed.

Lemma int_units_repr z : 0 <= z < 2 ^ 53 → repr ld (int_units z).
Proof.
  intros Hz. exists z, (- emin). pose proof prec_53. pose proof emin_neg. split; [lia|].
  split; [lia|done].
Qed.

Lemma int_units_small z : 0 <= z < 2 ^ 53 → small ld (int_units z).
Proof.
  intros Hz. unfold small, int_units. pose proof ld_law. pose proof emin_neg.
  replace (f_emax ld - 1 - emin) with ((f_emax ld - 1) + - emin) by lia.
  rewrite Z.pow_add_r by (simpl in *; lia). pose proof unit_pos.
  apply Z.mul_lt_mono_pos_r; [done|]. eapply Z.lt_le_trans; [apply Hz|].
  apply Z.pow_le_mono_r; simpl; lia.
Qed.

Lemma units_int z : 0 <= z < 2 ^ 53 → units ld false (dyadic ld z 0) (int_units z).
Proof. intros Hz. pose proof prec_53. apply (units_dyadic ld). lia. Qed.

(** One step of the recurrence, with a divisor of at least two. *)
Lemma mean_step a b x m r k :
  0 <= a <= x → x <= b < 2 ^ 53 →
  units ld false m r → int_units a <= r <= int_units b →
  2 <= k < 2 ^ 52 →
  ∃ r', units ld false (fadd ld m (fdiv ld (fsub ld (dyadic ld x 0) m) (dyadic ld k 0))) r' ∧
    int_units a <= r' <= int_units b.
Proof.
  intros Ha Hb Hm Hr Hk.
  pose proof (units_int x ltac:(lia)) as Hx. pose proof (int_units_small b ltac:(lia)) as Hsb.
  pose proof (proj1 (int_units_le a x) ltac:(lia)). pose proof (proj1 (int_units_le x b) ltac:(lia)).
  pose proof (units_repr _ _ _ _ Hm) as Rr. pose proof (repr_nonneg _ _ Rr).
  assert (0 <= int_units a) by (unfold int_units; pose proof unit_pos; nia).
  assert (Hk' : 0 < k < 2 ^ (f_prec ld - 1)).
  { split; [lia|]. eapply Z.lt_le_trans; [apply Hk|]. pose proof ld_law.
    apply Z.pow_le_mono_r; simpl; lia. }
  unfold small in Hsb.
  destruct (fsub_rounds ld _ _ _ _ Hx Hm) as (rd & Hd & Hrd); [unfold small; lia|].
  assert (rd <= int_units b).
  { apply Hrd; [by apply int_units_repr; lia|lia]. }
  destruct (fdiv_rounds ld _ _ rd k Hd) as (rq & Hq & Hrq); [unfold small; lia|done|].
  assert (rq <= Z.abs (int_units x - r)) by (eapply (rounds_halve ld _ rd k); [lia|lia|done|done]).
  pose proof (repr_nonneg _ _ (units_repr _ _ _ _ Hq)).
  destruct (Z.ltb_spec (int_units x) r).
  - destruct (fadd_neg_rounds ld _ _ _ _ Hm Hq) as (r' & Hr' & _ & Hup & Hlo);
      [lia|unfold small; lia|].
    exists r'. split; [done|]. split; [apply Hlo; [apply int_units_repr; lia|lia]|].
    transitivity r; [|lia]. apply Hup; [done|lia].
  - destruct (fadd_rounds ld _ _ _ _ Hm Hq) as (r' & Hr' & _ & Hup & Hlo); [unfold small; lia|].
    exists r'. split; [done|]. split; [|apply Hup; [apply int_units_repr; lia|lia]].
    transitivity r; [lia|]. apply Hlo; [done|lia].
Qed.

Lemma mean_loop_bounds a b l i m r :
  0 <= a → b < 2 ^ 53 → Forall (λ x, a <= x <= b) l →
  1 <= i → i + size_of l < 2 ^ 32 →
  units ld false m r → int_units a <= r <= int_units b →
  ∃ r', units ld false (results_mean_loop (AF := float_arith ld) i l m) r' ∧
    int_units a <= r' <= int_units b.
Proof.
  intros Ha Hb Hall. revert i m r. induction Hall as [|x l Hx Hall IH]; intros i m r Hi Hlen Hm Hr.
  - by exists r.
  - cbn [results_mean_loop float_arith a_of_Z a_add a_sub a_div].
    assert (Hsz : size_of (x :: l) = size_of l + 1) by (unfold size_of; simpl; lia).
    assert (0 <= size_of l) by (unfold size_of; lia).
    change (2 ^ 32) with 4294967296 in Hlen. change (2 ^ 53) with 9007199254740992 in *.
    assert (HW : 4294967296 <= 2 ^ seL4_WordBits).
    { change 4294967296 with (2 ^ 32). apply Z.pow_le_mono_r; [lia|]. destruct word_bits_law; lia. }
    rewrite wrap_small by (unfold in_word; lia).
    rewrite !of_Z_ld by (change (2 ^ 53) with 9007199254740992; lia).
    destruct (mean_step a b x m r (i + 1)) as (r' & Hm' & Hr').
    + lia.
    + change (2 ^ 53) with 9007199254740992. lia.
    + done.
    + done.
    + change (2 ^ 52) with 4503599627370496. lia.
    + apply (IH (i + 1) _ r'); [lia|change (2 ^ 32) with 4294967296; lia|done|done].
Qed.

Lemma mean_total_bounds a b x l :
  0 <= a → b < 2 ^ 53 → Forall (λ x, a <= x <= b) (x :: l) → size_of (x :: l) <= 2 ^ 31 →
  ∃ r, units ld false (results_mean_loop (AF := float_arith ld) 0 (x :: l) (of_Z ld 0)) r ∧
    int_units a <= r <= int_units b.
Proof.
  intros Ha Hb [Hx Hall]%list.Forall_cons Hlen.
  assert (Hx53 : 0 <= x < 2 ^ 53) by lia.
  assert (Hsz : size_of (x :: l) = size_of l + 1) by (unfold size_of; simpl; lia).
  change (2 ^ 31) with 2147483648 in Hlen.
  cbn [results_mean_loop float_arith a_of_Z a_add a_sub a_div].
  destruct (index_succ 0 1) as [-> ->]; [lia|change (2 ^ 24) with 16777216; lia|lia|].
  rewrite !of_Z_ld by lia. change (0 + 1) with 1.
  assert (fsub ld (dyadic ld x 0) (dyadic ld 0 0) = dyadic ld x 0) as -> by by destruct x.
  assert (fdiv ld (dyadic ld x 0) (dyadic ld 1 0) = dyadic ld x 0) as ->.
  { rewrite <-(Z.mul_1_r x) at 1.
    apply (fdiv_dyadic ld x 1 0 0); [lia|rewrite Z.mul_1_r|..]; apply fits_ld; lia. }
  assert (fadd ld (dyadic ld 0 0) (dyadic ld x 0) = dyadic ld x 0) as -> by by destruct x.
  apply (mean_loop_bounds a b l 1 _ (int_units x)); [done|done|done|lia| |by apply units_int|].
  - change (2 ^ 32) with 4294967296. lia.
  - split; apply (proj1 (int_units_le _ _)); lia.
Qed.

(** An integral float, whatever its exponent, converts exactly. *)
Lemma round_integral_value (g : format) `{!IEEE g} m e z :
  0 <= e → Zpos m * 2 ^ e = z → z < 2 ^ f_prec g →
  binary_round (f_prec g) (f_emax g) false m e = dyadic g z 0.
Proof.
  intros He Hz Hlt. pose proof (prec_law (f := g)). pose proof (emax_law (f := g)).
  pose proof (pow2_pos e He). assert (Hzp : 0 < z) by nia.
  destruct (digits_fits g z); [lia|].
  assert (Hd : digits (Zpos m) + e = digits z) by (rewrite <-Hz, digits_shift; lia).
  unfold binary_round. rewrite digits2_pos_digits, Hd.
  replace (digits z) with (digits z + 0) at 1 by lia. rewrite (fexp_normal g) by lia.
  set (ez := digits z + 0 - f_prec g).
  pose proof (shl_align_snd m e ez) as Hsnd. pose proof (shl_align_fst m e ez ltac:(unfold ez; lia)) as Hfst.
  destruct (shl_align m e ez) as [mz ez']. cbn [fst snd] in *. subst ez'.
  rewrite Z.min_r by lia.
  assert (Hmz : Zpos mz = z * 2 ^ (f_prec g - digits z)).
  { rewrite Hfst. replace (e - ez) with (e + (f_prec g - digits z)) by (unfold ez; lia).
    rewrite Z.pow_add_r, Z.mul_assoc, Hz by lia. done. }
  rewrite Hmz, (dyadic_pos g) by done. rewrite <-(Z.mul_1_r (_ * _)). change 1 with (2 ^ 0).
  rewrite (round_aux_exact g); [f_equal; lia|lia|apply digits_mantissa; [done|lia]|lia..].
Qed.

(** Rounding a long double within integer bounds, and converting it. *)
Lemma round_to_double a b x r :
  0 <= a → b < 2 ^ 53 → units ld false x r → int_units a <= r <= int_units b →
  ∃ z, convert double (fround ld x) = dyadic double z 0 ∧ a <= z <= b.
Proof.
  intros Ha Hb Hx [Hra Hrb]. pose proof prec_53 as HP. pose proof unit_pos as HU.
  pose proof emin_neg as Hemin. unfold int_units in *.
  destruct x as [s| | |s m e]; try done.
  - destruct Hx as [-> ->]. exists 0. split; [done|]. nia.
  - destruct Hx as (-> & Hm & He & ->). unfold fround, round_integral.
    destruct (Z.leb_spec 0 e) as [He0|He0].
    + exists (Zpos m * 2 ^ e).
      assert (Hval : Zpos m * 2 ^ (e - emin) = Zpos m * 2 ^ e * 2 ^ (- emin)).
      { rewrite <-Z.mul_assoc, <-Z.pow_add_r by lia. done. }
      rewrite Hval in *. assert (a <= Zpos m * 2 ^ e <= b) by nia.
      split; [|done]. cbn [convert]. apply (round_integral_value double); [done|done|].
      simpl. lia.
    + pose proof (pow2_pos (- e) ltac:(lia)) as HD. set (D := 2 ^ (- e)) in *.
      assert (Hval : Zpos m * 2 ^ (e - emin) * D = Zpos m * 2 ^ (- emin)).
      { unfold D. rewrite <-Z.mul_assoc, <-Z.pow_add_r by lia. do 2 f_equal. lia. }
      assert (HmD : a * D <= Zpos m <= b * D).
      { split; apply (Z.mul_le_mono_pos_r _ _ (2 ^ (- emin))); nia. }
      set (z := half_away (Zpos m) D).
      assert (Hz : a <= z <= b).
      { unfold z, half_away. split.
        - apply Z.div_le_lower_bound; nia.
        - apply Z.lt_succ_r. apply Z.div_lt_upper_bound; nia. }
      exists z. split; [|done].
      assert (0 <= z < 2 ^ 53) as Hz53 by lia.
      assert (match z with
              | Zpos q => binary_round (f_prec ld) (f_emax ld) false q 0
              | _ => S754_zero false
              end = dyadic ld z 0) as ->.
      { destruct z as [|q|q] eqn:Ez; [done| |lia]. apply (of_Z_ld (Zpos q)). lia. }
      apply (convert_dyadic ld double); [lia|]. format_solve.
Qed.

Lemma results_mean_bounds a b l :
  l ≠ [] → 0 <= a → b < 2 ^ 53 → Forall (λ x, a <= x <= b) l → size_of l <= 2 ^ 31 →
  ∃ z, results_mean l = dyadic double z 0 ∧ a <= z <= b.
Proof.
  intros Hne Ha Hb Hall Hlen. destruct l as [|x l]; [done|].
  destruct (mean_total_bounds a b x l Ha Hb Hall Hlen) as (r & Hu & Hr).
  by apply (round_to_double a b _ r).
Qed.
End mean.

(** ** calculate_results *)
Section summary.
Context `{Platform}.

(** Samples whose double fits both a [double] and a counter. *)
Definition sample_ok (x : Z) : Prop := 0 <= x < 2 ^ 51 ∧ 2 * x < 2 ^ ccnt_bits.

(** The median and the quantile [q/4] of sorted data, as dyadics. *)
Definition median_of (l : list Z) : spec_float :=
  dyadic double (l !!! Z.to_nat ((size_of l - 1) `div` 2) + l !!! Z.to_nat (size_of l `div` 2)) (-1).
Definition quantile_of (q : Z) (l : list Z) : spec_float :=
  let k := (q * (size_of l - 1)) `div` 4 in
  let d := (q * (size_of l - 1)) mod 4 in
  dyadic double ((4 - d) * l !!! Z.to_nat k + d * l !!! Z.to_nat (k + 1)) (-2).

Lemma aget_total (l : list Z) i x : 0 <= i → aget l i = Some x → l !!! Z.to_nat i = x.
Proof. intros Hi. rewrite aget_pos by done. apply list_lookup_total_correct. Qed.

Lemma results_median_of l :
  l ≠ [] → size_of l <= 2 ^ 31 → Forall sample_ok l → results_median l = Ok (median_of l).
Proof.
  intros Hne Hlen Hall. change (2 ^ 31) with 2147483648 in Hlen.
  assert (HW : 4294967296 <= 2 ^ seL4_WordBits).
  { change 4294967296 with (2 ^ 32). apply Z.pow_le_mono_r; [lia|]. destruct word_bits_law; lia. }
  assert (0 < size_of l) by (unfold size_of; destruct l; [done|simpl; lia]).
  destruct (results_median_exact l) as (x & y & Hx & Hy & ->); [done|lia| |].
  - rewrite list.Forall_forall in Hall |- *. intros z [Hz ?]%Hall.
    change (2 ^ 51) with 2251799813685248 in Hz. change (2 ^ 53) with 9007199254740992. lia.
  - assert (0 <= (size_of l - 1) `div` 2 ∧ 0 <= size_of l `div` 2) as [H1 H2]
      by (split; apply Z.div_pos; lia).
    unfold median_of. by rewrite (aget_total _ _ _ H1 Hx), (aget_total _ _ _ H2 Hy).
Qed.

Lemma results_quantile_of l q :
  0 < q < 4 → l ≠ [] → size_of l <= 2 ^ 31 → Forall sample_ok l →
  results_quantile l (dyadic double q (-2)) = Ok (quantile_of q l).
Proof.
  intros Hq Hne Hlen Hall.
  assert (0 < size_of l) by (unfold size_of; destruct l; [done|simpl; lia]).
  destruct (results_quantile_exact l q) as (x & y & Hx & Hy & ->); [done|done|done| |].
  - rewrite list.Forall_forall in Hall |- *. by intros z [Hz ?]%Hall.
  - unfold quantile_of. set (k := _ `div` 4) in *. set (d := _ mod 4) in *.
    assert (0 <= k) as H2 by (apply Z.div_pos; nia).
    assert (0 <= k + 1) as Hk1 by lia.
    rewrite (aget_total _ _ _ H2 Hx).
    destruct Hy as [Hy|[H1 ->]].
    + by rewrite (aget_total _ _ _ Hk1 Hy).
    + assert (d = 0) as -> by (unfold d; rewrite H1, Z.sub_diag, Z.mul_0_r; done).
      by do 2 f_equal.
Qed.

Lemma results_mode_in l :
  sorted l → l ≠ [] → size_of l < 2 ^ ccnt_bits → results_mode l ∈ l.
Proof.
  intros Hs Hne Hlen.
  destruct (results_mode_inv l) as (cv & cf & mf & Hin & _ & _ & Hm); [done..|].
  revert Hm. case_decide; [by intros [_ ->]|]. intros (_ & Hmf & Hpos & _).
  apply freq_pos. lia.
Qed.

(** Everything [calculate_results] computes from non-empty data. *)
Definition summarises (data : list Z) (p : ptr) (r : result_t) : Prop :=
  let sorted_data := qsort ccnt_compare_fn data in
  result_min r ∈ data ∧ result_max r ∈ data ∧
  Forall (λ x, result_min r <= x <= result_max r) data ∧
  (∃ z, mean r = dyadic double z 0 ∧ result_min r <= z <= result_max r ∧
        variance r = results_variance sorted_data z) ∧
  stddev r = results_stddev sorted_data (convert long_double (variance r)) ∧
  mode r = results_mode sorted_data ∧ mode r ∈ data ∧
  median r = median_of sorted_data ∧
  first_quantile r = quantile_of 1 sorted_data ∧
  third_quantile r = quantile_of 3 sorted_data ∧
  samples r = size_of data ∧ raw_data r = Some p.

Lemma calculate_results_spec data p :
  data ≠ [] → size_of data <= 2 ^ 31 → Forall sample_ok data →
  ∃ r, calculate_results data p = Ok r ∧ summarises data p r.
Proof.
  intros Hne Hlen Hall. unfold calculate_results, summarises.
  set (sd := qsort ccnt_compare_fn data).
  assert (Hperm : sd ≡ₚ data) by apply qsort_permutation.
  assert (Hsort : sorted sd) by apply qsort_sorted.
  assert (Hsize : size_of sd = size_of data) by (unfold size_of, sd; by rewrite qsort_length).
  assert (Hsd : sd ≠ []) by (intros E; rewrite E in Hperm; apply Hne, Permutation_nil; done).
  assert (Hall' : Forall sample_ok sd) by by rewrite Hperm.
  assert (HW : 2 ^ 32 <= 2 ^ seL4_WordBits ∧ 2 ^ 32 <= 2 ^ ccnt_bits).
  { split; (apply Z.pow_le_mono_r; [lia|]); destruct ccnt_bits_law, word_bits_law; lia. }
  assert (H32 : 2 ^ 31 < 2 ^ 32) by done.
  destruct (size_minus_1 sd Hsd) as [Hsub Hpos]; [lia|]. rewrite Hsize in Hsub, Hpos.
  destruct (aget_in sd 0) as (a & Ha & Hain); [lia|].
  destruct (aget_in sd (size_of data - 1)) as (b & Hb & Hbin); [lia|].
  assert (Hbounds : Forall (λ x, a <= x <= b) sd).
  { apply list.Forall_forall. intros x Hx.
    destruct (sorted_bounds sd x Hsort Hx) as (a' & b' & Ha' & Hb' & Hab).
    rewrite aget_pos in Ha, Hb by lia. change (Z.to_nat 0) with 0%nat in Ha.
    replace (Z.to_nat (size_of data - 1)) with (length sd - 1)%nat in Hb
      by (rewrite <-Hsize; unfold size_of; lia). simplify_eq. done. }
  rewrite list.Forall_forall in Hall'. pose proof (Hall' a Hain) as [Ha51 _].
  pose proof (Hall' b Hbin) as [Hb51 Hbc]. rewrite <-list.Forall_forall in Hall'.
  assert (Hb53 : b < 2 ^ 53) by (etransitivity; [apply Hb51|done]).
  assert (Hab : a <= b) by (rewrite list.Forall_forall in Hbounds; by apply Hbounds).
  rewrite Hsub, Ha, Hb. cbn -[results_mean results_variance results_stddev results_median
    results_quantile results_mode to_unsigned].
  destruct (Z.leb_spec a b); [|lia].
  destruct (results_mean_bounds a b sd) as (z & -> & Hz); [done|lia|done|done|lia|].
  cbn -[results_variance results_stddev results_median results_quantile results_mode to_unsigned].
  rewrite to_unsigned_exact by (unfold in_word; lia).
  cbn -[results_variance results_stddev results_median results_quantile results_mode].
  rewrite results_median_of, quantile_25_eq, quantile_75_eq, !results_quantile_of by
    (done || lia). cbn -[results_variance results_stddev results_mode].
  eexists. split; [done|]. cbn -[results_variance results_stddev results_mode].
  assert (Hin : ∀ x, x ∈ sd → x ∈ data) by (intros x; by rewrite Hperm).
  split; [by apply Hin|]. split; [by apply Hin|]. split; [by rewrite <-Hperm|].
  split; [by exists z|]. split; [done|]. split; [done|].
  split; [|done]. apply Hin, results_mode_in; [done|done|lia].
Qed.

(** C1.  On every non-empty array of at most 2^31 samples that are below 2^51
    and below half the range of the counter, [calculate_results] returns:
    neither its assertion nor any conversion or array access fails.  The minimum
    and the maximum are samples that bound the others, the mean is an integer
    between them whatever the rounding errors of the recurrence, the median and
    the quantiles are exact (linear interpolation between neighbours of the
    sorted data), and the result points at the data.  The bounds are needed:
    beyond them [median_wraps] and [mean_undefined] say what the code does. *)
Theorem calculate_results_correct data p :
  data ≠ [] → size_of data <= 2 ^ 31 → Forall sample_ok data →
  ∃ r, calculate_results data p = Ok r ∧ summarises data p r.
Proof. apply calculate_results_spec. Qed.

(** Beyond the range.  The sum of the two middle samples is a [ccnt_t]: from
    half the range of the counter on, the median of two equal samples is not
    that sample. *)
Lemma median_wraps x :
  2 ^ (ccnt_bits - 1) <= x < 2 ^ ccnt_bits →
  results_median [x; x] =
    Ok (fdiv double (of_Z double (2 * x - 2 ^ ccnt_bits)) (of_Z double 2)).
Proof.
  intros [Hlo Hhi]. assert (2 ^ ccnt_bits = 2 * 2 ^ (ccnt_bits - 1)) as Hp.
  { rewrite <-Z.pow_succ_r by (destruct ccnt_bits_law, word_bits_law; lia). f_equal. lia. }
  unfold results_median. change (size_of [x; x]) with 2. cbv zeta.
  assert (2 ⊟[seL4_WordBits] 1 = 1) as ->.
  { apply wrap_small. unfold in_word. destruct word_bits_law as [-> | ->]; split; done. }
  change (1 `div` 2) with 0. change (2 `div` 2) with 1.
  assert (x ⊞[ccnt_bits] x = 2 * x - 2 ^ ccnt_bits) as <-; [|done].
  symmetry. apply (Z.mod_unique _ _ 1); lia.
Qed.
(** The sums of an early-processing loop: enough for the conversion of the
    mean back to a counter value to be defined. *)
Definition sums_ok (num sum : Z) : Prop :=
  0 < num < 2 ^ seL4_WordBits ∧ 0 <= sum `div` num < 2 ^ 53 ∧ in_word ccnt_bits (sum `div` num).

Lemma calculate_results_early_proc_spec num sum sum2 :
  sums_ok num sum →
  ∃ r, calculate_results_early_proc num sum sum2 = Ok r ∧
    mean r = dyadic double (sum `div` num) 0 ∧
    variance r = results_variance_early_proc num sum sum2 (sum `div` num) ∧
    stddev r = fsqrt double (fmul double (variance r) (bessel num)) ∧
    samples r = num ∧ raw_data r = None ∧ result_min r = 0 ∧ result_max r = 0 ∧ mode r = 0.
Proof.
  intros (Hn & Hm & Hw). unfold calculate_results_early_proc.
  destruct (Z.eqb_spec num 0); [lia|]. rewrite of_Z_double by done.
  rewrite to_unsigned_exact by done. rewrite (wrap_small _ num) by (unfold in_word; lia).
  eexists. split; [reflexivity|]. done.
Qed.

End summary.

(** A mean that rounds to 2^64 in a [double] is no value of a 64-bit counter:
    its conversion is undefined.  Subtracting an overhead from a smaller sample
    leaves such a value. *)
Lemma mean_undefined p :
  calculate_results (H := x86_64) [2 ^ 64 - 1] p = Undef ∧
  calculate_results (H := aarch64) [2 ^ 64 - 1] p = Undef ∧
  calculate_results (H := x86_64) [90 ⊟[64] 100] p = Undef.
Proof. split; [|split]; vm_compute; reflexivity. Qed.

(** ** The early-processing statistics *)
Section early.
Context `{Platform}.
#[local] Notation ld := long_double.

(** The squared distances of the samples to [m], summed. *)
Definition distances (m : Z) (l : list Z) : Z := sumZ ((λ x, (x - m) * (x - m)) <$> l).
Definition squares (l : list Z) : Z := sumZ ((λ x, x * x) <$> l).

Lemma distances_eq m l : distances m l = squares l - 2 * m * sumZ l + size_of l * m * m.
Proof.
  unfold distances, squares, size_of. induction l as [|x l IH]; [simpl; lia|].
  cbn [fmap list_fmap sumZ length] in *. rewrite IH, Nat2Z.inj_succ. ring.
Qed.

Lemma distances_nonneg m l : 0 <= distances m l.
Proof.
  unfold distances. induction l as [|x l IH]; cbn [fmap list_fmap sumZ] in *; [lia|].
  pose proof (Z.square_nonneg (x - m)). lia.
Qed.

(** Samples whose sums have not wrapped and leave the mantissa of a [double]
    a spare bit. *)
Definition early_ok (l : list Z) : Prop :=
  l ≠ [] ∧ size_of l < 2 ^ 24 ∧ Forall (λ x, 0 <= x) l ∧ squares l < 2 ^ 52 ∧ squares l < 2 ^ ccnt_bits.

Lemma sum_le_squares l : Forall (λ x, 0 <= x) l → 0 <= sumZ l <= squares l.
Proof.
  unfold squares. induction 1 as [|x l Hx _ IH]; cbn [fmap list_fmap sumZ] in *; [lia|]. nia.
Qed.

(** Every intermediate result of the formula is exact. *)
Lemma early_bounds l :
  early_ok l → let n := size_of l in let m := sumZ l `div` n in
  0 < n ∧ 0 <= m ∧ n * m <= sumZ l ∧ m <= sumZ l ∧ 0 <= m * sumZ l <= squares l ∧
  n * m * m <= squares l ∧ sumZ l <= squares l ∧ 0 <= distances m l <= squares l.
Proof.
  intros (Hne & Hlen & Hall & _ & _) n m. pose proof (sum_le_squares l Hall) as [Hs Hs2].
  assert (0 < n) as Hn by (unfold n, size_of; destruct l; [done|simpl; lia]).
  assert (0 <= m) as Hm by (apply Z.div_pos; lia).
  assert (n * m <= sumZ l) as Hnm by (apply Z.mul_div_le; lia).
  assert (m * (n * m) <= m * sumZ l) by (apply Z.mul_le_mono_nonneg_l; lia).
  pose proof (distances_nonneg m l) as Hd. pose proof (distances_eq m l) as Heq. fold n in Heq.
  assert (0 <= m * sumZ l) by (apply Z.mul_nonneg_nonneg; lia).
  assert (m * 1 <= m * n) by (apply Z.mul_le_mono_nonneg_l; lia). lia.
Qed.

Lemma early_variance l :
  early_ok l → let n := size_of l in let m := sumZ l `div` n in
  results_variance_early_proc n (sumZ l) (squares l) m =
    convert double (fdiv ld (dyadic ld (distances m l) 0) (dyadic ld n 0)).
Proof.
  intros Hok n m. destruct (early_bounds l Hok) as (Hn & Hm & Hnm & Hms & Hmsq & Hnmm & Hssq & Hd).
  destruct Hok as (_ & Hlen & _ & Hsq & _).
  change (sumZ l `div` size_of l) with m in Hm, Hnm, Hms, Hmsq, Hnmm, Hd.
  change (size_of l) with n in Hn, Hnm, Hnmm, Hlen.
  change (2 ^ 24) with 16777216 in Hlen. change (2 ^ 52) with 4503599627370496 in Hsq.
  assert (0 <= n * m) by (apply Z.mul_nonneg_nonneg; lia).
  assert (0 <= n * m * m) by (apply Z.mul_nonneg_nonneg; lia).
  assert (Hfit : ∀ z, 0 <= z < 9007199254740992 → fits ld z 0) by (intros z Hz; by apply fits_ld).
  unfold results_variance_early_proc, variance_of_sums.
  cbn [float_arith a_of_Z a_add a_sub a_mul a_div].
  rewrite !of_Z_ld by (change (2 ^ 53) with 9007199254740992; lia). f_equal.
  rewrite (fmul_dyadic ld 2 m 0 0) by (apply Hfit; lia).
  rewrite (fmul_dyadic ld (2 * m) (sumZ l) 0 0) by (apply Hfit; lia).
  rewrite (fmul_dyadic ld n m 0 0) by (apply Hfit; lia).
  rewrite (fmul_dyadic ld (n * m) m 0 0) by (apply Hfit; lia). f_equal.
  change (0 + 0) with 0. rewrite <-!(signed_nonneg ld) by lia.
  rewrite (fsub_signed ld), (fadd_signed ld) by (apply Hfit; lia).
  by rewrite distances_eq.
Qed.

(** *** The accuracy of the variance and of the deviation *)
Notation eps := (1 # 4503599627370496)%Q.

Lemma ld_digits : 53 <= f_prec ld ∧ 1024 <= f_emax ld ∧ 2 * f_prec ld < f_emax ld.
Proof. exact ld_law. Qed.

Lemma eps_small : (0 <= eps ∧ eps <= 1)%Q.
Proof. split; by vm_compute. Qed.

Lemma double_eps : (1 <= eps * inject_Z (2 ^ (f_prec double - 1)))%Q.
Proof. by vm_compute. Qed.

Lemma ld_eps : (1 <= eps * inject_Z (2 ^ (f_prec ld - 1)))%Q.
Proof.
  assert (2 ^ 52 <= 2 ^ (f_prec ld - 1)) as Hp.
  { apply Z.pow_le_mono_r; [lia|]. pose proof ld_digits. lia. }
  rewrite Zle_Qle in Hp. change (inject_Z (2 ^ 52)) with (4503599627370496 # 1)%Q in Hp. lra.
Qed.

(** The quotient of two integers in [long double], then in [double]. *)
Definition ld_quotient (a n : Z) : spec_float := fdiv ld (dyadic ld a 0) (dyadic ld n 0).

Lemma ld_quotient_within a n :
  0 < a < 2 ^ 53 → 0 < n < 2 ^ 24 →
  ∃ r o, units ld false (ld_quotient a n) r ∧ one ld = 2 ^ 24 * o ∧ 2 ^ 200 <= o ∧ o <= r <= a * one ld ∧
    within eps (value (ld_quotient a n)) (inject_Z a / inject_Z n).
Proof.
  intros Ha Hn. pose proof ld_digits as Hld. pose proof prec_53 as Hp53.
  destruct (one_split ld 24) as (o & Ho & Hro & Hbig); [lia..|].
  change (2 ^ 24) with 16777216 in *. change (2 ^ 53) with 9007199254740992 in *.
  assert (Hou : units ld false (dyadic ld a 0) (a * one ld)) by (apply (units_dyadic ld); lia).
  assert (Hsmall : small ld (a * one ld)).
  { apply (int_units_small a). change (2 ^ 53) with 9007199254740992. lia. }
  destruct (fdiv_rounds ld _ _ _ n Hou Hsmall) as (r & Hr & Hround).
  { split; [lia|]. apply (Z.lt_le_trans _ (2 ^ 52)); [change (2 ^ 52) with 4503599627370496; lia|].
    apply Z.pow_le_mono_r; lia. }
  destruct (Hround) as (_ & Hup & Hdown).
  exists r, o. split; [done|]. split; [done|]. split.
  { etransitivity; [|exact Hbig]. apply Z.pow_le_mono_r; lia. }
  assert (Hoa : 1 * one ld <= a * one ld) by (apply Z.mul_le_mono_nonneg_r; lia).
  split; [split|].
  - apply Hdown; [done|]. assert (o * n <= o * 16777216) by (apply Z.mul_le_mono_nonneg_l; lia). lia.
  - apply Hup; [apply (repr_int ld); lia|].
    assert (a * one ld * 1 <= a * one ld * n) by (apply Z.mul_le_mono_nonneg_l; lia). lia.
  - pose proof (inject_pos _ (one_pos ld)) as H1. pose proof (inject_pos n ltac:(lia)) as Hn'.
    assert (inject_Z a / inject_Z n == inject_Z (a * one ld) / (inject_Z n * inject_Z (one ld)))%Q as ->.
    { rewrite inject_Z_mult. field. lra. }
    apply (rounds_within ld _ r _ _ _ Hr Hround); [lia| |apply ld_eps].
    rewrite Z.pow_add_r in Hbig by (lia).
    assert (2 ^ (f_prec ld - 1) * n <= 2 ^ (f_prec ld - 1) * 2 ^ 200).
    { apply Z.mul_le_mono_nonneg_l; [apply Z.pow_nonneg; lia|].
      transitivity 16777216; [lia|done]. }
    lia.
Qed.

Lemma double_quotient_within a n :
  0 < a < 2 ^ 53 → 0 < n < 2 ^ 24 →
  let v := convert double (ld_quotient a n) in
  ∃ r o, units double false v r ∧ one double = 2 ^ 24 * o ∧ repr double o ∧ 2 ^ 200 <= o ∧
    o <= r <= a * one double ∧
    within (eps + eps + eps * eps) (value v) (inject_Z a / inject_Z n).
Proof.
  intros Ha Hn v. destruct (ld_quotient_within a n Ha Hn) as (r1 & o1 & H1 & Ho1 & Hbig1 & Hr1 & Hw1).
  destruct (one_split double 24) as (o & Ho & Hro & Hbig); [lia|done|].
  pose proof (one_pos ld) as Hld. pose proof (one_pos double) as Hd.
  change (2 ^ (f_prec double - 1 + 200)) with (2 ^ 52 * 2 ^ 200) in Hbig.
  pose proof (pow2_pos 200 ltac:(done)). assert (2 ^ 200 <= o) by lia.
  change (2 ^ 24) with 16777216 in *. change (2 ^ 53) with 9007199254740992 in *.
  destruct (convert_rounds ld double _ _ H1) as (r & Hr & Hround).
  { apply (Z.le_lt_trans _ (a * one ld)); [lia|].
    change (f_emax double - 1 - SpecFloat.emin (f_prec ld) (f_emax ld))
      with (1023 + - SpecFloat.emin (f_prec ld) (f_emax ld)).
    rewrite Z.pow_add_r; [|done|rewrite (emin_eq ld); pose proof ld_digits; lia].
    fold (one ld). apply Z.mul_lt_mono_pos_r; [done|]. apply (Z.lt_trans _ 9007199254740992); [lia|reflexivity]. }
  fold v in Hr. destruct Hround as (Hrepr & Hup & Hdown).
  exists r, o. split; [done|]. split; [done|]. split; [done|]. split; [done|].
  assert (o1 * one double <= r1 * one double) by (apply Z.mul_le_mono_nonneg_r; lia).
  split; [split|].
  - apply Hdown; [done|]. rewrite Ho1. rewrite Ho in *. lia.
  - apply Hup; [apply (repr_int double); change (2 ^ f_prec double) with 9007199254740992; lia|].
    assert (r1 * one double <= a * one ld * one double) by (apply Z.mul_le_mono_nonneg_r; lia). lia.
  - apply (within_trans eps eps _ (value (ld_quotient a n))); [exact eps_small|exact eps_small| | |done].
    + apply Qle_shift_div_l; [apply inject_pos; lia|]. rewrite Qmult_0_l. apply (inject_nonneg a). lia.
    + pose proof (inject_pos _ Hld) as HQl. pose proof (inject_pos _ Hd) as HQd.
      assert (value (ld_quotient a n) == inject_Z (r1 * one double) / (inject_Z (one ld) * inject_Z (one double)))%Q as ->.
      { rewrite (value_units ld _ _ H1), inject_Z_mult. field. lra. }
      apply (rounds_within double _ r); [done|by repeat split|done| |apply double_eps].
      change (2 ^ (f_prec double - 1)) with (2 ^ 52). rewrite Ho1.
      assert (2 ^ 52 * 16777216 * o1 <= one double * o1); [|lia].
      apply Z.mul_le_mono_nonneg_r; [lia|]. rewrite Ho.
      assert (2 ^ 52 * 1 <= 2 ^ 52 * 2 ^ 200) by (apply Z.mul_le_mono_nonneg_l; lia). lia.
Qed.

Lemma bessel_eq n : 2 <= n < 2 ^ 24 →
  bessel n = fdiv double (dyadic double n 0) (dyadic double (n - 1) 0).
Proof.
  intros Hn. change (2 ^ 24) with 16777216 in Hn. unfold bessel.
  rewrite !(of_Z_exact single) by format_solve. rewrite (fsub_dyadic single) by format_solve.
  rewrite (convert_dyadic single double) by format_solve. by rewrite of_Z_double by format_solve.
Qed.

Lemma bessel_within n : 2 <= n < 2 ^ 24 →
  ∃ r, units double false (bessel n) r ∧ one double <= r <= 2 * one double ∧
    within eps (value (bessel n)) (inject_Z n / inject_Z (n - 1)).
Proof.
  intros Hn. rewrite bessel_eq by done. change (2 ^ 24) with 16777216 in Hn.
  pose proof (one_pos double) as Hd.
  destruct (one_split double 24) as (o & Ho & Hro & Hbig); [lia|done|].
  change (2 ^ (f_prec double - 1 + 200)) with (2 ^ 52 * 2 ^ 200) in Hbig.
  pose proof (pow2_pos 200 ltac:(done)) as H200.
  assert (Hu : units double false (dyadic double n 0) (n * one double)).
  { apply (units_dyadic double). change (2 ^ f_prec double) with 9007199254740992. lia. }
  destruct (fdiv_rounds double false _ _ (n - 1) Hu) as (r & Hr & Hround).
  { unfold small. change (f_emax double - 1 - SpecFloat.emin (f_prec double) (f_emax double)) with (1023 + 1074).
    rewrite Z.pow_add_r by done. change (2 ^ 1074) with (one double).
    apply Z.mul_lt_mono_pos_r; [done|]. apply (Z.lt_trans _ 16777216); [lia|reflexivity]. }
  { change (2 ^ (f_prec double - 1)) with 4503599627370496. lia. }
  destruct (Hround) as (_ & Hup & Hdown). exists r. split; [done|].
  split; [split|].
  - apply Hdown; [|nia]. rewrite <-(Z.mul_1_l (one double)). by apply (repr_int double).
  - apply Hup; [by apply (repr_int double)|].
    assert (n * one double <= 2 * (n - 1) * one double) by (apply Z.mul_le_mono_nonneg_r; lia). lia.
  - pose proof (inject_pos _ Hd) as H1. pose proof (inject_pos (n - 1) ltac:(lia)) as Hn'.
    assert (inject_Z n / inject_Z (n - 1) ==
      inject_Z (n * one double) / (inject_Z (n - 1) * inject_Z (one double)))%Q as ->.
    { rewrite inject_Z_mult. field. lra. }
    apply (rounds_within double _ r); [done|done|lia| |apply double_eps].
    change (2 ^ (f_prec double - 1)) with (2 ^ 52).
    assert (2 ^ 52 * 2 ^ 200 * 1 <= 2 ^ 52 * 2 ^ 200 * 16777216) by (apply Z.mul_le_mono_nonneg_l; lia).
    assert (2 ^ 52 * (n - 1) <= 2 ^ 52 * 2 ^ 200).
    { apply Z.mul_le_mono_nonneg_l; [done|]. transitivity 16777216; [lia|done]. }
    assert (1 * one double <= n * one double) by (apply Z.mul_le_mono_nonneg_r; lia).
    rewrite Ho in *. change (2 ^ 24) with 16777216 in *. lia.
Qed.

(** A float of known units is finite and not negative. *)
Lemma units_finite x r : units double false x r → is_finite x = true ∧ (0 <= value x)%Q.
Proof.
  intros Hx. split; [by destruct x|]. rewrite (value_units double _ _ Hx).
  apply Qle_shift_div_l; [apply inject_pos, one_pos; apply _|].
  rewrite Qmult_0_l. apply inject_nonneg, (repr_nonneg double), (units_repr double _ _ _ Hx).
Qed.

(** The variance times the correction, and its range. *)
Lemma product_within a n :
  0 < a < 2 ^ 53 → 2 <= n < 2 ^ 24 →
  let v := convert double (ld_quotient a n) in
  ∃ r, units double false (fmul double v (bessel n)) r ∧ small double r ∧
    within eps (value (fmul double v (bessel n))) (value v * value (bessel n)).
Proof.
  intros Ha Hn v.
  destruct (double_quotient_within a n Ha) as (r2 & o & H2 & Ho & Hro & Hbig & Hr2 & _); [lia|].
  destruct (bessel_within n Hn) as (r3 & H3 & Hr3 & _).
  pose proof (one_pos double) as Hd. pose proof (pow2_pos 200 ltac:(done)) as H200. fold v in H2.
  change (2 ^ 24) with 16777216 in *. change (2 ^ 53) with 9007199254740992 in *.
  assert (Hup : r2 * r3 <= 18014398509481984 * one double * one double).
  { transitivity (a * one double * (2 * one double)); [apply Z.mul_le_mono_nonneg; lia|].
    assert (a * (one double * one double) <= 9007199254740992 * (one double * one double))
      by (apply Z.mul_le_mono_nonneg_r; lia). lia. }
  assert (Hlo : o * one double <= r2 * r3) by (apply Z.mul_le_mono_nonneg; lia).
  destruct (fmul_rounds double v (bessel n) r2 r3 H2 H3) as (r4 & H4 & Hround).
  { eapply Z.le_lt_trans; [exact Hup|].
    change (f_emax double - f_prec double - 2 * SpecFloat.emin (f_prec double) (f_emax double))
      with (971 + 1074 + 1074). rewrite !Z.pow_add_r by done. change (2 ^ 1074) with (one double).
    apply Z.mul_lt_mono_pos_r; [done|]. apply Z.mul_lt_mono_pos_r; [done|reflexivity]. }
  exists r4. split; [done|]. split.
  - unfold small. change (f_emax double - 1 - SpecFloat.emin (f_prec double) (f_emax double)) with (1023 + 1074).
    rewrite Z.pow_add_r by done. change (2 ^ 1074) with (one double).
    apply (Z.le_lt_trans _ (18014398509481984 * one double)).
    + destruct Hround as (_ & Hup4 & _). apply Hup4; [|lia]. exists 1, (54 + 1074).
      split; [done|]. split; [done|]. rewrite Z.mul_1_l, Z.pow_add_r by done. done.
    + apply Z.mul_lt_mono_pos_r; [done|reflexivity].
  - pose proof (inject_pos _ Hd) as H1.
    assert (value v * value (bessel n) == inject_Z (r2 * r3) / (inject_Z (one double) * inject_Z (one double)))%Q as ->.
    { rewrite (value_units double _ _ H2), (value_units double _ _ H3), inject_Z_mult. field. lra. }
    apply (rounds_within double _ r4); [done|done|done| |apply double_eps].
    transitivity (o * one double); [|done]. apply Z.mul_le_mono_nonneg_r; [lia|].
    etransitivity; [|exact Hbig]. by apply Z.pow_le_mono_r.
Qed.

Lemma deviation_within a n :
  0 < a < 2 ^ 53 → 2 <= n < 2 ^ 24 →
  let sd := fsqrt double (fmul double (convert double (ld_quotient a n)) (bessel n)) in
  ∃ q, units double false sd q ∧
    within (1 # 562949953421312) (value sd * value sd) (inject_Z a / inject_Z (n - 1)).
Proof.
  intros Ha Hn sd.
  destruct (double_quotient_within a n Ha) as (r2 & o & _ & _ & _ & _ & _ & Hw2); [lia|].
  destruct (bessel_within n Hn) as (r3 & _ & _ & Hw3).
  destruct (product_within a n Ha Hn) as (r4 & H4 & Hs4 & Hw4).
  destruct (fsqrt_within double _ r4 (eps + eps + eps * eps)%Q H4 Hs4) as (q & Hq & Hw5);
    [by vm_compute|]. fold sd in Hq, Hw5.
  exists q. split; [done|].
  assert (Hn1 : (0 < inject_Z (n - 1))%Q) by (apply inject_pos; lia).
  assert (Hn0 : (0 < inject_Z n)%Q) by (apply inject_pos; lia).
  assert (Ha0 : (0 <= inject_Z a)%Q) by (apply inject_nonneg; lia).
  assert (Hx : (0 <= inject_Z a / inject_Z n)%Q) by (apply Qle_shift_div_l; lra).
  assert (Hy : (0 <= inject_Z n / inject_Z (n - 1))%Q) by (apply Qle_shift_div_l; lra).
  assert (Hz : (0 <= inject_Z a / inject_Z (n - 1))%Q) by (apply Qle_shift_div_l; lra).
  assert (inject_Z a / inject_Z (n - 1) ==
    inject_Z a / inject_Z n * (inject_Z n / inject_Z (n - 1)))%Q as Hprod by (field; lra).
  set (e2 := (eps + eps + eps * eps)%Q) in *.
  assert (He2 : (0 <= e2 ∧ e2 <= 1)%Q) by (split; by vm_compute).
  pose proof (within_mult e2 eps _ _ _ _ He2 eps_small Hx Hy Hw2 Hw3) as Hw23.
  rewrite <-Hprod in Hw23. set (e3 := (e2 + eps + e2 * eps)%Q) in *.
  assert (He3 : (0 <= e3 ∧ e3 <= 1)%Q) by (split; by vm_compute).
  pose proof (within_trans eps e3 _ _ _ eps_small He3 Hz Hw4 Hw23) as Hw4'.
  set (e4 := (eps + e3 + eps * e3)%Q) in *.
  assert (He4 : (0 <= e4 ∧ e4 <= 1)%Q) by (split; by vm_compute).
  pose proof (within_trans e2 e4 _ _ _ He2 He4 Hz Hw5 Hw4') as Hw5'.
  refine (within_mono _ _ _ _ _ Hz Hw5'). by vm_compute.
Qed.

Lemma zero_quotient n : 0 < n < 2 ^ 24 → convert double (ld_quotient 0 n) = S754_zero false.
Proof.
  intros Hn. unfold ld_quotient. change (2 ^ 24) with 16777216 in Hn.
  rewrite (dyadic_pos ld n) by lia. done.
Qed.

Lemma exact_quotient k n :
  0 <= k → 0 < n < 2 ^ 24 → k * n < 2 ^ 53 → convert double (ld_quotient (k * n) n) = dyadic double k 0.
Proof.
  intros Hk Hn Hkn. change (2 ^ 24) with 16777216 in Hn. change (2 ^ 53) with 9007199254740992 in Hkn.
  assert (k * 1 <= k * n) by (apply Z.mul_le_mono_nonneg_l; lia).
  assert (Hfit : ∀ z, 0 <= z < 9007199254740992 → fits ld z 0) by (intros z Hz; by apply fits_ld).
  unfold ld_quotient. rewrite (fdiv_dyadic ld k n 0 0) by (lia || (apply Hfit; lia)).
  pose proof prec_53. change (2 ^ 53) with 9007199254740992 in *.
  apply (convert_dyadic ld double); [lia|]. format_solve.
Qed.

Lemma early_sums_ok l : early_ok l → sums_ok (size_of l) (sumZ l).
Proof.
  intros Hok. pose proof (early_bounds l Hok) as (Hn & Hm & _ & Hms & _ & _ & Hss & _).
  destruct Hok as (_ & Hlen & _ & Hsq & Hcc). unfold sums_ok, in_word.
  assert (2 ^ 24 <= 2 ^ seL4_WordBits).
  { apply Z.pow_le_mono_r; [lia|]. destruct word_bits_law; lia. }
  assert (2 ^ 52 < 2 ^ 53) by reflexivity. lia.
Qed.

Lemma within_zero d e : (within d 0 (inject_Z 0 / e))%Q.
Proof. unfold within, Qdiv. rewrite Qmult_0_l, Qmult_0_r. by vm_compute. Qed.

Lemma single_distance l : size_of l = 1 → distances (sumZ l `div` size_of l) l = 0.
Proof.
  intros Hn. rewrite Hn, Z.div_1_r. unfold size_of in Hn. destruct l as [|x [|y l]]; [done| |simpl in Hn; lia].
  unfold distances. cbn [fmap list_fmap sumZ]. rewrite Z.add_0_r. ring.
Qed.

(** C11.  [calculate_results_early_proc] on the length, the sum and the sum of
    squares of samples whose sums neither wrapped nor exceed 52 bits: the mean
    is the mean rounded down to an integer [m]; the variance is the mean of the
    squared distances of the samples to [m], exactly when it is an integer and
    to one part in 2^50 otherwise; the square of the deviation is the sum of
    those distances over one less than the number of samples, to one part in
    2^49, and the deviation of a single sample is not a number; the fields that
    need the samples themselves are zero. *)
Theorem calculate_results_early_proc_correct l :
  early_ok l →
  let n := size_of l in
  let m := sumZ l `div` n in
  ∃ r, calculate_results_early_proc n (sumZ l) (squares l) = Ok r ∧
    mean r = dyadic double m 0 ∧
    is_finite (variance r) = true ∧
    within (1 # 1125899906842624) (value (variance r)) (inject_Z (distances m l) / inject_Z n) ∧
    (∀ k, distances m l = k * n → variance r = dyadic double k 0) ∧
    (n = 1 → stddev r = S754_nan) ∧
    (1 < n → is_finite (stddev r) = true ∧ (0 <= value (stddev r))%Q ∧
       within (1 # 562949953421312) (value (stddev r) * value (stddev r))
         (inject_Z (distances m l) / inject_Z (n - 1))) ∧
    samples r = n ∧ raw_data r = None ∧ result_min r = 0 ∧ result_max r = 0 ∧ mode r = 0.
Proof.
  intros Hok n m. pose proof (early_bounds l Hok) as (Hn & _ & _ & _ & _ & _ & _ & Hd).
  pose proof (early_variance l Hok) as Hvar.
  destruct (calculate_results_early_proc_spec _ _ (squares l) (early_sums_ok l Hok))
    as (r & Hr & Hmean & Hv & Hsd & Hrest).
  exists r. split; [done|]. split; [done|]. rewrite Hsd, Hv. cbv zeta in Hvar. rewrite Hvar.
  change (sumZ l `div` size_of l) with m in Hd |- *. change (size_of l) with n in Hn, Hrest |- *.
  fold (ld_quotient (distances m l) n). destruct Hok as (_ & Hlen & _ & Hsq & _).
  change (size_of l) with n in Hlen. assert (H53 : 2 ^ 52 < 2 ^ 53) by reflexivity.
  assert (Hex : ∀ k, distances m l = k * n → convert double (ld_quotient (distances m l) n) = dyadic double k 0).
  { intros k Hk. rewrite Hk. apply exact_quotient; [nia|lia|lia]. }
  destruct (decide (distances m l = 0)) as [E|E].
  - rewrite E, zero_quotient by lia. split; [done|].
    split; [apply within_zero|]. split; [intros k Hk; rewrite <-(Hex k), E, zero_quotient by lia; done|].
    destruct (zero_variance_stddev n) as [_ Hz]; [lia|]. rewrite Hz. split; [|split; [|done]].
    + intros Hn1. by rewrite decide_True.
    + intros Hn1. rewrite decide_False by lia. split; [done|]. split; [done|apply within_zero].
  - destruct (double_quotient_within (distances m l) n) as (q & o & Hq & _ & _ & _ & _ & Hw); [lia..|].
    destruct (units_finite _ _ Hq) as [Hf _]. split; [done|].
    assert (0 <= inject_Z (distances m l) / inject_Z n)%Q as Hnn.
    { apply Qle_shift_div_l; [by apply inject_pos|]. rewrite Qmult_0_l. apply inject_nonneg. lia. }
    split; [refine (within_mono _ _ _ _ _ Hnn Hw); by vm_compute|]. split; [done|].
    split; [|split; [|done]].
    + intros Hn1. exfalso. apply E. by apply single_distance.
    + intros Hn1. destruct (deviation_within (distances m l) n) as (q' & Hq' & Hw'); [lia..|].
      destruct (units_finite _ _ Hq') as [Hf' Hp']. done.
Qed.
End early.

(** ** Witness *)
(** Samples 7, 10, 10 and 15: the mean is 10, the squared distances add up to
    34, and 34/4 is 17 halves. *)
Lemma calculate_results_early_proc_correct_witness :
  early_ok (H := x86_64) [7; 10; 10; 15] ∧
  ∃ r, calculate_results_early_proc (H := x86_64) 4 42 474 = Ok r ∧
    mean r = dyadic double 10 0 ∧ samples r = 4 ∧
    variance r = dyadic double 17 (-1) ∧
    within (1 # 1125899906842624) (value (variance r)) (34 / 4) ∧
    within (1 # 562949953421312) (value (stddev r) * value (stddev r)) (34 / 3).
Proof.
  assert (Hok : early_ok (H := x86_64) [7; 10; 10; 15]).
  { split; [done|]. split; [by vm_compute|]. split; [|split; by vm_compute].
    repeat (apply Forall_cons_2; [by vm_compute|]). apply Forall_nil_2. }
  split; [exact Hok|].
  destruct (@calculate_results_early_proc_correct x86_64 [7; 10; 10; 15] Hok)
    as (r & Hr & Hm & _ & Hv & _ & _ & Hsd & Hs & _).
  exists r. split; [exact Hr|]. split; [exact Hm|]. split; [exact Hs|]. split.
  - assert (Hc : calculate_results_early_proc (H := x86_64) 4 42 474 = Ok r) by exact Hr.
    revert Hc. vm_compute. intros [= <-]. reflexivity.
  - split; [exact Hv|]. destruct Hsd as (_ & _ & Hd); [by vm_compute|]. exact Hd.
Defined.

Lemma calculate_results_correct_witness :
  ∃ r, calculate_results (H := x86_64) [30; 10; 21; 20] (Ptr 1 0) = Ok r ∧
    summarises (H := x86_64) [30; 10; 21; 20] (Ptr 1 0) r.
Proof.
  apply (@calculate_results_correct x86_64); [done|by vm_compute|].
  repeat constructor; by vm_compute.
Defined.
