(* ===== verification/Processing.v ===== *)
(** * Processing: from raw arrays to results

    [apps/sel4bench/src/processing.c], over the heap of Memory: the raw arrays
    are modified in place and the results point into them. *)

From S2P Require Import Prelude Platform Memory Floats Collect Stats.

(** [result_desc_t] *)
Record result_desc_t := Desc {
  desc_stable : bool;
  desc_name : option string;
  desc_overhead : Z;
  desc_ignored : Z;
}.

(** ** Operations *)
Section processing.
Context `{Platform}.

Definition hload (p : ptr) (i : Z) : M heap Z := λ h, lift (load p i h) h.
Definition hview (p : ptr) (n : Z) : M heap (list Z) := λ h, lift (view p n h) h.
Definition hstore (p : ptr) (i v : Z) : M heap unit := λ h,
  match store p i v h with Ok h' => Ok (tt, h') | Fatal => Fatal | Undef => Undef end.
Definition hcalloc (n : Z) : M heap (option ptr) := λ h, Ok (calloc n h).

(** [for (i = 0; i < size; i++) array[i] -= overhead;] *)
Definition subtract_overhead (array : ptr) (size overhead : Z) : M heap unit :=
  for_each (seqZ 0 size) (λ i,
    x ← hload array i;
    hstore array i (x ⊟[ccnt_bits] overhead)).

(** [result_t process_result(n, array, desc)]; the messages printed when the
    samples are not stable are not modelled. *)
Definition process_result (n : Z) (array : ptr) (desc : result_desc_t) : M heap result_t :=
  let array := ptr_add array (desc_ignored desc) in
  let size := swrap int_bits (n - desc_ignored desc) in
  unstable ← (if desc_stable desc then
                data ← hview array size;
                stable ← lift (Stable.results_stable data size);
                mret (negb stable)
              else mret false);
  if unstable && negb CONFIG_ALLOW_UNSTABLE_OVERHEAD then mret result_zero
  else
    subtract_overhead array size (desc_overhead desc);;
    data ← hview array size;
    lift (calculate_results data array).

Definition process_result_early_proc (num sum sum2 : Z) : outcome result_t :=
  calculate_results_early_proc num sum sum2.

(** [process_results(ncols, nrows, array, desc, results)]: [array[i]] is the
    row at [i * nrows] of the two-dimensional array. *)
Definition process_results (ncols nrows : Z) (array : ptr) (desc : result_desc_t)
  : M heap (list result_t) :=
  map_each (seqZ 0 ncols) (λ i, process_result nrows (ptr_add array (i * nrows)) desc).

(** [process_results_early_proc(ncols, nums, sums, sum2s, results)] *)
Definition process_results_early_proc (ncols : Z) (nums sums sum2s : list Z)
  : outcome (list result_t) :=
  fold_outcome (λ results i,
    num ← defined (aget nums i);
    sum ← defined (aget sums i);
    sum2 ← defined (aget sum2s i);
    r ← process_result_early_proc num sum sum2;
    Ok (results ++ [r])) (seqZ 0 ncols) [].

(** [array[row][col] /= AVERAGE_RUNS] for all rows and columns. *)
Definition divide_all (rows cols : Z) (array : ptr) : M heap unit :=
  for_each (seqZ 0 rows) (λ row,
    for_each (seqZ 0 cols) (λ col,
      x ← hload array (row * cols + col);
      hstore array (row * cols + col) (x `div` AVERAGE_RUNS))).

(** [raw_data[i] = array[i][col]] for all rows. *)
Definition copy_column (rows cols col : Z) (array raw_data : ptr) : M heap unit :=
  for_each (seqZ 0 rows) (λ i,
    x ← hload array (i * cols + col);
    hstore raw_data i x).

(** One iteration of the second loop of [process_average_results]. *)
Definition average_column (rows cols : Z) (array : ptr) (col : Z) : M heap result_t :=
  p ← hcalloc rows;
  match p with
  | None => lift Fatal
  | Some raw_data =>
      copy_column rows cols col array raw_data;;
      data ← hview raw_data rows;
      lift (calculate_results data raw_data)
  end.

(** [process_average_results(rows, cols, array, results)] *)
Definition process_average_results (rows cols : Z) (array : ptr) : M heap (list result_t) :=
  divide_all rows cols array;;
  map_each (seqZ 0 cols) (average_column rows cols array).
End processing.

(** ** What they compute *)
Section specs.
Context `{Platform}.

Lemma wp_hload p i Q h x : load p i h = Ok x → Q x h → wp (hload p i) Q h.
Proof. intros Hl HQ. unfold wp, hload, lift. by rewrite Hl. Qed.

Lemma wp_hstore p i v Q h h' : store p i v h = Ok h' → Q tt h' → wp (hstore p i v) Q h.
Proof. intros Hl HQ. unfold wp, hstore. by rewrite Hl. Qed.

Lemma wp_hview p n Q h l : view p n h = Ok l → Q l h → wp (hview p n) Q h.
Proof. intros Hl HQ. unfold wp, hview, lift. by rewrite Hl. Qed.

(** The heap with the contents of one block replaced. *)
Definition set_block (b : positive) (l : list Z) (h : heap) : heap :=
  Heap (<[b := l]> (blocks h)) (avail h).

Lemma holds_set_block b l h : holds (set_block b l h) b l.
Proof. unfold holds, set_block. simpl. apply lookup_insert_eq. Qed.

Lemma set_block_twice b l l' h : set_block b l' (set_block b l h) = set_block b l' h.
Proof. unfold set_block. simpl. by rewrite insert_insert_eq. Qed.

Lemma set_block_id b l h : holds h b l → set_block b l h = h.
Proof. intros Hh. unfold set_block. rewrite insert_id by done. by destruct h. Qed.

(** Replace the [n] elements of [l] from [k] on by their images. *)
Definition map_slice (f : Z → Z) (k n : nat) (l : list Z) : list Z :=
  take k l ++ (f <$> take n (drop k l)) ++ drop (k + n) l.

Lemma length_map_slice f k n l : length (map_slice f k n l) = length l.
Proof.
  unfold map_slice. rewrite !length_app, length_fmap, !length_take, !length_drop. lia.
Qed.

Lemma map_slice_0 f k l : map_slice f k 0 l = l.
Proof. unfold map_slice. rewrite Nat.add_0_r. simpl. apply take_drop. Qed.

Lemma lookup_map_slice f k n l i :
  map_slice f k n l !! i =
    (if decide (k <= i < k + n)%nat then f <$> l !! i else l !! i).
Proof.
  unfold map_slice. destruct (decide (i < length l)%nat) as [Hi|Hi].
  2:{ rewrite (lookup_ge_None_2 l) by lia. case_decide; simpl;
      apply lookup_ge_None_2; rewrite !length_app, length_fmap, !length_take, !length_drop; lia. }
  destruct (decide (i < k)%nat).
  { rewrite decide_False by lia. rewrite lookup_app_l by (rewrite length_take; lia).
    by rewrite lookup_take_lt. }
  rewrite lookup_app_r, length_take by (rewrite length_take; lia).
  rewrite Nat.min_l by lia. case_decide.
  - rewrite lookup_app_l by (rewrite length_fmap, length_take, length_drop; lia).
    rewrite list_lookup_fmap, lookup_take_lt, lookup_drop by lia. do 2 f_equal. lia.
  - rewrite lookup_app_r; rewrite length_fmap, length_take, length_drop; [|lia].
    rewrite lookup_drop. f_equal. lia.
Qed.

Lemma map_slice_step f k n l x :
  l !! (k + n)%nat = Some x →
  <[(k + n)%nat := f x]> (map_slice f k n l) = map_slice f k (S n) l.
Proof.
  intros Hx. apply list_eq. intros i. pose proof (lookup_lt_Some _ _ _ Hx).
  destruct (decide (i = k + n)%nat) as [->|Hne].
  - rewrite list_lookup_insert_eq by (by rewrite length_map_slice).
    rewrite lookup_map_slice, decide_True, Hx by lia. done.
  - rewrite list_lookup_insert_ne by done. rewrite !lookup_map_slice.
    case_decide; case_decide; done || lia.
Qed.

Lemma slice_map_slice f k n l :
  (k + n <= length l)%nat →
  take n (drop k (map_slice f k n l)) = f <$> take n (drop k l).
Proof.
  intros Hl. unfold map_slice.
  rewrite drop_app_length' by (rewrite length_take; lia).
  rewrite take_app_length'; [done|]. rewrite length_fmap, length_take, length_drop. lia.
Qed.

(** A loop [for (i = 0; i < size; i++) array[i] = f(array[i])]. *)
Lemma wp_update_loop f b l k size h (Q : unit → heap → Prop) :
  holds h b l → 0 <= k → 0 <= size → k + size <= Z.of_nat (length l) →
  Q tt (set_block b (map_slice f (Z.to_nat k) (Z.to_nat size) l) h) →
  wp (for_each (seqZ 0 size) (λ i, x ← hload (Ptr b k) i; hstore (Ptr b k) i (f x))) Q h.
Proof.
  intros Hh Hk Hs Hl HQ.
  apply (wp_for_range (λ i h', h' = set_block b (map_slice f (Z.to_nat k) (Z.to_nat i) l) h)).
  - done.
  - by rewrite map_slice_0, set_block_id.
  - intros i h' Hi ->. apply wp_bind.
    destruct (lookup_lt_is_Some_2 l (Z.to_nat (k + i))) as [x Hx]; [lia|].
    assert (Hki : Z.to_nat (k + i) = (Z.to_nat k + Z.to_nat i)%nat) by lia.
    eapply wp_hload.
    { eapply load_holds; [apply holds_set_block|lia|].
      rewrite lookup_map_slice, decide_False by lia. done. }
    eapply wp_hstore.
    { eapply store_holds; [apply holds_set_block|]. rewrite length_map_slice. lia. }
    change (Heap ?a ?b) with (Heap a b). rewrite Hki in Hx |- *.
    rewrite (map_slice_step f _ _ _ _ Hx). unfold set_block. simpl.
    rewrite insert_insert_eq. by replace (Z.to_nat (i + 1)) with (S (Z.to_nat i)) by lia.
  - intros h' ->. done.
Qed.
End specs.

(** ** process_result *)
Section process_result.
Context `{Platform}.

(** All the samples are equal: what [results_stable] decides. *)
Definition all_equal (l : list Z) : bool :=
  match l with [] => true | x :: l => forallb (Z.eqb x) l end.

Lemma all_equal_spec l : all_equal l = true ↔ ∀ x y, x ∈ l → y ∈ l → x = y.
Proof.
  destruct l as [|z l]; simpl; [split; [|done]; intros _ x y Hx; inversion Hx|].
  rewrite forallb_forall. split.
  - intros Hall x y Hx Hy.
    assert (∀ w, w ∈ z :: l → z = w) as Hz.
    { intros w [->|Hw]%elem_of_cons; [done|]. by apply Z.eqb_eq, Hall, list_elem_of_In. }
    by rewrite <-(Hz x), <-(Hz y).
  - intros Hall x Hx%list_elem_of_In. apply Z.eqb_eq, Hall; [by left|by right].
Qed.

Lemma results_stable_all_equal l : Stable.results_stable l (size_of l) = Ok (all_equal l).
Proof.
  destruct (Stable.results_stable_spec l) as (b & Hb & Hspec). unfold size_of. rewrite Hb.
  f_equal. rewrite <-all_equal_spec in Hspec.
  destruct b, (all_equal l); naive_solver.
Qed.

Definition subtract (overhead x : Z) : Z := x ⊟[ccnt_bits] overhead.

(** The samples of an array that [process_result] keeps. *)
Definition kept (l : list Z) (k n ignored : Z) : list Z :=
  take (Z.to_nat (n - ignored)) (drop (Z.to_nat (k + ignored)) l).

(** The heap after the overhead is subtracted in place. *)
Definition subtracted (b : positive) (l : list Z) (k n ignored overhead : Z) (h : heap) : heap :=
  set_block b (map_slice (subtract overhead) (Z.to_nat (k + ignored)) (Z.to_nat (n - ignored)) l) h.

Definition rejected (desc : result_desc_t) (samples : list Z) : bool :=
  desc_stable desc && negb (all_equal samples) && negb CONFIG_ALLOW_UNSTABLE_OVERHEAD.

(** The preconditions the callers meet: the array lies inside its block, and
    the warm-up samples inside the array. *)
Definition array_ok (l : list Z) (k n ignored : Z) : Prop :=
  0 <= k ∧ 0 <= ignored <= n ∧ n < 2 ^ (int_bits - 1) ∧ k + n <= Z.of_nat (length l).

Lemma kept_length l k n ignored :
  array_ok l k n ignored → size_of (kept l k n ignored) = n - ignored.
Proof.
  intros (Hk & Hi & Hn & Hl). unfold size_of, kept. rewrite length_take, length_drop. lia.
Qed.

Lemma process_result_spec h b l k n desc :
  holds h b l → array_ok l k n (desc_ignored desc) →
  process_result n (Ptr b k) desc h =
    let ign := desc_ignored desc in
    let samples := kept l k n ign in
    if rejected desc samples then Ok (result_zero, h)
    else
      r ← calculate_results (subtract (desc_overhead desc) <$> samples) (Ptr b (k + ign));
      Ok (r, subtracted b l k n ign (desc_overhead desc) h).
Proof.
  intros Hh Hok. pose proof Hok as (Hk & Hi & Hn & Hl). cbv zeta.
  assert (Hsize : swrap int_bits (n - desc_ignored desc) = n - desc_ignored desc).
  { apply swrap_small; [done|]. change (2 ^ (int_bits - 1)) with 2147483648 in *. lia. }
  set (ign := desc_ignored desc) in *. set (samples := kept l k n ign).
  assert (Hview : view (Ptr b (k + ign)) (n - ign) h = Ok samples)
    by (apply view_holds; done || lia).
  unfold process_result. fold ign. rewrite Hsize. unfold ptr_add; simpl.
  assert (Hhead : (if desc_stable desc then
      data ← hview (Ptr b (k + ign)) (n - ign);
      stable ← lift (Stable.results_stable data (n - ign)); mret (negb stable)
    else mret false) h = Ok (desc_stable desc && negb (all_equal samples), h)).
  { destruct (desc_stable desc); [|done]. unfold mbind, M_bind, hview, lift. rewrite Hview.
    rewrite <-(kept_length l k n ign) by done. by rewrite results_stable_all_equal. }
  unfold mbind at 1, M_bind at 1. rewrite Hhead. unfold rejected.
  destruct (_ && _ && _); [done|].
  assert (Hloop : wp (subtract_overhead (Ptr b (k + ign)) (n - ign) (desc_overhead desc))
    (λ _ h', h' = subtracted b l k n ign (desc_overhead desc) h) h).
  { apply (wp_update_loop (subtract (desc_overhead desc)) b l); done || lia. }
  apply wp_run in Hloop as ([] & h' & Hrun & ->).
  unfold mbind, M_bind. rewrite Hrun. unfold hview at 1, lift.
  assert (view (Ptr b (k + ign)) (n - ign) (subtracted b l k n ign (desc_overhead desc) h) =
    Ok (subtract (desc_overhead desc) <$> samples)) as ->.
  { erewrite view_holds; [|apply holds_set_block|lia|lia|rewrite length_map_slice; lia].
    unfold samples, kept. rewrite slice_map_slice by lia. done. }
  simpl. by destruct (calculate_results _ _).
Qed.

(** C2.  [process_result] on an array inside a live block: unstable samples of
    a result that must be stable give the zero result and leave the memory
    alone, where the configuration says so; otherwise the warm-up samples are
    dropped, the overhead is subtracted from the others in place, modulo the
    counter width, and the statistics of the corrected samples are returned,
    with [raw_data] pointing at them; no other element of memory changes. *)
Theorem process_result_correct h b l k n desc :
  holds h b l → array_ok l k n (desc_ignored desc) →
  let ign := desc_ignored desc in
  let samples := kept l k n ign in
  let corrected := subtract (desc_overhead desc) <$> samples in
  if rejected desc samples then process_result n (Ptr b k) desc h = Ok (result_zero, h)
  else
    match calculate_results corrected (Ptr b (k + ign)) with
    | Ok r => ∃ h', process_result n (Ptr b k) desc h = Ok (r, h') ∧
        view (Ptr b (k + ign)) (n - ign) h' = Ok corrected ∧
        (∀ b' l', b' ≠ b → holds h b' l' → holds h' b' l') ∧
        (∀ i, ¬ ign <= i < n → 0 <= k + i → load (Ptr b k) i h' = load (Ptr b k) i h)
    | Fatal => process_result n (Ptr b k) desc h = Fatal
    | Undef => process_result n (Ptr b k) desc h = Undef
    end.
Proof.
  intros Hh Hok. cbv zeta. rewrite (process_result_spec h b l) by done. cbv zeta.
  destruct (rejected _ _); [done|].
  destruct (calculate_results _ _) as [r| |]; [|done..].
  pose proof Hok as (Hk & Hi & Hn & Hl). eexists. split; [done|]. split; [|split].
  - erewrite view_holds; [|apply holds_set_block|lia|lia|rewrite length_map_slice; lia].
    unfold kept. by rewrite slice_map_slice by lia.
  - intros b' l' Hne Hb'. unfold holds, subtracted, set_block. simpl. by rewrite lookup_insert_ne.
  - intros i Hni Hki. unfold load, subtracted, set_block. simpl.
    rewrite lookup_insert_eq, Hh. f_equal. rewrite !aget_pos by done.
    rewrite lookup_map_slice, decide_False by lia. done.
Qed.
End process_result.

(** ** process_results *)
Section process_results.
Context `{Platform}.

Lemma slice_map_slice_ne f k n l a m :
  (a + m <= k ∨ k + n <= a)%nat →
  take m (drop a (map_slice f k n l)) = take m (drop a l).
Proof.
  intros Hd. apply list_eq. intros i. destruct (decide (i < m)%nat).
  - rewrite !lookup_take_lt, !lookup_drop, lookup_map_slice by done.
    by rewrite decide_False by lia.
  - by rewrite !lookup_take_ge by lia.
Qed.

(** Row [i] of a two-dimensional array, without its warm-up samples. *)
Definition row (l : list Z) (nrows ign i : Z) : list Z := kept l (i * nrows) nrows ign.

Definition row_done (desc : result_desc_t) (s : list Z) : list Z :=
  if rejected desc s then s else subtract (desc_overhead desc) <$> s.

Lemma row_map_slice f l nrows ign i j :
  0 <= ign <= nrows → 0 <= i → 0 <= j → (i + 1) * nrows <= size_of l →
  row (map_slice f (Z.to_nat (i * nrows + ign)) (Z.to_nat (nrows - ign)) l) nrows ign j =
    if decide (j = i) then f <$> row l nrows ign i else row l nrows ign j.
Proof.
  unfold size_of. intros Hign Hi Hj Hl. unfold row, kept. case_decide as Heq.
  - subst j. apply slice_map_slice. nia.
  - apply slice_map_slice_ne. assert (j < i ∨ i < j) as [|] by lia; [left|right]; nia.
Qed.

Definition rows_inv (h : heap) (b : positive) (l : list Z) (ncols nrows : Z)
    (desc : result_desc_t) (R : Z → result_t) (ys : list result_t) (h' : heap) : Prop :=
  ys = R <$> seqZ 0 (Z.of_nat (length ys)) ∧
  ∃ l', h' = set_block b l' h ∧ length l' = length l ∧
    ∀ j, 0 <= j < ncols →
      row l' nrows (desc_ignored desc) j =
        if decide (j < Z.of_nat (length ys))
        then row_done desc (row l nrows (desc_ignored desc) j)
        else row l nrows (desc_ignored desc) j.

Lemma rows_step h b l ncols nrows desc R i ys h' :
  0 <= i < ncols → Z.of_nat (length ys) = i →
  ncols * nrows <= size_of l → 0 <= desc_ignored desc <= nrows → nrows < 2 ^ (int_bits - 1) →
  (let s := row l nrows (desc_ignored desc) i in
   if rejected desc s then R i = result_zero
   else calculate_results (subtract (desc_overhead desc) <$> s)
          (Ptr b (i * nrows + desc_ignored desc)) = Ok (R i)) →
  rows_inv h b l ncols nrows desc R ys h' →
  wp (process_result nrows (ptr_add (Ptr b 0) (i * nrows)) desc)
    (λ y, rows_inv h b l ncols nrows desc R (ys ++ [y])) h'.
Proof.
  intros Hi Hlen Hl Hign Hnr HR (Hys & l' & -> & Hl' & Hrows).
  change (ptr_add (Ptr b 0) (i * nrows)) with (Ptr b (i * nrows)). unfold size_of in Hl.
  assert (Hok : array_ok l' (i * nrows) nrows (desc_ignored desc)).
  { unfold array_ok. rewrite Hl'. nia. }
  assert (Hrow : row l' nrows (desc_ignored desc) i = row l nrows (desc_ignored desc) i).
  { rewrite Hrows by lia. by rewrite decide_False by lia. }
  unfold wp. erewrite process_result_spec; [|apply holds_set_block|done]. cbv zeta in *.
  change (kept l' (i * nrows) nrows (desc_ignored desc)) with (row l' nrows (desc_ignored desc) i).
  rewrite Hrow.
  assert (Hys' : ys ++ [R i] = R <$> seqZ 0 (Z.of_nat (length (ys ++ [R i])))).
  { rewrite length_app. simpl. rewrite Nat2Z.inj_add, seqZ_snoc, fmap_app by lia.
    simpl. rewrite <-Hys. by rewrite Hlen. }
  destruct (rejected _ _) eqn:Hrej.
  - rewrite <-HR in *. split; [done|]. exists l'. split; [done|]. split; [done|].
    intros j Hj. rewrite Hrows, length_app by done. simpl.
    destruct (decide (j = i)) as [->|].
    + rewrite decide_False, decide_True by lia. unfold row_done. by rewrite Hrej.
    + destruct (decide (j < i));
        [rewrite !decide_True by lia|rewrite !decide_False by lia]; done.
  - rewrite HR. simpl. split; [done|].
    eexists. split; [unfold subtracted; by rewrite set_block_twice|].
    rewrite length_map_slice. split; [done|]. intros j Hj.
    rewrite row_map_slice by (done || lia || (unfold size_of; rewrite Hl'; nia)).
    rewrite length_app. simpl. destruct (decide (j = i)) as [->|].
    + rewrite decide_True by lia. unfold row_done. by rewrite Hrej, Hrow.
    + rewrite Hrows by done. destruct (decide (j < i));
        [rewrite !decide_True by lia|rewrite !decide_False by lia]; done.
Qed.

Lemma process_results_spec h b l ncols nrows desc R :
  holds h b l → 0 <= ncols → ncols * nrows <= size_of l →
  0 <= desc_ignored desc <= nrows → nrows < 2 ^ (int_bits - 1) →
  (∀ i, 0 <= i < ncols →
    let s := row l nrows (desc_ignored desc) i in
    if rejected desc s then R i = result_zero
    else calculate_results (subtract (desc_overhead desc) <$> s)
           (Ptr b (i * nrows + desc_ignored desc)) = Ok (R i)) →
  ∃ l', process_results ncols nrows (Ptr b 0) desc h =
      Ok (R <$> seqZ 0 ncols, set_block b l' h) ∧ length l' = length l ∧
    (∀ i, 0 <= i < ncols → row l' nrows (desc_ignored desc) i =
       row_done desc (row l nrows (desc_ignored desc) i)).
Proof.
  intros Hh Hn Hl Hign Hnr HR.
  assert (wp (process_results ncols nrows (Ptr b 0) desc)
    (λ ys h', ys = R <$> seqZ 0 ncols ∧ rows_inv h b l ncols nrows desc R ys h') h) as Hwp.
  { apply (wp_map_range (rows_inv h b l ncols nrows desc R)); [done| | |].
    - split; [done|]. exists l. rewrite set_block_id by done. split; [done|]. split; [done|].
      intros j Hj. by rewrite decide_False by (simpl; lia).
    - intros i ys h' Hi Hlen Hinv. eapply rows_step; try done. by apply HR.
    - intros ys h' Hinv Hlen. split; [|done]. destruct Hinv as [Hys _].
      by rewrite Hlen in Hys. }
  apply wp_run in Hwp as (ys & h' & Hrun & -> & _ & l' & -> & Hl' & Hrows).
  exists l'. split; [done|]. split; [done|].
  intros i Hi. rewrite Hrows, length_fmap, length_seqZ by done. by rewrite decide_True by lia.
Qed.

(** C5.  [process_results] processes every row of the table on its own: result
    [i] is the one [process_result] gives for row [i] of the original table
    (rows processed earlier do not disturb it), each row ends up corrected in
    place, or untouched where it was rejected, and no other block changes. *)
Theorem process_results_correct h b l ncols nrows desc R :
  holds h b l → 0 <= ncols → ncols * nrows <= size_of l →
  0 <= desc_ignored desc <= nrows → nrows < 2 ^ (int_bits - 1) →
  (∀ i, 0 <= i < ncols →
    let s := row l nrows (desc_ignored desc) i in
    if rejected desc s then R i = result_zero
    else calculate_results (subtract (desc_overhead desc) <$> s)
           (Ptr b (i * nrows + desc_ignored desc)) = Ok (R i)) →
  ∃ h' l', process_results ncols nrows (Ptr b 0) desc h = Ok (R <$> seqZ 0 ncols, h') ∧
    holds h' b l' ∧ length l' = length l ∧
    (∀ i, 0 <= i < ncols → row l' nrows (desc_ignored desc) i =
       row_done desc (row l nrows (desc_ignored desc) i)) ∧
    (∀ b' l'', b' ≠ b → holds h b' l'' → holds h' b' l'').
Proof.
  intros Hh Hn Hl Hign Hnr HR.
  destruct (process_results_spec h b l ncols nrows desc R) as (l' & Hrun & Hl' & Hrows); [done..|].
  exists (set_block b l' h), l'. split; [done|]. split; [apply holds_set_block|].
  split; [done|]. split; [done|]. intros b' l'' Hne Hb. unfold holds, set_block. simpl.
  by rewrite lookup_insert_ne.
Qed.
End process_results.

(** The results of the sums in three arrays. *)
Definition early_table `{Platform} (n : Z) (nums sums sum2s : list Z) (R : Z → result_t) : Prop :=
  ∀ i, 0 <= i < n → ∃ num sum sum2,
    aget nums i = Some num ∧ aget sums i = Some sum ∧ aget sum2s i = Some sum2 ∧
    process_result_early_proc num sum sum2 = Ok (R i).

Lemma early_raw `{Platform} num sum sum2 r :
  process_result_early_proc num sum sum2 = Ok r → raw_data r = None.
Proof.
  unfold process_result_early_proc, calculate_results_early_proc.
  destruct (num =? 0); [done|]. destruct (to_unsigned _ _); [|done..]. by intros [= <-].
Qed.

(** The early-processing table gives one result per column. *)
Lemma process_results_early_proc_spec `{Platform} n nums sums sum2s (R : Z → result_t) :
  early_table n nums sums sum2s R →
  process_results_early_proc n nums sums sum2s = Ok (R <$> seqZ 0 n).
Proof.
  intros HR. unfold process_results_early_proc.
  set (body := λ (results : list result_t) i, _).
  rewrite (fold_outcome_ext body (λ results i, r ← Ok (R i); Ok (results ++ [r]))).
  - rewrite fold_outcome_fill with (g := R); [done|]. by apply list.Forall_forall.
  - apply list.Forall_forall. intros i Hi%elem_of_seqZ rs. unfold body.
    destruct (HR i) as (num & sum & sum2 & -> & -> & -> & E); [lia|]. simpl. by rewrite E.
Qed.

(** ** process_average_results *)
Section process_average.
Context `{Platform}.

Definition average (x : Z) : Z := x `div` AVERAGE_RUNS.

(** Column [c] of the table, divided by the number of runs. *)
Definition column (l : list Z) (rows cols c : Z) : list Z :=
  (λ i, average (l !!! Z.to_nat (i * cols + c))) <$> seqZ 0 rows.

(** [p[i] = f(p[i])] for the first element not yet updated. *)
Lemma wp_update_at f b l h m (Q : unit → heap → Prop) :
  0 <= m < Z.of_nat (length l) →
  Q tt (set_block b (map_slice f 0 (Z.to_nat (m + 1)) l) h) →
  wp (x ← hload (Ptr b 0) m; hstore (Ptr b 0) m (f x)) Q
     (set_block b (map_slice f 0 (Z.to_nat m) l) h).
Proof.
  intros Hm HQ. apply wp_bind.
  destruct (lookup_lt_is_Some_2 l (Z.to_nat m)) as [x Hx]; [lia|].
  eapply wp_hload.
  { eapply load_holds; [apply holds_set_block|lia|].
    rewrite Z.add_0_l, lookup_map_slice, decide_False by lia. done. }
  eapply wp_hstore.
  { eapply store_holds; [apply holds_set_block|]. rewrite length_map_slice. lia. }
  pose proof (map_slice_step f 0 (Z.to_nat m) l x Hx) as E.
  rewrite Z.add_0_l. unfold set_block in *. simpl in *. rewrite E.
  rewrite insert_insert_eq. by replace (S (Z.to_nat m)) with (Z.to_nat (m + 1)) by lia.
Qed.

Lemma wp_divide_all h b l rows cols (Q : unit → heap → Prop) :
  holds h b l → 0 <= rows → 0 <= cols → rows * cols <= size_of l →
  Q tt (set_block b (map_slice average 0 (Z.to_nat (rows * cols)) l) h) →
  wp (divide_all rows cols (Ptr b 0)) Q h.
Proof.
  unfold size_of. intros Hh Hr Hc Hl HQ.
  apply (wp_for_range (λ r h', h' = set_block b (map_slice average 0 (Z.to_nat (r * cols)) l) h));
    [done|by rewrite map_slice_0, set_block_id| |by intros h' ->].
  intros r h' Hrr ->.
  apply (wp_for_range (λ c h', h' = set_block b (map_slice average 0 (Z.to_nat (r * cols + c)) l) h));
    [done|by rewrite Z.add_0_r| |].
  - intros c h' Hcc ->. apply (wp_update_at average); [nia|].
    by replace (r * cols + c + 1) with (r * cols + (c + 1)) by lia.
  - intros h' ->. by replace ((r + 1) * cols) with (r * cols + cols) by lia.
Qed.

Lemma column_at l rows cols c i :
  0 <= c < cols → 0 <= i < rows → rows * cols <= size_of l →
  map_slice average 0 (Z.to_nat (rows * cols)) l !! Z.to_nat (i * cols + c) =
    Some (average (l !!! Z.to_nat (i * cols + c))).
Proof.
  unfold size_of. intros Hc Hi Hl.
  destruct (lookup_lt_is_Some_2 l (Z.to_nat (i * cols + c))) as [x Hx]; [nia|].
  rewrite lookup_map_slice, decide_True by nia. rewrite Hx.
  by rewrite (list_lookup_total_correct _ _ _ Hx).
Qed.

(** The copy of a column into a block of the right length. *)
Lemma wp_copy_column h b p l rows cols c (Q : unit → heap → Prop) :
  b ≠ p → holds h b (map_slice average 0 (Z.to_nat (rows * cols)) l) →
  holds h p (replicate (Z.to_nat rows) 0) →
  0 <= rows → 0 <= c < cols → rows * cols <= size_of l →
  Q tt (set_block p (column l rows cols c) h) →
  wp (copy_column rows cols c (Ptr b 0) (Ptr p 0)) Q h.
Proof.
  intros Hne Hb Hp Hr Hc Hl HQ.
  set (pre i := ((λ i, average (l !!! Z.to_nat (i * cols + c))) <$> seqZ 0 i) ++
                 replicate (Z.to_nat (rows - i)) 0).
  apply (wp_for_range (λ i h', h' = set_block p (pre i) h)); [done| | |].
  - unfold pre. rewrite Z.sub_0_r. by rewrite set_block_id.
  - intros i h' Hi ->. apply wp_bind. eapply wp_hload.
    { eapply load_holds with (l := map_slice average 0 (Z.to_nat (rows * cols)) l).
      - unfold holds, set_block. simpl. by rewrite lookup_insert_ne.
      - nia.
      - rewrite Z.add_0_l. by apply column_at. }
    assert (Hlen : length (pre i) = Z.to_nat rows).
    { unfold pre. rewrite length_app, length_fmap, length_seqZ, length_replicate. lia. }
    eapply wp_hstore.
    { eapply store_holds; [apply holds_set_block|]. rewrite Hlen. lia. }
    rewrite Z.add_0_l. unfold set_block. simpl. rewrite insert_insert_eq.
    do 2 f_equal. unfold pre.
    rewrite insert_app_r_alt; rewrite length_fmap, length_seqZ; [|lia].
    rewrite Nat.sub_diag, seqZ_snoc, fmap_app, <-app_assoc by lia. f_equal.
    replace (Z.to_nat (rows - i)) with (S (Z.to_nat (rows - (i + 1)))) by lia. done.
  - intros h' ->. unfold pre. rewrite Z.sub_diag, app_nil_r. done.
Qed.

Definition average_inv (h : heap) (b : positive) (l : list Z) (rows cols : Z)
    (ys : list result_t) (h' : heap) : Prop :=
  holds h' b (map_slice average 0 (Z.to_nat (rows * cols)) l) ∧
  avail h' = avail h - Z.of_nat (length ys) * rows ∧
  (∀ b' l', b' ≠ b → holds h b' l' → holds h' b' l') ∧
  ∀ c, 0 <= c < Z.of_nat (length ys) → ∃ r p,
    ys !! Z.to_nat c = Some r ∧ blocks h !! p = None ∧
    holds h' p (column l rows cols c) ∧
    calculate_results (column l rows cols c) (Ptr p 0) = Ok r.

Lemma average_step h b l rows cols i ys h' :
  is_Some (blocks h !! b) →
  0 <= i < cols → Z.of_nat (length ys) = i → 0 <= rows → rows * cols <= size_of l →
  cols * rows <= avail h →
  (∀ p, ∃ r, calculate_results (column l rows cols i) p = Ok r) →
  average_inv h b l rows cols ys h' →
  wp (average_column rows cols (Ptr b 0) i)
    (λ y, average_inv h b l rows cols (ys ++ [y])) h'.
Proof.
  intros [lb Hlb] Hi Hlen Hr Hl Hav Hcalc (Hb & Hav' & Hframe & Hcols).
  unfold average_column. apply wp_bind.
  destruct (calloc rows h') as [op h2] eqn:Hcalloc.
  assert (Ha : (rows <=? avail h') = true) by (apply Z.leb_le; nia).
  assert (∃ p, op = Some (Ptr p 0) ∧ avail h2 = avail h' - rows) as (p & -> & Hav2).
  { unfold calloc in Hcalloc. rewrite Ha in Hcalloc. injection Hcalloc as <- <-. eauto. }
  destruct (calloc_fresh _ _ _ _ Hcalloc) as (Hfresh & _ & Hp & Hkeep). simpl in *.
  unfold wp at 1, hcalloc. rewrite Hcalloc.
  apply wp_bind. destruct (Hkeep b _ Hb) as [Hb2 Hne].
  apply (wp_copy_column h2 b p l); [done|done|done|done|lia|lia|].
  apply wp_bind. eapply wp_hview.
  { eapply view_holds; [apply holds_set_block|lia|lia|].
    unfold column. rewrite length_fmap, length_seqZ. lia. }
  change (Z.to_nat 0) with 0%nat. rewrite drop_0, take_ge.
  2:{ unfold column. rewrite length_fmap, length_seqZ. lia. }
  destruct (Hcalc (Ptr p 0)) as [r Hres]. apply wp_lift. exists r. split; [done|].
  assert (Hother : ∀ b' l', b' ≠ p → holds h2 b' l' →
    holds (set_block p (column l rows cols i) h2) b' l').
  { intros b' l' Hb' Hl'. unfold holds, set_block. simpl. by rewrite lookup_insert_ne. }
  assert (Hold : ∀ b' l', holds h' b' l' → holds (set_block p (column l rows cols i) h2) b' l').
  { intros b' l' Hl'. destruct (Hkeep _ _ Hl'). by apply Hother. }
  split; [by apply Hold|]. split; [simpl; rewrite length_app; simpl; lia|].
  split; [intros; apply Hold; by apply Hframe|].
  intros c Hc. rewrite length_app in Hc. simpl in Hc.
  destruct (decide (c = i)) as [->|].
  - exists r, p. rewrite lookup_app_r by lia.
    replace (Z.to_nat i - length ys)%nat with 0%nat by lia.
    split; [done|]. split; [|split; [apply holds_set_block|done]].
    destruct (blocks h !! p) as [lp|] eqn:Hp'; [|done].
    destruct (decide (p = b)) as [->|]; [done|].
    specialize (Hframe p lp ltac:(done) Hp'). unfold holds in Hframe. congruence.
  - destruct (Hcols c) as (r' & p' & Hys & Hnone & Hp' & Hres'); [lia|].
    exists r', p'. rewrite lookup_app_l by lia. split; [done|]. split; [done|].
    split; [by apply Hold|done].
Qed.

Lemma process_average_results_spec h b l rows cols :
  holds h b l → 0 <= rows → 0 <= cols → rows * cols <= size_of l →
  cols * rows <= avail h →
  (∀ c p, 0 <= c < cols → ∃ r, calculate_results (column l rows cols c) p = Ok r) →
  ∃ rs h', process_average_results rows cols (Ptr b 0) h = Ok (rs, h') ∧
    Z.of_nat (length rs) = cols ∧
    holds h' b (map_slice average 0 (Z.to_nat (rows * cols)) l) ∧
    (∀ b' l', b' ≠ b → holds h b' l' → holds h' b' l') ∧
    ∀ c, 0 <= c < cols → ∃ r p,
      rs !! Z.to_nat c = Some r ∧ blocks h !! p = None ∧
      holds h' p (column l rows cols c) ∧
      calculate_results (column l rows cols c) (Ptr p 0) = Ok r.
Proof.
  intros Hh Hr Hc Hl Hav Hcalc.
  assert (wp (process_average_results rows cols (Ptr b 0))
    (λ ys h', average_inv h b l rows cols ys h' ∧ Z.of_nat (length ys) = cols) h) as Hwp.
  { apply wp_bind. apply (wp_divide_all h b l); [done..|].
    apply (wp_map_range (average_inv h b l rows cols)); [done| | |].
    - split; [apply holds_set_block|]. split; [simpl; lia|]. split.
      + intros b' l' Hne Hb. unfold holds, set_block. simpl. by rewrite lookup_insert_ne.
      + simpl. lia.
    - intros i ys h' Hi Hlen Hinv. eapply average_step; eauto.
    - done. }
  apply wp_run in Hwp as (ys & h' & Hrun & (Hb & _ & Hframe & Hcols) & Hlen).
  exists ys, h'. rewrite Hlen in Hcols. done.
Qed.

(** C6.  [process_average_results] succeeds when [calloc] can serve a column
    of [rows] values per counter: every entry of the table is divided by
    [AVERAGE_RUNS] in place, and result [c] holds the statistics of column
    [c] of the divided table, which [raw_data] keeps in a block that did not
    exist before the call; no other block changes. *)
Theorem process_average_results_correct h b l rows cols :
  holds h b l → 0 <= rows → 0 <= cols → rows * cols <= size_of l →
  cols * rows <= avail h →
  (∀ c p, 0 <= c < cols → ∃ r, calculate_results (column l rows cols c) p = Ok r) →
  ∃ rs h', process_average_results rows cols (Ptr b 0) h = Ok (rs, h') ∧
    Z.of_nat (length rs) = cols ∧
    holds h' b (map_slice average 0 (Z.to_nat (rows * cols)) l) ∧
    (∀ b' l', b' ≠ b → holds h b' l' → holds h' b' l') ∧
    ∀ c, 0 <= c < cols → ∃ r p,
      rs !! Z.to_nat c = Some r ∧ blocks h !! p = None ∧
      holds h' p (column l rows cols c) ∧
      calculate_results (column l rows cols c) (Ptr p 0) = Ok r.
Proof. apply process_average_results_spec. Qed.
End process_average.

(** ** Witnesses *)
Definition table_heap : heap := Heap {[ 1%positive := [900; 30; 30; 800; 31; 33] ]} 1000.

(** Two rows with one warm-up sample and an overhead of 5; the second row is
    not stable, which x86 tolerates. *)
Lemma process_result_correct_witness :
  ∃ r h', process_result (H := x86_64) 3 (Ptr 1 3) (Desc true None 5 1) table_heap = Ok (r, h') ∧
    view (Ptr 1 4) 2 h' = Ok [26; 28].
Proof.
  assert (Hok : array_ok [900; 30; 30; 800; 31; 33] 3 3 1) by
    (split; [by vm_compute|split; [by vm_compute|split; by vm_compute]]).
  pose proof (@process_result_correct x86_64 table_heap 1 [900; 30; 30; 800; 31; 33] 3 3
    (Desc true None 5 1) eq_refl Hok) as Hw.
  cbv zeta in Hw. cbn [desc_ignored desc_overhead] in Hw.
  replace (subtract (H := x86_64) 5 <$> kept [900; 30; 30; 800; 31; 33] 3 3 1)
    with [26; 28] in Hw by by vm_compute.
  replace (rejected (H := x86_64) _ _) with false in Hw by by vm_compute.
  assert (∃ r, calculate_results (H := x86_64) [26; 28] (Ptr 1 (3 + 1)) = Ok r) as [r E]
    by (eexists; vm_compute; reflexivity).
  rewrite E in Hw. destruct Hw as (h' & Hrun & Hview & _). exists r, h'. split; [exact Hrun|exact Hview].
Defined.

(** On Arm the unstable row gives the zero result and stays as it was. *)
Lemma process_results_correct_witness :
  let R i := if i =? 0 then
               match calculate_results (H := aarch64) [25; 25] (Ptr 1 1) with
               | Ok r => r | _ => result_zero end
             else result_zero in
  ∃ h' l', process_results (H := aarch64) 2 3 (Ptr 1 0) (Desc true None 5 1) table_heap =
      Ok (R <$> seqZ 0 2, h') ∧ holds h' 1 l' ∧
      (∀ i, 0 <= i < 2 → row l' 3 1 i =
         row_done (H := aarch64) (Desc true None 5 1) (row [900; 30; 30; 800; 31; 33] 3 1 i)).
Proof.
  intros R.
  destruct (@process_results_correct aarch64 table_heap 1 [900; 30; 30; 800; 31; 33] 2 3
    (Desc true None 5 1) R) as (h' & l' & Hrun & Hh & _ & Hrows & _).
  - done.
  - done.
  - by vm_compute.
  - by vm_compute.
  - by vm_compute.
  - intros i Hi. assert (i = 0 ∨ i = 1) as [-> | ->] by lia; by vm_compute.
  - exists h', l'. split; [exact Hrun|]. split; [exact Hh|exact Hrows].
Defined.

Lemma process_average_results_correct_witness :
  ∃ rs h', process_average_results (H := x86_64) 2 2 (Ptr 1 0)
    (Heap {[ 1%positive := [50000; 70000; 50001; 79999] ]} 16) = Ok (rs, h') ∧
    Z.of_nat (length rs) = 2.
Proof.
  destruct (@process_average_results_correct x86_64
    (Heap {[ 1%positive := [50000; 70000; 50001; 79999] ]} 16)
    1 [50000; 70000; 50001; 79999] 2 2) as (rs & h' & Hrun & Hlen & _).
  - done.
  - done.
  - done.
  - by vm_compute.
  - by vm_compute.
  - intros c p Hc. assert (c = 0 ∨ c = 1) as [-> | ->] by lia; eexists; by vm_compute.
  - exists rs, h'. split; [exact Hrun|exact Hlen].
Defined.
