(* ===== verification/Json.v ===== *)
(** * Json: the output tree

    [apps/sel4bench/src/json.c].  The jansson library is outside the sources:
    it is the class [Jansson], whose laws are the documented behaviour of the
    calls the program makes (with memory available).  A value is a node of a
    store and is referred to by its address, because the code adds an array to
    an object first and fills it afterwards. *)

From S2P Require Import Prelude Platform Memory Floats Collect Stats.

#[global] Open Scope string_scope.
#[global] Open Scope list_scope.
#[global] Open Scope Z_scope.

(** ** The library interface *)

Inductive jnode :=
  | JObject (members : list (string * positive))
  | JArray (elements : list positive)
  | JString (s : string)
  | JInteger (z : Z)
  | JReal (x : spec_float)
  | JBool (b : bool)
  | JNull.

(** Replace the value of a key, or add the key at the end. *)
Fixpoint set_assoc {A} (k : string) (v : A) (l : list (string * A)) : list (string * A) :=
  match l with
  | [] => [(k, v)]
  | (k', v') :: l => if decide (k' = k) then (k, v) :: l else (k', v') :: set_assoc k v l
  end.

Class Jansson := {
  jstate : Type;
  (** the live nodes *)
  jnodes : jstate → gmap positive jnode;
  json_new : jnode → jstate → option positive * jstate;
  json_object_set_new : positive → string → option positive → jstate → Z * jstate;
  json_array_append_new : positive → option positive → jstate → Z * jstate;
  (** A constructor returns a new node; [json_real] refuses NaN and the
      infinities. *)
  json_new_law : ∀ n j,
    (∀ x, n = JReal x → is_finite x = true) →
    ∃ p j', json_new n j = (Some p, j') ∧ jnodes j !! p = None ∧
            jnodes j' = <[p := n]> (jnodes j);
  json_real_law : ∀ x j,
    is_finite x = false → ∃ j', json_new (JReal x) j = (None, j') ∧ jnodes j' = jnodes j;
  json_set_law : ∀ o k v j ms n,
    jnodes j !! o = Some (JObject ms) → jnodes j !! v = Some n → o ≠ v →
    ∃ j', json_object_set_new o k (Some v) j = (0, j') ∧
          jnodes j' = <[o := JObject (set_assoc k v ms)]> (jnodes j);
  json_append_law : ∀ a v j vs n,
    jnodes j !! a = Some (JArray vs) → jnodes j !! v = Some n → a ≠ v →
    ∃ j', json_array_append_new a (Some v) j = (0, j') ∧
          jnodes j' = <[a := JArray (vs ++ [v])]> (jnodes j);
}.

(** ** Data *)

Inductive json_type := JSON_STRING | JSON_INTEGER | JSON_REAL | JSON_TRUE | JSON_FALSE | JSON_NULL.

(** The union of [column_t]. *)
Inductive col_array :=
  | string_array (a : list string)
  | integer_array (a : list Z)
  | real_array (a : list spec_float)
  | bool_array (a : list bool).

Record column_t := Column {
  header : string;
  col_data : col_array;
  col_type : json_type;
}.

(** A pointer to a [result_t]: the variable that holds it and an index. *)
Record result_ptr := ResultPtr { rp_var : string; rp_index : Z }.

Record result_set_t := ResultSet {
  set_name : string;
  extra_cols : option (list column_t);
  n_extra_cols : Z;
  set_results : result_ptr;
  n_results : Z;
}.

(** The variables of type [result_t] and [result_t[]] in scope. *)
Definition frame := gmap string (list result_t).

Definition result_at (fr : frame) (p : result_ptr) (i : Z) : outcome result_t :=
  match fr !! rp_var p with
  | Some rs => defined (aget rs (rp_index p + i))
  | None => Undef
  end.

(** ** Operations *)
Section json.
Context `{Platform} `{Jansson}.

Definition jnew (n : jnode) : M jstate (option positive) := λ j, Ok (json_new n j).
Definition jset (o : positive) (k : string) (v : option positive) : M jstate Z := λ j,
  Ok (json_object_set_new o k v j).
Definition jappend (a : positive) (v : option positive) : M jstate Z := λ j,
  Ok (json_array_append_new a v j).

(** [assert(error == 0)] and [assert(p != NULL)] *)
Definition assert_ok (error : Z) : M jstate unit := lift (assert_ (error =? 0)).
Definition non_null (p : option positive) : M jstate positive :=
  match p with Some p => mret p | None => lift Fatal end.

(** [json_int_t] is a signed 64-bit integer. *)
Definition json_integer (z : Z) : M jstate (option positive) := jnew (JInteger (swrap 64 z)).

Definition round_to_3_decimal_places (val : spec_float) : spec_float :=
  fdiv double (nearbyint double (fmul double val (of_Z double 1000))) (of_Z double 1000).

Definition json_real_check (val : spec_float) : M jstate (option positive) :=
  real ← jnew (JReal val);
  match real with
  | None => jnew (JString (if is_nan val then "nan" else "inf"))
  | Some _ => mret real
  end.

(** [error = json_object_set_new(j, key, make()); assert(error == 0);] *)
Definition set_checked (j : positive) (key : string) (make : M jstate (option positive))
  : M jstate unit :=
  v ← make; error ← jset j key v; assert_ok error.

(** The loop over the raw samples. *)
Definition append_raw (h : heap) (raw_results : positive) (raw_data : ptr) (samples : Z)
  : M jstate unit :=
  for_each (seqZ 0 samples) (λ i,
    x ← lift (load raw_data i h);
    v ← json_integer x;
    error ← jappend raw_results v;
    assert_ok error).

(** [static void result_to_json(result, j)]; the result of adding "Raw
    results" is not looked at. *)
Definition result_to_json (h : heap) (result : result_t) (j : positive) : M jstate unit :=
  set_checked j "Min" (json_integer (result_min result));;
  set_checked j "Max" (json_integer (result_max result));;
  set_checked j "Mean" (json_real_check (mean result));;
  set_checked j "Stddev" (json_real_check (round_to_3_decimal_places (stddev result)));;
  set_checked j "Variance" (json_real_check (variance result));;
  set_checked j "Mode" (json_real_check (of_Z double (mode result)));;
  set_checked j "Median" (json_real_check (median result));;
  set_checked j "1st quantile" (json_real_check (first_quantile result));;
  set_checked j "3rd quantile" (json_real_check (third_quantile result));;
  set_checked j "Samples" (json_integer (samples result));;
  raw ← jnew (JArray []);
  raw_results ← non_null raw;
  match raw_data result with
  | Some p =>
      if CONFIG_OUTPUT_RAW_RESULTS then
        append_raw h raw_results p (samples result);;
        _ ← jset j "Raw results" (Some raw_results);
        mret tt
      else mret tt
  | None => mret tt
  end.

(** [static json_t *get_json_cell(column, index)]; reading the union through
    another member than the one stored is undefined. *)
Definition get_json_cell (column : column_t) (index : Z) : M jstate (option positive) :=
  match col_type column, col_data column with
  | JSON_STRING, string_array a => s ← lift (defined (aget a index)); jnew (JString s)
  | JSON_INTEGER, integer_array a => z ← lift (defined (aget a index)); json_integer z
  | JSON_REAL, real_array a => x ← lift (defined (aget a index)); json_real_check x
  | JSON_TRUE, bool_array a | JSON_FALSE, bool_array a =>
      b ← lift (defined (aget a index)); jnew (JBool b)
  | JSON_NULL, _ => jnew JNull
  | _, _ => lift Undef
  end.

(** The columns of row [i]. *)
Definition add_extra_cols (set : result_set_t) (row : positive) (i : Z) : M jstate unit :=
  for_each (seqZ 0 (n_extra_cols set)) (λ c,
    match extra_cols set with
    | None => lift Fatal
    | Some cols =>
        col ← lift (defined (aget cols c));
        cell ← get_json_cell col i;
        cell ← non_null cell;
        error ← jset row (header col) (Some cell);
        assert_ok error
    end).

(** One iteration of the loop of [result_set_to_json]; the first insertion
    into a [NULL] row fails its assertion. *)
Definition add_row (fr : frame) (h : heap) (set : result_set_t) (rows : positive) (i : Z)
  : M jstate unit :=
  row ← jnew (JObject []);
  match row with
  | None => lift Fatal
  | Some row =>
      add_extra_cols set row i;;
      result ← lift (result_at fr (set_results set) i);
      result_to_json h result row;;
      error ← jappend rows (Some row);
      assert_ok error
  end.

(** [json_t *result_set_to_json(set)] *)
Definition result_set_to_json (fr : frame) (h : heap) (set : result_set_t)
  : M jstate positive :=
  object ← jnew (JObject []);
  object ← non_null object;
  set_checked object "Benchmark" (jnew (JString (set_name set)));;
  rows ← jnew (JArray []);
  rows ← non_null rows;
  set_checked object "Results" (mret (Some rows));;
  for_each (seqZ 0 (n_results set)) (add_row fr h set rows);;
  mret object.

(** One row of [average_counters_to_json], with its event name. *)
Definition add_event (h : heap) (rows : positive) (event : string) (result : outcome result_t)
  : M jstate Z :=
  row ← jnew (JObject []);
  row ← non_null row;
  set_checked row "Event" (jnew (JString event));;
  result ← lift result;
  result_to_json h result row;;
  jappend rows (Some row).

(** One iteration of its loop; the result of the append is not looked at. *)
Definition add_generic_event (h : heap) (rows : positive) (results : list result_t) (i : Z)
  : M jstate unit :=
  event ← lift (defined (aget GENERIC_EVENT_NAMES i));
  _ ← add_event h rows event (defined (aget results i));
  mret tt.

(** [json_t *average_counters_to_json(name, results)] *)
Definition average_counters_to_json (h : heap) (name : string) (results : list result_t)
  : M jstate positive :=
  obj ← jnew (JObject []);
  obj ← non_null obj;
  set_checked obj "Benchmark" (jnew (JString name));;
  rows ← jnew (JArray []);
  rows ← non_null rows;
  _ ← jset obj "Results" (Some rows);
  for_each (seqZ 0 SEL4BENCH_NUM_GENERIC_EVENTS) (add_generic_event h rows results);;
  error ← add_event h rows "Cycle counter" (defined (aget results CYCLE_COUNT_EVENT));
  assert_ok error;;
  mret obj.
End json.

(** ** The tree a node stands for *)

Inductive json :=
  | Obj (members : list (string * json))
  | Arr (elements : list json)
  | Str (s : string)
  | Int (z : Z)
  | Real (x : spec_float)
  | Bool (b : bool)
  | Null.

Definition leaf (n : jnode) : option json :=
  match n with
  | JString s => Some (Str s)
  | JInteger z => Some (Int z)
  | JReal x => Some (Real x)
  | JBool b => Some (Bool b)
  | JNull => Some Null
  | JObject _ | JArray _ => None
  end.

(** [tree N F p t]: in the store [N] node [p] is the root of [t], whose nodes
    all lie in the footprint [F]. *)
Inductive tree (N : gmap positive jnode) (F : gset positive) : positive → json → Prop :=
  | tree_leaf p n t : p ∈ F → N !! p = Some n → leaf n = Some t → tree N F p t
  | tree_obj p ms kvs : p ∈ F → N !! p = Some (JObject ms) → members N F ms kvs → tree N F p (Obj kvs)
  | tree_arr p vs ts : p ∈ F → N !! p = Some (JArray vs) → elements N F vs ts → tree N F p (Arr ts)
with members (N : gmap positive jnode) (F : gset positive) :
    list (string * positive) → list (string * json) → Prop :=
  | members_nil : members N F [] []
  | members_cons k v t ms kvs :
      tree N F v t → members N F ms kvs → members N F ((k, v) :: ms) ((k, t) :: kvs)
with elements (N : gmap positive jnode) (F : gset positive) :
    list positive → list json → Prop :=
  | elements_nil : elements N F [] []
  | elements_cons v t vs ts :
      tree N F v t → elements N F vs ts → elements N F (v :: vs) (t :: ts).

Scheme tree_mind := Minimality for tree Sort Prop
  with members_mind := Minimality for members Sort Prop
  with elements_mind := Minimality for elements Sort Prop.
Combined Scheme tree_mutind from tree_mind, members_mind, elements_mind.

(** The specification of the output. *)
Section spec.
Context `{Platform}.

Definition spec_real (x : spec_float) : json :=
  if is_finite x then Real x else Str (if is_nan x then "nan" else "inf").

Definition spec_int (z : Z) : json := Int (swrap 64 z).

(** The members a result adds to its row, [raw] being the samples it points
    to. *)
Definition spec_result (r : result_t) (raw : list Z) : list (string * json) :=
  [("Min", spec_int (result_min r)); ("Max", spec_int (result_max r));
   ("Mean", spec_real (mean r));
   ("Stddev", spec_real (round_to_3_decimal_places (stddev r)));
   ("Variance", spec_real (variance r)); ("Mode", spec_real (of_Z double (mode r)));
   ("Median", spec_real (median r)); ("1st quantile", spec_real (first_quantile r));
   ("3rd quantile", spec_real (third_quantile r)); ("Samples", spec_int (samples r))] ++
  match raw_data r with
  | Some _ => if CONFIG_OUTPUT_RAW_RESULTS then [("Raw results", Arr (spec_int <$> raw))] else []
  | None => []
  end.

Definition set_all (kvs : list (string * json)) (new : list (string * json))
  : list (string * json) :=
  foldl (λ l kv, set_assoc kv.1 kv.2 l) kvs new.

Definition spec_cell (col : column_t) (i : Z) : option json :=
  match col_type col, col_data col with
  | JSON_STRING, string_array a => Str <$> aget a i
  | JSON_INTEGER, integer_array a => spec_int <$> aget a i
  | JSON_REAL, real_array a => spec_real <$> aget a i
  | JSON_TRUE, bool_array a | JSON_FALSE, bool_array a => Bool <$> aget a i
  | JSON_NULL, _ => Some Null
  | _, _ => None
  end.

Definition spec_extra (cols : list column_t) (i : Z) : option (list (string * json)) :=
  mapM (λ col, (header col,.) <$> spec_cell col i) cols.

(** Row [i] of a result set. *)
Definition spec_row (cols : list column_t) (i : Z) (r : result_t) (raw : list Z) : option json :=
  extra ← spec_extra cols i;
  Some (Obj (set_all (set_all [] extra) (spec_result r raw))).

Definition spec_set (name : string) (rows : list json) : json :=
  Obj [("Benchmark", Str name); ("Results", Arr rows)].
End spec.

(** ** Stores that grow *)
Section stores.
Implicit Types (N : gmap positive jnode) (F X : gset positive).

(** From [N] to [N'] no node disappears and only the nodes of [X] change. *)
Definition keeps X N N' : Prop :=
  dom N ⊆ dom N' ∧ ∀ q, q ∈ dom N → q ∉ X → N' !! q = N !! q.

Lemma keeps_refl X N : keeps X N N.
Proof. done. Qed.

Lemma keeps_trans X N N' N'' : keeps X N N' → keeps X N' N'' → keeps X N N''.
Proof.
  intros [D1 K1] [D2 K2]. split; [set_solver|].
  intros q Hq HX. rewrite K2, K1 by set_solver. done.
Qed.

Lemma keeps_weaken X Y N N' : X ⊆ Y → keeps X N N' → keeps Y N N'.
Proof. intros HXY [D K]. split; [done|]. intros q Hq HY. apply K; set_solver. Qed.

Lemma keeps_empty X N N' : keeps ∅ N N' → keeps X N N'.
Proof. apply keeps_weaken, empty_subseteq. Qed.

Lemma keeps_new N v n : N !! v = None → keeps ∅ N (<[v := n]> N).
Proof.
  intros Hv. split; [rewrite dom_insert_L; set_solver|].
  intros q Hq _. apply lookup_insert_ne. intros <-. by apply not_elem_of_dom in Hv.
Qed.

Lemma keeps_update N v n n' : N !! v = Some n' → keeps {[v]} N (<[v := n]> N).
Proof.
  intros Hv. split; [rewrite dom_insert_L; set_solver|].
  intros q Hq Hne. apply lookup_insert_ne. set_solver.
Qed.

(** Changes of nodes that did not exist before are invisible. *)
Lemma keeps_fresh X N N' N'' :
  keeps ∅ N N' → keeps X N' N'' → X ## dom N → keeps ∅ N N''.
Proof.
  intros [D1 K1] [D2 K2] HX. split; [set_solver|].
  intros q Hq _. rewrite K2, K1 by set_solver. done.
Qed.

Lemma tree_frame N F :
  (∀ p t, tree N F p t → ∀ N' F', F ⊆ F' → (∀ q, q ∈ F → N' !! q = N !! q) → tree N' F' p t) ∧
  (∀ ms kvs, members N F ms kvs → ∀ N' F', F ⊆ F' → (∀ q, q ∈ F → N' !! q = N !! q) →
    members N' F' ms kvs) ∧
  (∀ vs ts, elements N F vs ts → ∀ N' F', F ⊆ F' → (∀ q, q ∈ F → N' !! q = N !! q) →
    elements N' F' vs ts).
Proof.
  apply tree_mutind.
  - intros p n t Hp Hn Hleaf N' F' HF HN. eapply tree_leaf; [by apply HF|by rewrite HN|done].
  - intros p ms kvs Hp Hn _ IH N' F' HF HN. eapply tree_obj; [by apply HF|by rewrite HN|by apply IH].
  - intros p vs ts Hp Hn _ IH N' F' HF HN. eapply tree_arr; [by apply HF|by rewrite HN|by apply IH].
  - constructor.
  - intros. constructor; auto.
  - constructor.
  - intros. constructor; auto.
Qed.

Lemma tree_keeps N N' F F' X p t :
  tree N F p t → F ⊆ dom N → F ## X → keeps X N N' → F ⊆ F' → tree N' F' p t.
Proof.
  intros Ht HD HX [_ K] HF. eapply (proj1 (tree_frame N F)); [done|done|].
  intros q Hq. apply K; set_solver.
Qed.

Lemma members_keeps N N' F F' X ms kvs :
  members N F ms kvs → F ⊆ dom N → F ## X → keeps X N N' → F ⊆ F' → members N' F' ms kvs.
Proof.
  intros Ht HD HX [_ K] HF. eapply (proj1 (proj2 (tree_frame N F))); [done|done|].
  intros q Hq. apply K; set_solver.
Qed.

Lemma elements_keeps N N' F F' X vs ts :
  elements N F vs ts → F ⊆ dom N → F ## X → keeps X N N' → F ⊆ F' → elements N' F' vs ts.
Proof.
  intros Ht HD HX [_ K] HF. eapply (proj2 (proj2 (tree_frame N F))); [done|done|].
  intros q Hq. apply K; set_solver.
Qed.

Lemma tree_root N F p t : tree N F p t → p ∈ F ∧ is_Some (N !! p).
Proof. inversion 1; eauto. Qed.

Lemma members_set N F k v t ms kvs :
  tree N F v t → members N F ms kvs → members N F (set_assoc k v ms) (set_assoc k t kvs).
Proof.
  intros Ht. induction 1 as [|k' v' t' ms kvs Ht' Hms IH]; simpl.
  - by repeat constructor.
  - case_decide; by constructor.
Qed.

Lemma elements_snoc N F v t vs ts :
  tree N F v t → elements N F vs ts → elements N F (vs ++ [v]) (ts ++ [t]).
Proof. intros Ht. induction 1; simpl; by repeat constructor. Qed.

(** An object or an array under construction, its children in [F]. *)
Definition open_obj N (o : positive) F (kvs : list (string * json)) : Prop :=
  ∃ ms, N !! o = Some (JObject ms) ∧ members N F ms kvs ∧ o ∉ F ∧ F ⊆ dom N.
Definition open_arr N (a : positive) F (ts : list json) : Prop :=
  ∃ vs, N !! a = Some (JArray vs) ∧ elements N F vs ts ∧ a ∉ F ∧ F ⊆ dom N.

Lemma open_obj_keeps N N' o F kvs X :
  open_obj N o F kvs → keeps X N N' → o ∉ X → F ## X → open_obj N' o F kvs.
Proof.
  intros (ms & Ho & Hms & Hni & HD) HK HoX HFX. exists ms.
  split; [rewrite (proj2 HK); [done|by eapply elem_of_dom_2|done]|].
  split; [by eapply members_keeps|]. split; [done|]. destruct HK. set_solver.
Qed.

Lemma open_arr_keeps N N' o F ts X :
  open_arr N o F ts → keeps X N N' → o ∉ X → F ## X → open_arr N' o F ts.
Proof.
  intros (vs & Ho & Hvs & Hni & HD) HK HoX HFX. exists vs.
  split; [rewrite (proj2 HK); [done|by eapply elem_of_dom_2|done]|].
  split; [by eapply elements_keeps|]. split; [done|]. destruct HK. set_solver.
Qed.

Lemma close_obj N o F kvs : open_obj N o F kvs → tree N ({[o]} ∪ F) o (Obj kvs).
Proof.
  intros (ms & Ho & Hms & Hni & HD). eapply tree_obj; [set_solver|done|].
  eapply members_keeps with (X := ∅); [done|done|apply disjoint_empty_r|apply keeps_refl|apply union_subseteq_r].
Qed.

Lemma close_arr N a F ts : open_arr N a F ts → tree N ({[a]} ∪ F) a (Arr ts).
Proof.
  intros (vs & Ho & Hvs & Hni & HD). eapply tree_arr; [set_solver|done|].
  eapply elements_keeps with (X := ∅); [done|done|apply disjoint_empty_r|apply keeps_refl|apply union_subseteq_r].
Qed.
End stores.

(** ** The operations build the specified trees *)
Section proofs.
Context `{Platform} `{Jansson}.

#[local] Notation N j := (jnodes j).

(** [make] returns the root of a new copy of [t] and changes no old node. *)
Definition makes (make : M jstate (option positive)) (t : json) : Prop :=
  ∀ j, ∃ v j' F, make j = Ok (Some v, j') ∧ keeps ∅ (N j) (N j') ∧
    F ## dom (N j) ∧ F ⊆ dom (N j') ∧ tree (N j') F v t.

(** [m] adds the members [new] to the object [o] and changes no other old
    node. *)
Definition builds (o : positive) (m : M jstate unit) (new : list (string * json)) : Prop :=
  ∀ j F kvs, open_obj (N j) o F kvs →
    ∃ j' G, m j = Ok (tt, j') ∧ keeps {[o]} (N j) (N j') ∧ G ## dom (N j) ∧
      open_obj (N j') o (F ∪ G) (set_all kvs new).

Lemma makes_leaf n t :
  leaf n = Some t → (∀ x, n = JReal x → is_finite x = true) → makes (jnew n) t.
Proof.
  intros Hleaf Hfin j. destruct (json_new_law n j Hfin) as (p & j' & Hnew & Hp & HN).
  exists p, j', {[p]}. unfold jnew. rewrite Hnew, HN. split; [done|].
  split; [by apply keeps_new|]. split; [apply not_elem_of_dom in Hp; set_solver|].
  split; [rewrite dom_insert_L; set_solver|].
  eapply tree_leaf; [by apply elem_of_singleton|apply lookup_insert_eq|done].
Qed.

Lemma makes_integer z : makes (json_integer z) (spec_int z).
Proof. by apply makes_leaf. Qed.

Lemma makes_string s : makes (jnew (JString s)) (Str s).
Proof. by apply makes_leaf. Qed.

Lemma makes_real x : makes (json_real_check x) (spec_real x).
Proof.
  unfold spec_real, json_real_check. destruct (is_finite x) eqn:Hx.
  - intros j. destruct (makes_leaf (JReal x) (Real x) eq_refl) with (j := j)
      as (v & j' & F & Hrun & Hrest); [by intros ? [= <-]|].
    exists v, j', F. unfold mbind, M_bind. by rewrite Hrun.
  - intros j. destruct (json_real_law x j Hx) as (j1 & Hnew & HN).
    destruct (makes_string (if is_nan x then "nan" else "inf") j1)
      as (v & j' & F & Hrun & Hrest).
    exists v, j', F. unfold mbind, M_bind, jnew in *. rewrite Hnew. by rewrite <-HN.
Qed.

(** [json_object_set_new] on an open object, with a closed tree. *)
Lemma jset_open j o F kvs k v t G :
  open_obj (N j) o F kvs → tree (N j) G v t → o ∉ G → G ⊆ dom (N j) →
  ∃ j', jset o k (Some v) j = Ok (0, j') ∧ keeps {[o]} (N j) (N j') ∧
    open_obj (N j') o (F ∪ G) (set_assoc k t kvs).
Proof.
  intros (ms & Ho & Hms & Hni & HD) Ht HoG HG.
  destruct (tree_root _ _ _ _ Ht) as [HvG [n Hn]].
  destruct (json_set_law o k v j ms n) as (j' & Hset & HN); [done|done|by intros ->|].
  exists j'. unfold jset. rewrite Hset. split; [done|].
  assert (HK : keeps {[o]} (N j) (N j')) by (rewrite HN; by eapply keeps_update).
  split; [done|]. exists (set_assoc k v ms). split; [rewrite HN; apply lookup_insert_eq|].
  split; [|split; [set_solver|destruct HK; set_solver]].
  apply members_set.
  - eapply tree_keeps; [done|done| |done|set_solver]. set_solver.
  - eapply members_keeps; [done|done| |done|set_solver]. set_solver.
Qed.

Lemma jappend_open j a F ts v t G :
  open_arr (N j) a F ts → tree (N j) G v t → a ∉ G → G ⊆ dom (N j) →
  ∃ j', jappend a (Some v) j = Ok (0, j') ∧ keeps {[a]} (N j) (N j') ∧
    open_arr (N j') a (F ∪ G) (ts ++ [t]).
Proof.
  intros (vs & Ho & Hvs & Hni & HD) Ht HoG HG.
  destruct (tree_root _ _ _ _ Ht) as [HvG [n Hn]].
  destruct (json_append_law a v j vs n) as (j' & Hset & HN); [done|done|by intros ->|].
  exists j'. unfold jappend. rewrite Hset. split; [done|].
  assert (HK : keeps {[a]} (N j) (N j')) by (rewrite HN; by eapply keeps_update).
  split; [done|]. exists (vs ++ [v]). split; [rewrite HN; apply lookup_insert_eq|].
  split; [|split; [set_solver|destruct HK; set_solver]].
  apply elements_snoc.
  - eapply tree_keeps; [done|done| |done|set_solver]. set_solver.
  - eapply elements_keeps; [done|done| |done|set_solver]. set_solver.
Qed.

Lemma open_obj_dom j o F kvs : open_obj (N j) o F kvs → o ∈ dom (N j).
Proof. intros (ms & Ho & _). by eapply elem_of_dom_2. Qed.

Lemma open_arr_dom j a F ts : open_arr (N j) a F ts → a ∈ dom (N j) ∧ F ⊆ dom (N j) ∧ a ∉ F.
Proof. intros (vs & Ho & _ & ? & ?). split; [by eapply elem_of_dom_2|done]. Qed.

Lemma builds_set o k make t : makes make t → builds o (set_checked o k make) [(k, t)].
Proof.
  intros Hmake j F kvs Hopen. destruct (Hmake j) as (v & j1 & G & Hrun & HK & HG & HGd & Ht).
  pose proof (open_obj_dom _ _ _ _ Hopen).
  destruct (jset_open j1 o F kvs k v t G) as (j2 & Hset & HK2 & Hopen2).
  - eapply open_obj_keeps; [done|done|set_solver|set_solver].
  - done.
  - set_solver.
  - done.
  - exists j2, G. unfold set_checked, mbind, M_bind. rewrite Hrun, Hset. split; [done|].
    split; [|done]. eapply keeps_trans; [|done]. by apply keeps_empty.
Qed.

Lemma builds_nil o : builds o (mret tt) [].
Proof.
  intros j F kvs Hopen. exists j, ∅. split; [done|]. split; [done|]. split; [set_solver|].
  by rewrite (right_id_L ∅ (∪)).
Qed.

Lemma builds_seq o m1 m2 new1 new2 :
  builds o m1 new1 → builds o m2 new2 → builds o (m1;; m2) (new1 ++ new2).
Proof.
  intros H1 H2 j F kvs Hopen. destruct (H1 j F kvs Hopen) as (j1 & G1 & R1 & K1 & D1 & O1).
  destruct (H2 j1 _ _ O1) as (j2 & G2 & R2 & K2 & D2 & O2).
  exists j2, (G1 ∪ G2). unfold mbind, M_bind. rewrite R1, R2. split; [done|].
  split; [by eapply keeps_trans|]. split; [destruct K1; set_solver|].
  unfold set_all in *. rewrite foldl_app, (assoc_L (∪)). done.
Qed.

Lemma builds_cons o m1 m2 kv new2 :
  builds o m1 [kv] → builds o m2 new2 → builds o (m1;; m2) (kv :: new2).
Proof. apply builds_seq. Qed.

Lemma new_open_arr j : ∃ a j', jnew (JArray []) j = Ok (Some a, j') ∧
  N j !! a = None ∧ keeps ∅ (N j) (N j') ∧ open_arr (N j') a ∅ [].
Proof.
  destruct (json_new_law (JArray []) j) as (p & j' & Hnew & Hp & HN); [done|].
  exists p, j'. unfold jnew. rewrite Hnew, HN. split; [done|]. split; [done|].
  split; [by apply keeps_new|]. exists []. rewrite lookup_insert_eq.
  split; [done|]. split; [constructor|]. set_solver.
Qed.

Lemma new_open_obj j : ∃ o j', jnew (JObject []) j = Ok (Some o, j') ∧
  N j !! o = None ∧ keeps ∅ (N j) (N j') ∧ open_obj (N j') o ∅ [].
Proof.
  destruct (json_new_law (JObject []) j) as (p & j' & Hnew & Hp & HN); [done|].
  exists p, j'. unfold jnew. rewrite Hnew, HN. split; [done|]. split; [done|].
  split; [by apply keeps_new|]. exists []. rewrite lookup_insert_eq.
  split; [done|]. split; [constructor|]. set_solver.
Qed.

(** Appending a freshly made value to an open array. *)
Lemma append_made j a F ts make t :
  makes make t → open_arr (N j) a F ts →
  ∃ v j1 j' G, make j = Ok (Some v, j1) ∧ jappend a (Some v) j1 = Ok (0, j') ∧
    keeps {[a]} (N j) (N j') ∧ G ## dom (N j) ∧ open_arr (N j') a (F ∪ G) (ts ++ [t]).
Proof.
  intros Hmake Hopen. destruct (Hmake j) as (v & j1 & G & Hrun & HK & HG & HGd & Ht).
  destruct (open_arr_dom _ _ _ _ Hopen) as (Ha & _).
  destruct (jappend_open j1 a F ts v t G) as (j2 & Happ & HK2 & Hopen2).
  - eapply open_arr_keeps; [done|done|set_solver|set_solver].
  - done.
  - set_solver.
  - done.
  - exists v, j1, j2, G. split; [done|]. split; [done|]. split; [|done].
    eapply keeps_trans; [|done]. by apply keeps_empty.
Qed.

Lemma append_raw_spec h p n raw j a :
  view p n h = Ok raw → open_arr (N j) a ∅ [] →
  ∃ j' G, append_raw h a p n j = Ok (tt, j') ∧ keeps {[a]} (N j) (N j') ∧
    G ## dom (N j) ∧ open_arr (N j') a G (spec_int <$> raw).
Proof.
  intros Hview Hopen. pose proof (view_length _ _ _ _ Hview) as Hlen.
  assert (wp (append_raw h a p n) (λ _ j', ∃ G, keeps {[a]} (N j) (N j') ∧ G ## dom (N j) ∧
    open_arr (N j') a G (spec_int <$> raw)) j) as Hwp.
  { apply (wp_for_range (λ i j', ∃ G, keeps {[a]} (N j) (N j') ∧ G ## dom (N j) ∧
      open_arr (N j') a G (spec_int <$> take (Z.to_nat i) raw))).
    - lia.
    - exists ∅. split; [apply keeps_refl|]. split; [set_solver|done].
    - intros i j1 Hi (G & HK & HG & Ho).
      destruct (view_load _ _ _ _ _ Hview Hi) as (x & Hx & Hx').
      destruct (append_made j1 a _ _ _ _ (makes_integer x) Ho)
        as (v & j2 & j3 & G' & R1 & R2 & K2 & D2 & O2).
      unfold wp, mbind, M_bind, lift. rewrite Hx, R1, R2. simpl.
      exists (G ∪ G'). split; [by eapply keeps_trans|]. split; [destruct HK; set_solver|].
      replace (Z.to_nat (i + 1)) with (S (Z.to_nat i)) by lia.
      rewrite (take_S_r _ _ _ Hx'), fmap_app. done.
    - intros j1 (G & HK & HG & Ho). exists G. split; [done|]. split; [done|].
      by rewrite take_ge in Ho by lia. }
  apply wp_run in Hwp as ([] & j' & Hrun & G & ?). by exists j', G.
Qed.

(** The samples behind a result, when it keeps any. *)
Definition raw_ok (h : heap) (r : result_t) (raw : list Z) : Prop :=
  match raw_data r with
  | Some p => view p (samples r) h = Ok raw
  | None => True
  end.

Lemma result_to_json_builds h r raw o :
  raw_ok h r raw → builds o (result_to_json h r o) (spec_result r raw).
Proof.
  intros Hraw. unfold result_to_json, spec_result.
  do 10 (apply builds_cons; [apply builds_set; (apply makes_integer || apply makes_real)|]).
  intros j F kvs Hopen. destruct (new_open_arr j) as (a & j1 & Hnew & Ha & HK & Harr).
  pose proof (open_obj_dom _ _ _ _ Hopen) as Hdom. apply not_elem_of_dom in Ha.
  assert (Hopen1 : open_obj (N j1) o F kvs).
  { eapply open_obj_keeps; [done|done|set_solver|set_solver]. }
  assert (HK1 : keeps {[o]} (N j) (N j1)) by by apply keeps_empty.
  unfold mbind at 1, M_bind at 1. rewrite Hnew. cbn [non_null].
  unfold raw_ok in Hraw. destruct (raw_data r) as [p|].
  2:{ exists j1, ∅. split; [done|]. split; [done|]. split; [set_solver|].
      by rewrite (right_id_L ∅ (∪)). }
  destruct CONFIG_OUTPUT_RAW_RESULTS.
  2:{ exists j1, ∅. split; [done|]. split; [done|]. split; [set_solver|].
      by rewrite (right_id_L ∅ (∪)). }
  destruct (append_raw_spec h p (samples r) raw j1 a Hraw Harr)
    as (j2 & G & Hrun & HK2 & HG & Harr2).
  destruct (open_arr_dom _ _ _ _ Harr2) as (Had & HGd & HaG).
  assert (HoF : o ∉ F ∧ F ⊆ dom (N j)) by (destruct Hopen as (ms & _ & _ & ? & ?); done).
  destruct (jset_open j2 o F kvs "Raw results" a (Arr (spec_int <$> raw)) ({[a]} ∪ G))
    as (j3 & Hset & HK3 & Hopen3).
  - eapply open_obj_keeps; [done|done|set_solver|set_solver].
  - by apply close_arr.
  - destruct HK. set_solver.
  - set_solver.
  - exists j3, ({[a]} ∪ G). unfold mbind, M_bind, mret, M_ret. rewrite Hrun, Hset.
    split; [done|]. split; [|split; [destruct HK; set_solver|done]].
    eapply keeps_trans; [|done]. apply keeps_empty.
    eapply keeps_fresh; [done|done|]. set_solver.
Qed.

Lemma get_json_cell_makes col i t : spec_cell col i = Some t → makes (get_json_cell col i) t.
Proof.
  unfold spec_cell, get_json_cell.
  destruct (col_type col), (col_data col); intros Ht; try discriminate;
    try (by injection Ht as <-; apply makes_leaf);
    (destruct (aget a i) as [x|] eqn:Hx; [|discriminate]; injection Ht as <-;
     intros j; unfold mbind, M_bind, lift; simpl;
     by (apply makes_integer || apply makes_real || apply makes_leaf)).
Qed.

Lemma add_cols_builds set cols row i k extra :
  extra_cols set = Some cols → (k <= length cols)%nat →
  spec_extra (drop k cols) i = Some extra →
  builds row
    (for_each (seqZ (Z.of_nat k) (Z.of_nat (length cols - k))) (λ c,
      match extra_cols set with
      | None => lift Fatal
      | Some cols =>
          col ← lift (defined (aget cols c));
          cell ← get_json_cell col i;
          cell ← non_null cell;
          error ← jset row (header col) (Some cell);
          assert_ok error
      end)) extra.
Proof.
  intros Hcols. remember (length cols - k)%nat as m eqn:Hm. revert k extra Hm.
  induction m as [|m IH]; intros k extra Hm Hk Hextra.
  - rewrite drop_ge in Hextra by lia. injection Hextra as <-. apply builds_nil.
  - destruct (lookup_lt_is_Some_2 cols k) as [col Hcol]; [lia|].
    rewrite (drop_S _ _ _ Hcol) in Hextra. unfold spec_extra in Hextra. simpl in Hextra.
    destruct (spec_cell col i) as [t|] eqn:Ht; [|discriminate]. simpl in Hextra.
    destruct (mapM _ (drop (S k) cols)) as [extra'|] eqn:Hextra'; [|discriminate].
    injection Hextra as <-. rewrite seqZ_succ_l by lia. simpl. apply builds_cons.
    + rewrite Hcols, aget_nat, Hcol. intros j F kvs Hopen.
      destruct (builds_set row (header col) (get_json_cell col i) t) with (1 := get_json_cell_makes _ _ _ Ht)
        (j := j) (F := F) (kvs := kvs) as (j' & G & Hrun & Hrest); [done|].
      exists j', G. split; [|done]. rewrite <-Hrun.
      destruct (get_json_cell_makes _ _ _ Ht j) as (v & j1 & _ & Hcell & _).
      unfold set_checked, mbind, M_bind, lift. simpl. by rewrite Hcell.
    + replace (Z.of_nat k + 1) with (Z.of_nat (S k)) by lia.
      replace (Z.of_nat (S m) - 1) with (Z.of_nat m) by lia.
      apply IH; [lia|lia|done].
Qed.

(** The columns of a set, and that their number is the declared one. *)
Definition columns (set : result_set_t) : list column_t := default [] (extra_cols set).
Definition columns_ok (set : result_set_t) : Prop :=
  n_extra_cols set = Z.of_nat (length (columns set)).

Lemma add_extra_cols_builds set row i extra :
  columns_ok set → spec_extra (columns set) i = Some extra →
  builds row (add_extra_cols set row i) extra.
Proof.
  unfold columns_ok, columns, add_extra_cols. intros -> Hextra.
  destruct (extra_cols set) as [cols|] eqn:Hcols; simpl in *.
  - pose proof (add_cols_builds set cols row i 0 extra Hcols ltac:(lia) Hextra) as Hb.
    rewrite Hcols, Nat.sub_0_r in Hb. apply Hb.
  - injection Hextra as <-. apply builds_nil.
Qed.

(** Building an object in a fresh row and appending it. *)
Lemma append_row j a F ts m new :
  (∀ row, builds row (m row) new) → open_arr (N j) a F ts →
  ∃ row j1 j2 j' G, jnew (JObject []) j = Ok (Some row, j1) ∧ m row j1 = Ok (tt, j2) ∧
    jappend a (Some row) j2 = Ok (0, j') ∧
    keeps {[a]} (N j) (N j') ∧ G ## dom (N j) ∧
    open_arr (N j') a (F ∪ G) (ts ++ [Obj (set_all [] new)]).
Proof.
  intros Hm Hopen. destruct (open_arr_dom _ _ _ _ Hopen) as (Ha & HF & HaF).
  destruct (new_open_obj j) as (row & j1 & Hnew & Hrow & HK1 & Ho1).
  apply not_elem_of_dom in Hrow.
  destruct (Hm row j1 ∅ [] Ho1) as (j2 & G & Hrun & HK2 & HG & Ho2).
  rewrite (left_id_L ∅ (∪)) in Ho2.
  assert (HK12 : keeps ∅ (N j) (N j2)) by (eapply keeps_fresh; [done|done|set_solver]).
  pose proof (open_obj_dom _ _ _ _ Ho2) as Hrd.
  assert (G ⊆ dom (N j2)) by (destruct Ho2 as (ms & _ & _ & _ & ?); done).
  destruct (jappend_open j2 a F ts row (Obj (set_all [] new)) ({[row]} ∪ G))
    as (j3 & Happ & HK3 & Ha3).
  - eapply open_arr_keeps; [done|done|set_solver|set_solver].
  - by apply close_obj.
  - destruct HK1. set_solver.
  - set_solver.
  - exists row, j1, j2, j3, ({[row]} ∪ G). split; [done|]. split; [done|]. split; [done|].
    split; [|split; [destruct HK1; set_solver|done]].
    eapply keeps_trans; [|done]. by apply keeps_empty.
Qed.

Lemma builds_result h r raw row :
  raw_ok h r raw →
  builds row (result ← lift (Ok r); result_to_json h result row) (spec_result r raw).
Proof. apply result_to_json_builds. Qed.

Lemma add_row_spec fr h set rows i r raw extra j F ts :
  columns_ok set → spec_extra (columns set) i = Some extra →
  result_at fr (set_results set) i = Ok r → raw_ok h r raw →
  open_arr (N j) rows F ts →
  ∃ j' G, add_row fr h set rows i j = Ok (tt, j') ∧
    keeps {[rows]} (N j) (N j') ∧ G ## dom (N j) ∧
    open_arr (N j') rows (F ∪ G) (ts ++ [Obj (set_all [] (extra ++ spec_result r raw))]).
Proof.
  intros Hok Hextra Hr Hraw Hopen.
  destruct (append_row j rows F ts
    (λ row, add_extra_cols set row i;; (result ← lift (Ok r); result_to_json h result row))
    (extra ++ spec_result r raw)) as (row & j1 & j2 & j3 & G & R1 & R2 & R3 & Hrest).
  - intros row. apply builds_seq; [by apply add_extra_cols_builds|by apply builds_result].
  - done.
  - exists j3, G. split; [|done]. unfold add_row, mbind, M_bind in *. rewrite R1.
    destruct (add_extra_cols set row i j1) as [[[] j1']| |]; [|done..].
    rewrite Hr. unfold lift in *. by rewrite R2, R3.
Qed.

(** The rows a set is expected to give. *)
Definition rows_ok (fr : frame) (h : heap) (set : result_set_t) (rowf : Z → json) : Prop :=
  columns_ok set ∧ 0 <= n_results set ∧
  ∀ i, 0 <= i < n_results set → ∃ r raw,
    result_at fr (set_results set) i = Ok r ∧ raw_ok h r raw ∧
    spec_row (columns set) i r raw = Some (rowf i).

Lemma spec_row_Some cols i r raw t :
  spec_row cols i r raw = Some t →
  ∃ extra, spec_extra cols i = Some extra ∧ t = Obj (set_all [] (extra ++ spec_result r raw)).
Proof.
  unfold spec_row, set_all. destruct (spec_extra cols i) as [extra|]; [|done].
  intros [= <-]. exists extra. by rewrite foldl_app.
Qed.

(** The frame of both [_to_json] functions: an object with a name and an
    array that a loop fills afterwards. *)
Lemma open_set name j :
  ∃ object j1 j2 rows j3 j4 sv, jnew (JObject []) j = Ok (Some object, j1) ∧
    set_checked object "Benchmark" (jnew (JString name)) j1 = Ok (tt, j2) ∧
    jnew (JArray []) j2 = Ok (Some rows, j3) ∧
    jset object "Results" (Some rows) j3 = Ok (0, j4) ∧
    keeps ∅ (N j) (N j4) ∧ open_arr (N j4) rows ∅ [] ∧
    object ≠ rows ∧ sv ≠ rows ∧ object ∉ dom (N j) ∧ rows ∉ dom (N j) ∧ sv ∉ dom (N j) ∧
    N j4 !! object = Some (JObject [("Benchmark", sv); ("Results", rows)]) ∧
    N j4 !! sv = Some (JString name).
Proof.
  destruct (json_new_law (JObject []) j) as (o & j1 & E1 & Ho & N1); [done|].
  destruct (json_new_law (JString name) j1) as (sv & j2 & E2 & Hsv & N2); [done|].
  rewrite N1 in Hsv.
  assert (o ≠ sv) by (intros <-; by rewrite lookup_insert_eq in Hsv).
  rewrite lookup_insert_ne in Hsv by done.
  destruct (json_set_law o "Benchmark" sv j2 [] (JString name)) as (j3 & E3 & N3).
  { rewrite N2, N1, lookup_insert_ne, lookup_insert_eq by done. done. }
  { by rewrite N2, lookup_insert_eq. }
  { done. }
  destruct (json_new_law (JArray []) j3) as (rows & j4 & E4 & Hrows & N4); [done|].
  rewrite N3 in Hrows.
  assert (o ≠ rows) by (intros <-; by rewrite lookup_insert_eq in Hrows).
  rewrite lookup_insert_ne, N2 in Hrows by done.
  assert (sv ≠ rows) by (intros <-; by rewrite lookup_insert_eq in Hrows).
  rewrite lookup_insert_ne, N1, lookup_insert_ne in Hrows by done.
  destruct (json_set_law o "Results" rows j4 [("Benchmark", sv)] (JArray [])) as (j5 & E5 & N5).
  { by rewrite N4, lookup_insert_ne, N3, lookup_insert_eq. }
  { by rewrite N4, lookup_insert_eq. }
  { done. }
  exists o, j1, j3, rows, j4, j5, sv. unfold set_checked, mbind, M_bind, jnew, jset.
  rewrite E1, E2, E3, E4, E5. do 4 (split; [done|]).
  pose proof (proj2 (not_elem_of_dom (N j) o) Ho). pose proof (proj2 (not_elem_of_dom (N j) sv) Hsv).
  pose proof (proj2 (not_elem_of_dom (N j) rows) Hrows).
  rewrite N5, N4, N3, N2, N1. split.
  { split; [rewrite !dom_insert_L; set_solver|]. intros q Hq _.
    rewrite !lookup_insert_ne; [done|..]; intros <-; done. }
  split.
  { exists []. rewrite lookup_insert_ne, lookup_insert_eq by done.
    split; [done|]. split; [constructor|]. set_solver. }
  do 5 (split; [done|]). split; [apply lookup_insert_eq|].
  rewrite lookup_insert_ne, lookup_insert_ne, lookup_insert_ne, lookup_insert_eq by done. done.
Qed.

Lemma close_set name j j4 j' object rows sv G ts :
  keeps ∅ (N j) (N j4) → keeps {[rows]} (N j4) (N j') → G ## dom (N j4) →
  open_arr (N j') rows G ts →
  object ≠ rows → sv ≠ rows → object ∉ dom (N j) → rows ∉ dom (N j) → sv ∉ dom (N j) →
  N j4 !! object = Some (JObject [("Benchmark", sv); ("Results", rows)]) →
  N j4 !! sv = Some (JString name) →
  let F := {[object; sv; rows]} ∪ G in
  keeps ∅ (N j) (N j') ∧ F ## dom (N j) ∧ F ⊆ dom (N j') ∧
  tree (N j') F object (spec_set name ts).
Proof.
  intros HK HK' HG Harr Hor Hsr Ho Hr Hs Eo Es F.
  pose proof (elem_of_dom_2 _ _ _ Eo) as Do. pose proof (elem_of_dom_2 _ _ _ Es) as Ds.
  assert (Eo' : N j' !! object = N j4 !! object) by (apply HK'; set_solver).
  assert (Es' : N j' !! sv = N j4 !! sv) by (apply HK'; set_solver).
  destruct (open_arr_dom _ _ _ _ Harr) as (Da & HGd & _).
  split; [eapply keeps_fresh; [done|done|set_solver]|].
  split; [destruct HK; set_solver|]. split; [destruct HK'; set_solver|].
  eapply tree_obj; [set_solver|by rewrite Eo'|].
  constructor; [|constructor; [|constructor]].
  - eapply tree_leaf; [set_solver|by rewrite Es'|done].
  - eapply (proj1 (tree_frame (N j') ({[rows]} ∪ G))); [by apply close_arr|set_solver|done].
Qed.

Lemma result_set_to_json_spec fr h set rowf j :
  rows_ok fr h set rowf →
  ∃ o j' F, result_set_to_json fr h set j = Ok (o, j') ∧
    keeps ∅ (N j) (N j') ∧ F ## dom (N j) ∧ F ⊆ dom (N j') ∧
    tree (N j') F o (spec_set (set_name set) (rowf <$> seqZ 0 (n_results set))).
Proof.
  intros (Hcols & Hn & Hrows).
  destruct (open_set (set_name set) j) as (object & j1 & j2 & rows & j3 & j4 & sv &
    E1 & E2 & E3 & E4 & HK & Harr & Hor & Hsr & Ho & Hr & Hs & Eo & Es).
  assert (wp (for_each (seqZ 0 (n_results set)) (add_row fr h set rows))
    (λ _ j', ∃ G, keeps {[rows]} (N j4) (N j') ∧ G ## dom (N j4) ∧
       open_arr (N j') rows G (rowf <$> seqZ 0 (n_results set))) j4) as Hwp.
  { apply (wp_for_range (λ i j', ∃ G, keeps {[rows]} (N j4) (N j') ∧ G ## dom (N j4) ∧
       open_arr (N j') rows G (rowf <$> seqZ 0 i))).
    - done.
    - exists ∅. split; [apply keeps_refl|]. split; [set_solver|done].
    - intros i j5 Hi (G & HK5 & HG & Ha).
      destruct (Hrows i Hi) as (r & raw & Hres & Hraw & Hspec).
      destruct (spec_row_Some _ _ _ _ _ Hspec) as (extra & Hextra & Hrow).
      destruct (add_row_spec fr h set rows i r raw extra j5 G _ Hcols Hextra Hres Hraw Ha)
        as (j6 & G' & Hrun & HK6 & HG' & Ha').
      unfold wp. rewrite Hrun. exists (G ∪ G'). split; [by eapply keeps_trans|].
      split; [destruct HK5; set_solver|].
      rewrite seqZ_snoc, fmap_app, Z.add_0_l by lia. simpl. by rewrite Hrow.
    - done. }
  apply wp_run in Hwp as ([] & j' & Hrun & G & HK' & HG & Ha).
  destruct (close_set (set_name set) j j4 j' object rows sv G _ HK HK' HG Ha Hor Hsr Ho Hr Hs Eo Es)
    as (HKf & HF & HFd & Ht).
  exists object, j', ({[object; sv; rows]} ∪ G). split; [|done].
  unfold result_set_to_json, mbind, M_bind. rewrite E1. cbn [non_null].
  unfold mret, M_ret. rewrite E2, E3. cbn [non_null]. unfold mret, M_ret.
  unfold set_checked, mbind, M_bind, mret, M_ret. rewrite E4. simpl. by rewrite Hrun.
Qed.

(** C3.  [result_set_to_json] returns a new object whose tree is the one the
    set specifies: its name, and one row per result with the extra columns of
    that row, the statistics, a string ["nan"] or ["inf"] for a number JSON
    cannot carry, and the raw samples where they are configured; no node that
    existed before changes. *)
Theorem result_set_to_json_correct fr h set rowf j :
  rows_ok fr h set rowf →
  ∃ o j' F, result_set_to_json fr h set j = Ok (o, j') ∧
    o ∉ dom (N j) ∧ (∀ q n, N j !! q = Some n → N j' !! q = Some n) ∧
    tree (N j') F o (spec_set (set_name set) (rowf <$> seqZ 0 (n_results set))).
Proof.
  intros Hrows. destruct (result_set_to_json_spec fr h set rowf j Hrows)
    as (o & j' & F & Hrun & HK & HF & _ & Ht).
  exists o, j', F. split; [done|]. destruct (tree_root _ _ _ _ Ht). split; [set_solver|].
  split; [|done]. intros q n Hq. rewrite (proj2 HK); [done|by eapply elem_of_dom_2|set_solver].
Qed.

(** Row [event] of the counter averages. *)
Definition spec_event (event : string) (r : result_t) (raw : list Z) : json :=
  Obj (set_all [] (("Event", Str event) :: spec_result r raw)).

Lemma add_event_spec h rows event r raw j F ts :
  raw_ok h r raw → open_arr (N j) rows F ts →
  ∃ j' G, add_event h rows event (Ok r) j = Ok (0, j') ∧
    keeps {[rows]} (N j) (N j') ∧ G ## dom (N j) ∧
    open_arr (N j') rows (F ∪ G) (ts ++ [spec_event event r raw]).
Proof.
  intros Hraw Hopen.
  destruct (append_row j rows F ts
    (λ row, set_checked row "Event" (jnew (JString event));;
            (result ← lift (Ok r); result_to_json h result row))
    (("Event", Str event) :: spec_result r raw)) as (row & j1 & j2 & j3 & G & R1 & R2 & R3 & Hrest).
  - intros row. apply builds_cons; [apply builds_set, makes_string|by apply builds_result].
  - done.
  - exists j3, G. split; [|done]. unfold add_event, mbind, M_bind in *. rewrite R1.
    cbn [non_null]. unfold mret, M_ret.
    destruct (set_checked row "Event" (jnew (JString event)) j1) as [[[] j1']| |]; [|done..].
    unfold lift in *. by rewrite R2.
Qed.

Definition event_at (i : Z) : string :=
  default "Cycle counter" (aget GENERIC_EVENT_NAMES i).

Lemma average_counters_to_json_spec h name results (R : Z → result_t) raw j :
  (∀ i, 0 <= i < NUM_AVERAGE_EVENTS →
     aget results i = Some (R i) ∧ raw_ok h (R i) (raw i)) →
  ∃ o j' F, average_counters_to_json h name results j = Ok (o, j') ∧
    keeps ∅ (N j) (N j') ∧ F ## dom (N j) ∧ F ⊆ dom (N j') ∧
    tree (N j') F o (spec_set name
      ((λ i, spec_event (event_at i) (R i) (raw i)) <$> seqZ 0 NUM_AVERAGE_EVENTS)).
Proof.
  intros HR. unfold NUM_AVERAGE_EVENTS in *.
  assert (Hn : 0 <= SEL4BENCH_NUM_GENERIC_EVENTS) by (unfold SEL4BENCH_NUM_GENERIC_EVENTS; lia).
  set (n := SEL4BENCH_NUM_GENERIC_EVENTS) in *.
  set (rowf i := spec_event (event_at i) (R i) (raw i)).
  destruct (open_set name j) as (object & j1 & j2 & rows & j3 & j4 & sv &
    E1 & E2 & E3 & E4 & HK & Harr & Hor & Hsr & Ho & Hr & Hs & Eo & Es).
  assert (wp (for_each (seqZ 0 n) (add_generic_event h rows results))
    (λ _ j', ∃ G, keeps {[rows]} (N j4) (N j') ∧ G ## dom (N j4) ∧
       open_arr (N j') rows G (rowf <$> seqZ 0 n)) j4) as Hwp.
  { apply (wp_for_range (λ i j', ∃ G, keeps {[rows]} (N j4) (N j') ∧ G ## dom (N j4) ∧
       open_arr (N j') rows G (rowf <$> seqZ 0 i))).
    - done.
    - exists ∅. split; [apply keeps_refl|]. split; [set_solver|done].
    - intros i j5 Hi (G & HK5 & HG & Ha). destruct (HR i) as [Hres Hraw]; [lia|].
      destruct (aget_Some GENERIC_EVENT_NAMES i) as (event & Hev & _); [done|].
      destruct (add_event_spec h rows event (R i) (raw i) j5 G _ Hraw Ha)
        as (j6 & G' & Hrun & HK6 & HG' & Ha').
      unfold wp, add_generic_event, mbind, M_bind, lift. rewrite Hev, Hres. simpl. rewrite Hrun. simpl.
      exists (G ∪ G'). split; [by eapply keeps_trans|].
      split; [destruct HK5; set_solver|].
      rewrite seqZ_snoc, fmap_app, Z.add_0_l by lia. simpl.
      assert (event_at i = event) as <- by (unfold event_at; by rewrite Hev). done.
    - done. }
  apply wp_run in Hwp as ([] & j5 & Hrun & G & HK5 & HG & Ha).
  destruct (HR n) as [Hres Hraw]; [lia|].
  destruct (add_event_spec h rows "Cycle counter" (R n) (raw n) j5 G _ Hraw Ha)
    as (j' & G' & Hrun' & HK' & HG' & Ha').
  assert (Hev : event_at n = "Cycle counter").
  { unfold event_at. rewrite aget_None; [done|]. unfold n, SEL4BENCH_NUM_GENERIC_EVENTS. lia. }
  assert (Hlast : (rowf <$> seqZ 0 n) ++ [spec_event "Cycle counter" (R n) (raw n)] =
    rowf <$> seqZ 0 (n + 1)).
  { rewrite seqZ_snoc, fmap_app, Z.add_0_l by lia. simpl. unfold rowf at 3. by rewrite Hev. }
  rewrite Hlast in Ha'.
  destruct (close_set name j j4 j' object rows sv (G ∪ G') (rowf <$> seqZ 0 (n + 1)) HK)
    as (HKf & HF & HFd & Ht); [by eapply keeps_trans|destruct HK5; set_solver|done..|].
  exists object, j', ({[object; sv; rows]} ∪ (G ∪ G')). split; [|done].
  unfold average_counters_to_json, mbind, M_bind. rewrite E1. cbn [non_null].
  unfold mret, M_ret. rewrite E2, E3. cbn [non_null]. unfold mret, M_ret.
  rewrite E4. fold n. rewrite Hrun.
  unfold CYCLE_COUNT_EVENT. fold n. rewrite Hres. cbn [defined]. rewrite Hrun'. done.
Qed.

(** C25.  [average_counters_to_json] returns a new object with one row per
    generic event, in the order of [GENERIC_EVENT_NAMES], and a last row for
    the cycle counter, which is the element of the results behind them. *)
Theorem average_counters_to_json_correct h name results (R : Z → result_t) raw j :
  (∀ i, 0 <= i < NUM_AVERAGE_EVENTS →
     aget results i = Some (R i) ∧ raw_ok h (R i) (raw i)) →
  ∃ o j' F, average_counters_to_json h name results j = Ok (o, j') ∧
    keeps ∅ (N j) (N j') ∧ F ## dom (N j) ∧ F ⊆ dom (N j') ∧
    tree (N j') F o (spec_set name
      ((λ i, spec_event (event_at i) (R i) (raw i)) <$> seqZ 0 NUM_AVERAGE_EVENTS)).
Proof. apply average_counters_to_json_spec. Qed.
End proofs.

(** ** An implementation of the interface *)

(** A store with unlimited memory, in which the laws hold. *)
Notation store := (gmap positive jnode).

Definition store_new (n : jnode) (N : store) : option positive * store :=
  let ok := match n with JReal x => is_finite x | _ => true end in
  if ok then (Some (fresh (dom N)), <[fresh (dom N) := n]> N) else (None, N).

Definition store_set (o : positive) (k : string) (v : option positive) (N : store) : Z * store :=
  match N !! o, v with
  | Some (JObject ms), Some v => (0, <[o := JObject (set_assoc k v ms)]> N)
  | _, _ => (-1, N)
  end.

Definition store_append (a : positive) (v : option positive) (N : store) : Z * store :=
  match N !! a, v with
  | Some (JArray vs), Some v => (0, <[a := JArray (vs ++ [v])]> N)
  | _, _ => (-1, N)
  end.

#[export] Instance store_jansson : Jansson.
Proof.
  refine {| jstate := store; jnodes := λ N, N; json_new := store_new;
            json_object_set_new := store_set; json_array_append_new := store_append |}.
  - intros n N Hfin. exists (fresh (dom N)), (<[fresh (dom N) := n]> N). unfold store_new.
    replace (match n with JReal x => is_finite x | _ => true end) with true.
    + split; [done|]. split; [|done]. apply not_elem_of_dom, is_fresh.
    + destruct n; try done. by rewrite Hfin.
  - intros x N Hfin. exists N. unfold store_new. by rewrite Hfin.
  - intros o k v N ms n Ho _ _. unfold store_set. cbv beta in Ho. rewrite Ho. eauto.
  - intros a v N vs n Ha _ _. unfold store_append. cbv beta in Ha. rewrite Ha. eauto.
Defined.

(** A reader of the store, for examples. *)
Fixpoint read (fuel : nat) (N : store) (p : positive) : option json :=
  match fuel with
  | O => None
  | S fuel =>
      n ← N !! p;
      match n with
      | JObject ms => Obj <$> mapM (λ kv, (kv.1,.) <$> read fuel N kv.2) ms
      | JArray vs => Arr <$> mapM (read fuel N) vs
      | _ => leaf n
      end
  end.

(** ** Witnesses *)
Definition example_result : result_t :=
  Result S754_nan (of_Z double 3) (of_Z double 26) 25 27 25 (of_Z double 26) (of_Z double 25)
    (of_Z double 27) 2 (Some (Ptr 1 1)).
Definition example_heap : heap := Heap {[ 1%positive := [900; 25; 27] ]} 0.
Definition example_set : result_set_t :=
  ResultSet "yield" (Some [Column "Prio" (integer_array [65]) JSON_INTEGER]) 1
    (ResultPtr "result" 0) 1.

(** A NaN becomes a string, and the raw samples are the ones in memory. *)
Lemma result_set_to_json_correct_witness :
  ∃ o j' F, result_set_to_json (H := x86_64) {[ "result" := [example_result] ]} example_heap
      example_set (∅ : store) = Ok (o, j') ∧
    tree (j' : store) F o (spec_set "yield"
      [Obj [("Prio", Int 65); ("Min", Int 25); ("Max", Int 27); ("Mean", Real (of_Z double 26));
            ("Stddev", Real (of_Z double 3)); ("Variance", Str "nan");
            ("Mode", Real (of_Z double 25)); ("Median", Real (of_Z double 26));
            ("1st quantile", Real (of_Z double 25)); ("3rd quantile", Real (of_Z double 27));
            ("Samples", Int 2); ("Raw results", Arr [Int 25; Int 27])]]).
Proof.
  destruct (@result_set_to_json_correct x86_64 store_jansson {[ "result" := [example_result] ]}
    example_heap example_set
    (λ i, default Null (spec_row (H := x86_64) (columns example_set) i example_result [25; 27])) ∅)
    as (o & j' & F & Hrun & _ & _ & Ht).
  - split; [done|]. split; [done|]. intros i Hi. assert (i = 0) as -> by (simpl in Hi; lia).
    exists example_result, [25; 27]. split; [done|]. split; [done|]. by vm_compute.
  - exists o, j', F. split; [exact Hrun|]. vm_compute in Ht |- *. exact Ht.
Defined.

Lemma average_counters_to_json_correct_witness :
  ∃ o j' F, average_counters_to_json (H := x86_64) example_heap "Average"
      [example_result; example_result; example_result] (∅ : store) = Ok (o, j') ∧
    tree (j' : store) F o (spec_set "Average"
      [spec_event (H := x86_64) "event 0" example_result [25; 27];
       spec_event (H := x86_64) "event 1" example_result [25; 27];
       spec_event (H := x86_64) "Cycle counter" example_result [25; 27]]).
Proof.
  destruct (@average_counters_to_json_correct x86_64 store_jansson example_heap "Average"
    [example_result; example_result; example_result] (λ _, example_result) (λ _, [25; 27]) ∅)
    as (o & j' & F & Hrun & _ & _ & _ & Ht).
  - intros i Hi. change (NUM_AVERAGE_EVENTS (H := x86_64)) with 3 in Hi. split; [|done].
    assert (i = 0 ∨ i = 1 ∨ i = 2) as [-> |[-> | ->]] by lia; done.
  - exists o, j', F. split; [exact Hrun|exact Ht].
Defined.
