(* ===== verification/IpcParams.v ===== *)
(** * IpcParams: the table of IPC benchmarks

    The enumerations and the two constant tables of
    [libsel4benchsupport/include/ipc.h], shared by the IPC application, which
    runs the benchmarks, and by the driver, which reports them. *)

From S2P Require Import Prelude Platform.

Definition RUNS : Z := 16.

(** [enum overheads] *)
Inductive overheads :=
  | CALL_OVERHEAD
  | REPLY_RECV_OVERHEAD
  | SEND_OVERHEAD
  | RECV_OVERHEAD
  | CALL_10_OVERHEAD
  | REPLY_RECV_10_OVERHEAD.

#[export] Instance overheads_eq_dec : EqDecision overheads.
Proof. solve_decision. Defined.

Definition all_overheads : list overheads :=
  [CALL_OVERHEAD; REPLY_RECV_OVERHEAD; SEND_OVERHEAD; RECV_OVERHEAD; CALL_10_OVERHEAD;
   REPLY_RECV_10_OVERHEAD].

Definition NUM_OVERHEAD_BENCHMARKS : Z := Z.of_nat (length all_overheads).

(** The value of the enumerator. *)
Definition overhead_index (o : overheads) : Z :=
  match o with
  | CALL_OVERHEAD => 0
  | REPLY_RECV_OVERHEAD => 1
  | SEND_OVERHEAD => 2
  | RECV_OVERHEAD => 3
  | CALL_10_OVERHEAD => 4
  | REPLY_RECV_10_OVERHEAD => 5
  end.

(** [dir_t] *)
Inductive dir_t := DIR_TO | DIR_FROM.

#[export] Instance dir_eq_dec : EqDecision dir_t.
Proof. solve_decision. Defined.

(** [helper_func_id_t] *)
Inductive helper_func_id_t :=
  | IPC_CALL_FUNC
  | IPC_CALL_FUNC2
  | IPC_CALL_10_FUNC
  | IPC_CALL_10_FUNC2
  | IPC_REPLYRECV_FUNC2
  | IPC_REPLYRECV_FUNC
  | IPC_REPLYRECV_10_FUNC2
  | IPC_REPLYRECV_10_FUNC
  | IPC_SEND_FUNC
  | IPC_RECV_FUNC.

#[export] Instance helper_func_eq_dec : EqDecision helper_func_id_t.
Proof. solve_decision. Defined.

(** [benchmark_params_t] *)
Record benchmark_params_t := Params {
  params_name : string;
  direction : dir_t;
  server_fn : helper_func_id_t;
  client_fn : helper_func_id_t;
  same_vspace : bool;
  server_prio : Z;
  client_prio : Z;
  params_length : Z;
  overhead_id : overheads;
  passive : bool;
  server_fpu : bool;
}.

Section tables.
Context `{Platform}.

(** The priorities are [uint8_t]. *)
Definition prio8 (z : Z) : Z := wrap 8 z.

(** [benchmark_params[]] *)
Definition benchmark_params : list benchmark_params_t := [
  {| params_name := "seL4_Call"; direction := DIR_TO;
     client_fn := IPC_CALL_FUNC2; server_fn := IPC_REPLYRECV_FUNC2; same_vspace := true;
     client_prio := prio8 (seL4_MaxPrio - 1); server_prio := prio8 (seL4_MaxPrio - 1);
     params_length := 0; overhead_id := CALL_OVERHEAD; passive := true; server_fpu := false |};
  {| params_name := "seL4_ReplyRecv"; direction := DIR_FROM;
     client_fn := IPC_CALL_FUNC; server_fn := IPC_REPLYRECV_FUNC; same_vspace := true;
     client_prio := prio8 (seL4_MaxPrio - 1); server_prio := prio8 (seL4_MaxPrio - 1);
     params_length := 0; overhead_id := REPLY_RECV_OVERHEAD; passive := true; server_fpu := false |};
  {| params_name := "seL4_Call"; direction := DIR_TO;
     client_fn := IPC_CALL_FUNC2; server_fn := IPC_REPLYRECV_FUNC2; same_vspace := false;
     client_prio := prio8 (seL4_MaxPrio - 1); server_prio := prio8 (seL4_MaxPrio - 1);
     params_length := 0; overhead_id := CALL_OVERHEAD; passive := true; server_fpu := false |};
  {| params_name := "seL4_Call (FPU)"; direction := DIR_TO;
     client_fn := IPC_CALL_FUNC2; server_fn := IPC_REPLYRECV_FUNC2; same_vspace := false;
     client_prio := prio8 (seL4_MaxPrio - 1); server_prio := prio8 (seL4_MaxPrio - 1);
     params_length := 0; overhead_id := CALL_OVERHEAD; passive := true; server_fpu := true |};
  {| params_name := "seL4_ReplyRecv"; direction := DIR_FROM;
     client_fn := IPC_CALL_FUNC; server_fn := IPC_REPLYRECV_FUNC; same_vspace := false;
     client_prio := prio8 (seL4_MaxPrio - 1); server_prio := prio8 (seL4_MaxPrio - 1);
     params_length := 0; overhead_id := REPLY_RECV_OVERHEAD; passive := true; server_fpu := false |};
  {| params_name := "seL4_ReplyRecv (FPU)"; direction := DIR_FROM;
     client_fn := IPC_CALL_FUNC; server_fn := IPC_REPLYRECV_FUNC; same_vspace := false;
     client_prio := prio8 (seL4_MaxPrio - 1); server_prio := prio8 (seL4_MaxPrio - 1);
     params_length := 0; overhead_id := REPLY_RECV_OVERHEAD; passive := true; server_fpu := true |};
  {| params_name := "seL4_Send"; direction := DIR_TO;
     client_fn := IPC_SEND_FUNC; server_fn := IPC_RECV_FUNC; same_vspace := false;
     client_prio := prio8 (seL4_MaxPrio - 2); server_prio := prio8 (seL4_MaxPrio - 1);
     params_length := 0; overhead_id := SEND_OVERHEAD; passive := false; server_fpu := false |};
  {| params_name := "seL4_Call"; direction := DIR_TO;
     client_fn := IPC_CALL_10_FUNC2; server_fn := IPC_REPLYRECV_10_FUNC2; same_vspace := false;
     client_prio := prio8 (seL4_MaxPrio - 1); server_prio := prio8 (seL4_MaxPrio - 1);
     params_length := 10; overhead_id := CALL_10_OVERHEAD; passive := false; server_fpu := false |};
  {| params_name := "seL4_ReplyRecv"; direction := DIR_FROM;
     client_fn := IPC_CALL_10_FUNC; server_fn := IPC_REPLYRECV_10_FUNC; same_vspace := false;
     client_prio := prio8 (seL4_MaxPrio - 1); server_prio := prio8 (seL4_MaxPrio - 1);
     params_length := 10; overhead_id := REPLY_RECV_10_OVERHEAD; passive := false; server_fpu := false |}
].

Definition NUM_BENCHMARKS : Z := Z.of_nat (length benchmark_params).
End tables.

(** [overhead_benchmark_params[]], indexed by [enum overheads]. *)
Definition overhead_benchmark_params (o : overheads) : string :=
  match o with
  | CALL_OVERHEAD => "call"
  | REPLY_RECV_OVERHEAD => "reply recv"
  | SEND_OVERHEAD => "send"
  | RECV_OVERHEAD => "recv"
  | CALL_10_OVERHEAD => "call"
  | REPLY_RECV_10_OVERHEAD => "reply recv"
  end%string.
