(* ===== verification/AppParams.v ===== *)
(** * AppParams: the constants the applications share with the driver

    [libsel4benchsupport/include/]: [smp.h], [page_mapping.h] and [vcpu.h] (the
    table of [ipc.h] is in IpcParams). *)

From S2P Require Import Prelude Platform Floats Memory.

(** ** smp.h *)
Module SmpParams.

Definition RUNS : Z := 10.

Record benchmark_params_t := Params {
  params_name : string;
  delay : spec_float;
}.

Definition smp_benchmark_params : list benchmark_params_t :=
  [ {| params_name := "500 cycles"; delay := of_Z double 500 |};
    {| params_name := "4000 cycles"; delay := of_Z double 4000 |};
    {| params_name := "32000 cycles"; delay := of_Z double 32000 |} ].

Definition TESTS : Z := Z.of_nat (length smp_benchmark_params).

(** [benchmarks_result[i][j]], an array of
    [TESTS][CONFIG_MAX_NUM_NODES][RUNS] counter values. *)
Definition benchmarks_result `{Platform} (r : ptr) (i j : Z) : ptr :=
  ptr_add r ((i * CONFIG_MAX_NUM_NODES + j) * RUNS).

End SmpParams.

(** ** page_mapping.h *)
Module PageMappingParams.

Definition RUNS : Z := 17.

Record benchmark_params_t := Params {
  params_name : string;
  npage : Z;
}.

Definition page_mapping_benchmark_params : list benchmark_params_t :=
  [ {| params_name := "map 1"; npage := 1 |};
    {| params_name := "map 512"; npage := 512 |};
    {| params_name := "map 2048"; npage := 2048 |} ].

Definition TESTS : Z := Z.of_nat (length page_mapping_benchmark_params).

Definition phase_name : list string :=
  ["Prepare Page Tables"; "Allocate Pages"; "Mapping"; "Protect Pages as Read Only";
   "Unprotect Pages"]%string.

Definition NPHASE : Z := Z.of_nat (length phase_name).

(** [page_mapping_results_t]: the overheads and
    [benchmarks_result[TESTS][NPHASE][RUNS]]. *)
Record page_mapping_results_t := PageMappingResults {
  overhead_benchmarks : ptr;
  benchmarks_result : ptr;
}.

Definition benchmarks_result_at (r : page_mapping_results_t) (i j : Z) : ptr :=
  ptr_add (benchmarks_result r) ((i * NPHASE + j) * RUNS).

End PageMappingParams.

(** ** vcpu.h *)
Module VcpuParams.

Definition VCPU_BENCH_SHDATA_MAGIC : Z := 0xDEADCAB.
Definition VCPU_BENCH_CYCLE_COUNTER_ANOMALY_THRESHOLD : Z := 800.
Definition VCPU_BENCH_NAME_SIZE : Z := 48.
Definition VCPU_BENCH_N_GUESTS : Z := 1.
Definition VCPU_BENCH_N_ITERATIONS_IGNORED : Z := 10.
Definition VCPU_BENCH_N_ITERATIONS : Z := 100 + VCPU_BENCH_N_ITERATIONS_IGNORED.

(** [BIT(5)]; the identifiers of the guests are the values below it. *)
Definition VCPU_BENCH_MSG_IS_FAULT_BIT : Z := Z.shiftl 1 5.
Definition VCPU_BENCH_MAX_N_GUESTS : Z := VCPU_BENCH_MSG_IS_FAULT_BIT - 1.

(** [enum hypcalls] *)
Inductive hypcalls :=
  | HYPCALL_SYS_NOOP
  | HYPCALL_SYS_PUTC
  | HYPCALL_SYS_PUTS
  | HYPCALL_SYS_GET_SEL4_CALL_END_STAMP
  | HYPCALL_SYS_GET_SEL4_REPLY_START_STAMP
  | HYPCALL_SYS_BM_REPORT_END_RESULTS
  | HYPCALL_SYS_BM_REPORT_DEEP_RESULTS
  | HYPCALL_SYS_EL1_FAULT
  | HYPCALL_SYS_EXIT_THREAD.

#[export] Instance hypcalls_eq_dec : EqDecision hypcalls.
Proof. solve_decision. Defined.

Definition all_hypcalls : list hypcalls :=
  [HYPCALL_SYS_NOOP; HYPCALL_SYS_PUTC; HYPCALL_SYS_PUTS; HYPCALL_SYS_GET_SEL4_CALL_END_STAMP;
   HYPCALL_SYS_GET_SEL4_REPLY_START_STAMP; HYPCALL_SYS_BM_REPORT_END_RESULTS;
   HYPCALL_SYS_BM_REPORT_DEEP_RESULTS; HYPCALL_SYS_EL1_FAULT; HYPCALL_SYS_EXIT_THREAD].

(** The value of an enumerator; the first one is 15. *)
Definition hypcall_value (c : hypcalls) : Z :=
  match c with
  | HYPCALL_SYS_NOOP => 15
  | HYPCALL_SYS_PUTC => 16
  | HYPCALL_SYS_PUTS => 17
  | HYPCALL_SYS_GET_SEL4_CALL_END_STAMP => 18
  | HYPCALL_SYS_GET_SEL4_REPLY_START_STAMP => 19
  | HYPCALL_SYS_BM_REPORT_END_RESULTS => 20
  | HYPCALL_SYS_BM_REPORT_DEEP_RESULTS => 21
  | HYPCALL_SYS_EL1_FAULT => 22
  | HYPCALL_SYS_EXIT_THREAD => 23
  end.

(** [enum vcpu_benchmarks] *)
Inductive vcpu_benchmarks :=
  | VCPU_BENCHMARK_HVC_PRIV_ESCALATE
  | VCPU_BENCHMARK_ERET_PRIV_DESCALATE
  | VCPU_BENCHMARK_HVC_NULL_SYSCALL
  | VCPU_BENCHMARK_CALL_SYSCALL
  | VCPU_BENCHMARK_REPLY_SYSCALL.

#[export] Instance vcpu_benchmarks_eq_dec : EqDecision vcpu_benchmarks.
Proof. solve_decision. Defined.

Definition benchmark_index (b : vcpu_benchmarks) : Z :=
  match b with
  | VCPU_BENCHMARK_HVC_PRIV_ESCALATE => 0
  | VCPU_BENCHMARK_ERET_PRIV_DESCALATE => 1
  | VCPU_BENCHMARK_HVC_NULL_SYSCALL => 2
  | VCPU_BENCHMARK_CALL_SYSCALL => 3
  | VCPU_BENCHMARK_REPLY_SYSCALL => 4
  end.

Definition VCPU_BENCHMARK_N_BENCHMARKS : Z := 5.

End VcpuParams.
