(* ===== verification/Reports.v ===== *)
(** * Reports: from the raw results of a benchmark to its JSON array

    The [process] functions of [apps/sel4bench/src]: [hardware.c], [fault.c],
    [irq.c], [signal.c], [scheduler.c], [sync.c], [smp.c], [page_mapping.c],
    [ipc.c] and [plat/tx2/vcpu.c].  The state is the heap of raw arrays, the
    [result_t] variables of the function, which the result sets point to, and
    the jansson store. *)

From S2P Require Import Prelude Platform Memory Floats Collect Stats Summary Processing Json IpcParams AppParams.

(** ** The state *)

Record world `{Jansson} := World {
  w_heap : heap;
  w_frame : frame;
  w_json : jstate;
}.

Section world.
Context `{Platform} `{Jansson}.

Definition in_heap {A} (m : M heap A) : M world A := λ w,
  match m (w_heap w) with
  | Ok (a, h) => Ok (a, World _ h (w_frame w) (w_json w))
  | Fatal => Fatal
  | Undef => Undef
  end.

Definition in_json {A} (m : frame → heap → M jstate A) : M world A := λ w,
  match m (w_frame w) (w_heap w) (w_json w) with
  | Ok (a, j) => Ok (a, World _ (w_heap w) (w_frame w) j)
  | Fatal => Fatal
  | Undef => Undef
  end.

(** [var = rs], for a [result_t] ([rs] of length one) or a whole array. *)
Definition set_var (var : string) (rs : list result_t) : M world unit :=
  modify (λ w, World _ (w_heap w) (<[var := rs]> (w_frame w)) (w_json w)).

(** [var[i] = r], the array being filled in order. *)
Definition set_elem (var : string) (i : Z) (r : result_t) : M world unit := λ w,
  let rs := default [] (w_frame w !! var) in
  if i <? Z.of_nat (length rs) then
    match aset rs i r with
    | Some rs => set_var var rs w
    | None => Undef
    end
  else if i =? Z.of_nat (length rs) then set_var var (rs ++ [r]) w
  else Undef.

(** [result_t var[n]], to be filled in order. *)
Definition declare (var : string) : M world unit := set_var var [].

(** [json_array()], which nobody checks. *)
Definition new_array : M world (option positive) := in_json (λ _ _, jnew (JArray [])).

(** [json_array_append_new(array, value)], the result ignored; on a [NULL]
    array it fails. *)
Definition append_value (array : option positive) (value : frame → heap → M jstate positive)
  : M world unit :=
  in_json (λ fr h,
    v ← value fr h;
    match array with
    | Some a => _ ← jappend a (Some v); mret tt
    | None => mret tt
    end).

(** [json_array_append_new(array, result_set_to_json(set))] *)
Definition append_set (array : option positive) (set : result_set_t) : M world unit :=
  append_value array (λ fr h, result_set_to_json fr h set).

(** [json_array_append_new(array, average_counters_to_json(name, results))] *)
Definition append_average (array : option positive) (name : string) (results : list result_t)
  : M world unit :=
  append_value array (λ _ h, average_counters_to_json h name results).
End world.

Definition with_stable (b : bool) (d : result_desc_t) : result_desc_t :=
  Desc b (desc_name d) (desc_overhead d) (desc_ignored d).
Definition with_overhead (o : Z) (d : result_desc_t) : result_desc_t :=
  Desc (desc_stable d) (desc_name d) o (desc_ignored d).
Definition with_name (n : string) (s : result_set_t) : result_set_t :=
  ResultSet n (extra_cols s) (n_extra_cols s) (set_results s) (n_results s).
Definition with_results (r : result_ptr) (n : Z) (s : result_set_t) : result_set_t :=
  ResultSet (set_name s) (extra_cols s) (n_extra_cols s) r n.
Definition with_cols (c : option (list column_t)) (n : Z) (s : result_set_t) : result_set_t :=
  ResultSet (set_name s) c n (set_results s) (n_results s).

(** [&var] and [&var[i]] *)
Definition addr (var : string) : result_ptr := ResultPtr var 0.
Definition addr_of (var : string) (i : Z) : result_ptr := ResultPtr var i.

(** ** hardware.c *)
Module Hardware.

Definition N_IGNORED : Z := 10.
Definition N_RUNS : Z := 100 + N_IGNORED.

Record hardware_results_t := HardwareResults {
  nullSyscall_results : ptr;
  nullSyscall_overhead : ptr;
  overhead_min : Z;
  nullSyscall_ep_sum : Z;
  nullSyscall_ep_sum2 : Z;
  nullSyscall_ep_num : Z;
}.

Definition hardware_process `{Platform} `{Jansson} (raw : hardware_results_t)
  : M world (option positive) :=
  let desc := Desc false (Some "Nop syscall overhead") 0 N_IGNORED in
  nopnulsyscall_result ← in_heap (process_result N_RUNS (nullSyscall_overhead raw) desc);
  set_var "nopnulsyscall_result" [nopnulsyscall_result];;
  let desc := with_overhead (result_min nopnulsyscall_result) desc in
  result ← in_heap (process_result N_RUNS (nullSyscall_results raw) desc);
  set_var "result" [result];;
  let set := ResultSet "Hardware null_syscall thread" None 0 (addr "result") 1 in
  array ← new_array;
  append_set array set;;
  let set := with_name "Hardware null_syscall thread (early processing)" set in
  result ← lift (process_result_early_proc (nullSyscall_ep_num raw) (nullSyscall_ep_sum raw)
                   (nullSyscall_ep_sum2 raw));
  set_var "result" [result];;
  append_set array set;;
  let set := with_name "Nop syscall overhead" set in
  let set := with_results (addr "nopnulsyscall_result") 1 set in
  append_set array set;;
  mret array.

End Hardware.

(** ** fault.c *)
Module Fault.

Definition N_IGNORED : Z := 10.
Definition N_RUNS : Z := 100 + N_IGNORED.

(** The sums of an early-processing loop, as the application stores them. *)
Record ep_sums := EpSums { ep_sum : Z; ep_sum2 : Z; ep_num : Z; ep_min_overhead : Z }.

Record fault_results_t := FaultResults {
  reply_recv_overhead : ptr;
  ccnt_overhead : ptr;
  round_trip : ptr;
  fault : ptr;
  fault_reply : ptr;
  round_trip_ep : ep_sums;
  fault_ep : ep_sums;
  fault_reply_ep : ep_sums;
}.

Definition early `{Platform} (e : ep_sums) : outcome result_t :=
  process_result_early_proc (ep_num e) (ep_sum e) (ep_sum2 e).

Definition fault_process `{Platform} `{Jansson} (raw : fault_results_t)
  : M world (option positive) :=
  let desc := Desc true (Some "fault overhead") 0 N_IGNORED in
  result ← in_heap (process_result N_RUNS (reply_recv_overhead raw) desc);
  set_var "result" [result];;
  let set := ResultSet "fault overhead" None 0 (addr "result") 1 in
  array ← new_array;
  append_set array set;;
  let desc := with_overhead (result_min result) (with_stable false desc) in
  let set := with_name "fault round trip" set in
  result ← in_heap (process_result N_RUNS (round_trip raw) desc);
  set_var "result" [result];;
  append_set array set;;
  let set := with_name "fault round trip (early processing)" set in
  result ← lift (early (round_trip_ep raw));
  set_var "result" [result];;
  append_set array set;;
  let set := with_name "faulter -> fault handler" set in
  result ← in_heap (process_result N_RUNS (fault raw) desc);
  set_var "result" [result];;
  append_set array set;;
  let set := with_name "faulter -> fault handler (early processing)" set in
  result ← lift (early (fault_ep raw));
  set_var "result" [result];;
  append_set array set;;
  let set := with_name "read ccnt overhead" set in
  let desc := with_overhead 0 (with_stable true desc) in
  result ← in_heap (process_result N_RUNS (ccnt_overhead raw) desc);
  set_var "result" [result];;
  append_set array set;;
  let set := with_name "fault handler -> faulter" set in
  let desc := with_overhead (result_min result) (with_stable false desc) in
  result ← in_heap (process_result N_RUNS (fault_reply raw) desc);
  set_var "result" [result];;
  append_set array set;;
  let set := with_name "fault handler -> faulter (early processing)" set in
  result ← lift (early (fault_reply_ep raw));
  set_var "result" [result];;
  append_set array set;;
  mret array.

End Fault.

(** ** irq.c *)
Module Irq.

Definition N_IGNORED : Z := 10.
Definition N_RUNS : Z := 100 + N_IGNORED.

Record irquser_results_t := IrquserResults {
  overheads : ptr;
  thread_results : ptr;
  process_results : ptr;
  overhead_min : Z;
  thread_results_ep_sum : Z;
  thread_results_ep_sum2 : Z;
  thread_results_ep_num : Z;
  process_results_ep_sum : Z;
  process_results_ep_sum2 : Z;
  process_results_ep_num : Z;
}.

Definition types : list string :=
  ["Measurement overhead"; "Without context switch"; "Without context switch (early processing)";
   "With context switch"; "With context switch (early processing)"]%string.

Definition irquser_process `{Platform} `{Jansson} (raw : irquser_results_t)
  : M world (option positive) :=
  let desc := Desc false (Some "IRQ user measurement overhead") 0 N_IGNORED in
  declare "results";;
  r0 ← in_heap (process_result N_RUNS (overheads raw) desc);
  set_elem "results" 0 r0;;
  let desc := with_overhead (result_min r0) desc in
  r1 ← in_heap (process_result N_RUNS (thread_results raw) desc);
  set_elem "results" 1 r1;;
  r2 ← lift (process_result_early_proc (thread_results_ep_num raw) (thread_results_ep_sum raw)
               (thread_results_ep_sum2 raw));
  set_elem "results" 2 r2;;
  r3 ← in_heap (process_result N_RUNS (process_results raw) desc);
  set_elem "results" 3 r3;;
  r4 ← lift (process_result_early_proc (process_results_ep_num raw) (process_results_ep_sum raw)
               (process_results_ep_sum2 raw));
  set_elem "results" 4 r4;;
  let col := Column "Type" (string_array types) JSON_STRING in
  let set := ResultSet "IRQ path cycle count (measured from user level)" (Some [col]) 1
               (addr "results") 5 in
  json ← new_array;
  append_set json set;;
  mret json.

End Irq.

(** ** signal.c *)
Module Signal.

Definition N_IGNORED : Z := 10.
Definition N_RUNS : Z := 100 + N_IGNORED.

Record signal_results_t := SignalResults {
  lo_prio_results : ptr;
  hi_prio_results : ptr;
  hi_prio_average : ptr;
  overhead : ptr;
  lo_sum : Z;
  lo_sum2 : Z;
  lo_num : Z;
}.

Definition signal_process `{Platform} `{Jansson} (raw : signal_results_t)
  : M world (option positive) :=
  let desc := Desc true (Some "signal overhead") 0 N_IGNORED in
  result ← in_heap (process_result N_RUNS (overhead raw) desc);
  set_var "result" [result];;
  let set := ResultSet "Signal overhead" None 0 (addr "result") 1 in
  array ← new_array;
  append_set array set;;
  let desc := with_overhead (result_min result) (with_stable false desc) in
  result ← lift (process_result_early_proc (lo_num raw) (lo_sum raw) (lo_sum2 raw));
  set_var "result" [result];;
  let set := with_name "Signal to high prio thread (early processing)" set in
  append_set array set;;
  result ← in_heap (process_result N_RUNS (lo_prio_results raw) desc);
  set_var "result" [result];;
  let set := with_name "Signal to high prio thread" set in
  append_set array set;;
  result ← in_heap (process_result N_RUNS (hi_prio_results raw) desc);
  set_var "result" [result];;
  let set := with_name "Signal to low prio thread" set in
  append_set array set;;
  average_results ← in_heap (process_average_results N_RUNS NUM_AVERAGE_EVENTS (hi_prio_average raw));
  append_average array "Average signal to low prio thread" average_results;;
  mret array.

End Signal.

(** ** scheduler.c *)
Module Scheduler.

Definition N_IGNORED : Z := 10.
Definition N_RUNS : Z := 100 + N_IGNORED.

Section scheduler.
Context `{Platform} `{Jansson}.

Definition N_PRIOS : Z := (seL4_MaxPrio + seL4_WordBits - 1) `div` seL4_WordBits.

(** [static inline uint8_t gen_next_prio(int i)] *)
Definition gen_next_prio (i : Z) : Z := wrap 8 (seL4_MinPrio + 1 + i * seL4_WordBits).

Record scheduler_results_t := SchedulerResults {
  thread_results : ptr;
  process_results : ptr;
  overhead_signal : ptr;
  set_prio_average : ptr;
  thread_yield : ptr;
  process_yield : ptr;
  overhead_ccnt : ptr;
  average_yield : ptr;
  thread_yield_ep : Fault.ep_sums;
  process_yield_ep : Fault.ep_sums;
  thread_results_ep_sum : list Z;
  thread_results_ep_sum2 : list Z;
  thread_results_ep_num : list Z;
  process_results_ep_sum : list Z;
  process_results_ep_sum2 : list Z;
  process_results_ep_num : list Z;
}.

Definition process_yield_results (results : scheduler_results_t) (overhead : Z)
    (array : option positive) : M world unit :=
  let desc := Desc false None overhead N_IGNORED in
  let set := ResultSet "Thread yield" None 0 (addr "result") 1 in
  result ← in_heap (process_result N_RUNS (thread_yield results) desc);
  set_var "result" [result];;
  append_set array set;;
  let set := with_name "Thread yield (early processing)" set in
  result ← lift (Fault.early (thread_yield_ep results));
  set_var "result" [result];;
  append_set array set;;
  let set := with_name "Process yield" set in
  result ← in_heap (process_result N_RUNS (process_yield results) desc);
  set_var "result" [result];;
  append_set array set;;
  let set := with_name "Process yield (early processing)" set in
  result ← lift (Fault.early (process_yield_ep results));
  set_var "result" [result];;
  append_set array set;;
  average_results ← in_heap (process_average_results N_RUNS NUM_AVERAGE_EVENTS (average_yield results));
  append_average array "Average seL4_Yield (no thread switch)" average_results.

(** The column of priorities. *)
Definition prio_column : column_t :=
  Column "Prio" (integer_array (gen_next_prio <$> seqZ 0 N_PRIOS)) JSON_INTEGER.

(** The results of [process_results_early_proc] for the threads. *)
Definition thread_early (results : scheduler_results_t) : outcome (list result_t) :=
  process_results_early_proc N_PRIOS (thread_results_ep_num results)
    (thread_results_ep_sum results) (thread_results_ep_sum2 results).
Definition process_early (results : scheduler_results_t) : outcome (list result_t) :=
  process_results_early_proc N_PRIOS (process_results_ep_num results)
    (process_results_ep_sum results) (process_results_ep_sum2 results).

Definition process_scheduler_results (results : scheduler_results_t) (array : option positive)
  : M world unit :=
  let desc := Desc true (Some "Signal overhead") 0 N_IGNORED in
  result ← in_heap (process_result N_RUNS (overhead_signal results) desc);
  set_var "result" [result];;
  let set := ResultSet "Signal overhead" None 0 (addr "result") 1 in
  append_set array set;;
  let desc := with_overhead (result_min result) (with_stable false desc) in
  per_prio_result ← in_heap (Processing.process_results N_PRIOS N_RUNS (thread_results results) desc);
  set_var "per_prio_result" per_prio_result;;
  let set := with_cols (Some [prio_column]) 1 (with_name "Signal to thread of higher prio" set) in
  let set := with_results (addr "per_prio_result") N_PRIOS set in
  append_set array set;;
  per_prio_result_ep ← lift (thread_early results);
  set_var "per_prio_result_ep" per_prio_result_ep;;
  let set := with_name "Signal to thread of higher prio (early processing)" set in
  let set := with_results (addr "per_prio_result_ep") N_PRIOS set in
  append_set array set;;
  let set := with_name "Signal to process of higher prio" set in
  per_prio_result ← in_heap (Processing.process_results N_PRIOS N_RUNS (process_results results) desc);
  set_var "per_prio_result" per_prio_result;;
  append_set array set;;
  per_prio_result_ep ← lift (process_early results);
  set_var "per_prio_result_ep" per_prio_result_ep;;
  let set := with_name "Signal to process of higher prio (early processing)" set in
  let set := with_results (addr "per_prio_result_ep") N_PRIOS set in
  append_set array set;;
  average_results ← in_heap
    (process_average_results N_RUNS NUM_AVERAGE_EVENTS (set_prio_average results));
  append_average array "Average to reschedule current thread" average_results.

(** [scheduler_process]; the callees have their own variables. *)
Definition scheduler_process (raw : scheduler_results_t) : M world (option positive) :=
  array ← new_array;
  process_scheduler_results raw array;;
  let desc := Desc true (Some "Read ccnt overhead") 0 N_IGNORED in
  ccnt_overhead ← in_heap (process_result N_RUNS (overhead_ccnt raw) desc);
  set_var "ccnt_overhead" [ccnt_overhead];;
  let set := ResultSet "Read ccnt overhead" None 0 (addr "ccnt_overhead") 1 in
  append_set array set;;
  process_yield_results raw (result_min ccnt_overhead) array;;
  mret array.

End scheduler.
End Scheduler.

(** ** sync.c *)
Module Sync.

Definition N_IGNORED : Z := 5.
Definition N_RUNS : Z := 50 + N_IGNORED.
Definition N_WAITERS : Z := 25.
Definition N_BROADCAST_BENCHMARKS : Z := 1.
Definition N_PROD_CONS_BENCHMARKS : Z := 1.

Definition broadcast_wait_names : list string := ["Wait time"]%string.
Definition broadcast_broadcast_names : list string := ["Broadcast time"]%string.
Definition producer_to_consumer_names : list string := ["Producer to consumer"]%string.
Definition consumer_to_producer_names : list string := ["Consumer to producer"]%string.

Record sync_results_t := SyncResults {
  broadcast_wait_time : ptr;
  broadcast_broadcast_time : ptr;
  producer_to_consumer : ptr;
  consumer_to_producer : ptr;
  producer_to_consumer_ep_sum : Z;
  producer_to_consumer_ep_sum2 : Z;
  producer_to_consumer_ep_num : Z;
  consumer_to_producer_ep_sum : Z;
  consumer_to_producer_ep_sum2 : Z;
  consumer_to_producer_ep_num : Z;
}.

Section sync.
Context `{Platform} `{Jansson}.

(** One of the loops that report single rows. *)
Definition report_each (n : Z) (names : list string) (times : ptr) (desc : result_desc_t)
    (set : result_set_t) (array : option positive) : M world unit :=
  for_each (seqZ 0 n) (λ j,
    result ← in_heap (process_result N_RUNS (ptr_add times (j * N_RUNS)) desc);
    set_var "result" [result];;
    name ← lift (defined (aget names j));
    append_set array (with_name name set)).

Definition sync_process (raw : sync_results_t) : M world (option positive) :=
  let desc := Desc false (Some "sync benchmarks") 0 N_IGNORED in
  let extra := Column "Waiter" (integer_array (seqZ 0 N_WAITERS)) JSON_INTEGER in
  let set := ResultSet "" (Some [extra]) 1 (addr "wait_results") N_WAITERS in
  array ← new_array;
  for_each (seqZ 0 N_BROADCAST_BENCHMARKS) (λ j,
    wait_results ← in_heap (Processing.process_results N_WAITERS N_RUNS
      (ptr_add (broadcast_wait_time raw) (j * (N_WAITERS * N_RUNS))) desc);
    set_var "wait_results" wait_results;;
    name ← lift (defined (aget broadcast_wait_names j));
    append_set array (with_name name set));;
  let set := with_results (addr "result") 1 (with_cols None 0 set) in
  report_each N_BROADCAST_BENCHMARKS broadcast_broadcast_names (broadcast_broadcast_time raw)
    desc set array;;
  report_each N_PROD_CONS_BENCHMARKS producer_to_consumer_names (producer_to_consumer raw)
    desc set array;;
  report_each N_PROD_CONS_BENCHMARKS consumer_to_producer_names (consumer_to_producer raw)
    desc set array;;
  result ← lift (process_result_early_proc (producer_to_consumer_ep_num raw)
                   (producer_to_consumer_ep_sum raw) (producer_to_consumer_ep_sum2 raw));
  set_var "result" [result];;
  append_set array (with_name "Producer to consumer (early processing)" set);;
  result ← lift (process_result_early_proc (consumer_to_producer_ep_num raw)
                   (consumer_to_producer_ep_sum raw) (consumer_to_producer_ep_sum2 raw));
  set_var "result" [result];;
  append_set array (with_name "Consumer to producer (early processing)" set);;
  mret array.

End sync.
End Sync.

(** ** smp.c *)
Module Smp.
Import SmpParams.

Section smp.
Context `{Platform} `{Jansson}.

(** The conversion of a [double] to a [json_int_t]. *)
Definition to_json_int (x : spec_float) : outcome Z :=
  match truncate x with
  | Some z => if decide (- 2 ^ 63 <= z < 2 ^ 63) then Ok z else Undef
  | None => Undef
  end.

(** The two columns, row [i * cores + j] being delay [i] on [j + 1] cores. *)
Definition cycle_col (cores n : Z) : outcome (list Z) :=
  fold_outcome (λ col i,
    p ← defined (aget smp_benchmark_params (i `div` cores));
    d ← to_json_int (delay p);
    Ok (col ++ [d])) (seqZ 0 n) [].
Definition cores_col (cores n : Z) : list Z := (λ i, i `mod` cores + 1) <$> seqZ 0 n.

(** [process_smp_results]; [cores_collective_results] is the number of cores
    its [init] function finds; an array of no elements is undefined. *)
Definition process_smp_results (cores_collective_results : Z) (raw_results : ptr)
  : M world (option positive) :=
  let n := TESTS * cores_collective_results in
  lift (if 0 <? n then Ok tt else Undef);;
  cycles ← lift (cycle_col cores_collective_results n);
  let extra_cols :=
    [Column "Cycles" (integer_array cycles) JSON_INTEGER;
     Column "Cores" (integer_array (cores_col cores_collective_results n)) JSON_INTEGER] in
  declare "results";;
  let result_set := ResultSet "SMP Benchmark" (Some extra_cols) 2 (addr "results") n in
  for_each (seqZ 0 TESTS) (λ i,
    for_each (seqZ 0 cores_collective_results) (λ j,
      p ← lift (defined (aget smp_benchmark_params i));
      let desc := Desc false (Some (params_name p)) 0 0 in
      r ← in_heap (process_result RUNS (benchmarks_result raw_results i j) desc);
      set_elem "results" (i * cores_collective_results + j) r));;
  array ← new_array;
  append_set array result_set;;
  mret array.

End smp.
End Smp.

(** ** page_mapping.c *)
Module PageMapping.
Import PageMappingParams.

Section page_mapping.
Context `{Platform} `{Jansson}.

Definition phase_col (nline : Z) : outcome (list string) :=
  fold_outcome (λ col i,
    s ← defined (aget phase_name (i `mod` NPHASE)); Ok (col ++ [s])) (seqZ 0 nline) [].
Definition npage_col (nline : Z) : outcome (list Z) :=
  fold_outcome (λ col i,
    p ← defined (aget page_mapping_benchmark_params (i `div` NPHASE));
    Ok (col ++ [npage p])) (seqZ 0 nline) [].

Definition process_mapping_results (raw_results : page_mapping_results_t)
  : M world (option positive) :=
  let desc := Desc false (Some "overhead") 0 1 in
  overhead_result ← in_heap (process_result RUNS (overhead_benchmarks raw_results) desc);
  let overhead := result_min overhead_result in
  let nline := TESTS * NPHASE in
  phases ← lift (phase_col nline);
  npages ← lift (npage_col nline);
  let extra_cols :=
    [Column "Num of Page Mapped" (integer_array npages) JSON_INTEGER;
     Column "Phase" (string_array phases) JSON_STRING] in
  declare "results";;
  let result_set := ResultSet "Mapping Benchmark" (Some extra_cols) 2 (addr "results") nline in
  for_each (seqZ 0 TESTS) (λ i,
    for_each (seqZ 0 NPHASE) (λ j,
      p ← lift (defined (aget page_mapping_benchmark_params i));
      let desc := Desc false (Some (params_name p)) overhead 1 in
      r ← in_heap (process_result RUNS (benchmarks_result_at raw_results i j) desc);
      set_elem "results" (i * NPHASE + j) r));;
  array ← new_array;
  append_set array result_set;;
  mret array.

End page_mapping.
End PageMapping.

(** ** ipc.c *)
Module Ipc.
Import IpcParams.

Record ipc_results_t := IpcResults {
  overhead_benchmarks : ptr;
  benchmarks : ptr;
}.

Section ipc.
Context `{Platform} `{Jansson}.

(** The loop over the overheads; [None] is the early return: the last
    [RUNS - 1] runs have to be stable, the first [RUNS - 1] are used. *)
Fixpoint check_overheads (raw_results : ipc_results_t) (os : list overheads) (overheads : list Z)
  : M world (option (list Z)) :=
  match os with
  | [] => mret (Some overheads)
  | o :: os =>
      let row := ptr_add (overhead_benchmarks raw_results) (overhead_index o * RUNS) in
      data ← in_heap (hview (ptr_add row 1) (RUNS - 1));
      stable ← lift (Stable.results_stable data (RUNS - 1));
      if negb stable && negb CONFIG_ALLOW_UNSTABLE_OVERHEAD then mret None
      else
        let desc := Desc false (Some "overhead") 0 0 in
        overhead_result ← in_heap (process_result (RUNS - 1) row desc);
        check_overheads raw_results os (overheads ++ [result_min overhead_result])
  end.

Definition direction_name (d : dir_t) : string :=
  match d with DIR_TO => "client->server" | DIR_FROM => "server->client" end.

Definition ipc_cols : list column_t :=
  [Column "Function" (string_array (params_name <$> benchmark_params)) JSON_STRING;
   Column "Direction" (string_array (direction_name ∘ direction <$> benchmark_params)) JSON_STRING;
   Column "Client Prio" (integer_array (client_prio <$> benchmark_params)) JSON_INTEGER;
   Column "Server Prio" (integer_array (server_prio <$> benchmark_params)) JSON_INTEGER;
   Column "Same vspace?" (bool_array (same_vspace <$> benchmark_params)) JSON_TRUE;
   Column "IPC length" (integer_array (params_length <$> benchmark_params)) JSON_INTEGER].

Definition process_ipc_results (raw_results : ipc_results_t) : M world (option positive) :=
  checked ← check_overheads raw_results all_overheads [];
  match checked with
  | None => mret None
  | Some overheads =>
      let n := NUM_BENCHMARKS in
      declare "results";;
      let result_set := ResultSet "One way IPC microbenchmarks" (Some ipc_cols) 6
                          (addr "results") n in
      for_each (seqZ 0 n) (λ i,
        p ← lift (defined (aget benchmark_params i));
        overhead ← lift (defined (aget overheads (overhead_index (overhead_id p))));
        let desc := Desc false (Some (params_name p)) overhead 0 in
        r ← in_heap (process_result RUNS (ptr_add (benchmarks raw_results) (i * RUNS)) desc);
        set_elem "results" i r);;
      array ← new_array;
      append_set array result_set;;
      mret array
  end.

End ipc.
End Ipc.

(** ** plat/tx2/vcpu.c *)
Module Vcpu.
Import VcpuParams.

(** [results[i].deep_data.elapsed] for every benchmark, and the overhead. *)
Record vcpu_benchmark_overall_results_t := VcpuResults {
  ccnt_read_overhead : Z;
  elapsed : list ptr;
}.

Section vcpu.
Context `{Platform} `{Jansson}.

Definition bm_result_sets : list result_set_t :=
  [ResultSet "HVC Privilege Escalation" None 0
     (addr_of "results" (benchmark_index VCPU_BENCHMARK_HVC_PRIV_ESCALATE)) 1;
   ResultSet "ERET Privilege De-escalation" None 0
     (addr_of "results" (benchmark_index VCPU_BENCHMARK_ERET_PRIV_DESCALATE)) 1;
   ResultSet "NULL HVC kernel hypercall invocation" None 0
     (addr_of "results" (benchmark_index VCPU_BENCHMARK_HVC_NULL_SYSCALL)) 1;
   ResultSet "seL4_Call IPC from VCPU thread" None 0
     (addr_of "results" (benchmark_index VCPU_BENCHMARK_CALL_SYSCALL)) 1;
   ResultSet "seL4_Reply IPC to VCPU thread" None 0
     (addr_of "results" (benchmark_index VCPU_BENCHMARK_REPLY_SYSCALL)) 1].

Definition process_vcpu_results (raw_results : vcpu_benchmark_overall_results_t)
  : M world (option positive) :=
  let desc := Desc false (Some "VCPU benchmark") (ccnt_read_overhead raw_results)
                VCPU_BENCH_N_ITERATIONS_IGNORED in
  declare "results";;
  array ← new_array;
  for_each (seqZ 0 VCPU_BENCHMARK_N_BENCHMARKS) (λ i,
    p ← lift (defined (aget (elapsed raw_results) i));
    r ← in_heap (process_result VCPU_BENCH_N_ITERATIONS p desc);
    set_elem "results" i r;;
    set ← lift (defined (aget bm_result_sets i));
    append_set array set);;
  mret array.

End vcpu.
End Vcpu.
