(* ===== verification/Typing.v ===== *)
(** * Typing: the data of the driver stay well typed

    The arrays that [sel4bench] maps hold values of [ccnt_t], and a [result_t]
    points into one of them.  Every function of processing.c and every
    [process] function of Reports keeps this so, whatever it is given: no array
    changes its size or goes away, every element stays a counter value, and
    every result that the program holds has counter values in its fields and as
    many elements behind its pointer as it says. *)

From S2P Require Import Prelude Platform Memory Floats Collect Stats Processing Json IpcParams AppParams Reports.

(** ** What a step keeps *)

(** The good states of a kind of store, and the states that may come later. *)
Class Keeping (S : Type) := {
  good : S → Prop;
  later : S → S → Prop;
  later_preorder : PreOrder later;
}.
#[export] Existing Instance later_preorder.

Section keeps.
Context {S : Type} `{!Keeping S}.

(** When [m] returns from a good state, the state after it is good and later,
    and [T] holds of it and of the value. *)
Definition keeps {A} (m : M S A) (T : A → S → Prop) (s : S) : Prop :=
  good s → ∀ a s', m s = Ok (a, s') → good s' ∧ later s s' ∧ T a s'.

Lemma keeps_ret {A} (a : A) (T : A → S → Prop) s : T a s → keeps (mret a) T s.
Proof. intros HT Hs a' s' [= <- <-]. by split. Qed.

Lemma keeps_lift {A} (o : outcome A) (T : A → S → Prop) s :
  (∀ a, o = Ok a → T a s) → keeps (lift o) T s.
Proof.
  intros HT Hs a s'. unfold lift. destruct o; [|done..]. intros [= <- <-]. split_and!; [done|done|auto].
Qed.

Lemma keeps_bind {A B} (m : M S A) (f : A → M S B) T U s :
  keeps m T s → (∀ a s', later s s' → good s' → T a s' → keeps (f a) U s') → keeps (m ≫= f) U s.
Proof.
  intros Hm Hf Hs b s2. unfold mbind, M_bind. destruct (m s) as [[a s1]| |] eqn:E; [|done..].
  intros E'. destruct (Hm Hs a s1 E) as (Hg & Hle & HT).
  destruct (Hf a s1 Hle Hg HT Hg b s2 E') as (Hg2 & Hle2 & HU). split_and!; [done| |done]. by etrans.
Qed.

Lemma keeps_mono {A} (m : M S A) (T U : A → S → Prop) s :
  keeps m T s → (∀ a s', T a s' → U a s') → keeps m U s.
Proof. intros Hm HTU Hs a s' E. destruct (Hm Hs a s' E) as (? & ? & ?). auto. Qed.

Lemma keeps_for_each {A} (l : list A) (body : A → M S unit) (U : unit → S → Prop) s :
  (∀ x s', later s s' → keeps (body x) (λ _ _, True) s') → (∀ s', U tt s') →
  keeps (for_each l body) U s.
Proof.
  intros Hb HU. revert s Hb. induction l as [|x l IH]; intros s Hb; [by apply keeps_ret|].
  cbn [for_each]. eapply keeps_bind; [by apply Hb|]. intros [] s' Hle _ _.
  apply IH. intros y s2 Hle2. apply Hb. by etrans.
Qed.

Lemma keeps_map_each {A B} (l : list A) (body : A → M S B) (T : B → S → Prop) s :
  (∀ b s1 s2, later s1 s2 → T b s1 → T b s2) →
  (∀ x s', later s s' → keeps (body x) T s') →
  keeps (map_each l body) (λ bs s', Forall (λ b, T b s') bs) s.
Proof.
  intros HT. revert s. induction l as [|x l IH]; intros s Hb; [by apply keeps_ret|].
  cbn [map_each]. eapply keeps_bind; [by apply Hb|]. intros b s1 Hle1 _ Hb1.
  eapply keeps_bind; [apply IH; intros y s2 Hle2; apply Hb; by etrans|].
  intros bs s2 Hle2 _ Hbs. apply keeps_ret. constructor; [by eapply HT|done].
Qed.
End keeps.

(** ** The heap *)
Section heap.
Context `{Platform}.

Definition words (h : heap) : Prop := ∀ b l, holds h b l → Forall (in_word ccnt_bits) l.
Definition extends (h h' : heap) : Prop :=
  ∀ b l, holds h b l → ∃ l', holds h' b l' ∧ length l' = length l.

#[export] Instance extends_preorder : PreOrder extends.
Proof.
  split; [by intros h b l Hl; exists l|].
  intros h1 h2 h3 H12 H23 b l Hl. destruct (H12 b l Hl) as (l2 & Hl2 & E2).
  destruct (H23 b l2 Hl2) as (l3 & Hl3 & E3). exists l3. split; [done|congruence].
Qed.

(** [n] elements from [p] on. *)
Definition points (h : heap) (p : ptr) (n : Z) : Prop :=
  ∃ l, holds h (p_block p) l ∧ 0 <= p_off p ∧ p_off p + n <= Z.of_nat (length l).
Definition wf_result (h : heap) (r : result_t) : Prop :=
  in_word ccnt_bits (result_min r) ∧ in_word ccnt_bits (result_max r) ∧ in_word ccnt_bits (mode r) ∧
  0 <= samples r ∧ ∀ p, raw_data r = Some p → points h p (samples r).

Lemma points_extends h h' p n : extends h h' → points h p n → points h' p n.
Proof.
  intros He (l & Hl & Ho & Hn). destruct (He _ _ Hl) as (l' & Hl' & E). exists l'. by rewrite E.
Qed.
Lemma wf_result_extends h h' r : extends h h' → wf_result h r → wf_result h' r.
Proof.
  intros He (? & ? & ? & ? & Hp). split_and!; try done. intros p E. eapply points_extends; eauto.
Qed.

#[export] Instance heap_keeping : Keeping heap :=
  {| good := words; later := extends; later_preorder := extends_preorder |}.

Lemma keeps_hload p i h : keeps (hload p i) (λ x _, in_word ccnt_bits x) h.
Proof.
  intros Hw x h'. unfold hload, lift. destruct (Memory.load p i h) eqn:E; [|done..]. intros [= -> ->].
  split_and!; [done|done|]. unfold Memory.load in E. destruct (blocks h' !! p_block p) as [l|] eqn:Hl; [|done].
  specialize (Hw _ _ Hl). destruct (aget l (p_off p + i)) as [y|] eqn:Ha; [|done]. injection E as ->.
  unfold aget in Ha. destruct (0 <=? p_off p + i); [|done]. by eapply Forall_lookup_1.
Qed.

Lemma keeps_hstore p i v h (U : unit → heap → Prop) :
  in_word ccnt_bits v → (∀ h, U tt h) → keeps (hstore p i v) U h.
Proof.
  intros Hv HU Hw [] h'. unfold hstore, Memory.store. destruct (blocks h !! p_block p) as [l|] eqn:Hl; [|done].
  unfold aset. destruct (0 <=? p_off p + i); cbn; [|done]. destruct (p_off p + i <? _); cbn; [|done].
  intros [= <-]. split_and!; [| |done].
  - intros b l'. unfold Memory.holds. cbn. intros [[<- <-]|[Hne Hb]]%lookup_insert_Some; [|by eapply Hw].
    apply Forall_insert; [by eapply Hw|done].
  - intros b l' Hb. unfold Memory.holds in *. cbn. destruct (decide (p_block p = b)) as [<-|Hne].
    + rewrite lookup_insert_eq. eexists. split; [done|]. rewrite length_insert. congruence.
    + rewrite lookup_insert_ne by done. by exists l'.
Qed.

Lemma keeps_hview p n h :
  keeps (hview p n) (λ l h', Forall (in_word ccnt_bits) l ∧ points h' p (Z.of_nat (length l))) h.
Proof.
  intros Hw l h'. unfold hview, lift. destruct (view p n h) as [l'| |] eqn:E; [|done..]. intros [= -> ->].
  split_and!; [done|done| |]; pose proof (view_length _ _ _ _ E) as Hlen; revert E; unfold view;
    destruct (blocks h' !! p_block p) as [bl|] eqn:Hl; try done;
    destruct (bool_decide _) eqn:Hb; try done; apply bool_decide_eq_true in Hb; intros [= <-].
  - apply Forall_take, Forall_drop. by eapply Hw.
  - exists bl. split; [done|]. rewrite Hlen. lia.
Qed.

Lemma keeps_hcalloc n h : keeps (hcalloc n) (λ _ _, True) h.
Proof.
  intros Hw o h'. unfold hcalloc, calloc. destruct (n <=? avail h); intros [= <- <-]; [|by split].
  set (b := fresh (dom (blocks h))).
  assert (blocks h !! b = None) as Hb by (apply not_elem_of_dom, is_fresh).
  split_and!; [| |done].
  - intros b' l. unfold Memory.holds. cbn. intros [[<- <-]|[_ Hl]]%lookup_insert_Some; [|by eapply Hw].
    apply Forall_replicate. by apply in_word_0, ccnt_bits_nonneg.
  - intros b' l Hl. unfold Memory.holds in *. cbn. exists l. split; [|done].
    rewrite lookup_insert_ne; [done|]. intros <-. congruence.
Qed.

(** *** Statistics *)

Lemma results_mode_loop_word rest m cv cf mf :
  in_word ccnt_bits m → in_word ccnt_bits cv → Forall (in_word ccnt_bits) rest →
  in_word ccnt_bits (results_mode_loop rest m cv cf mf).
Proof.
  intros Hm Hcv Hrest. revert m cv cf mf Hm Hcv.
  induction Hrest as [|x rest Hx _ IH]; intros m cv cf mf Hm Hcv; [done|]. cbn.
  destruct (cv =? x); [by apply IH|]. destruct (mf <? cf); by apply IH.
Qed.

Lemma results_mode_word l : Forall (in_word ccnt_bits) l → in_word ccnt_bits (results_mode l).
Proof.
  intros Hl. destruct Hl as [|x l Hx Hl]; [apply in_word_0, ccnt_bits_nonneg|].
  destruct l as [|y l]; [done|]. by apply results_mode_loop_word.
Qed.

Lemma aget_Forall {A} (P : A → Prop) (l : list A) i x : Forall P l → aget l i = Some x → P x.
Proof. intros Hl. unfold aget. destruct (0 <=? i); [|done]. by apply Forall_lookup_1. Qed.

Lemma bind_Ok {A B} (o : outcome A) (f : A → outcome B) b :
  o ≫= f = Ok b → ∃ a, o = Ok a ∧ f a = Ok b.
Proof. destruct o; [eauto|done..]. Qed.

Lemma calculate_results_typed data p h r :
  Forall (in_word ccnt_bits) data → points h p (Z.of_nat (length data)) →
  calculate_results data p = Ok r → wf_result h r.
Proof.
  intros Hd Hp. unfold calculate_results.
  assert (Forall (in_word ccnt_bits) (qsort ccnt_compare_fn data)) as Hs by (by rewrite qsort_permutation).
  set (sorted := qsort _ _) in *.
  intros (min & Emin & E)%bind_Ok. apply bind_Ok in E as (max & Emax & E).
  do 5 (apply bind_Ok in E as (? & _ & E)).
  destruct (aget sorted 0) eqn:E0; [|done]. destruct (aget sorted (_ ⊟[_] 1)) eqn:E1; [|done].
  injection Emin as ->. injection Emax as ->. revert E.
  intros [= <-]. split_and!; cbn.
  - by apply (aget_Forall _ _ _ _ Hs E0).
  - by apply (aget_Forall _ _ _ _ Hs E1).
  - by apply results_mode_word.
  - unfold size_of. lia.
  - by intros p' [= <-].
Qed.

Lemma early_typed num sum sum2 h r : process_result_early_proc num sum sum2 = Ok r → wf_result h r.
Proof.
  unfold process_result_early_proc, calculate_results_early_proc. destruct (num =? 0); [done|].
  cbn zeta. destruct (to_unsigned _ _); try done. intros [= <-].
  pose proof (in_word_0 ccnt_bits ccnt_bits_nonneg).
  split_and!; cbn; try done. apply wrap_nonneg, word_bits_nonneg.
Qed.

Lemma result_zero_typed h : wf_result h result_zero.
Proof. pose proof (in_word_0 ccnt_bits ccnt_bits_nonneg). by split_and!. Qed.

(** *** Processing *)

Lemma keeps_process_result n array desc h : keeps (process_result n array desc) (λ r h', wf_result h' r) h.
Proof.
  unfold process_result. cbn zeta. eapply (keeps_bind _ _ (λ _ _, True)).
  - destruct (desc_stable desc); [|by apply keeps_ret].
    eapply keeps_bind; [apply keeps_hview|]. intros data h1 _ _ _.
    eapply (keeps_bind _ _ (λ _ _, True)); [by apply keeps_lift|]. intros b h2 _ _ _. by apply keeps_ret.
  - intros unstable h1 _ _ _. destruct (unstable && _); [apply keeps_ret, result_zero_typed|].
    eapply (keeps_bind _ _ (λ _ _, True)).
    + apply keeps_for_each; [|done]. intros i h2 _. eapply keeps_bind; [apply keeps_hload|].
      intros x h3 _ _ _. apply keeps_hstore; [apply wrap_in_word, ccnt_bits_nonneg|done].
    + intros _ h2 _ _ _. eapply keeps_bind; [apply keeps_hview|]. intros data h3 _ _ [Hd Hp].
      apply keeps_lift. intros r. by apply calculate_results_typed.
Qed.

Lemma keeps_process_results ncols nrows array desc h :
  keeps (process_results ncols nrows array desc) (λ rs h', Forall (wf_result h') rs) h.
Proof.
  apply (keeps_map_each _ _ (λ r h', wf_result h' r)).
  - intros r h1 h2. apply wf_result_extends.
  - intros i h1 _. apply keeps_process_result.
Qed.

Lemma keeps_process_average_results rows cols array h :
  keeps (process_average_results rows cols array) (λ rs h', Forall (wf_result h') rs) h.
Proof.
  unfold process_average_results. eapply (keeps_bind _ _ (λ _ _, True)).
  - apply keeps_for_each; [|done]. intros row h1 _. apply keeps_for_each; [|done]. intros col h2 _.
    eapply keeps_bind; [apply keeps_hload|]. intros x h3 _ _ [Hx0 Hx]. apply keeps_hstore; [|done].
    unfold AVERAGE_RUNS. split; [by apply Z.div_pos|]. eapply Z.le_lt_trans; [|done]. apply Z.div_le_upper_bound; lia.
  - intros _ h1 _ _ _. apply (keeps_map_each _ _ (λ r h', wf_result h' r)).
    { intros r h2 h3. apply wf_result_extends. }
    intros col h2 _. unfold average_column. eapply keeps_bind; [apply keeps_hcalloc|].
    intros [raw|] h3 _ _ _; [|by apply keeps_lift]. eapply (keeps_bind _ _ (λ _ _, True)).
    + apply keeps_for_each; [|done]. intros i h4 _. eapply keeps_bind; [apply keeps_hload|].
      intros x h5 _ _ Hx. by apply keeps_hstore.
    + intros _ h4 _ _ _. eapply keeps_bind; [apply keeps_hview|]. intros data h5 _ _ [Hd Hp].
      apply keeps_lift. intros r. by apply calculate_results_typed.
Qed.

Lemma process_results_early_typed ncols nums sums sum2s h rs :
  process_results_early_proc ncols nums sums sum2s = Ok rs → Forall (wf_result h) rs.
Proof.
  unfold process_results_early_proc.
  cut (∀ acc, Forall (wf_result h) acc → ∀ l, fold_outcome (λ results i,
    num ← defined (aget nums i); sum ← defined (aget sums i); sum2 ← defined (aget sum2s i);
    r ← process_result_early_proc num sum sum2; Ok (results ++ [r])) l acc = Ok rs → Forall (wf_result h) rs).
  { intros Hcut. by apply Hcut. }
  intros acc Hacc l. revert acc Hacc. induction l as [|i l IH]; intros acc Hacc; [by intros [= <-]|]. cbn.
  destruct (aget nums i); [|done]. destruct (aget sums i); [|done]. destruct (aget sum2s i); [|done]. cbn.
  destruct (process_result_early_proc _ _ _) as [r| |] eqn:E; [|done..]. cbn. apply IH.
  apply Forall_app. split; [done|]. apply Forall_singleton. by eapply early_typed.
Qed.
End heap.

(** ** The result processors *)
Section processors.
Context `{Platform} `{Jansson}.

Definition well_typed (w : world) : Prop :=
  words (w_heap w) ∧ ∀ var rs, w_frame w !! var = Some rs → Forall (wf_result (w_heap w)) rs.
Definition world_extends (w w' : world) : Prop := extends (w_heap w) (w_heap w').

#[export] Instance world_extends_preorder : PreOrder world_extends.
Proof.
  split; [by intros w; unfold world_extends|].
  intros w1 w2 w3. unfold world_extends. intros. by etrans.
Qed.
#[export] Instance world_keeping : Keeping world :=
  {| good := well_typed; later := world_extends; later_preorder := world_extends_preorder |}.

Lemma keeps_in_heap {A} (m : M heap A) T (w : world) :
  keeps m T (w_heap w) → keeps (in_heap m) (λ a w', T a (w_heap w')) w.
Proof.
  intros Hm [Hw Hf] a w'. unfold in_heap. destruct (m (w_heap w)) as [[a' h]| |] eqn:E; [|done..].
  intros [= <- <-]. destruct (Hm Hw a' h E) as (Hw' & He & HT). split; [|by split].
  split; [done|]. cbn. intros var rs Hrs. apply (list.Forall_impl (wf_result (w_heap w))); [by eapply Hf|].
  intros r. by apply wf_result_extends.
Qed.

Lemma keeps_in_json {A} (m : frame → heap → M jstate A) (U : A → world → Prop) (w : world) :
  (∀ a w', U a w') → keeps (in_json m) U w.
Proof.
  intros HU [Hw Hf] a w'. unfold in_json. destruct (m _ _ _) as [[a' j]| |]; [|done..].
  intros [= <- <-]. split; [by split|]. split; [by cbn; unfold world_extends|apply HU].
Qed.

Lemma keeps_set_var var rs (U : unit → world → Prop) (w : world) :
  Forall (wf_result (w_heap w)) rs → (∀ w', U tt w') → keeps (set_var var rs) U w.
Proof.
  intros Hrs HU [Hw Hf] [] w' [= <-]. split_and!; [split; [done|]|by cbn; unfold world_extends|done].
  cbn [w_frame w_heap]. unfold frame. intros var' rs' [[<- <-]|[_ Hv]]%lookup_insert_Some; [done|by eapply Hf].
Qed.

Lemma keeps_set_elem var i r (U : unit → world → Prop) (w : world) :
  wf_result (w_heap w) r → (∀ w', U tt w') → keeps (set_elem var i r) U w.
Proof.
  intros Hr HU Hw u w' E.
  assert (Forall (wf_result (w_heap w)) (default [] (w_frame w !! var))) as Hold.
  { destruct (w_frame w !! var) eqn:Hv; [|by constructor]. destruct Hw as [_ Hf]. by eapply Hf. }
  unfold set_elem in E. destruct (i <? _).
  - unfold aset in E. destruct (_ && _); [|done].
    eapply keeps_set_var; [|done|exact Hw|exact E]. by apply Forall_insert.
  - destruct (i =? _); [|done]. eapply keeps_set_var; [|done|exact Hw|exact E].
    apply Forall_app. split; [done|by constructor].
Qed.

Lemma keeps_declare var (U : unit → world → Prop) (w : world) : (∀ w', U tt w') → keeps (declare var) U w.
Proof. by apply keeps_set_var. Qed.
Lemma keeps_new_array (U : option positive → world → Prop) (w : world) :
  (∀ a w', U a w') → keeps new_array U w.
Proof. apply keeps_in_json. Qed.
Lemma keeps_append_set array set (U : unit → world → Prop) (w : world) :
  (∀ w', U tt w') → keeps (append_set array set) U w.
Proof. intros HU. apply keeps_in_json. by intros []. Qed.
Lemma keeps_append_average array name rs (U : unit → world → Prop) (w : world) :
  (∀ w', U tt w') → keeps (append_average array name rs) U w.
Proof. intros HU. apply keeps_in_json. by intros []. Qed.
End processors.

(** The steps of a processor: a value from the heap or from the sums is well
    typed where it is stored. *)
Ltac keep_step :=
  lazymatch goal with
  | |- keeps (let _ := _ in _) _ _ => cbv zeta
  | |- keeps (in_heap (process_result _ _ _) ≫= _) _ _ =>
      eapply keeps_bind; [apply keeps_in_heap, keeps_process_result|cbv beta; intros ? ? _ _ ?]
  | |- keeps (in_heap (Processing.process_results _ _ _ _) ≫= _) _ _ =>
      eapply keeps_bind; [apply keeps_in_heap, keeps_process_results|cbv beta; intros ? ? _ _ ?]
  | |- keeps (in_heap (process_average_results _ _ _) ≫= _) _ _ =>
      eapply keeps_bind; [apply keeps_in_heap, keeps_process_average_results|cbv beta; intros ? ? _ _ ?]
  | |- keeps (in_heap (hview _ _) ≫= _) _ _ =>
      eapply keeps_bind; [apply keeps_in_heap, keeps_hview|cbv beta; intros ? ? _ _ _]
  | |- keeps (lift (process_result_early_proc _ _ _) ≫= _) _ _ =>
      eapply (keeps_bind _ _ (λ r w', wf_result (w_heap w') r));
        [apply keeps_lift; intros ?; apply early_typed|intros ? ? _ _ ?]
  | |- keeps (lift (process_results_early_proc _ _ _ _) ≫= _) _ _ =>
      eapply (keeps_bind _ _ (λ rs w', Forall (wf_result (w_heap w')) rs));
        [apply keeps_lift; intros ?; apply process_results_early_typed|intros ? ? _ _ ?]
  | |- keeps (lift _ ≫= _) _ _ =>
      eapply (keeps_bind _ _ (λ _ _, True)); [apply keeps_lift; intros; exact I|intros ? ? _ _ _]
  | |- keeps (_ ≫= _) _ _ => eapply (keeps_bind _ _ (λ _ _, True)); [|intros ? ? _ _ _]
  | |- keeps (mret _) _ _ => apply keeps_ret; exact I
  | |- keeps (declare _) _ _ => apply keeps_declare; intros; exact I
  | |- keeps new_array _ _ => apply keeps_new_array; intros; exact I
  | |- keeps (append_set _ _) _ _ => apply keeps_append_set; intros; exact I
  | |- keeps (append_average _ _ _) _ _ => apply keeps_append_average; intros; exact I
  | |- keeps (for_each _ _) _ _ => apply keeps_for_each; [intros ? ? _|intros ?; exact I]
  | |- keeps (set_var _ [_]) _ _ => apply keeps_set_var; [by constructor|intros; exact I]
  | |- keeps (set_var _ _) _ _ => apply keeps_set_var; [assumption|intros; exact I]
  | |- keeps (set_elem _ _ _) _ _ => apply keeps_set_elem; [assumption|intros; exact I]
  | |- keeps (if ?b then _ else _) _ _ => destruct b
  | |- keeps (match ?x with _ => _ end) _ _ => destruct x
  end.
Ltac keep := repeat keep_step.

Section typed.
Context `{Platform} `{Jansson}.

(** The functions that sel4bench calls on the results of a benchmark. *)
Inductive processor : M world (option positive) → Prop :=
  | p_hardware raw : processor (Hardware.hardware_process raw)
  | p_fault raw : processor (Fault.fault_process raw)
  | p_irquser raw : processor (Irq.irquser_process raw)
  | p_signal raw : processor (Signal.signal_process raw)
  | p_scheduler raw : processor (Scheduler.scheduler_process raw)
  | p_sync raw : processor (Sync.sync_process raw)
  | p_smp cores raw : processor (Smp.process_smp_results cores raw)
  | p_mapping raw : processor (PageMapping.process_mapping_results raw)
  | p_ipc raw : processor (Ipc.process_ipc_results raw)
  | p_vcpu raw : processor (Vcpu.process_vcpu_results raw).

Lemma check_overheads_typed raw os overheads (w : world) :
  keeps (Ipc.check_overheads raw os overheads) (λ _ _, True) w.
Proof.
  revert overheads w. induction os as [|o os IH]; intros overheads w; cbn [Ipc.check_overheads]; keep. apply IH.
Qed.

Lemma processor_keeps m (w : world) : processor m → keeps m (λ _ _, True) w.
Proof.
  intros [raw|raw|raw|raw|raw|raw|cores raw|raw|raw|raw].
  - unfold Hardware.hardware_process. keep.
  - unfold Fault.fault_process, Fault.early. keep.
  - unfold Irq.irquser_process. keep.
  - unfold Signal.signal_process. keep.
  - unfold Scheduler.scheduler_process, Scheduler.process_scheduler_results, Scheduler.process_yield_results,
      Scheduler.thread_early, Scheduler.process_early, Fault.early. keep.
  - unfold Sync.sync_process, Sync.report_each. keep.
  - unfold Smp.process_smp_results. keep.
  - unfold PageMapping.process_mapping_results. keep.
  - unfold Ipc.process_ipc_results. eapply keeps_bind; [apply check_overheads_typed|]. intros ? ? _ _ _. keep.
  - unfold Vcpu.process_vcpu_results. keep.
Qed.

End typed.
