(* ===== verification/ReportProofs.v ===== *)
(** * ReportProofs: what the reports contain

    A small calculus over the [world] of Reports (the arrays that are live, the
    variables in scope, the document being built), and the reports of five
    benchmarks: fault, scheduler, smp, ipc and sync. *)

From S2P Require Import Prelude Platform Memory Floats Collect Stats Summary Processing Json IpcParams AppParams Reports.

(** ** The calculus *)
Section calculus.
Context `{Platform} `{Jansson}.

(** [ts] are the sets the array [a] has so far. *)
Definition doc (a : positive) (w : world) (ts : list json) : Prop :=
  ∃ F, open_arr (jnodes (w_json w)) a F ts.

(** The arrays of [m] are live in [w]. *)
Definition live (w : world) (m : gmap positive (list Z)) : Prop := m ⊆ blocks (w_heap w).

(** Nothing but the document changes. *)
Definition same_mem (w w' : world) : Prop := w_heap w' = w_heap w ∧ w_frame w' = w_frame w.

Lemma live_holds w m b l : live w m → m !! b = Some l → holds (w_heap w) b l.
Proof. intros Hm Hb. by eapply lookup_weaken. Qed.

Lemma wp_new_array (Q : option positive → world → Prop) w :
  (∀ a w', doc a w' [] → same_mem w w' → Q (Some a) w') → wp new_array Q w.
Proof.
  intros HQ. unfold wp, new_array, in_json.
  destruct (new_open_arr (w_json w)) as (a & j' & Hrun & _ & _ & Hopen).
  rewrite Hrun. apply HQ; [by exists ∅|done].
Qed.

Lemma wp_set_var var rs (Q : unit → world → Prop) w :
  Q tt (World _ (w_heap w) (<[var := rs]> (w_frame w)) (w_json w)) → wp (set_var var rs) Q w.
Proof. done. Qed.

(** A value built beside the document, then appended. *)
Lemma append_value_doc a w ts value t :
  doc a w ts →
  (∀ j, ∃ v j' F, value (w_frame w) (w_heap w) j = Ok (v, j') ∧
     keeps ∅ (jnodes j) (jnodes j') ∧ F ## dom (jnodes j) ∧ F ⊆ dom (jnodes j') ∧
     tree (jnodes j') F v t) →
  wp (append_value (Some a) value) (λ _ w', doc a w' (ts ++ [t]) ∧ same_mem w w') w.
Proof.
  intros [F Hopen] Hvalue. destruct (Hvalue (w_json w)) as (v & j1 & G & Hrun & HK & HG & HGd & Ht).
  destruct (open_arr_dom _ _ _ _ Hopen) as (Ha & _).
  destruct (jappend_open j1 a F ts v t G) as (j2 & Happ & _ & Hopen2).
  - eapply open_arr_keeps; [done|done|set_solver|set_solver].
  - done.
  - set_solver.
  - done.
  - unfold wp, append_value, in_json, mbind, M_bind. rewrite Hrun, Happ.
    split; [by eexists|done].
Qed.

Lemma append_set_doc a w ts set rowf :
  doc a w ts → rows_ok (w_frame w) (w_heap w) set rowf →
  wp (append_set (Some a) set)
    (λ _ w', doc a w' (ts ++ [spec_set (set_name set) (rowf <$> seqZ 0 (n_results set))]) ∧
             same_mem w w') w.
Proof. intros Hdoc Hrows. apply append_value_doc; [done|]. intros j. by apply result_set_to_json_spec. Qed.

(** The heap left by a call that corrects one array. *)
Lemma live_set_block w m b l l' fr j :
  live w m → m !! b = Some l →
  live (World _ (set_block b l' (w_heap w)) fr j) (<[b := l']> m).
Proof. intros Hm _. unfold live. simpl. by apply insert_mono. Qed.

(** The set of one row that most reports are made of. *)
Definition single (name : string) (r : result_t) (raw : list Z) : json :=
  spec_set name [Obj (set_all [] (spec_result r raw))].

Lemma single_rows_ok w set var r raw :
  w_frame w !! var = Some [r] → raw_ok (w_heap w) r raw →
  extra_cols set = None → n_extra_cols set = 0 → set_results set = addr var → n_results set = 1 →
  rows_ok (w_frame w) (w_heap w) set (λ _, Obj (set_all [] (spec_result r raw))).
Proof.
  intros Hvar Hraw Hc Hnc Hr Hn. unfold rows_ok, columns_ok, columns. rewrite Hc, Hn.
  split; [done|]. split; [lia|]. intros i Hi. assert (i = 0) as -> by lia.
  exists r, raw. unfold result_at. rewrite Hr. simpl. by rewrite Hvar.
Qed.

(** What [process_result] computes for the samples of one array. *)
Definition summary (desc : result_desc_t) (l : list Z) (b : positive) (k n : Z) (r : result_t) : Prop :=
  array_ok l k n (desc_ignored desc) ∧
  rejected desc (kept l k n (desc_ignored desc)) = false ∧
  calculate_results (subtract (desc_overhead desc) <$> kept l k n (desc_ignored desc))
    (Ptr b (k + desc_ignored desc)) = Ok r.

(** The samples as they are reported. *)
Definition corrected (desc : result_desc_t) (l : list Z) (k n : Z) : list Z :=
  subtract (desc_overhead desc) <$> kept l k n (desc_ignored desc).

Definition after (desc : result_desc_t) (l : list Z) (k n : Z) : list Z :=
  map_slice (subtract (desc_overhead desc)) (Z.to_nat (k + desc_ignored desc))
    (Z.to_nat (n - desc_ignored desc)) l.

Lemma calculate_results_raw l p r :
  calculate_results l p = Ok r → raw_data r = Some p ∧ samples r = size_of l.
Proof.
  unfold calculate_results, mbind, outcome_bind. intros Hr.
  repeat match type of Hr with
  | context [match ?x with Ok _ => _ | Fatal => _ | Undef => _ end] => destruct x; try discriminate
  end.
  by injection Hr as <-.
Qed.

Lemma summary_raw_ok desc l b k n r h :
  summary desc l b k n r → holds h b (after desc l k n) → raw_ok h r (corrected desc l k n).
Proof.
  intros ((Hk & Hi & Hn & Hl) & _ & Hr) Hh.
  destruct (calculate_results_raw _ _ _ Hr) as [Hraw Hs]. unfold raw_ok. rewrite Hraw, Hs.
  unfold size_of. rewrite length_fmap.
  pose proof (kept_length l k n (desc_ignored desc)) as Hlen. unfold size_of in Hlen.
  rewrite Hlen by done. unfold after in Hh.
  erewrite view_holds; [|exact Hh|lia|lia|rewrite length_map_slice; lia].
  unfold corrected, kept. by rewrite slice_map_slice by lia.
Qed.

Lemma wp_process_result {A} (K : result_t → M world A) w m b l k n desc r Q :
  live w m → m !! b = Some l → summary desc l b k n r →
  (∀ w', live w' (<[b := after desc l k n]> m) → w_frame w' = w_frame w → w_json w' = w_json w →
     avail (w_heap w') = avail (w_heap w) → wp (K r) Q w') →
  wp (in_heap (process_result n (Ptr b k) desc) ≫= K) Q w.
Proof.
  intros Hm Hb (Hok & Hrej & Hr) HK. apply wp_bind. unfold wp at 1, in_heap.
  rewrite (process_result_spec _ b l) by (done || by eapply live_holds).
  cbv zeta. rewrite Hrej, Hr. simpl. apply HK; [|done..]. by eapply live_set_block.
Qed.

(** The sets of the form [single]. *)
Definition simple (set : result_set_t) : Prop :=
  extra_cols set = None ∧ n_extra_cols set = 0 ∧ set_results set = addr "result" ∧ n_results set = 1.

Lemma wp_append_single {A} (K : M world A) w a ts set r raw Q :
  doc a w ts → simple set → raw_ok (w_heap w) r raw →
  (∀ w', doc a w' (ts ++ [single (set_name set) r raw]) → w_heap w' = w_heap w →
     wp K Q w') →
  wp (set_var "result" [r];; append_set (Some a) set;; K) Q w.
Proof.
  intros Hdoc (Hc & Hnc & Hr & Hn) Hraw HK. apply wp_bind, wp_set_var, wp_bind.
  set (w1 := World _ _ _ _). eapply wp_mono, append_set_doc; [|exact Hdoc|].
  2:{ eapply single_rows_ok; [apply lookup_insert_eq|exact Hraw|done..]. }
  intros [] w' [Hdoc' [Hheap Hframe]]. rewrite Hn in Hdoc'. by apply HK.
Qed.

(** A result computed from an array and appended as a set of one row. *)
Lemma wp_report {A} (K : result_t → M world A) w m b l k n desc r a ts set Q :
  live w m → m !! b = Some l → summary desc l b k n r → doc a w ts → simple set →
  (∀ w', live w' (<[b := after desc l k n]> m) →
     doc a w' (ts ++ [single (set_name set) r (corrected desc l k n)]) →
     avail (w_heap w') = avail (w_heap w) → wp (K r) Q w') →
  wp (result ← in_heap (process_result n (Ptr b k) desc);
      set_var "result" [result];; append_set (Some a) set;; K result) Q w.
Proof.
  intros Hm Hb Hsum Hdoc Hset HK. eapply wp_process_result; [done..|].
  intros w1 Hm1 Hf Hj Hav.
  apply (wp_append_single (K r) w1 a ts set r (corrected desc l k n)).
  - unfold doc. by rewrite Hj.
  - done.
  - eapply summary_raw_ok; [done|]. eapply live_holds; [done|apply lookup_insert_eq].
  - intros w' Hdoc' Hh. apply HK; [|done|by rewrite Hh]. unfold live. by rewrite Hh.
Qed.

(** The same for the sums of an early-processing loop. *)
Lemma wp_report_early {A} (K : result_t → M world A) w m num sum sum2 r a ts set Q :
  live w m → process_result_early_proc num sum sum2 = Ok r → doc a w ts → simple set →
  (∀ w', live w' m → doc a w' (ts ++ [single (set_name set) r []]) →
     avail (w_heap w') = avail (w_heap w) → wp (K r) Q w') →
  wp (result ← lift (process_result_early_proc num sum sum2);
      set_var "result" [result];; append_set (Some a) set;; K result) Q w.
Proof.
  intros Hm Hr Hdoc Hset HK. apply wp_bind, wp_lift. exists r. split; [done|].
  apply (wp_append_single (K r) w a ts set r []); [done|done| |].
  - unfold raw_ok. by rewrite (early_raw _ _ _ _ Hr).
  - intros w' Hdoc' Hh. apply HK; [|done|by rewrite Hh]. unfold live. by rewrite Hh.
Qed.
End calculus.


(** The result of an array, as a function. *)
Definition result_of `{Platform} (desc : result_desc_t) (l : list Z) (b : positive) (k n : Z) : result_t :=
  match calculate_results (corrected desc l k n) (Ptr b (k + desc_ignored desc)) with
  | Ok r => r
  | _ => result_zero
  end.

Lemma summary_result_of `{Platform} desc l b k n :
  array_ok l k n (desc_ignored desc) →
  rejected desc (kept l k n (desc_ignored desc)) = false →
  is_ok (calculate_results (corrected desc l k n) (Ptr b (k + desc_ignored desc))) = true →
  summary desc l b k n (result_of desc l b k n).
Proof.
  intros Hok Hrej Hr. split; [done|]. split; [done|]. unfold result_of. fold (corrected desc l k n).
  by destruct (calculate_results _ _).
Qed.

Ltac lookups := repeat (rewrite lookup_insert_ne by congruence); first [done | apply lookup_insert_eq].

(** The inequalities behind a [NoDup] of variables. *)
Ltac distinct H :=
  rewrite ?list.NoDup_cons, ?list.not_elem_of_cons in H; destruct_and?.

(** A document is started after the first result. *)
Lemma wp_new_single `{Platform} `{Jansson} {A} (K : option positive → M world A) w m r raw set Q :
  live w m → simple set → raw_ok (w_heap w) r raw →
  (∀ a w', live w' m → doc a w' [single (set_name set) r raw] →
     avail (w_heap w') = avail (w_heap w) → wp (K (Some a)) Q w') →
  wp (set_var "result" [r];; array ← new_array; append_set array set;; K array) Q w.
Proof.
  intros Hm (Hc & Hnc & Hr & Hn) Hraw HK. apply wp_bind, wp_set_var, wp_bind.
  apply wp_new_array. intros a w1 Hdoc [Hheap Hframe]. apply wp_bind.
  assert (Hvar : w_frame w1 !! "result" = Some [r]).
  { rewrite Hframe. apply lookup_insert_eq. }
  assert (Hraw1 : raw_ok (w_heap w1) r raw) by by rewrite Hheap.
  eapply wp_mono, append_set_doc; [|exact Hdoc|by eapply single_rows_ok].
  intros [] w' [Hdoc' [Hheap' Hframe']]. rewrite Hn in Hdoc'.
  apply HK; [|exact Hdoc'|by rewrite Hheap', Hheap].
  unfold live. by rewrite Hheap', Hheap.
Qed.

(** ** The fault benchmark *)
Section fault.
Context `{Platform} `{Jansson}.
Import Fault.

(** C8.  [fault_process], the five arrays being separate and their samples
    within what the statistics are defined on, returns a document of eight
    sets in a fixed order: the reply-receive overhead is subtracted from the
    round trips and the faults, the overhead of reading the counter from the
    replies, and every sampled set is followed by its early-processing
    twin. *)
Theorem fault_process_correct m w bo bc br bf bp lo lc lr lf lp e1 e2 e3 ro rc rr rf rp r1 r2 r3 :
  live w m → NoDup [bo; bc; br; bf; bp] →
  m !! bo = Some lo → m !! bc = Some lc → m !! br = Some lr → m !! bf = Some lf → m !! bp = Some lp →
  let d stable overhead := Desc stable (Some "fault overhead") overhead N_IGNORED in
  summary (d true 0) lo bo 0 N_RUNS ro → summary (d true 0) lc bc 0 N_RUNS rc →
  summary (d false (result_min ro)) lr br 0 N_RUNS rr →
  summary (d false (result_min ro)) lf bf 0 N_RUNS rf →
  summary (d false (result_min rc)) lp bp 0 N_RUNS rp →
  early e1 = Ok r1 → early e2 = Ok r2 → early e3 = Ok r3 →
  wp (fault_process (FaultResults (Ptr bo 0) (Ptr bc 0) (Ptr br 0) (Ptr bf 0) (Ptr bp 0) e1 e2 e3))
    (λ a w', ∃ p, a = Some p ∧ doc p w'
      [single "fault overhead" ro (corrected (d true 0) lo 0 N_RUNS);
       single "fault round trip" rr (corrected (d false (result_min ro)) lr 0 N_RUNS);
       single "fault round trip (early processing)" r1 [];
       single "faulter -> fault handler" rf (corrected (d false (result_min ro)) lf 0 N_RUNS);
       single "faulter -> fault handler (early processing)" r2 [];
       single "read ccnt overhead" rc (corrected (d true 0) lc 0 N_RUNS);
       single "fault handler -> faulter" rp (corrected (d false (result_min rc)) lp 0 N_RUNS);
       single "fault handler -> faulter (early processing)" r3 []]) w.
Proof.
  intros Hm Hnd Ho Hc Hr Hf Hp d So Sc Sr Sf Sp E1 E2 E3.
  distinct Hnd.
  unfold fault_process, early in *.
  cbn [reply_recv_overhead ccnt_overhead round_trip fault fault_reply round_trip_ep fault_ep fault_reply_ep].
  eapply wp_process_result; [done|done|exact So|]. intros w1 L1 _ _ _.
  eapply wp_new_single; [done|done|by eapply summary_raw_ok, live_holds, lookup_insert_eq|].
  intros a w2 L2 D2 _.
  eapply wp_report; [done|lookups|exact Sr|done|done|]. intros w3 L3 D3 _.
  eapply wp_report_early; [done|exact E1|done|done|]. intros w4 L4 D4 _.
  eapply wp_report; [done|lookups|exact Sf|done|done|]. intros w5 L5 D5 _.
  eapply wp_report_early; [done|exact E2|done|done|]. intros w6 L6 D6 _.
  eapply wp_report; [done|lookups|exact Sc|done|done|]. intros w7 L7 D7 _.
  eapply wp_report; [done|lookups|exact Sp|done|done|]. intros w8 L8 D8 _.
  eapply wp_report_early; [done|exact E3|done|done|]. intros w9 L9 D9 _.
  apply wp_ret. exists a. split; [done|]. exact D9.
Qed.
End fault.

(** ** The scheduler benchmark *)
Section scheduler.
Context `{Platform} `{Jansson}.
Import Scheduler.

(** A row of a table with the priority of its thread. *)
Definition prio_row (i : Z) (r : result_t) (raw : list Z) : json :=
  Obj (set_all [] (("Prio", spec_int (gen_next_prio i)) :: spec_result r raw)).

Definition prio_set (name : string) (R : Z → result_t) (raw : Z → list Z) : json :=
  spec_set name ((λ i, prio_row i (R i) (raw i)) <$> seqZ 0 N_PRIOS).

Lemma N_PRIOS_nonneg : 0 <= seL4_MaxPrio → 0 <= N_PRIOS.
Proof.
  intros Hp. pose proof word_bits_pos. unfold N_PRIOS. apply Z.div_pos; lia.
Qed.

Lemma prio_rows_ok w set var R raw :
  0 <= seL4_MaxPrio →
  w_frame w !! var = Some (R <$> seqZ 0 N_PRIOS) →
  (∀ i, 0 <= i < N_PRIOS → raw_ok (w_heap w) (R i) (raw i)) →
  extra_cols set = Some [prio_column] → n_extra_cols set = 1 → set_results set = addr var →
  n_results set = N_PRIOS →
  rows_ok (w_frame w) (w_heap w) set (λ i, prio_row i (R i) (raw i)).
Proof.
  intros Hp Hvar Hraw Hc Hnc Hr Hn. unfold rows_ok, columns_ok, columns. rewrite Hc, Hn, Hr.
  split; [done|]. split; [by apply N_PRIOS_nonneg|]. intros i Hi. exists (R i), (raw i).
  assert (Hi' : ∀ {A} (f : Z → A), aget (f <$> seqZ 0 N_PRIOS) i = Some (f i)).
  { intros A f. rewrite aget_pos by lia. rewrite list_lookup_fmap, lookup_seqZ_lt by lia.
    simpl. do 2 f_equal. lia. }
  split; [unfold result_at, addr; cbn [rp_var rp_index]; by rewrite Hvar, Z.add_0_l, Hi'|].
  split; [by apply Hraw|]. unfold spec_row, spec_extra, prio_column.
  cbn -[aget seqZ set_all N_PRIOS gen_next_prio spec_int]. rewrite Hi'. done.
Qed.

Lemma wp_append_prio {A} (K : M world A) w a ts set var R raw Q :
  0 <= seL4_MaxPrio → doc a w ts →
  w_frame w !! var = Some (R <$> seqZ 0 N_PRIOS) →
  (∀ i, 0 <= i < N_PRIOS → raw_ok (w_heap w) (R i) (raw i)) →
  extra_cols set = Some [prio_column] → n_extra_cols set = 1 → set_results set = addr var →
  n_results set = N_PRIOS →
  (∀ w', doc a w' (ts ++ [prio_set (set_name set) R raw]) → same_mem w w' → wp K Q w') →
  wp (append_set (Some a) set;; K) Q w.
Proof.
  intros Hp Hdoc Hvar Hraw Hc Hnc Hr Hn HK. apply wp_bind.
  eapply wp_mono, append_set_doc; [|exact Hdoc|by eapply prio_rows_ok].
  intros [] w' [Hdoc' Hsame]. rewrite Hn in Hdoc'. by apply HK.
Qed.

(** [process_results] on a live table. *)
Definition table_summary (desc : result_desc_t) (l : list Z) (b : positive) (ncols nrows : Z)
    (R : Z → result_t) : Prop :=
  desc_stable desc = false ∧ 0 <= ncols ∧ ncols * nrows <= size_of l ∧
  0 <= desc_ignored desc <= nrows ∧ nrows < 2 ^ (int_bits - 1) ∧
  ∀ i, 0 <= i < ncols → calculate_results
    (subtract (desc_overhead desc) <$> Processing.row l nrows (desc_ignored desc) i)
    (Ptr b (i * nrows + desc_ignored desc)) = Ok (R i).

Lemma wp_process_table {A} (K : list result_t → M world A) w m b l ncols nrows desc R Q :
  live w m → m !! b = Some l → table_summary desc l b ncols nrows R →
  (∀ w' l', live w' (<[b := l']> m) → w_frame w' = w_frame w → w_json w' = w_json w →
     avail (w_heap w') = avail (w_heap w) →
     (∀ i, 0 <= i < ncols → raw_ok (w_heap w') (R i)
        (subtract (desc_overhead desc) <$> Processing.row l nrows (desc_ignored desc) i)) →
     wp (K (R <$> seqZ 0 ncols)) Q w') →
  wp (in_heap (Processing.process_results ncols nrows (Ptr b 0) desc) ≫= K) Q w.
Proof.
  intros Hm Hb (Hst & Hn & Hl & Hign & Hnr & HR) HK. apply wp_bind. unfold wp at 1, in_heap.
  assert (Hrej : ∀ s, rejected desc s = false) by (intros s; unfold rejected; by rewrite Hst).
  destruct (process_results_spec (w_heap w) b l ncols nrows desc R) as (l' & Hrun & Hl' & Hrows);
    [by eapply live_holds|done..|intros i Hi; cbv zeta; rewrite Hrej; by apply HR|].
  rewrite Hrun. apply (HK _ l'); [by eapply live_set_block|done..|].
  intros i Hi. destruct (calculate_results_raw _ _ _ (HR i Hi)) as [Hraw Hs].
  unfold raw_ok. rewrite Hraw, Hs. unfold size_of in *. rewrite length_fmap.
  assert (Hok : array_ok l (i * nrows) nrows (desc_ignored desc)) by (unfold array_ok; nia).
  pose proof (kept_length _ _ _ _ Hok) as Hlen. unfold size_of in Hlen.
  unfold Processing.row at 1. rewrite Hlen. simpl.
  erewrite view_holds; [|apply holds_set_block|lia|nia|nia].
  specialize (Hrows i Hi). unfold row_done in Hrows. rewrite Hrej in Hrows. by rewrite <-Hrows.
Qed.

(** The averages at the end of a report. *)
Definition averages_summary (l : list Z) (rows cols : Z) : Prop :=
  0 <= rows ∧ rows * cols <= size_of l ∧
  ∀ c p, 0 <= c < cols → ∃ r, calculate_results (column l rows cols c) p = Ok r.

Definition average_rows (name : string) (l : list Z) (rows : Z) (R : Z → result_t) : json :=
  spec_set name ((λ c, spec_event (event_at c) (R c) (column l rows NUM_AVERAGE_EVENTS c)) <$>
    seqZ 0 NUM_AVERAGE_EVENTS).

Lemma wp_report_averages w m b l rows a ts name Q :
  live w m → m !! b = Some l → averages_summary l rows NUM_AVERAGE_EVENTS →
  NUM_AVERAGE_EVENTS * rows <= avail (w_heap w) → doc a w ts →
  (∀ w' R, (∀ c, 0 <= c < NUM_AVERAGE_EVENTS →
      ∃ p, calculate_results (column l rows NUM_AVERAGE_EVENTS c) p = Ok (R c)) →
     doc a w' (ts ++ [average_rows name l rows R]) → Q tt w') →
  wp (average_results ← in_heap (process_average_results rows NUM_AVERAGE_EVENTS (Ptr b 0));
      append_average (Some a) name average_results) Q w.
Proof.
  intros Hm Hb (Hr & Hl & Hcalc) Hav Hdoc HQ.
  assert (Hn : 0 <= NUM_AVERAGE_EVENTS)
    by (unfold NUM_AVERAGE_EVENTS, SEL4BENCH_NUM_GENERIC_EVENTS; lia).
  destruct (process_average_results_spec (w_heap w) b l rows NUM_AVERAGE_EVENTS)
    as (rs & h' & Hrun & Hlen & _ & _ & Hcols); [by eapply live_holds|done..|].
  apply wp_bind. unfold wp at 1, in_heap. rewrite Hrun.
  set (R c := default result_zero (rs !! Z.to_nat c)).
  assert (HR : ∀ c, 0 <= c < NUM_AVERAGE_EVENTS →
    aget rs c = Some (R c) ∧ raw_ok h' (R c) (column l rows NUM_AVERAGE_EVENTS c)).
  { intros c Hc. destruct (Hcols c Hc) as (r & p & Hrc & _ & Hp & E).
    unfold R. rewrite Hrc. rewrite aget_pos by lia. split; [done|]. simpl.
    destruct (calculate_results_raw _ _ _ E) as [Hraw Hs]. unfold raw_ok. rewrite Hraw, Hs.
    assert (Hlen' : size_of (column l rows NUM_AVERAGE_EVENTS c) = rows).
    { unfold size_of, column. rewrite length_fmap, length_seqZ. lia. }
    erewrite view_holds; [|exact Hp|lia|lia|unfold size_of in *; lia].
    change (Z.to_nat 0) with 0%nat. rewrite drop_0, take_ge; [done|].
    unfold size_of in *. lia. }
  eapply wp_mono, append_value_doc.
  - intros [] w' [Hdoc' _]. eapply (HQ w' R); [|exact Hdoc'].
    intros c Hc. destruct (Hcols c Hc) as (r & p & Hrc & _ & _ & E).
    exists (Ptr p 0). unfold R. by rewrite Hrc.
  - exact Hdoc.
  - intros j. by apply average_counters_to_json_spec.
Qed.

Lemma wp_early_table {A} (K : list result_t → M world A) w n nums sums sum2s R Q :
  early_table n nums sums sum2s R → wp (K (R <$> seqZ 0 n)) Q w →
  wp (lift (process_results_early_proc n nums sums sum2s) ≫= K) Q w.
Proof.
  intros HR HK. apply wp_bind, wp_lift. eexists. split; [|exact HK].
  by apply process_results_early_proc_spec.
Qed.

Lemma early_raw_ok h n nums sums sum2s R i :
  early_table n nums sums sum2s R → 0 <= i < n → raw_ok h (R i) [].
Proof.
  intros HR Hi. destruct (HR i Hi) as (num & sum & sum2 & _ & _ & _ & E).
  unfold raw_ok. by rewrite (early_raw _ _ _ _ E).
Qed.

(** C9.  The six sets [process_scheduler_results] appends.  The fourth one,
    "Signal to process of higher prio", has the early-processing results of
    the threads: [set.results] still points to [per_prio_result_ep], so the
    table computed from the samples of the processes is in no set. *)
Theorem process_scheduler_results_correct m w a ts results bo bt bp ba lo lt lp la ro Rt Rp Et Ep :
  live w m → NoDup [bo; bt; bp; ba] → doc a w ts → 0 <= seL4_MaxPrio →
  m !! bo = Some lo → m !! bt = Some lt → m !! bp = Some lp → m !! ba = Some la →
  overhead_signal results = Ptr bo 0 → thread_results results = Ptr bt 0 →
  process_results results = Ptr bp 0 → set_prio_average results = Ptr ba 0 →
  let d stable overhead := Desc stable (Some "Signal overhead") overhead N_IGNORED in
  summary (d true 0) lo bo 0 N_RUNS ro →
  table_summary (d false (result_min ro)) lt bt N_PRIOS N_RUNS Rt →
  table_summary (d false (result_min ro)) lp bp N_PRIOS N_RUNS Rp →
  early_table N_PRIOS (thread_results_ep_num results) (thread_results_ep_sum results)
    (thread_results_ep_sum2 results) Et →
  early_table N_PRIOS (process_results_ep_num results) (process_results_ep_sum results)
    (process_results_ep_sum2 results) Ep →
  averages_summary la N_RUNS NUM_AVERAGE_EVENTS → NUM_AVERAGE_EVENTS * N_RUNS <= avail (w_heap w) →
  wp (process_scheduler_results results (Some a)) (λ _ w', ∃ RA,
      (∀ c, 0 <= c < NUM_AVERAGE_EVENTS →
        ∃ p, calculate_results (column la N_RUNS NUM_AVERAGE_EVENTS c) p = Ok (RA c)) ∧
      doc a w' (ts ++
        [single "Signal overhead" ro (corrected (d true 0) lo 0 N_RUNS);
         prio_set "Signal to thread of higher prio" Rt
           (λ i, subtract (result_min ro) <$> Processing.row lt N_RUNS N_IGNORED i);
         prio_set "Signal to thread of higher prio (early processing)" Et (λ _, []);
         prio_set "Signal to process of higher prio" Et (λ _, []);
         prio_set "Signal to process of higher prio (early processing)" Ep (λ _, []);
         average_rows "Average to reschedule current thread" la N_RUNS RA])) w.
Proof.
  intros Hm Hnd Hdoc Hp Ho Ht Hpr Ha Po Pt Pp Pa d So St Sp TE PE Sa Hav. distinct Hnd.
  unfold process_scheduler_results, thread_early, process_early. rewrite Po, Pt, Pp, Pa.
  eapply wp_report; [done|done|exact So|done|done|]. intros w1 L1 D1 A1.
  eapply wp_process_table; [done|lookups|exact St|]. intros w2 l2 L2 F2 J2 A2 R2.
  apply wp_bind, wp_set_var.
  eapply (wp_append_prio _ _ a); [done|unfold doc; simpl; rewrite J2; exact D1|apply lookup_insert_eq
    |exact R2|done..|]. intros w3 D3 [S3 _].
  eapply wp_early_table; [exact TE|]. apply wp_bind, wp_set_var.
  eapply (wp_append_prio _ _ a); [done|exact D3|apply lookup_insert_eq
    |intros i Hi; by eapply early_raw_ok|done..|]. intros w4 D4 [S4 F4].
  assert (L4 : live w4 (<[bt:=l2]> (<[bo:=after (d true 0) lo 0 N_RUNS]> m))).
  { unfold live in *. rewrite S4. simpl. rewrite S3. exact L2. }
  eapply wp_process_table; [exact L4|lookups|exact Sp|]. intros w5 l5 L5 F5 J5 A5 _.
  apply wp_bind, wp_set_var.
  eapply (wp_append_prio _ _ a _ _ "per_prio_result_ep" Et); [done|unfold doc; simpl; rewrite J5; exact D4| |
    intros i Hi; by eapply early_raw_ok|done..|].
  { etrans; [by apply lookup_insert_ne|]. rewrite F5, F4. apply lookup_insert_eq. }
  intros w6 D6 [S6 _]. eapply wp_early_table; [exact PE|]. apply wp_bind, wp_set_var.
  eapply (wp_append_prio _ _ a); [done|exact D6|apply lookup_insert_eq
    |intros i Hi; by eapply early_raw_ok|done..|]. intros w7 D7 [S7 _].
  eapply wp_report_averages with (b := ba); [| |exact Sa| |exact D7|].
  - unfold live in *. rewrite S7. simpl. rewrite S6. exact L5.
  - lookups.
  - rewrite S7. simpl. rewrite S6. simpl. rewrite A5, S4. simpl. rewrite S3. simpl.
    by rewrite A2, A1.
  - intros w8 RA HRA D8. exists RA. split; [done|]. rewrite <-!app_assoc in D8. exact D8.
Qed.
End scheduler.

(** ** Tables filled row by row *)
Section fill.
Context `{Platform} `{Jansson}.

(** Row [ρ s] of block [b] is processed with [desc s] into element [s] of
    [results]. *)
Context (b : positive) (l : list Z) (n nrows ign : Z) (desc : Z → result_desc_t) (ρ : Z → Z)
  (R : Z → result_t) (w0 : world).

Definition fill_row (s : Z) : list Z :=
  subtract (desc_overhead (desc s)) <$> Processing.row l nrows ign (ρ s).

Context (Hl : holds (w_heap w0) b l)
  (Hign : 0 <= ign <= nrows) (Hnr : nrows < 2 ^ (int_bits - 1))
  (Hρ : ∀ s, 0 <= s < n → 0 <= ρ s ∧ (ρ s + 1) * nrows <= size_of l)
  (Hinj : ∀ s t, 0 <= s < n → 0 <= t < n → ρ s = ρ t → s = t)
  (Hdesc : ∀ s, desc_stable (desc s) = false ∧ desc_ignored (desc s) = ign)
  (HR : ∀ s, 0 <= s < n → calculate_results (fill_row s) (Ptr b (ρ s * nrows + ign)) = Ok (R s)).

Definition fill_inv (s : Z) (w : world) : Prop :=
  w_frame w !! "results" = Some (R <$> seqZ 0 s) ∧ w_json w = w_json w0 ∧
  ∃ l', w_heap w = set_block b l' (w_heap w0) ∧ length l' = length l ∧
    ∀ t, 0 <= t < n → Processing.row l' nrows ign (ρ t) =
      if decide (t < s) then fill_row t else Processing.row l nrows ign (ρ t).

Lemma fill_start : fill_inv 0 (World _ (w_heap w0) (<["results" := []]> (w_frame w0)) (w_json w0)).
Proof using Hl.
  split; [apply lookup_insert_eq|]. split; [done|]. exists l. rewrite set_block_id by done.
  split; [done|]. split; [done|]. intros t Ht. by rewrite decide_False by lia.
Qed.

Lemma set_elem_append s rs w r :
  w_frame w !! "results" = Some rs → Z.of_nat (length rs) = s →
  set_elem "results" s r w = set_var "results" (rs ++ [r]) w.
Proof.
  intros Hrs Hlen. unfold set_elem. rewrite Hrs. simpl. rewrite Hlen.
  by rewrite Z.ltb_irrefl, Z.eqb_refl.
Qed.

Lemma fill_step s w p :
  0 <= s < n → p = Ptr b (ρ s * nrows) → fill_inv s w →
  wp (r ← in_heap (process_result nrows p (desc s)); set_elem "results" s r)
     (λ _, fill_inv (s + 1)) w.
Proof using Hign Hnr Hρ Hinj Hdesc HR.
  intros Hs -> (Hrs & Hj & l' & Hh & Hl' & Hrows). destruct (Hρ s Hs) as [Hρ0 Hρ1].
  destruct (Hdesc s) as [Hst Hi]. unfold size_of in Hρ1.
  assert (Hok : array_ok l' (ρ s * nrows) nrows (desc_ignored (desc s))).
  { unfold array_ok. rewrite Hl', Hi. nia. }
  apply wp_bind. unfold wp at 1, in_heap. rewrite Hh.
  rewrite (process_result_spec _ b l') by (done || apply holds_set_block). cbv zeta.
  assert (rejected (desc s) (kept l' (ρ s * nrows) nrows (desc_ignored (desc s))) = false) as ->
    by (unfold rejected; by rewrite Hst).
  rewrite Hi. fold (Processing.row l' nrows ign (ρ s)).
  pose proof (Hrows s Hs) as Hrow. rewrite decide_False in Hrow by lia. rewrite Hrow.
  fold (fill_row s). rewrite (HR s Hs). cbn [mbind outcome_bind].
  unfold wp. rewrite (set_elem_append s (R <$> seqZ 0 s)).
  2:{ done. }
  2:{ rewrite length_fmap, length_seqZ. lia. }
  split; [|split; [done|]].
  - simpl. etrans; [apply lookup_insert_eq|]. rewrite seqZ_snoc, fmap_app, Z.add_0_l by lia. done.
  - eexists. split; [unfold subtracted; apply set_block_twice|].
    rewrite length_map_slice. split; [done|]. intros t Ht.
    rewrite row_map_slice by (done || lia || (unfold size_of; rewrite Hl'; nia) || by apply Hρ).
    destruct (decide (ρ t = ρ s)) as [E|E].
    + apply Hinj in E as ->; [|done..]. rewrite decide_True by lia. by rewrite Hrow.
    + rewrite Hrows by done. assert (t ≠ s) by congruence.
      destruct (decide (t < s)); [rewrite decide_True by lia|rewrite decide_False by lia]; done.
Qed.

Lemma fill_done w : 0 <= n → fill_inv n w →
  w_frame w !! "results" = Some (R <$> seqZ 0 n) ∧ w_json w = w_json w0 ∧
  ∀ s, 0 <= s < n → raw_ok (w_heap w) (R s) (fill_row s).
Proof using Hign Hnr Hρ HR.
  intros Hn (Hrs & Hj & l' & Hh & Hl' & Hrows). split; [done|]. split; [done|].
  intros s Hs. destruct (calculate_results_raw _ _ _ (HR s Hs)) as [Hraw Hsz].
  destruct (Hρ s Hs) as [Hρ0 Hρ1]. unfold size_of in Hρ1.
  assert (Hlen : size_of (fill_row s) = nrows - ign).
  { unfold size_of, fill_row. rewrite length_fmap. apply kept_length. unfold array_ok. nia. }
  unfold raw_ok. rewrite Hraw, Hsz, Hlen, Hh.
  erewrite view_holds; [|apply holds_set_block|lia|nia|nia].
  specialize (Hrows s Hs). rewrite decide_True in Hrows by lia. by rewrite <-Hrows.
Qed.
End fill.

(** ** The smp benchmark *)
Section smp.
Context `{Platform} `{Jansson}.
Import SmpParams Smp.

Definition smp_cycles (i : Z) : Z := match i with 0 => 500 | 1 => 4000 | _ => 32000 end.

(** Row [s] of the report: delay [s / cores] on [s mod cores + 1] cores. *)
Definition smp_row (cores s : Z) (r : result_t) (raw : list Z) : json :=
  Obj (set_all [] (("Cycles", spec_int (smp_cycles (s `div` cores))) ::
                   ("Cores", spec_int (s `mod` cores + 1)) :: spec_result r raw)).

Lemma div_cores cores s : 0 < cores → 0 <= s < TESTS * cores →
  0 <= s `div` cores < TESTS ∧ 0 <= s `mod` cores < cores ∧ s = s `div` cores * cores + s `mod` cores.
Proof.
  intros Hc Hs. split; [split; [apply Z.div_pos; lia|apply Z.div_lt_upper_bound; lia]|].
  split; [apply Z.mod_pos_bound; lia|]. rewrite Z.mul_comm. by apply Z.div_mod; lia.
Qed.

Lemma cycle_col_spec cores : 0 < cores →
  cycle_col cores (TESTS * cores) = Ok ((λ s, smp_cycles (s `div` cores)) <$> seqZ 0 (TESTS * cores)).
Proof.
  intros Hc. unfold cycle_col. set (body := λ (_ : list Z) (_ : Z), _).
  rewrite (fold_outcome_ext body (λ col i, d ← Ok (smp_cycles (i `div` cores)); Ok (col ++ [d]))).
  - rewrite fold_outcome_fill with (g := λ s, smp_cycles (s `div` cores)); [done|].
    by apply list.Forall_forall.
  - apply list.Forall_forall. intros s Hs%elem_of_seqZ col. unfold body.
    destruct (div_cores cores s) as (Hd & _); [done|lia|].
    assert (s `div` cores = 0 ∨ s `div` cores = 1 ∨ s `div` cores = 2) as E
      by (change TESTS with 3 in Hd; lia).
    destruct E as [-> |[-> | ->]]; reflexivity.
Qed.
(** Where the samples of report row [s] are. *)
Definition smp_index (cores s : Z) : Z := s `div` cores * CONFIG_MAX_NUM_NODES + s `mod` cores.

Definition smp_desc (cores s : Z) : result_desc_t :=
  Desc false (params_name <$> aget smp_benchmark_params (s `div` cores)) 0 0.

Lemma slot_divmod cores i j : 0 <= j < cores →
  (i * cores + j) `div` cores = i ∧ (i * cores + j) `mod` cores = j.
Proof.
  intros Hj. split.
  - rewrite Z.add_comm, Z.div_add by lia. rewrite Z.div_small; lia.
  - rewrite Z.add_comm, Z.mod_add by lia. by apply Z.mod_small.
Qed.

Lemma wp_smp_fill cores b l R w0 (Q : unit → world → Prop) :
  0 < cores <= CONFIG_MAX_NUM_NODES →
  holds (w_heap w0) b l → TESTS * CONFIG_MAX_NUM_NODES * RUNS <= size_of l →
  (∀ s, 0 <= s < TESTS * cores → calculate_results
     (fill_row l RUNS 0 (smp_desc cores) (smp_index cores) s)
     (Ptr b (smp_index cores s * RUNS + 0)) = Ok (R s)) →
  (∀ w, w_frame w !! "results" = Some (R <$> seqZ 0 (TESTS * cores)) → w_json w = w_json w0 →
     (∀ s, 0 <= s < TESTS * cores → raw_ok (w_heap w) (R s)
        (fill_row l RUNS 0 (smp_desc cores) (smp_index cores) s)) → Q tt w) →
  wp (for_each (seqZ 0 TESTS) (λ i,
    for_each (seqZ 0 cores) (λ j,
      p ← lift (defined (aget smp_benchmark_params i));
      r ← in_heap (process_result RUNS (benchmarks_result (Ptr b 0) i j)
            (Desc false (Some (params_name p)) 0 0));
      set_elem "results" (i * cores + j) r))) Q
    (World _ (w_heap w0) (<["results" := []]> (w_frame w0)) (w_json w0)).
Proof.
  intros Hc Hl Hsz HR HQ.
  assert (Hρ : ∀ s, 0 <= s < TESTS * cores →
    0 <= smp_index cores s ∧ (smp_index cores s + 1) * RUNS <= size_of l).
  { intros s Hs. destruct (div_cores cores s) as (Hd & Hm & _); [lia|done|].
    unfold smp_index. change RUNS with 10 in *. nia. }
  assert (Hinj : ∀ s t, 0 <= s < TESTS * cores → 0 <= t < TESTS * cores →
    smp_index cores s = smp_index cores t → s = t).
  { intros s t Hs Ht. destruct (div_cores cores s) as (Hd & Hm & Es); [lia|done|].
    destruct (div_cores cores t) as (Hd' & Hm' & Et); [lia|done|]. unfold smp_index. intros E.
    assert (s `div` cores = t `div` cores) as Ed.
    { destruct (Z.lt_trichotomy (s `div` cores) (t `div` cores)) as [|[|]]; [nia|done|nia]. }
    rewrite Ed in *. lia. }
  set (I := fill_inv b l (TESTS * cores) RUNS 0 (smp_desc cores) (smp_index cores) R w0).
  apply (wp_for_range (λ i w, I (i * cores) w)); [done|by apply fill_start| |].
  - intros i w Hi HI. apply (wp_for_range (λ j w, I (i * cores + j) w)); [lia|by rewrite Z.add_0_r| |].
    + intros j w' Hj HI'. destruct (aget_Some smp_benchmark_params i) as (p & Hp & _); [done|].
      apply wp_bind, wp_lift. exists p. rewrite Hp. split; [done|].
      destruct (slot_divmod cores i j Hj) as [Ed Em].
      assert (Edesc : Desc false (Some (params_name p)) 0 0 = smp_desc cores (i * cores + j))
        by (unfold smp_desc; by rewrite Ed, Hp).
      rewrite Edesc. replace (i * cores + (j + 1)) with (i * cores + j + 1) by lia.
      eapply fill_step; try done.
      * nia.
      * unfold smp_index. by rewrite Ed, Em.
    + intros w'. by replace ((i + 1) * cores) with (i * cores + cores) by lia.
  - intros w HI. apply fill_done in HI as (E1 & E2 & E3); [by apply HQ|done..|change TESTS with 3; lia].
Qed.

(** C10.  [process_smp_results] reports the [3 * cores] rows delay by delay:
    row [i * cores + j] has the cycles of delay [i], [j + 1] cores, and the
    statistics of the samples at [benchmarks_result[i][j]], whatever the width
    of the second dimension of the array. *)
Theorem process_smp_results_correct cores m w b l R :
  live w m → m !! b = Some l → 0 < cores <= CONFIG_MAX_NUM_NODES →
  TESTS * CONFIG_MAX_NUM_NODES * RUNS <= size_of l →
  (∀ s, 0 <= s < TESTS * cores → calculate_results
     (fill_row l RUNS 0 (smp_desc cores) (smp_index cores) s)
     (Ptr b (smp_index cores s * RUNS + 0)) = Ok (R s)) →
  wp (process_smp_results cores (Ptr b 0)) (λ a w', ∃ p, a = Some p ∧
    doc p w' [spec_set "SMP Benchmark"
      ((λ s, smp_row cores s (R s) (fill_row l RUNS 0 (smp_desc cores) (smp_index cores) s)) <$>
        seqZ 0 (TESTS * cores))]) w.
Proof.
  intros Hm Hb Hc Hsz HR. unfold process_smp_results.
  apply wp_bind, wp_lift. exists tt. split.
  { destruct (Z.ltb_spec 0 (TESTS * cores)); [done|]. change TESTS with 3 in *. lia. }
  rewrite cycle_col_spec by lia. apply wp_bind, wp_lift. eexists. split; [done|].
  apply wp_bind, wp_set_var, wp_bind.
  eapply wp_smp_fill; [exact Hc|by eapply live_holds|exact Hsz|exact HR|].
  intros w1 F1 J1 R1. apply wp_bind, wp_new_array. intros a w2 D2 [S2 F2]. apply wp_bind.
  assert (Hat : ∀ {A} (f : Z → A) s, 0 <= s < TESTS * cores →
    aget (f <$> seqZ 0 (TESTS * cores)) s = Some (f s)).
  { intros A f s Hs. rewrite aget_pos by lia. rewrite list_lookup_fmap, lookup_seqZ_lt by lia.
    simpl. do 2 f_equal. lia. }
  eapply wp_mono, append_set_doc; [|exact D2|].
  { intros [] w' [Hdoc _]. apply wp_ret. exists a. split; [done|]. exact Hdoc. }
  split; [done|]. split; [simpl; change TESTS with 3; lia|]. intros s Hs. cbn [n_results] in Hs.
  exists (R s), (fill_row l RUNS 0 (smp_desc cores) (smp_index cores) s).
  unfold result_at, addr, raw_ok. cbn [set_results rp_var rp_index]. rewrite F2, S2, F1, Z.add_0_l.
  split; [by rewrite Hat|]. split; [by apply R1|].
  unfold spec_row, spec_extra, columns, cores_col.
  cbn -[aget seqZ set_all spec_int TESTS]. rewrite !Hat by done. done.
Qed.
End smp.

(** ** The ipc benchmark *)
Section ipc.
Context `{Platform} `{Jansson}.
Import IpcParams Ipc.

(** The runs whose stability is checked, and the runs the overhead is the
    minimum of. *)
Definition checked_runs (l : list Z) (o : overheads) : list Z :=
  kept l (overhead_index o * RUNS + 1) (RUNS - 1) 0.
Definition used_runs (l : list Z) (o : overheads) : list Z :=
  kept l (overhead_index o * RUNS) (RUNS - 1) 0.

Definition overheads_accepted (l : list Z) (os : list overheads) : bool :=
  CONFIG_ALLOW_UNSTABLE_OVERHEAD || forallb (λ o, all_equal (checked_runs l o)) os.

Lemma overhead_index_bound o : 0 <= overhead_index o < NUM_OVERHEAD_BENCHMARKS.
Proof. change NUM_OVERHEAD_BENCHMARKS with 6. destruct o; simpl; lia. Qed.

Lemma aget_overheads {A} (f : overheads → A) o :
  aget (f <$> all_overheads) (overhead_index o) = Some (f o).
Proof. by destruct o. Qed.

Lemma map_slice_id f k n l :
  Forall (λ x, f x = x) l → map_slice f k n l = l.
Proof.
  intros Hall. unfold map_slice. apply list_eq. intros i. fold (map_slice f k n l).
  rewrite lookup_map_slice. case_decide; [|done]. destruct (l !! i) as [x|] eqn:E; [|done].
  simpl. f_equal. rewrite list.Forall_forall in Hall. apply Hall. by eapply list_elem_of_lookup_2.
Qed.

(** Subtracting an overhead of zero changes nothing. *)
Lemma subtract_zero l : Forall (in_word ccnt_bits) l → Forall (λ x, subtract 0 x = x) l.
Proof.
  rewrite !list.Forall_forall. intros Hall x Hx. unfold subtract. rewrite Z.sub_0_r.
  by apply wrap_small, Hall.
Qed.

Lemma fmap_id_on (f : Z → Z) l : Forall (λ x, f x = x) l → f <$> l = l.
Proof. induction 1 as [|x l Hx _ IH]; [done|]. by rewrite fmap_cons, Hx, IH. Qed.

Lemma check_overheads_spec bo bb lo RO os acc w :
  holds (w_heap w) bo lo → NUM_OVERHEAD_BENCHMARKS * RUNS <= size_of lo →
  Forall (in_word ccnt_bits) lo →
  (∀ o, calculate_results (used_runs lo o) (Ptr bo (overhead_index o * RUNS + 0)) = Ok (RO o)) →
  check_overheads (IpcResults (Ptr bo 0) bb) os acc w =
    Ok (if overheads_accepted lo os then Some (acc ++ (result_min ∘ RO <$> os)) else None, w).
Proof.
  intros Hh Hsz Hw HRO. unfold overheads_accepted. revert acc.
  induction os as [|o os IH]; intros acc; simpl check_overheads.
  { rewrite orb_true_r. simpl. by rewrite app_nil_r. }
  pose proof (overhead_index_bound o) as Ho. unfold size_of in Hsz.
  change NUM_OVERHEAD_BENCHMARKS with 6 in *. change RUNS with 16 in *.
  assert (Hok : array_ok lo (overhead_index o * 16) 15 0).
  { unfold array_ok. change (2 ^ (int_bits - 1)) with 2147483648. lia. }
  assert (Hview : view (ptr_add (Ptr bo (overhead_index o * 16)) 1) 15 (w_heap w) =
    Ok (checked_runs lo o)).
  { unfold ptr_add, checked_runs, kept. simpl p_block. simpl p_off.
    rewrite (view_holds _ _ lo) by (done || lia). do 3 f_equal. change RUNS with 16. lia. }
  unfold mbind at 1, M_bind at 1, in_heap at 1, hview.
  change (ptr_add (Ptr bo 0) (overhead_index o * 16)) with (Ptr bo (overhead_index o * 16)).
  change (16 - 1) with 15. rewrite Hview. simpl lift at 1.
  unfold mbind at 1, M_bind at 1.
  assert (Hst : Stable.results_stable (checked_runs lo o) 15 = Ok (all_equal (checked_runs lo o))).
  { rewrite <-results_stable_all_equal. f_equal. unfold checked_runs. rewrite kept_length; [done|].
    unfold array_ok. change (2 ^ (int_bits - 1)) with 2147483648. change RUNS with 16. lia. }
  rewrite Hst. simpl lift at 1. simpl forallb.
  assert (Hheap : World _ (w_heap w) (w_frame w) (w_json w) = w) by by destruct w.
  rewrite Hheap.
  destruct (negb (all_equal (checked_runs lo o)) && negb CONFIG_ALLOW_UNSTABLE_OVERHEAD) eqn:Hrej.
  { destruct (all_equal _), CONFIG_ALLOW_UNSTABLE_OVERHEAD; done. }
  unfold mbind at 1, M_bind at 1, in_heap at 1.
  rewrite (process_result_spec _ bo lo) by done. cbv zeta. cbn [desc_ignored desc_overhead].
  change (rejected _ _) with false. cbn [andb negb].
  rewrite fmap_id_on.
  2:{ apply subtract_zero. unfold kept. by apply Forall_take, Forall_drop. }
  specialize (HRO o) as HROo. unfold used_runs in HROo. change RUNS with 16 in HROo.
  change (16 - 1) with 15 in HROo. rewrite HROo. simpl mbind.
  unfold subtracted. rewrite map_slice_id by by apply subtract_zero.
  rewrite set_block_id by done. rewrite Hheap, IH.
  replace (CONFIG_ALLOW_UNSTABLE_OVERHEAD || forallb _ os) with
    (CONFIG_ALLOW_UNSTABLE_OVERHEAD || all_equal (checked_runs lo o) &&
       forallb (λ o, all_equal (checked_runs lo o)) os).
  2:{ destruct (all_equal _), CONFIG_ALLOW_UNSTABLE_OVERHEAD; done. }
  rewrite <-app_assoc. done.
Qed.
(** A row of the report. *)
Definition ipc_row (p : benchmark_params_t) (r : result_t) (raw : list Z) : json :=
  Obj (set_all []
    (("Function", Str (params_name p)) :: ("Direction", Str (direction_name (direction p))) ::
     ("Client Prio", spec_int (client_prio p)) :: ("Server Prio", spec_int (server_prio p)) ::
     ("Same vspace?", Bool (same_vspace p)) :: ("IPC length", spec_int (params_length p)) ::
     spec_result r raw)).

Definition ipc_desc (RO : overheads → result_t) (i : Z) : result_desc_t :=
  Desc false (params_name <$> aget benchmark_params i)
    (from_option (λ p, result_min (RO (overhead_id p))) 0 (aget benchmark_params i)) 0.

Lemma wp_ipc_fill b l RO R w0 (Q : unit → world → Prop) :
  holds (w_heap w0) b l → NUM_BENCHMARKS * RUNS <= size_of l →
  (∀ i, 0 <= i < NUM_BENCHMARKS →
     calculate_results (fill_row l RUNS 0 (ipc_desc RO) id i) (Ptr b (i * RUNS + 0)) = Ok (R i)) →
  (∀ w, w_frame w !! "results" = Some (R <$> seqZ 0 NUM_BENCHMARKS) → w_json w = w_json w0 →
     (∀ s, 0 <= s < NUM_BENCHMARKS → raw_ok (w_heap w) (R s) (fill_row l RUNS 0 (ipc_desc RO) id s)) →
     Q tt w) →
  wp (for_each (seqZ 0 NUM_BENCHMARKS) (λ i,
        p ← lift (defined (aget benchmark_params i));
        overhead ← lift (defined (aget (result_min ∘ RO <$> all_overheads)
                                    (overhead_index (overhead_id p))));
        r ← in_heap (process_result RUNS (ptr_add (Ptr b 0) (i * RUNS))
              (Desc false (Some (params_name p)) overhead 0));
        set_elem "results" i r)) Q
    (World _ (w_heap w0) (<["results" := []]> (w_frame w0)) (w_json w0)).
Proof.
  intros Hl Hsz HR HQ.
  assert (Hρ : ∀ s, 0 <= s < NUM_BENCHMARKS → 0 <= id s ∧ (id s + 1) * RUNS <= size_of l)
    by (unfold id; change RUNS with 16 in *; change NUM_BENCHMARKS with 9 in *; lia).
  set (I := fill_inv b l NUM_BENCHMARKS RUNS 0 (ipc_desc RO) id R w0).
  apply (wp_for_range I); [done|by apply fill_start| |].
  - intros i w Hi HI. destruct (aget_Some benchmark_params i) as (p & Hp & _); [done|].
    apply wp_bind, wp_lift. exists p. rewrite Hp. split; [done|].
    apply wp_bind, wp_lift. rewrite aget_overheads. eexists. split; [done|].
    assert (E : Desc false (Some (params_name p)) ((result_min ∘ RO) (overhead_id p)) 0 = ipc_desc RO i)
      by (unfold ipc_desc; by rewrite Hp).
    rewrite E. by eapply fill_step.
  - intros w HI. apply fill_done in HI as (E1 & E2 & E3); [by apply HQ|done..].
Qed.

Lemma benchmark_column {A} (f : benchmark_params_t → A) i p :
  aget benchmark_params i = Some p → aget (f <$> benchmark_params) i = Some (f p).
Proof. unfold aget. destruct (0 <=? i); [|done]. intros E. by rewrite list_lookup_fmap, E. Qed.

(** C7.  [process_ipc_results] checks the last fifteen runs of every overhead.
    When one is not stable and the configuration does not tolerate it, the
    answer is [NULL] and neither the memory nor the document has changed;
    otherwise there is one row per entry of [benchmark_params], in order, its
    samples corrected by the least of the first fifteen runs of the overhead
    the entry names. *)
Theorem process_ipc_results_correct m w bo bb lo lb RO R :
  live w m → m !! bo = Some lo → m !! bb = Some lb →
  NUM_OVERHEAD_BENCHMARKS * RUNS <= size_of lo → Forall (in_word ccnt_bits) lo →
  NUM_BENCHMARKS * RUNS <= size_of lb →
  (∀ o, calculate_results (used_runs lo o) (Ptr bo (overhead_index o * RUNS + 0)) = Ok (RO o)) →
  (∀ i, 0 <= i < NUM_BENCHMARKS →
     calculate_results (fill_row lb RUNS 0 (ipc_desc RO) id i) (Ptr bb (i * RUNS + 0)) = Ok (R i)) →
  wp (process_ipc_results (IpcResults (Ptr bo 0) (Ptr bb 0))) (λ a w',
    if overheads_accepted lo all_overheads then
      ∃ d, a = Some d ∧ doc d w' [spec_set "One way IPC microbenchmarks"
        (imap (λ i p, ipc_row p (R (Z.of_nat i)) (fill_row lb RUNS 0 (ipc_desc RO) id (Z.of_nat i)))
           benchmark_params)]
    else a = None ∧ w' = w) w.
Proof.
  intros Hm Hbo Hbb Hso Hw Hsb HRO HR. unfold process_ipc_results.
  apply wp_bind. unfold wp at 1.
  rewrite (check_overheads_spec bo (Ptr bb 0) lo RO) by (done || by eapply live_holds).
  destruct (overheads_accepted lo all_overheads); [|by apply wp_ret].
  rewrite app_nil_l. apply wp_bind, wp_set_var, wp_bind.
  eapply wp_ipc_fill; [by eapply live_holds|done|exact HR|].
  intros w1 F1 J1 R1. apply wp_bind, wp_new_array. intros a w2 D2 [S2 F2]. apply wp_bind.
  set (rowf i := from_option (λ p, ipc_row p (R i) (fill_row lb RUNS 0 (ipc_desc RO) id i)) Null
                   (aget benchmark_params i)).
  eapply wp_mono, (append_set_doc _ _ _ _ rowf); [|exact D2|].
  { intros [] w' [Hdoc _]. apply wp_ret. exists a. split; [done|].
    simpl app in Hdoc. cbn [set_name n_results] in Hdoc.
    replace (imap _ benchmark_params) with (rowf <$> seqZ 0 NUM_BENCHMARKS); [done|].
    apply list_eq. intros k. rewrite list_lookup_imap.
    destruct (benchmark_params !! k) as [p|] eqn:E.
    - rewrite list_lookup_fmap, lookup_seqZ_lt by (apply lookup_lt_Some in E;
        unfold NUM_BENCHMARKS; lia). cbn [fmap option_fmap option_map]. rewrite Z.add_0_l. unfold rowf. rewrite aget_nat, E. done.
    - apply lookup_ge_None_2. apply lookup_ge_None_1 in E. rewrite length_fmap, length_seqZ.
      unfold NUM_BENCHMARKS. lia. }
  split; [done|]. split; [done|]. intros i Hi. cbn [n_results] in Hi.
  exists (R i), (fill_row lb RUNS 0 (ipc_desc RO) id i).
  unfold result_at, addr, raw_ok. cbn [set_results rp_var rp_index]. rewrite F2, S2, F1, Z.add_0_l.
  split.
  { rewrite aget_pos, list_lookup_fmap, lookup_seqZ_lt by lia. simpl. do 2 f_equal. lia. }
  split; [by apply R1|]. destruct (aget_Some benchmark_params i) as (p & Hp & _); [done|].
  unfold rowf. rewrite Hp. unfold spec_row, spec_extra, columns, ipc_cols.
  cbn -[aget benchmark_params set_all spec_int]. by rewrite !(benchmark_column _ _ _ Hp).
Qed.
End ipc.

(** ** The sync benchmark *)
Section sync.
Context `{Platform} `{Jansson}.
Import Sync.

(** The row of a waiter. *)
Definition waiter_row (i : Z) (r : result_t) (raw : list Z) : json :=
  Obj (set_all [] (("Waiter", spec_int i) :: spec_result r raw)).

Definition sync_desc : result_desc_t := Desc false (Some "sync benchmarks") 0 N_IGNORED.
Definition waiter_set (name : string) : result_set_t :=
  ResultSet name (Some [Column "Waiter" (integer_array (seqZ 0 N_WAITERS)) JSON_INTEGER]) 1
    (addr "wait_results") N_WAITERS.

Lemma waiter_rows_ok w name R raw :
  w_frame w !! "wait_results" = Some (R <$> seqZ 0 N_WAITERS) →
  (∀ i, 0 <= i < N_WAITERS → raw_ok (w_heap w) (R i) (raw i)) →
  rows_ok (w_frame w) (w_heap w) (waiter_set name) (λ i, waiter_row i (R i) (raw i)).
Proof.
  intros Hvar Hraw. split; [done|]. split; [done|]. cbn [n_results waiter_set]. intros i Hi.
  exists (R i), (raw i). unfold result_at. cbn [set_results waiter_set addr rp_var rp_index].
  rewrite Hvar, Z.add_0_l. split.
  { rewrite aget_pos, list_lookup_fmap, lookup_seqZ_lt by lia. simpl. do 2 f_equal. lia. }
  split; [by apply Hraw|]. unfold spec_row, spec_extra, columns.
  cbn -[aget seqZ set_all spec_int N_WAITERS]. rewrite aget_pos, lookup_seqZ_lt by lia.
  by rewrite Z.add_0_l, Z2Nat.id by lia.
Qed.

(** One of the loops of single rows, which go round once. *)
Lemma wp_report_each {A} (K : M world A) w m b l name set a ts r Q :
  live w m → m !! b = Some l → summary sync_desc l b 0 N_RUNS r → doc a w ts → simple set →
  (∀ w', live w' (<[b := after sync_desc l 0 N_RUNS]> m) →
     doc a w' (ts ++ [single name r (corrected sync_desc l 0 N_RUNS)]) → wp K Q w') →
  wp (report_each 1 [name] (Ptr b 0) sync_desc set (Some a);; K) Q w.
Proof.
  intros Hm Hb Hsum Hdoc (Hc & Hnc & Hr & Hn) HK. apply wp_bind. unfold report_each.
  change (seqZ 0 1) with [0]. cbn [for_each]. change (ptr_add (Ptr b 0) (0 * N_RUNS)) with (Ptr b 0).
  apply wp_bind. eapply wp_process_result; [exact Hm|exact Hb|exact Hsum|]. intros w1 L1 F1 J1 A1.
  apply wp_bind, wp_set_var, wp_bind, wp_lift. exists name. split; [done|].
  set (w2 := World _ _ _ _).
  assert (Hraw : raw_ok (w_heap w2) r (corrected sync_desc l 0 N_RUNS)).
  { eapply summary_raw_ok; [exact Hsum|]. eapply live_holds; [exact L1|apply lookup_insert_eq]. }
  eapply wp_mono, (append_set_doc a w2 ts (with_name name set)
    (λ _, Obj (set_all [] (spec_result r (corrected sync_desc l 0 N_RUNS))))).
  - intros [] w' [Hdoc' [Hheap _]]. apply wp_ret. cbn [n_results set_name with_name] in Hdoc'.
    rewrite Hn in Hdoc'. apply HK; [unfold live; by rewrite Hheap|exact Hdoc'].
  - unfold doc. simpl. by rewrite J1.
  - eapply single_rows_ok; [apply lookup_insert_eq|exact Hraw|done..].
Qed.

(** C38.  [sync_process] returns a document of six sets in a fixed order, the
    four arrays being separate and their samples within what the statistics
    are defined on: the times of the waiters, one row for each with its
    number, from the table of 25 rows; the times of the broadcasts, of the
    hand-overs to the consumer and of those to the producer, each without the
    ignored runs; and the two sets of the early processing, each from its own
    sums. *)
Theorem sync_process_correct m w bw bb bp bc lw lb lp lc s1 q1 n1 s2 q2 n2 Rw rb rp rc r1 r2 :
  live w m → NoDup [bw; bb; bp; bc] →
  m !! bw = Some lw → m !! bb = Some lb → m !! bp = Some lp → m !! bc = Some lc →
  table_summary sync_desc lw bw N_WAITERS N_RUNS Rw →
  summary sync_desc lb bb 0 N_RUNS rb → summary sync_desc lp bp 0 N_RUNS rp →
  summary sync_desc lc bc 0 N_RUNS rc →
  process_result_early_proc n1 s1 q1 = Ok r1 → process_result_early_proc n2 s2 q2 = Ok r2 →
  wp (sync_process (SyncResults (Ptr bw 0) (Ptr bb 0) (Ptr bp 0) (Ptr bc 0) s1 q1 n1 s2 q2 n2))
    (λ a w', ∃ p, a = Some p ∧ doc p w'
      [spec_set "Wait time"
         ((λ i, waiter_row i (Rw i) (subtract 0 <$> Processing.row lw N_RUNS N_IGNORED i)) <$>
           seqZ 0 N_WAITERS);
       single "Broadcast time" rb (corrected sync_desc lb 0 N_RUNS);
       single "Producer to consumer" rp (corrected sync_desc lp 0 N_RUNS);
       single "Consumer to producer" rc (corrected sync_desc lc 0 N_RUNS);
       single "Producer to consumer (early processing)" r1 [];
       single "Consumer to producer (early processing)" r2 []]) w.
Proof.
  intros Hm Hnd Hw Hb Hp Hc Sw Sb Sp Sc E1 E2. distinct Hnd. unfold sync_process.
  fold sync_desc. cbn [broadcast_wait_time broadcast_broadcast_time producer_to_consumer
    consumer_to_producer producer_to_consumer_ep_sum producer_to_consumer_ep_sum2
    producer_to_consumer_ep_num consumer_to_producer_ep_sum consumer_to_producer_ep_sum2
    consumer_to_producer_ep_num].
  apply wp_bind, wp_new_array. intros a w0 D0 [S0 _].
  assert (L0 : live w0 m) by (unfold live; by rewrite S0).
  apply wp_bind. change (seqZ 0 N_BROADCAST_BENCHMARKS) with [0]. cbn [for_each].
  change (ptr_add (Ptr bw 0) (0 * (N_WAITERS * N_RUNS))) with (Ptr bw 0).
  apply wp_bind. eapply wp_process_table; [exact L0|exact Hw|exact Sw|]. intros w1 l1 L1 F1 J1 A1 R1.
  apply wp_bind, wp_set_var, wp_bind, wp_lift. exists "Wait time"%string. split; [done|].
  set (w2 := World _ _ _ _).
  eapply wp_mono, (append_set_doc a w2 [] (waiter_set "Wait time")).
  2:{ unfold doc. simpl. rewrite J1. exact D0. }
  2:{ apply waiter_rows_ok; [apply lookup_insert_eq|exact R1]. }
  intros [] w3 [D3 [S3 _]]. apply wp_ret.
  assert (L3 : live w3 (<[bw := l1]> m)) by (unfold live; by rewrite S3).
  eapply (wp_report_each _ w3); [exact L3|lookups|exact Sb|exact D3|done|]. intros w4 L4 D4.
  eapply (wp_report_each _ w4); [exact L4|lookups|exact Sp|exact D4|done|]. intros w5 L5 D5.
  eapply (wp_report_each _ w5); [exact L5|lookups|exact Sc|exact D5|done|]. intros w6 L6 D6.
  eapply wp_report_early; [exact L6|exact E1|exact D6|done|]. intros w7 L7 D7 _.
  eapply wp_report_early; [exact L7|exact E2|exact D7|done|]. intros w8 L8 D8 _.
  apply wp_ret. exists a. split; [done|]. exact D8.
Qed.
End sync.

(** ** Witnesses *)

(** Five arrays of equal samples. *)
Definition example_arrays : gmap positive (list Z) :=
  {[ 1%positive := replicate 110 20; 2%positive := replicate 110 5; 3%positive := replicate 110 120;
     4%positive := replicate 110 70; 5%positive := replicate 110 30 ]}.
Definition example_world : world (H := store_jansson) :=
  @World store_jansson (Heap example_arrays 1000) ∅ (∅ : gmap positive jnode).
Definition example_sums : Fault.ep_sums := Fault.EpSums 1000 10000 100 20.
Definition fault_desc (stable : bool) (overhead : Z) : result_desc_t :=
  Desc stable (Some "fault overhead") overhead Fault.N_IGNORED.

Lemma example_summary `{Platform} desc l b :
  is_ok (calculate_results (corrected desc l 0 110) (Ptr b (0 + desc_ignored desc))) = true →
  length l = 110%nat → desc_ignored desc = 10 → rejected desc (kept l 0 110 10) = false →
  summary desc l b 0 110 (result_of desc l b 0 110).
Proof.
  intros Hok Hl Hi Hrej. apply summary_result_of; [|by rewrite Hi|done].
  unfold array_ok. rewrite Hl, Hi. change (2 ^ (int_bits - 1)) with 2147483648. lia.
Qed.

Lemma fault_process_correct_witness :
  let ro := result_of (H := x86_64) (fault_desc true 0) (replicate 110 20) 1 0 110 in
  let rc := result_of (H := x86_64) (fault_desc true 0) (replicate 110 5) 2 0 110 in
  let r o b l := result_of (H := x86_64) (fault_desc false o) l b 0 110 in
  wp (Fault.fault_process (H := x86_64)
        (Fault.FaultResults (Ptr 1 0) (Ptr 2 0) (Ptr 3 0) (Ptr 4 0) (Ptr 5 0)
           example_sums example_sums example_sums))
    (λ a w', ∃ p ts, a = Some p ∧ doc p w' ts ∧ length ts = 8%nat ∧
       ts !! 1%nat = Some (single (H := x86_64) "fault round trip"
         (r (result_min ro) 3%positive (replicate 110 120))
         (corrected (H := x86_64) (fault_desc false (result_min ro)) (replicate 110 120) 0 110)))
    example_world.
Proof.
  intros ro rc r.
  destruct (calculate_results_early_proc_spec (H := x86_64) 100 1000 10000) as (re & Hre & _);
    [by vm_compute|].
  assert (So : summary (H := x86_64) (fault_desc true 0) (replicate 110 20) 1 0 110 ro)
    by (apply example_summary; vm_compute; reflexivity).
  assert (Sc : summary (H := x86_64) (fault_desc true 0) (replicate 110 5) 2 0 110 rc)
    by (apply example_summary; vm_compute; reflexivity).
  assert (Sr : summary (H := x86_64) (fault_desc false (result_min ro)) (replicate 110 120) 3 0 110
    (r (result_min ro) 3%positive (replicate 110 120)))
    by (apply example_summary; vm_compute; reflexivity).
  assert (Sf : summary (H := x86_64) (fault_desc false (result_min ro)) (replicate 110 70) 4 0 110
    (r (result_min ro) 4%positive (replicate 110 70)))
    by (apply example_summary; vm_compute; reflexivity).
  assert (Sp : summary (H := x86_64) (fault_desc false (result_min rc)) (replicate 110 30) 5 0 110
    (r (result_min rc) 5%positive (replicate 110 30)))
    by (apply example_summary; vm_compute; reflexivity).
  clearbody ro rc r.
  eapply wp_mono; [|refine (@fault_process_correct x86_64 store_jansson example_arrays example_world
    1 2 3 4 5 _ _ _ _ _ example_sums example_sums example_sums ro rc _ _ _ re re re
    _ _ eq_refl eq_refl eq_refl eq_refl eq_refl So Sc Sr Sf Sp Hre Hre Hre)].
  - intros o w' (p & -> & Hdoc). eexists p, _. split; [done|]. split; [exact Hdoc|]. done.
  - unfold live. reflexivity.
  - by apply (bool_decide_unpack _).
Defined.

Definition table_result_of `{Platform} (desc : result_desc_t) (l : list Z) (b : positive) (nrows i : Z)
  : result_t :=
  match calculate_results (subtract (desc_overhead desc) <$> Processing.row l nrows (desc_ignored desc) i)
          (Ptr b (i * nrows + desc_ignored desc)) with
  | Ok r => r
  | _ => result_zero
  end.

Lemma table_summary_of `{Platform} desc l b ncols nrows :
  desc_stable desc = false → 0 <= ncols → ncols * nrows <= size_of l →
  0 <= desc_ignored desc <= nrows → nrows < 2 ^ (int_bits - 1) →
  forallb (λ i, is_ok (calculate_results
    (subtract (desc_overhead desc) <$> Processing.row l nrows (desc_ignored desc) i)
    (Ptr b (i * nrows + desc_ignored desc)))) (seqZ 0 ncols) = true →
  table_summary desc l b ncols nrows (table_result_of desc l b nrows).
Proof.
  intros Hst Hn Hl Hign Hnr Hall. do 5 (split; [done|]). intros i Hi.
  rewrite forallb_forall in Hall. specialize (Hall i). unfold table_result_of.
  destruct (calculate_results _ _); [done|..];
    (exfalso; discriminate Hall; apply list_elem_of_In, elem_of_seqZ; lia).
Qed.

Definition sched_arrays : gmap positive (list Z) :=
  {[ 1%positive := replicate 110 20; 2%positive := replicate 440 100; 3%positive := replicate 440 200;
     4%positive := replicate 330 50000 ]}.
Definition sched_world : world (H := store_jansson) :=
  @World store_jansson (Heap sched_arrays 1000) ∅ {[ 1%positive := JArray [] ]}.
(** The threads need 90 cycles in the mean, the processes 180. *)
Definition sched_results : Scheduler.scheduler_results_t :=
  Scheduler.SchedulerResults (Ptr 2 0) (Ptr 3 0) (Ptr 1 0) (Ptr 4 0) (Ptr 1 0) (Ptr 1 0) (Ptr 1 0) (Ptr 1 0)
    example_sums example_sums (replicate 4 9000) (replicate 4 810000) (replicate 4 100)
    (replicate 4 18000) (replicate 4 3240000) (replicate 4 100).

Definition early_of `{Platform} (num sum sum2 : Z) : result_t :=
  match process_result_early_proc num sum sum2 with Ok r => r | _ => result_zero end.

Lemma process_scheduler_results_correct_witness :
  let E sum sum2 (i : Z) := early_of (H := x86_64) 100 sum sum2 in
  mean (E 9000 810000 0) = dyadic double 90 0 ∧ mean (E 18000 3240000 0) = dyadic double 180 0 ∧
  wp (Scheduler.process_scheduler_results (H := x86_64) sched_results (Some 1%positive))
    (λ _ w', ∃ ts, doc 1 w' ts ∧
       ts !! 3%nat = Some (prio_set (H := x86_64) "Signal to process of higher prio" (E 9000 810000)
                             (λ _, [])) ∧
       ts !! 4%nat = Some (prio_set (H := x86_64) "Signal to process of higher prio (early processing)"
                             (E 18000 3240000) (λ _, []))) sched_world.
Proof.
  intros E. split; [by vm_compute|]. split; [by vm_compute|].
  set (d st o := Desc st (Some "Signal overhead") o Scheduler.N_IGNORED).
  set (ro := result_of (H := x86_64) (d true 0) (replicate 110 20) 1 0 110).
  set (Rt := table_result_of (H := x86_64) (d false (result_min ro)) (replicate 440 100) 2 110).
  set (Rp := table_result_of (H := x86_64) (d false (result_min ro)) (replicate 440 200) 3 110).
  assert (So : summary (H := x86_64) (d true 0) (replicate 110 20) 1 0 110 ro)
    by (apply example_summary; vm_compute; reflexivity).
  assert (St : table_summary (H := x86_64) (d false (result_min ro)) (replicate 440 100) 2 4 110 Rt)
    by (apply table_summary_of; vm_compute; (reflexivity || congruence || (split; congruence))).
  assert (Sp : table_summary (H := x86_64) (d false (result_min ro)) (replicate 440 200) 3 4 110 Rp)
    by (apply table_summary_of; vm_compute; (reflexivity || congruence || (split; congruence))).
  assert (TE : early_table (H := x86_64) 4 (replicate 4 100) (replicate 4 9000) (replicate 4 810000)
    (E 9000 810000)).
  { intros i Hi. exists 100, 9000, 810000.
    assert (i = 0 ∨ i = 1 ∨ i = 2 ∨ i = 3) as [-> | [-> | [-> | ->]]] by lia;
      (split; [done|split; [done|split; [done|by vm_compute]]]). }
  assert (PE : early_table (H := x86_64) 4 (replicate 4 100) (replicate 4 18000) (replicate 4 3240000)
    (E 18000 3240000)).
  { intros i Hi. exists 100, 18000, 3240000.
    assert (i = 0 ∨ i = 1 ∨ i = 2 ∨ i = 3) as [-> | [-> | [-> | ->]]] by lia;
      (split; [done|split; [done|split; [done|by vm_compute]]]). }
  assert (Sa : averages_summary (H := x86_64) (replicate 330 50000) 110 3).
  { split; [done|]. split; [done|]. intros c p Hc.
    assert (column (replicate 330 50000) 110 3 c = replicate 110 5) as ->
      by (assert (c = 0 ∨ c = 1 ∨ c = 2) as [-> | [-> | ->]] by lia; by vm_compute).
    destruct (@calculate_results_spec x86_64 (replicate 110 5) p) as (r & Hr & _);
      [done|by vm_compute| |by exists r].
    apply list.Forall_forall. intros x [-> _]%elem_of_replicate. by vm_compute. }
  clearbody ro Rt Rp E.
  eapply wp_mono; [|refine (@process_scheduler_results_correct x86_64 store_jansson sched_arrays
    sched_world 1 [] sched_results 1 2 3 4 _ _ _ _ ro Rt Rp _ _ _ _ _ _ eq_refl eq_refl eq_refl
    eq_refl eq_refl eq_refl eq_refl eq_refl So St Sp TE PE Sa _)].
  - intros _ w' (RA & _ & Hdoc). eexists. split; [exact Hdoc|]. done.
  - unfold live. reflexivity.
  - by apply (bool_decide_unpack _).
  - exists ∅, []. split; [done|]. split; [constructor|]. split; set_solver.
  - by vm_compute.
  - by vm_compute.
Defined.

(** Two cores on a machine configured for four. *)
Definition smp_samples : list Z := replicate 120 1000.
Definition smp_world : world (H := store_jansson) :=
  @World store_jansson (Heap {[ 1%positive := smp_samples ]} 0) ∅ (∅ : gmap positive jnode).
Definition smp_result (s : Z) : result_t :=
  match calculate_results (H := aarch64) (replicate 10 1000)
          (Ptr 1 (smp_index (H := aarch64) 2 s * 10 + 0)) with
  | Ok r => r | _ => result_zero end.

Lemma smp_samples_row s : 0 <= s < 6 →
  fill_row (H := aarch64) smp_samples SmpParams.RUNS 0 (smp_desc 2) (smp_index (H := aarch64) 2) s =
    replicate 10 1000.
Proof.
  intros Hs. assert (s = 0 ∨ s = 1 ∨ s = 2 ∨ s = 3 ∨ s = 4 ∨ s = 5) as E by lia.
  destruct E as [-> |[-> |[-> |[-> |[-> | ->]]]]]; by vm_compute.
Qed.

Lemma process_smp_results_correct_witness :
  wp (Smp.process_smp_results (H := aarch64) 2 (Ptr 1 0)) (λ a w', ∃ p rows, a = Some p ∧
    doc p w' [spec_set "SMP Benchmark" rows] ∧ length rows = 6%nat ∧
    rows !! 3%nat = Some (smp_row (H := aarch64) 2 3 (smp_result 3) (replicate 10 1000))) smp_world.
Proof.
  eapply wp_mono; [|apply (@process_smp_results_correct aarch64 store_jansson 2
    {[ 1%positive := smp_samples ]} smp_world 1 smp_samples smp_result)].
  - intros o w' (p & -> & Hdoc). eexists p, _. split; [done|]. split; [exact Hdoc|].
    split; [done|]. rewrite list_lookup_fmap, lookup_seqZ_lt by (vm_compute; split; congruence).
    cbn [fmap option_fmap option_map]. change (0 + Z.of_nat 3) with 3.
    by rewrite smp_samples_row by lia.
  - unfold live. reflexivity.
  - apply lookup_singleton_eq.
  - vm_compute. split; congruence.
  - vm_compute. congruence.
  - change (SmpParams.TESTS * 2) with 6. intros s Hs. rewrite smp_samples_row by done.
    unfold smp_result. change SmpParams.RUNS with 10.
    assert (s = 0 ∨ s = 1 ∨ s = 2 ∨ s = 3 ∨ s = 4 ∨ s = 5) as E by lia.
    destruct E as [-> |[-> |[-> |[-> |[-> | ->]]]]]; by vm_compute.
Defined.

(** The second overhead drifts in its last run, which is not used for the
    minimum. *)
Definition ipc_overheads (last : Z) : list Z :=
  replicate 16 30 ++ (replicate 15 40 ++ [last]) ++ replicate 64 50.
Definition ipc_world (last : Z) : world (H := store_jansson) :=
  @World store_jansson (Heap {[ 1%positive := ipc_overheads last; 2%positive := replicate 144 500 ]} 0)
    ∅ (∅ : gmap positive jnode).

(** A configuration that does not tolerate the drift refuses the results. *)
Definition ipc_overhead_result (last : Z) (o : overheads) : result_t :=
  match calculate_results (H := aarch64) (used_runs (ipc_overheads last) o)
          (Ptr 1 (overhead_index o * 16 + 0)) with
  | Ok r => r | _ => result_zero end.
Definition ipc_result (last : Z) (i : Z) : result_t :=
  match calculate_results (H := aarch64)
          (fill_row (H := aarch64) (replicate 144 500) 16 0
             (ipc_desc (H := aarch64) (ipc_overhead_result last)) id i) (Ptr 2 (i * 16 + 0)) with
  | Ok r => r | _ => result_zero end.

Lemma process_ipc_results_correct_witness :
  wp (Ipc.process_ipc_results (H := aarch64) (Ipc.IpcResults (Ptr 1 0) (Ptr 2 0)))
     (λ a w', a = None ∧ w' = ipc_world 41) (ipc_world 41) ∧
  wp (Ipc.process_ipc_results (H := aarch64) (Ipc.IpcResults (Ptr 1 0) (Ptr 2 0)))
     (λ a w', ∃ d rows, a = Some d ∧ doc d w' [spec_set "One way IPC microbenchmarks" rows] ∧
        length rows = 9%nat) (ipc_world 40).
Proof.
  assert (Hrun : ∀ last, last = 40 ∨ last = 41 → wp
    (Ipc.process_ipc_results (H := aarch64) (Ipc.IpcResults (Ptr 1 0) (Ptr 2 0))) (λ a w',
    if overheads_accepted (H := aarch64) (ipc_overheads last) all_overheads then
      ∃ d, a = Some d ∧ doc d w' [spec_set "One way IPC microbenchmarks"
        (imap (λ i p, ipc_row (H := aarch64) p (ipc_result last (Z.of_nat i))
           (fill_row (H := aarch64) (replicate 144 500) 16 0
              (ipc_desc (H := aarch64) (ipc_overhead_result last)) id (Z.of_nat i)))
           (benchmark_params (H := aarch64)))]
    else a = None ∧ w' = ipc_world last) (ipc_world last)).
  { intros last Hlast.
    apply (@process_ipc_results_correct aarch64 store_jansson
      {[ 1%positive := ipc_overheads last; 2%positive := replicate 144 500 ]} (ipc_world last) 1 2
      (ipc_overheads last) (replicate 144 500) (ipc_overhead_result last) (ipc_result last)).
    - unfold live. reflexivity.
    - apply lookup_insert_eq.
    - reflexivity.
    - vm_compute. congruence.
    - destruct Hlast as [-> | ->]; by apply (bool_decide_unpack _).
    - vm_compute. congruence.
    - intros o. destruct Hlast as [-> | ->]; destruct o; by vm_compute.
    - change (NUM_BENCHMARKS (H := aarch64)) with 9. intros i Hi.
      assert (i = 0 ∨ i = 1 ∨ i = 2 ∨ i = 3 ∨ i = 4 ∨ i = 5 ∨ i = 6 ∨ i = 7 ∨ i = 8) as E by lia.
      destruct Hlast as [-> | ->];
        destruct E as [-> |[-> |[-> |[-> |[-> |[-> |[-> |[-> | ->]]]]]]]]; by vm_compute. }
  split.
  - specialize (Hrun 41 (or_intror eq_refl)).
    replace (overheads_accepted (H := aarch64) (ipc_overheads 41) all_overheads) with false in Hrun
      by by vm_compute.
    exact Hrun.
  - specialize (Hrun 40 (or_introl eq_refl)).
    replace (overheads_accepted (H := aarch64) (ipc_overheads 40) all_overheads) with true in Hrun
      by by vm_compute.
    eapply wp_mono, Hrun. intros o w' (d & -> & Hdoc). eexists d, _. split; [done|].
    split; [exact Hdoc|]. done.
Defined.

(** Four arrays: the table of the waiters, with 25 rows of 55 times, and three
    of 55. *)
Definition sync_arrays : gmap positive (list Z) :=
  {[ 1%positive := replicate 1375 700; 2%positive := replicate 55 40; 3%positive := replicate 55 300;
     4%positive := replicate 55 310 ]}.
Definition sync_world : world (H := store_jansson) :=
  @World store_jansson (Heap sync_arrays 1000) ∅ (∅ : gmap positive jnode).

Lemma sync_summary x b :
  is_ok (calculate_results (H := x86_64) (corrected (H := x86_64) sync_desc (replicate 55 x) 0 55) (Ptr b 5)) = true →
  summary (H := x86_64) sync_desc (replicate 55 x) b 0 55
    (result_of (H := x86_64) sync_desc (replicate 55 x) b 0 55).
Proof.
  intros Hok. apply summary_result_of; [|done|done].
  unfold array_ok. rewrite length_replicate. change (2 ^ (int_bits - 1)) with 2147483648.
  change (desc_ignored sync_desc) with 5. lia.
Qed.

Lemma sync_process_correct_witness :
  let R := table_result_of (H := x86_64) sync_desc (replicate 1375 700) 1 55 in
  let rc := result_of (H := x86_64) sync_desc (replicate 55 310) 4 0 55 in
  let E sum sum2 := early_of (H := x86_64) 50 sum sum2 in
  wp (Sync.sync_process (H := x86_64)
        (Sync.SyncResults (Ptr 1 0) (Ptr 2 0) (Ptr 3 0) (Ptr 4 0) 15000 4500000 50 15500 4805000 50))
    (λ a w', ∃ p ts, a = Some p ∧ doc p w' ts ∧ length ts = 6%nat ∧
       ts !! 3%nat = Some (single (H := x86_64) "Consumer to producer" rc (replicate 50 310)) ∧
       ts !! 5%nat = Some (single (H := x86_64) "Consumer to producer (early processing)"
                             (E 15500 4805000) [])) sync_world.
Proof.
  intros R rc E.
  set (rb := result_of (H := x86_64) sync_desc (replicate 55 40) 2 0 55).
  set (rp := result_of (H := x86_64) sync_desc (replicate 55 300) 3 0 55).
  assert (SR : table_summary (H := x86_64) sync_desc (replicate 1375 700) 1 25 55 R)
    by (apply table_summary_of; vm_compute; (reflexivity || congruence || (split; congruence))).
  assert (Sb : summary (H := x86_64) sync_desc (replicate 55 40) 2 0 55 rb)
    by (apply sync_summary; vm_compute; reflexivity).
  assert (Sp : summary (H := x86_64) sync_desc (replicate 55 300) 3 0 55 rp)
    by (apply sync_summary; vm_compute; reflexivity).
  assert (Sc : summary (H := x86_64) sync_desc (replicate 55 310) 4 0 55 rc)
    by (apply sync_summary; vm_compute; reflexivity).
  assert (E1 : process_result_early_proc (H := x86_64) 50 15000 4500000 = Ok (E 15000 4500000))
    by (vm_compute; reflexivity).
  assert (E2 : process_result_early_proc (H := x86_64) 50 15500 4805000 = Ok (E 15500 4805000))
    by (vm_compute; reflexivity).
  assert (Hcor : corrected (H := x86_64) sync_desc (replicate 55 310) 0 55 = replicate 50 310)
    by (vm_compute; reflexivity).
  clearbody R rb rp rc E.
  eapply wp_mono; [|refine (@sync_process_correct x86_64 store_jansson sync_arrays sync_world
    1 2 3 4 _ _ _ _ 15000 4500000 50 15500 4805000 50 R rb rp rc _ _ _ _ eq_refl eq_refl eq_refl
    eq_refl SR Sb Sp Sc E1 E2)].
  - intros o w' (p & -> & Hdoc). eexists p, _. split; [done|]. split; [exact Hdoc|].
    split; [done|]. split; [by rewrite <-Hcor|done].
  - unfold live. reflexivity.
  - by apply (bool_decide_unpack _).
Defined.
