(* ===== verification/Program.v ===== *)
(** * Program: programs that call code outside the sources

    Most of the suite is a sequence of calls to the kernel and to libraries.
    A [prog] is such a program: it performs operations of a family [E], whose
    answers come from outside, and returns a value or stops.  [exec] runs it
    against an environment, which may answer every call as it likes depending
    on the calls before; a theorem about [exec] holds for every environment,
    and the assumptions it makes about a library are hypotheses on the
    environment. *)

From S2P Require Import Prelude.

(** How a program stops early: a failed assertion, [ZF_LOGF] or [abort], or
    undefined behaviour. *)
Inductive stop := Abort | Undefined.

Inductive prog (E : Type → Type) (A : Type) : Type :=
  | Ret (a : A)
  | Op {X : Type} (e : E X) (k : X → prog E A)
  | Stop (s : stop).
Arguments Ret {E A} a.
Arguments Op {E A X} e k.
Arguments Stop {E A} s.

Fixpoint prog_bind {E A B} (f : A → prog E B) (m : prog E A) : prog E B :=
  match m with
  | Ret a => f a
  | Op e k => Op e (λ x, prog_bind f (k x))
  | Stop s => Stop s
  end.

#[export] Instance prog_mret E : MRet (prog E) := λ _ a, Ret a.
#[export] Instance prog_mbind E : MBind (prog E) := λ _ _ f m, prog_bind f m.

Definition perform {E X} (e : E X) : prog E X := Op e Ret.

(** [ZF_LOGF_IF(b, ...)], [assert(!b)] *)
Definition fatal_if {E} (b : bool) : prog E unit := if b then Stop Abort else mret tt.
Definition assert_that {E} (b : bool) : prog E unit := fatal_if (negb b).

(** A computation that may stop. *)
Definition from_outcome {E A} (o : outcome A) : prog E A :=
  match o with Ok x => mret x | Fatal => Stop Abort | Undef => Stop Undefined end.

(** [for (x in l) body(x)] *)
Fixpoint loop {E A} (l : list A) (body : A → prog E unit) : prog E unit :=
  match l with
  | [] => mret tt
  | x :: l => body x;; loop l body
  end.

(** The same with a local that the body updates. *)
Fixpoint loop_acc {E A B} (l : list A) (b : B) (body : A → B → prog E B) : prog E B :=
  match l with
  | [] => mret b
  | x :: l => b ← body x b; loop_acc l b body
  end.

(** ** Running against an environment *)

(** A call and its answer. *)
Inductive event (E : Type → Type) : Type :=
  | Ev {X : Type} (e : E X) (x : X).
Arguments Ev {E X} e x.

(** The environment answers a call knowing the calls before it. *)
Definition environment (E : Type → Type) : Type := list (event E) → ∀ X, E X → X.

Definition stopped {A} (s : stop) : outcome A :=
  match s with Abort => Fatal | Undefined => Undef end.

Fixpoint exec {E A} (env : environment E) (m : prog E A) (tr : list (event E))
  : outcome A * list (event E) :=
  match m with
  | Ret a => (Ok a, tr)
  | Op e k => let x := env tr _ e in exec env (k x) (tr ++ [Ev e x])
  | Stop s => (stopped s, tr)
  end.

Section exec.
Context {E : Type → Type} (env : environment E).

Lemma exec_ret {A} (a : A) tr : exec env (mret a) tr = (Ok a, tr).
Proof. done. Qed.

Lemma exec_bind {A B} (m : prog E A) (f : A → prog E B) tr :
  exec env (m ≫= f) tr =
    match exec env m tr with
    | (Ok a, tr') => exec env (f a) tr'
    | (Fatal, tr') => (Fatal, tr')
    | (Undef, tr') => (Undef, tr')
    end.
Proof.
  revert tr. induction m as [a|X e k IH|[]]; intros tr; try done. simpl. by rewrite <-IH.
Qed.

Lemma exec_perform {X} (e : E X) tr :
  exec env (perform e) tr = (Ok (env tr _ e), tr ++ [Ev e (env tr _ e)]).
Proof. done. Qed.

Lemma exec_fatal_if b tr :
  exec env (fatal_if b) tr = (if b then Fatal else Ok tt, tr).
Proof. by destruct b. Qed.

(** Calls are only ever added. *)
Lemma exec_extends {A} (m : prog E A) tr : ∃ tr', (exec env m tr).2 = tr ++ tr'.
Proof.
  revert tr. induction m as [a|X e k IH|s]; intros tr; simpl.
  - exists []. by rewrite app_nil_r.
  - destruct (IH (env tr X e) (tr ++ [Ev e (env tr X e)])) as [tr' ->]. eexists.
    by rewrite <-app_assoc.
  - exists []. by rewrite app_nil_r.
Qed.

(** Total correctness of a program in an environment. *)
Definition always {A} (m : prog E A) (Q : A → list (event E) → Prop) (tr : list (event E)) : Prop :=
  match exec env m tr with (Ok a, tr') => Q a tr' | _ => False end.

Lemma always_ret {A} (a : A) Q tr : always (mret a) Q tr ↔ Q a tr.
Proof. done. Qed.

Lemma always_bind {A B} (m : prog E A) (f : A → prog E B) Q tr :
  always (m ≫= f) Q tr ↔ always m (λ a tr', always (f a) Q tr') tr.
Proof. unfold always. rewrite exec_bind. by destruct (exec env m tr) as [[]]. Qed.

Lemma always_perform {X} (e : E X) Q tr :
  always (perform e) Q tr ↔ Q (env tr X e) (tr ++ [Ev e (env tr X e)]).
Proof. done. Qed.

Lemma always_fatal_if b Q tr : always (fatal_if b) Q tr ↔ b = false ∧ Q tt tr.
Proof. unfold always. rewrite exec_fatal_if. destruct b; naive_solver. Qed.

Lemma always_mono {A} (m : prog E A) (Q Q' : A → list (event E) → Prop) tr :
  (∀ a tr', Q a tr' → Q' a tr') → always m Q tr → always m Q' tr.
Proof. unfold always. destruct (exec env m tr) as [[]]; naive_solver. Qed.

Lemma always_exec {A} (m : prog E A) Q tr :
  always m Q tr ↔ ∃ a tr', exec env m tr = (Ok a, tr') ∧ Q a tr'.
Proof.
  unfold always. destruct (exec env m tr) as [[]]; naive_solver.
Qed.

Lemma always_loop {A} (I : nat → list (event E) → Prop) (l : list A) body
    (Q : unit → list (event E) → Prop) tr :
  I 0%nat tr →
  (∀ k x tr', l !! k = Some x → I k tr' → always (body x) (λ _, I (S k)) tr') →
  (∀ tr', I (length l) tr' → Q tt tr') →
  always (loop l body) Q tr.
Proof.
  revert I tr. induction l as [|x l IH]; intros I tr H0 Hstep HQ; simpl.
  - apply always_ret, HQ, H0.
  - apply always_bind. eapply always_mono, (Hstep 0%nat); [|done..].
    intros [] tr' HI. apply (IH (λ k, I (S k))); [done| |].
    + intros k y tr'' Hk. by apply (Hstep (S k)).
    + done.
Qed.

Lemma always_loop_acc {A B} (I : nat → B → list (event E) → Prop) (l : list A) body
    (Q : B → list (event E) → Prop) b tr :
  I 0%nat b tr →
  (∀ k x b' tr', l !! k = Some x → I k b' tr' → always (body x b') (I (S k)) tr') →
  (∀ b' tr', I (length l) b' tr' → Q b' tr') →
  always (loop_acc l b body) Q tr.
Proof.
  revert I b tr. induction l as [|x l IH]; intros I b tr H0 Hstep HQ; simpl.
  - apply always_ret, HQ, H0.
  - apply always_bind. eapply always_mono, (Hstep 0%nat); [|done..].
    intros b' tr' HI. apply (IH (λ k, I (S k))); [done| |].
    + intros k y b'' tr'' Hk. by apply (Hstep (S k)).
    + done.
Qed.
End exec.

Create Rewrite HintDb always.
#[export] Hint Rewrite @always_bind @always_ret @always_perform @always_fatal_if : always.
Ltac always_step := repeat (progress autorewrite with always).

(** ** Calls by name

    The family used for the driver and for the set-up code of the
    applications: a C function of a library or of the kernel, its integer and
    pointer arguments, and the integer or pointer it returns. *)
Inductive c_call : Type → Type :=
  | call (fn : string) (args : list Z) : c_call Z.

Definition cc (fn : string) (args : list Z) : prog c_call Z := perform (call fn args).

(** [error = fn(args); ZF_LOGF_IF(error, ...)] (or [assert(error == 0)]) *)
Definition checked (fn : string) (args : list Z) : prog c_call unit :=
  error ← cc fn args; fatal_if (negb (error =? 0)).

(** [p = fn(args); ZF_LOGF_IF(p == NULL, ...)] *)
Definition checked_ptr (fn : string) (args : list Z) : prog c_call Z :=
  p ← cc fn args; fatal_if (p =? 0);; mret p.

Definition c_event (fn : string) (args : list Z) (x : Z) : event c_call := Ev (call fn args) x.

(** A call whose result is dropped. *)
Definition do_call (fn : string) (args : list Z) : prog c_call unit :=
  _ ← cc fn args; mret tt.

(** What an event is. *)
Definition event_fn (ev : event c_call) : string :=
  match ev with Ev (call fn _) _ => fn end.
Definition event_args (ev : event c_call) : list Z :=
  match ev with Ev (call _ args) _ => args end.
Definition event_answer (ev : event c_call) : Z :=
  match ev with @Ev _ X e x => match e in c_call X return X → Z with call _ _ => λ z, z end x end.

Section calls.
Context (env : environment c_call).

Lemma always_cc fn args Q tr :
  always env (cc fn args) Q tr ↔
  Q (env tr _ (call fn args)) (tr ++ [c_event fn args (env tr _ (call fn args))]).
Proof. done. Qed.

Lemma exec_cc fn args tr :
  exec env (cc fn args) tr =
    (Ok (env tr _ (call fn args)), tr ++ [c_event fn args (env tr _ (call fn args))]).
Proof. done. Qed.

Lemma exec_do_call fn args tr :
  exec env (do_call fn args) tr = (Ok tt, tr ++ [c_event fn args (env tr _ (call fn args))]).
Proof. done. Qed.

Lemma exec_checked fn args tr :
  exec env (checked fn args) tr =
    (if env tr _ (call fn args) =? 0 then Ok tt else Fatal,
     tr ++ [c_event fn args (env tr _ (call fn args))]).
Proof. unfold checked. rewrite exec_bind, exec_cc, exec_fatal_if. by destruct (_ =? 0). Qed.

Lemma exec_checked_ptr fn args tr :
  exec env (checked_ptr fn args) tr =
    (if env tr _ (call fn args) =? 0 then Fatal else Ok (env tr _ (call fn args)),
     tr ++ [c_event fn args (env tr _ (call fn args))]).
Proof.
  unfold checked_ptr. rewrite exec_bind, exec_cc, exec_bind, exec_fatal_if. by destruct (_ =? 0).
Qed.
End calls.

(** ** What a program may call *)

(** All the operations a program can perform, whatever the answers, satisfy
    [P]. *)
Fixpoint all_ops {E A} (P : ∀ X, E X → Prop) (m : prog E A) : Prop :=
  match m with
  | Ret _ => True
  | Op e k => P _ e ∧ ∀ x, all_ops P (k x)
  | Stop _ => True
  end.

Lemma all_ops_bind {E A B} P (m : prog E A) (f : A → prog E B) :
  all_ops P m → (∀ a, all_ops P (f a)) → all_ops P (m ≫= f).
Proof.
  intros Hm Hf. induction m as [a|X e k IH|s]; simpl in *; [apply Hf| |done].
  destruct Hm as [He Hk]. split; [done|]. intros x. by apply IH.
Qed.

Lemma all_ops_loop {E A} P (l : list A) (body : A → prog E unit) :
  (∀ x, all_ops P (body x)) → all_ops P (loop l body).
Proof.
  intros Hb. induction l as [|x l IH]; simpl; [done|]. by apply all_ops_bind.
Qed.

Lemma all_ops_exec {E A} P (env : environment E) (m : prog E A) tr :
  all_ops P m → ∃ new, (exec env m tr).2 = tr ++ new ∧
    Forall (λ ev, match ev with Ev e _ => P _ e end) new.
Proof.
  revert tr. induction m as [a|X e k IH|s]; intros tr Hm; simpl in *.
  - exists []. by rewrite app_nil_r.
  - destruct Hm as [He Hk]. destruct (IH _ (tr ++ [Ev e (env tr X e)]) (Hk (env tr X e)))
      as (new & -> & Hnew). exists (Ev e (env tr X e) :: new). rewrite <-app_assoc.
    split; [done|]. by constructor.
  - exists []. by rewrite app_nil_r.
Qed.

(** Calls other than those to [fn]. *)
Definition other_than (fns : list string) : ∀ X, c_call X → Prop :=
  λ _ e, match e with call fn _ => fn ∉ fns end.

Lemma not_among (x : string) (l : list string) : bool_decide (x ∈ l) = false → x ∉ l.
Proof. apply bool_decide_eq_false. Qed.

Ltac avoid :=
  repeat first
    [ apply all_ops_bind
    | apply all_ops_loop
    | progress intros
    | match goal with
      | |- all_ops _ (mret _) => exact I
      | |- all_ops _ (fatal_if ?b) => destruct b; exact I
      | |- all_ops _ (cc _ _) => split; [apply not_among; reflexivity|intros ?; exact I]
      | |- all_ops _ (do_call _ _) => unfold do_call
      | |- all_ops _ (checked _ _) => unfold checked
      | |- all_ops _ (checked_ptr _ _) => unfold checked_ptr
      | |- all_ops _ (let '(_, _) := ?x in _) => destruct x
      | |- all_ops _ (if ?b then _ else _) => destruct b
      | |- all_ops _ (match ?x with _ => _ end) => destruct x
      end ].

(** ** The events of interest of a run *)
Section traced.
Context {E : Type → Type} (env : environment E) (sel : event E → bool).

(** When [m] returns, the events it adds that [sel] selects satisfy [Q]. *)
Definition traced {A} (m : prog E A) (Q : A → list (event E) → Prop) : Prop :=
  ∀ tr a tr', exec env m tr = (Ok a, tr') →
    ∃ new, tr' = tr ++ new ∧ Q a (filter (λ ev, sel ev = true) new).

Lemma traced_ret {A} (a : A) (Q : A → list (event E) → Prop) : Q a [] → traced (mret a) Q.
Proof. intros HQ tr a' tr' [= <- <-]. exists []. by rewrite app_nil_r. Qed.

Lemma traced_bind {A B} (m : prog E A) (f : A → prog E B) Q (R : B → list (event E) → Prop) :
  traced m Q → (∀ a l, Q a l → traced (f a) (λ b l', R b (l ++ l'))) → traced (m ≫= f) R.
Proof.
  intros Hm Hf tr b tr'. rewrite exec_bind.
  destruct (exec env m tr) as [[a| |] tr1] eqn:Hrun; [|done..]. intros Hrun'.
  destruct (Hm _ _ _ Hrun) as (n1 & -> & HQ). destruct (Hf a _ HQ _ _ _ Hrun') as (n2 & -> & HR).
  exists (n1 ++ n2). rewrite <-app_assoc. split; [done|]. by rewrite list.filter_app.
Qed.

Lemma traced_mono {A} (m : prog E A) (Q R : A → list (event E) → Prop) :
  traced m Q → (∀ a l, Q a l → R a l) → traced m R.
Proof.
  intros Hm HQR tr a tr' Hrun. destruct (Hm _ _ _ Hrun) as (new & -> & HQ). exists new. auto.
Qed.

Lemma traced_perform {X} (e : E X) (Q : X → list (event E) → Prop) :
  (∀ x, (∃ tr, x = env tr _ e) → Q x (if sel (Ev e x) then [Ev e x] else [])) →
  traced (perform e) Q.
Proof.
  intros HQ tr a tr' [= <- <-]. eexists. split; [done|].
  specialize (HQ (env tr X e) (ex_intro _ tr eq_refl)). rewrite list.filter_cons, list.filter_nil.
  destruct (sel _); [rewrite decide_True by done|rewrite decide_False by done]; done.
Qed.

Lemma traced_fatal_if b (Q : unit → list (event E) → Prop) :
  (b = false → Q tt []) → traced (fatal_if b) Q.
Proof.
  intros HQ. destruct b; [intros tr a tr'; done|]. apply traced_ret. by apply HQ.
Qed.

(** A program whose operations are not selected. *)
Lemma traced_quiet {A} (m : prog E A) (P : ∀ X, E X → Prop) :
  all_ops P m → (∀ X (e : E X) x, P X e → sel (Ev e x) = false) →
  traced m (λ _ l, l = []).
Proof.
  intros Hm HP tr a tr' Hrun. destruct (all_ops_exec P env m tr Hm) as (new & Hnew & Hall).
  rewrite Hrun in Hnew. exists new. split; [done|]. clear Hnew Hrun.
  induction Hall as [|[X e x] l He _ IH]; [done|]. rewrite list.filter_cons, decide_False; [done|].
  by rewrite (HP _ _ _ He).
Qed.
End traced.

(** The selection of the calls to some functions. *)
Definition calls_to (fns : list string) (ev : event c_call) : bool :=
  bool_decide (event_fn ev ∈ fns).

Lemma traced_avoid (env : environment c_call) fns {A} (m : prog c_call A) :
  all_ops (other_than fns) m → traced env (calls_to fns) m (λ _ l, l = []).
Proof.
  intros Hm. eapply traced_quiet; [exact Hm|]. intros X e x He. unfold calls_to.
  destruct e. by apply bool_decide_eq_false.
Qed.

Lemma traced_skip (env : environment c_call) fns {A B} (m : prog c_call A) (f : A → prog c_call B) R :
  all_ops (other_than fns) m → (∀ a, traced env (calls_to fns) (f a) R) →
  traced env (calls_to fns) (m ≫= f) R.
Proof.
  intros Hm Hf. eapply traced_bind; [by apply traced_avoid|]. by intros a l ->.
Qed.

Lemma traced_call (env : environment c_call) fns fn args {B} (f : Z → prog c_call B) R :
  calls_to fns (c_event fn args 0) = true →
  (∀ x, (∃ tr, x = env tr _ (call fn args)) →
     traced env (calls_to fns) (f x) (λ b l, R b (c_event fn args x :: l))) →
  traced env (calls_to fns) (cc fn args ≫= f) R.
Proof.
  intros Hfn Hf. apply traced_bind with (Q := λ x l,
    l = [c_event fn args x] ∧ ∃ tr, x = env tr _ (call fn args)).
  - apply traced_perform. intros x Hx. unfold calls_to in *. simpl in *. by rewrite Hfn.
  - intros x l [-> Hx]. by apply Hf.
Qed.

Lemma traced_do_call (env : environment c_call) fns fn args {B} (f : unit → prog c_call B) R :
  calls_to fns (c_event fn args 0) = true →
  (∀ x, traced env (calls_to fns) (f tt) (λ b l, R b (c_event fn args x :: l))) →
  traced env (calls_to fns) (do_call fn args ≫= f) R.
Proof.
  intros Hfn Hf. apply traced_bind with (Q := λ _ l, ∃ x, l = [c_event fn args x]).
  - unfold do_call. apply traced_call; [done|]. intros x _. apply traced_ret. by exists x.
  - intros [] l [x ->]. apply Hf.
Qed.
