(* ===== verification/Support.v ===== *)
(** * Support: the library every benchmark application is linked with

    [libsel4benchsupport/src/support.c] and [src/arch/*/support.c]: the
    capability numbering handed to the allocator, the virtual-memory bootstrap,
    the remote calls to the driver, the timer, starting and awaiting children.
    ([getMinOverhead], [send_result] and [get_result] are in Collect.)  The
    libraries and the kernel are the environment of Program. *)

From S2P Require Import Prelude Platform Memory Program.

(** [SIZE_BITS_TO_BYTES(seL4_PageBits)], [ROUND_DOWN], [ALIGN_DOWN] *)
Definition page_bytes `{Platform} : Z := 2 ^ seL4_PageBits.
Definition round_down (n b : Z) : Z := n - n `mod` b.

(** ** Arguments from the driver *)

(** [benchmark_args_t] *)
Record benchmark_args_t := BenchmarkArgs {
  untyped_size_bits : Z;
  stack_vaddr : Z;
  stack_pages : Z;
  results : Z;
  nr_cores : Z;
  fdt : Z;
  first_free : Z;
  untyped_cptr : Z;
  sched_ctrl_cptr : Z;
  serial_ep : Z;
}.

Definition SEL4BENCH_PROTOBUF_RPC : Z := 9000.
Definition seL4_CapNull : Z := 0.
Definition seL4_Fault_NullFault : Z := 0.

(** ** The capabilities of the process *)
Module Caps.
Section caps.
Context `{Platform}.

Definition get_untyped_count : Z := 1.
Definition get_cnode_size : Z := CONFIG_SEL4UTILS_CSPACE_SIZE_BITS.

(** The capability, and what is stored through the pointers that are not
    [NULL]. *)
Definition get_nth_untyped (args : benchmark_args_t) (n : Z) : Z * option (Z * Z * bool) :=
  if negb (n =? 0) then (seL4_CapNull, None)
  else (untyped_cptr args, Some (untyped_size_bits args, 0, false)).

Definition get_cap_count (args : benchmark_args_t) : Z :=
  let last := swrap int_bits (first_free args) in
  let last := last - 1 in
  let last := if CONFIG_X86_64 then last - 1 else last in
  let last := if negb CONFIG_KERNEL_MCS then last - 2 else last in
  last.

Definition get_nth_cap (args : benchmark_args_t) (n : Z) : Z :=
  if n <? get_cap_count args then
    let n := n + 1 in
    let n := if CONFIG_X86_64 && (SEL4UTILS_ASID_POOL_SLOT <=? n) then n + 1 else n in
    let n := if negb CONFIG_KERNEL_MCS && (SEL4UTILS_SCHED_CONTEXT_SLOT <=? n) then n + 2 else n in
    wrap seL4_WordBits n
  else seL4_CapNull.

Definition get_core_count (args : benchmark_args_t) : Z := nr_cores args.
Definition sched_ctrl (args : benchmark_args_t) (core : Z) : Z :=
  sched_ctrl_cptr args ⊞[seL4_WordBits] core.
Definition extended_bootinfo_len : Z := -1.

End caps.
End Caps.

(** ** Calls to the libraries and the kernel *)

(** [RpcMessage]: the requests the driver serves. *)
Inductive action := Action_ALLOCATE | Action_FREE.
Inductive RpcMessage :=
  | RpcMessage_irq_simple (setTrigger : bool) (irq trigger : Z)
  | RpcMessage_irq_msi (pci_bus pci_dev pci_func handle vector : Z)
  | RpcMessage_irq_ioapic (ioapic pin polarity level vector : Z)
  | RpcMessage_memory (address size_bits type : Z) (act : action).

(** What [sel4rpc_call] returns and leaves in the message. *)
Record rpc_reply := RpcReply { rpc_ret : Z; errorCode : Z; cookie : Z }.

(** The functions [vka_t] can point to. *)
Inductive vka_fn :=
  | library_fn (id : Z)
  | benchmark_utspace_alloc_at
  | benchmark_utspace_free.

Record vka_t := Vka { utspace_alloc_at : vka_fn; utspace_free : vka_fn }.

(** The TLS image built by the runtime: the fields this library sets. *)
Record tls_image := TlsImage { tls_ipc_buffer : Z; tls_self : option Z }.

(** The configuration of a process or thread, as the setters applied to it. *)
Inductive config_step :=
  | config_new
  | config_noelf (entry_point : val)
  | config_create_cnode (bits : Z)
  | config_create_vspace
  | config_priority (prio : Z)
  | config_sched_params
  | config_mcp (prio : Z)
  | config_cnode (cspace : Z)
  | config_vspace (vspace pd : Z)
  | config_fault_endpoint (ep : Z)
  | config_auth
  | config_create_reply.

Inductive lib : Type → Type :=
  | sel4rpc_call (msg : RpcMessage) (root capPtr capDepth : Z) : lib rpc_reply
  | bootstrap_vspace (existing_frames : list Z) : lib Z
  | configure_process_custom (process : Z) (config : list config_step) : lib Z
  | bootstrap_clone_into_vspace (process : Z) : lib Z
  | configure_thread_config (thread : Z) (config : list config_step) : lib Z
  | name_thread (process : Z) : lib unit
  | api_wait (ep : Z) : lib Z
  | print_fault_message (label : Z) : lib unit
  | get_tls_size : lib Z
  | write_tls_image : lib Z
  | stack_write (process : Z) (image : tls_image) (len sp : Z) : lib (Z * Z)
  | spawn_process (process stack_top : Z) (args : list val) (resume : bool) : lib Z
  | TCB_SetTLSBase (process tp : Z) : lib Z
  | TCB_Resume (process : Z) : lib Z
  | TCB_SetFlags (tcb flags_clear flags_set : Z) : lib Z
  | ltimer_default_init (slab_vka : vka_t) : lib Z
  | ltimer_destroy (slab_vka : vka_t) : lib unit
  | serial_server_disconnect : lib unit
  | seL4_Call (ep label mr0 : Z) : lib unit
  | bootstrap_allocator : lib Z
  | mspace_alloc_reservation : lib Z
  | reserve_range_no_alloc : lib (Z * Z)
  | configure_virtual_pool (vaddr : Z) : lib unit
  | serial_server_client_connect (ep : Z) : lib Z
  | slab_init (notifications : Z) : lib Z
  | alloc_notification : lib Z
  | new_malloc_ops : lib Z
  | new_io_mapper : lib Z
  | new_arch_ops : lib Z
  | new_mini_irq_ops (badge_mask : Z) : lib Z
  | serial_server_write (data count : Z) : lib Z.

(** ** Remote calls *)
Module Rpc.

(** [irq.setTrigger] is false and [trigger] is left zero. *)
Definition get_irq (irq cnode index depth : Z) : prog lib Z :=
  r ← perform (sel4rpc_call (RpcMessage_irq_simple false irq 0) cnode index depth);
  if negb (rpc_ret r =? 0) then mret (rpc_ret r) else mret (errorCode r).

Definition get_irq_trigger (irq trigger cnode index depth : Z) : prog lib Z :=
  r ← perform (sel4rpc_call (RpcMessage_irq_simple true irq trigger) cnode index depth);
  if negb (rpc_ret r =? 0) then mret (rpc_ret r) else mret (errorCode r).

Definition get_msi (root index depth pci_bus pci_dev pci_func handle vector : Z) : prog lib Z :=
  r ← perform (sel4rpc_call (RpcMessage_irq_msi pci_bus pci_dev pci_func handle vector)
                 root index depth);
  if negb (rpc_ret r =? 0) then mret (rpc_ret r)
  else assert_that (errorCode r =? 0);; mret 0.

(** [polarity] is sent the argument called [edge]. *)
Definition get_ioapic (root index depth ioapic pin edge level vector : Z) : prog lib Z :=
  r ← perform (sel4rpc_call (RpcMessage_irq_ioapic ioapic pin edge level vector) root index depth);
  if negb (rpc_ret r =? 0) then mret (rpc_ret r)
  else assert_that (errorCode r =? 0);; mret 0.

(** The result of the call is not looked at: the error code and the cookie
    are whatever the message holds afterwards. *)
Definition benchmark_utspace_alloc_at_fn (root capPtr capDepth type size_bits paddr : Z)
  : prog lib (Z * Z) :=
  r ← perform (sel4rpc_call (RpcMessage_memory paddr size_bits type Action_ALLOCATE)
                 root capPtr capDepth);
  mret (errorCode r, cookie r).

Definition benchmark_utspace_free_fn (type size_bits target : Z) : prog lib unit :=
  _ ← perform (sel4rpc_call (RpcMessage_memory target size_bits type Action_FREE)
                 seL4_CapNull seL4_CapNull seL4_CapNull);
  mret tt.

End Rpc.

(** ** The [simple_t] handed to the allocator

    Every function gets the environment as its data. *)
Module Simple.
Section simple.
Context `{Platform}.

(** The functions of [arch_simple_t], and those of the architecture: Arm and
    RISC-V have the same one. *)
Inductive arch_functions :=
  | irq_trigger_fn (f : Z → Z → Z → Z → Z → prog lib Z)
  | msi_ioapic_fns (msi : Z → Z → Z → Z → Z → Z → Z → Z → prog lib Z)
      (ioapic : Z → Z → Z → Z → Z → Z → Z → Z → prog lib Z).
Record arch_simple_t := ArchSimple {
  arch_irq : Z → Z → Z → Z → prog lib Z;
  arch_fns : arch_functions;
}.
Record simple_t := SimpleT {
  cap_count : Z;
  nth_cap : Z → Z;
  cnode_size : Z;
  untyped_count : Z;
  nth_untyped : Z → Z * option (Z * Z * bool);
  core_count : Z;
  simple_sched_ctrl : Z → Z;
  simple_bootinfo_len : Z;
  arch_simple : arch_simple_t;
}.

Definition benchmark_arch_get_simple : arch_functions :=
  if CONFIG_ARCH_X86 then msi_ioapic_fns Rpc.get_msi Rpc.get_ioapic else irq_trigger_fn Rpc.get_irq_trigger.

Definition init_simple (args : benchmark_args_t) : simple_t := {|
  cap_count := Caps.get_cap_count args;
  nth_cap := Caps.get_nth_cap args;
  cnode_size := Caps.get_cnode_size;
  untyped_count := Caps.get_untyped_count;
  nth_untyped := Caps.get_nth_untyped args;
  core_count := Caps.get_core_count args;
  simple_sched_ctrl := Caps.sched_ctrl args;
  simple_bootinfo_len := Caps.extended_bootinfo_len;
  arch_simple := ArchSimple Rpc.get_irq benchmark_arch_get_simple |}.

(** [benchmark_write(data, count)], the serial output of the C library. *)
Definition benchmark_write (data count : Z) : prog lib Z := perform (serial_server_write data count).
End simple.
End Simple.

(** ** Virtual memory *)
Module VSpace.
Section vspace.
Context `{Platform}.

(** [sel4utils_elf_region_t], without its reservation. *)
Record elf_region := ElfRegion {
  reservation_vstart : Z;
  region_size : Z;
  elf_vstart : Z;
  cacheable : bool;
}.

Definition parse_code_region (executable_start etext : Z) : elf_region :=
  let vstart := round_down executable_start page_bytes in
  ElfRegion vstart (etext ⊟[seL4_WordBits] vstart) vstart true.

(** One iteration of the loop of [add_frames]. *)
Definition add_frame (st : list Z * Z) (i : Z) : outcome (list Z * Z) :=
  let '(frames, addr) := st in
  frames ← defined (aset frames i addr);
  Ok (frames, addr ⊞[seL4_WordBits] page_bytes).

(** [add_frames(frames, start, addr, num_frames)]: the index behind the last
    frame, and the array. *)
Definition add_frames (frames : list Z) (start addr num_frames : Z) : outcome (Z * list Z) :=
  '(frames, _) ← fold_outcome add_frame (seqZ start num_frames) (frames, addr);
  Ok (start + num_frames, frames).

(** The four calls of [init_vspace], on the array of
    [stack_pages + results_size + ipc_buffer_size] elements. *)
Definition existing_frames (stack_pages stack_vaddr results_addr results_size ipc_buffer
    ipc_buffer_size args_vaddr : Z) : outcome (list Z) :=
  let frames := replicate (Z.to_nat (stack_pages + results_size + ipc_buffer_size)) 0 in
  '(index, frames) ← add_frames frames 0 results_addr results_size;
  '(index, frames) ← add_frames frames index ipc_buffer ipc_buffer_size;
  '(index, frames) ← add_frames frames index stack_vaddr stack_pages;
  '(index, frames) ← add_frames frames index args_vaddr 1;
  Ok frames.

(** [BYTES_TO_SIZE_BITS_PAGES] and [sizeof(seL4_IPCBuffer)] are defined
    outside. *)
Context (BYTES_TO_SIZE_BITS_PAGES : Z → Z → Z) (sizeof_IPCBuffer : Z).

Definition init_vspace (stack_pages stack_vaddr results_addr results_bytes ipc_buffer args_vaddr : Z)
  : prog lib unit :=
  let results_size := BYTES_TO_SIZE_BITS_PAGES results_bytes seL4_PageBits in
  let ipc_buffer_size := BYTES_TO_SIZE_BITS_PAGES sizeof_IPCBuffer seL4_PageBits in
  match existing_frames stack_pages stack_vaddr results_addr results_size ipc_buffer
          ipc_buffer_size args_vaddr with
  | Ok frames =>
      error ← perform (bootstrap_vspace frames);
      fatal_if (negb (error =? 0))
  | Fatal => Stop Abort
  | Undef => Stop Undefined
  end.

End vspace.
End VSpace.

(** ** Processes and threads *)
Module Process.
Section process.
Context `{Platform}.

(** The parts of [sel4utils_process_t] that the library uses: its handle, the
    top of the stack, the address of the IPC buffer, the TCB. *)
Record process_t := ProcessT {
  process_id : Z;
  stack_top : Z;
  ipc_buffer_addr : Z;
  tcb : Z;
}.

Definition PAGE_SIZE_4K : Z := 4096.
Definition word_size : Z := seL4_WordBits / 8.

Definition get_process_config (prio : Z) (entry_point : val) : list config_step :=
  [config_new; config_noelf entry_point; config_create_cnode CONFIG_SEL4UTILS_CSPACE_SIZE_BITS;
   config_create_vspace; config_priority prio] ++
  (if CONFIG_KERNEL_MCS then [config_sched_params] else []) ++ [config_mcp prio].

Definition benchmark_shallow_clone_process (process prio : Z) (entry_point : val) : prog lib unit :=
  let config := get_process_config prio entry_point in
  error ← perform (configure_process_custom process config);
  fatal_if (negb (error =? 0));;
  error ← perform (bootstrap_clone_into_vspace process);
  fatal_if (negb (error =? 0));;
  perform (name_thread process).

Definition benchmark_configure_thread_in_process (process cspace vspace pd thread prio : Z)
    (entry_point : val) : prog lib unit :=
  let config := get_process_config prio entry_point ++ [config_cnode cspace; config_vspace vspace pd] in
  error ← perform (configure_process_custom thread config);
  fatal_if (negb (error =? 0));;
  perform (name_thread thread).

Definition benchmark_configure_thread (fault_ep prio thread : Z) : prog lib unit :=
  let config :=
    [config_new; config_fault_endpoint fault_ep; config_priority prio; config_mcp prio; config_auth] ++
    (if CONFIG_KERNEL_MCS then [config_sched_params] else []) ++ [config_create_reply] in
  error ← perform (configure_thread_config thread config);
  fatal_if (negb (error =? 0));;
  perform (name_thread thread).

(** One child: a message whose label is not the null fault is a fault. *)
Definition wait_child (ep : Z) : prog lib unit :=
  label ← perform (api_wait ep);
  if negb (label =? seL4_Fault_NullFault) then
    perform (print_fault_message label);; Stop Abort
  else mret tt.

Definition benchmark_wait_children (ep num_children : Z) : prog lib unit :=
  loop (seqZ 0 num_children) (λ _, wait_child ep).

(** [benchmark_spawn_process]: its result, and the process it leaves. *)
Definition benchmark_spawn_process (process : process_t) (args : list val) (resume : bool)
  : prog lib (Z * process_t) :=
  tls_size ← perform get_tls_size;
  if PAGE_SIZE_4K <? tls_size then mret (-1, process)
  else
    (* the thread pointer, relative to the local copy *)
    tp_offset ← perform write_tls_image;
    let initial_stack_pointer := stack_top process ⊟[seL4_WordBits] word_size in
    let dest_tls_addr := initial_stack_pointer ⊟[seL4_WordBits] tls_size in
    let dest_tp := dest_tls_addr ⊞[seL4_WordBits] tp_offset in
    let local_tls := TlsImage (ipc_buffer_addr process)
                       (if CONFIG_ARCH_X86 then Some dest_tp else None) in
    '(error, initial_stack_pointer) ←
      perform (stack_write (process_id process) local_tls tls_size initial_stack_pointer);
    if negb (error =? 0) then mret (-1, process)
    else
      assert_that (dest_tls_addr =? initial_stack_pointer);;
      let initial_stack_top := stack_top process in
      let moved := round_down (initial_stack_pointer ⊟[seL4_WordBits] word_size) STACK_CALL_ALIGNMENT in
      let process := ProcessT (process_id process) moved (ipc_buffer_addr process) (tcb process) in
      error ← perform (spawn_process (process_id process) (stack_top process) args false);
      if negb (error =? 0) then mret (error, process)
      else
        let process := ProcessT (process_id process) initial_stack_top (ipc_buffer_addr process)
                         (tcb process) in
        error ← perform (TCB_SetTLSBase (tcb process) dest_tp);
        if negb (error =? 0) then mret (error, process)
        else if resume then
          error ← perform (TCB_Resume (tcb process));
          mret (error, process)
        else mret (error, process).

(** [seL4_TCBFlag_NoFlag] and [seL4_TCBFlag_fpuDisabled] *)
Context (seL4_TCBFlag_NoFlag seL4_TCBFlag_fpuDisabled : Z).

Definition configure_fpu (tcb : Z) (fpu_on : bool) : prog lib unit :=
  let '(flags_clear, flags_set) :=
    if fpu_on then (seL4_TCBFlag_fpuDisabled, seL4_TCBFlag_NoFlag)
    else (seL4_TCBFlag_NoFlag, seL4_TCBFlag_fpuDisabled) in
  error ← perform (TCB_SetFlags tcb flags_clear flags_set);
  assert_that (error =? 0).

End process.
End Process.

(** ** The environment of a benchmark *)
Module Env.
Section env.
Context `{Platform}.

(** The parts of [env_t] that the library itself changes. *)
Record env_t := EnvT {
  args : benchmark_args_t;
  slab_vka : vka_t;
  timer_initialised : bool;
  region : VSpace.elf_region;
  io_fdt : option Z;
}.

Definition with_vka (v : vka_t) (e : env_t) : env_t :=
  EnvT (args e) v (timer_initialised e) (region e) (io_fdt e).
Definition with_timer (e : env_t) : env_t :=
  EnvT (args e) (slab_vka e) true (region e) (io_fdt e).

(** [CONFIG_LIB_PLAT_SUPPORT_HAVE_TIMER] *)
Context (HAVE_TIMER : bool).

Definition benchmark_init_timer (env : env_t) : prog lib env_t :=
  let utspace_alloc_copy := utspace_alloc_at (slab_vka env) in
  let utspace_free_copy := utspace_free (slab_vka env) in
  let env := with_vka (Vka benchmark_utspace_alloc_at benchmark_utspace_free) env in
  (if HAVE_TIMER then
     error ← perform (ltimer_default_init (slab_vka env));
     fatal_if (negb (error =? 0))
   else Stop Abort);;
  let env := with_vka (Vka utspace_alloc_copy utspace_free_copy) env in
  mret (with_timer env).

(** [benchmark_finished]; the driver does not answer the last call. *)
Definition benchmark_finished (env : env_t) (exit_code : Z) : prog lib unit :=
  (if timer_initialised env then
     let env := with_vka (Vka (utspace_alloc_at (slab_vka env)) benchmark_utspace_free) env in
     perform (ltimer_destroy (slab_vka env))
   else mret tt);;
  perform serial_server_disconnect;;
  perform (seL4_Call SEL4UTILS_ENDPOINT_SLOT seL4_Fault_NullFault exit_code).

Definition benchmark_io_fdt_get (cookie : Z) : Z := if negb (cookie =? 0) then cookie else 0.

(** The result, and the interface when it was set up. *)
Definition benchmark_setup_io_fdt (io_fdt fdt_blob : Z) : Z * option Z :=
  if (io_fdt =? 0) || (fdt_blob =? 0) then (-1, None) else (0, Some fdt_blob).

Definition init_allocator : prog lib unit :=
  allocator ← perform bootstrap_allocator;
  fatal_if (allocator =? 0).

Definition init_allocator_vspace : prog lib unit :=
  res ← perform mspace_alloc_reservation;
  fatal_if (res =? 0);;
  '(error, vaddr) ← perform reserve_range_no_alloc;
  fatal_if (negb (error =? 0));;
  perform (configure_virtual_pool vaddr).

(** [seL4_BadgeBits], the linker's symbols and the IPC buffer of the process;
    [initial] are the library's allocation functions. *)
Context (seL4_BadgeBits : Z) (executable_start etext ipc_buffer : Z) (initial : vka_t)
  (BYTES_TO_SIZE_BITS_PAGES : Z → Z → Z) (sizeof_IPCBuffer io_fdt_addr : Z).

(** [benchmark_get_env], from the arguments the first argument points to;
    [object_freq] is the number of notifications asked for. *)
Definition benchmark_get_env (argc : Z) (bargs : benchmark_args_t) (args_vaddr results_size object_freq : Z)
  : prog lib env_t :=
  fatal_if (argc <? 1);;
  init_allocator;;
  VSpace.init_vspace BYTES_TO_SIZE_BITS_PAGES sizeof_IPCBuffer (stack_pages bargs) (stack_vaddr bargs)
    (results bargs) results_size ipc_buffer args_vaddr;;
  init_allocator_vspace;;
  let region := VSpace.parse_code_region executable_start etext in
  error ← perform (serial_server_client_connect (serial_ep bargs));
  fatal_if (negb (error =? 0));;
  error ← perform (slab_init (object_freq + 1));
  fatal_if (negb (error =? 0));;
  error ← perform alloc_notification;
  fatal_if (negb (error =? 0));;
  error ← perform new_malloc_ops;
  fatal_if (negb (error =? 0));;
  error ← perform new_io_mapper;
  fatal_if (negb (error =? 0));;
  io_fdt ← (if negb (fdt bargs =? 0) then
              let '(error, get_fn) := benchmark_setup_io_fdt io_fdt_addr (fdt bargs) in
              fatal_if (negb (error =? 0));; mret get_fn
            else mret None);
  error ← perform new_arch_ops;
  fatal_if (negb (error =? 0));;
  error ← perform (new_mini_irq_ops (2 ^ seL4_BadgeBits - 1));
  fatal_if (negb (error =? 0));;
  mret (EnvT bargs initial false region io_fdt).

End env.
End Env.

(** ** The capability numbering *)
Section caps_theorems.
Context `{Platform}.
Import Caps.

(** The slots of the layout that hold no capability. *)
Definition hole (c : Z) : bool :=
  CONFIG_X86_64 && (c =? SEL4UTILS_ASID_POOL_SLOT) ||
  negb CONFIG_KERNEL_MCS &&
    ((c =? SEL4UTILS_SCHED_CONTEXT_SLOT) || (c =? SEL4UTILS_SCHED_CONTEXT_SLOT + 1)).

(** The layout is the one the driver builds: its capabilities come after the
    fixed slots. *)
Definition layout_ok (args : benchmark_args_t) : Prop :=
  SEL4UTILS_SCHED_CONTEXT_SLOT + 2 < first_free args < 2 ^ (int_bits - 1).

Ltac slots :=
  unfold layout_ok, hole, get_nth_cap, get_cap_count in *;
  pose proof slots_law;
  repeat match goal with
  | H : context [swrap int_bits (first_free ?a)] |- _ =>
      rewrite (swrap_small int_bits (first_free a)) in H by
        (change (2 ^ (int_bits - 1)) with 2147483648 in *; unfold int_bits; lia)
  | |- context [swrap int_bits (first_free ?a)] =>
      rewrite (swrap_small int_bits (first_free a)) by
        (change (2 ^ (int_bits - 1)) with 2147483648 in *; unfold int_bits; lia)
  end.

Lemma small_word z : 0 <= z < 2147483648 → wrap seL4_WordBits z = z.
Proof.
  intros Hz. apply wrap_small. unfold in_word. pose proof (Z.pow_le_mono_r 2 31 seL4_WordBits).
  change (2 ^ 31) with 2147483648 in *. destruct word_bits_law; lia.
Qed.

(** Split on every comparison, innermost first, and drop the wraps. *)
Ltac by_slots :=
  repeat first
    [ rewrite small_word by lia
    | match goal with
      | |- context [?x <? ?y] => destruct (Z.ltb_spec x y); try lia
      | |- context [?x <=? ?y] => destruct (Z.leb_spec x y); try lia
      | |- context [?x =? ?y] => destruct (Z.eqb_spec x y); try lia
      end
    | progress cbn [andb orb negb] ];
  try done; try lia; try (split; lia || done).

Lemma get_nth_cap_spec args :
  layout_ok args →
  (∀ n, 0 <= n < get_cap_count args →
     1 <= get_nth_cap args n < first_free args ∧ hole (get_nth_cap args n) = false) ∧
  (∀ m n, 0 <= m < n → n < get_cap_count args → get_nth_cap args m < get_nth_cap args n) ∧
  (∀ c, 1 <= c < first_free args → hole c = false →
     ∃ n, 0 <= n < get_cap_count args ∧ get_nth_cap args n = c) ∧
  (∀ n, get_cap_count args <= n → get_nth_cap args n = seL4_CapNull).
Proof.
  intros Hok. change (2 ^ (int_bits - 1)) with 2147483648 in *. split; [|split; [|split]].
  - intros n. slots. change (2 ^ (int_bits - 1)) with 2147483648 in *.
    destruct CONFIG_X86_64, CONFIG_KERNEL_MCS; simpl; intros Hn; by_slots.
  - intros m n. slots. change (2 ^ (int_bits - 1)) with 2147483648 in *.
    destruct CONFIG_X86_64, CONFIG_KERNEL_MCS; simpl; intros Hm Hn; by_slots.
  - intros c. slots. change (2 ^ (int_bits - 1)) with 2147483648 in *.
    intros Hc Hhole.
    exists (c - 1 - (if CONFIG_X86_64 && (SEL4UTILS_ASID_POOL_SLOT <? c) then 1 else 0)
                  - (if negb CONFIG_KERNEL_MCS && (SEL4UTILS_SCHED_CONTEXT_SLOT <? c) then 2 else 0)).
    revert Hhole. destruct CONFIG_X86_64, CONFIG_KERNEL_MCS; simpl; by_slots.
  - intros n. slots. destruct CONFIG_X86_64, CONFIG_KERNEL_MCS; simpl; intros Hn; by_slots.
Qed.

(** C15.  [get_cap_count] and [get_nth_cap] number the capabilities the process
    was given: the indices below the count go, in increasing order, to every
    slot between the null slot and the first free one except the holes of the
    configuration (the ASID pool on x86-64, the two scheduling slots without
    MCS), each exactly once; an index beyond the count gives the null
    capability. *)
Theorem get_nth_cap_correct args :
  layout_ok args →
  (∀ n, 0 <= n < get_cap_count args →
     1 <= get_nth_cap args n < first_free args ∧ hole (get_nth_cap args n) = false) ∧
  (∀ m n, 0 <= m < n → n < get_cap_count args → get_nth_cap args m < get_nth_cap args n) ∧
  (∀ c, 1 <= c < first_free args → hole c = false →
     ∃ n, 0 <= n < get_cap_count args ∧ get_nth_cap args n = c) ∧
  (∀ n, get_cap_count args <= n → get_nth_cap args n = seL4_CapNull).
Proof. apply get_nth_cap_spec. Qed.
End caps_theorems.

(** ** The frames of the bootstrap *)
Section vspace_theorems.
Context `{Platform}.
Import VSpace.

(** The array with [n] frames from [addr] on written at [start]. *)
Definition with_frames (frames : list Z) (start : nat) (addr : Z) (n : nat) : list Z :=
  take start frames ++
  ((λ k, wrap seL4_WordBits (addr + Z.of_nat k * page_bytes)) <$> seq 0 n) ++
  drop (start + n) frames.

Lemma length_with_frames frames start addr n :
  (start + n <= length frames)%nat → length (with_frames frames start addr n) = length frames.
Proof.
  intros Hn. unfold with_frames. rewrite !length_app, length_fmap, length_seq, length_take, length_drop.
  lia.
Qed.

Lemma with_frames_step frames start addr n :
  (start + n < length frames)%nat →
  <[(start + n)%nat := wrap seL4_WordBits (addr + Z.of_nat n * page_bytes)]>
    (with_frames frames start addr n) = with_frames frames start addr (S n).
Proof.
  intros Hn. unfold with_frames.
  rewrite insert_app_r_alt by (rewrite length_take; lia). f_equal.
  rewrite length_take, Nat.min_l by lia. replace (start + n - start)%nat with n by lia.
  rewrite insert_app_r_alt by (rewrite length_fmap, length_seq; lia).
  rewrite length_fmap, length_seq, Nat.sub_diag, seq_S, fmap_app, <-app_assoc. f_equal.
  destruct (lookup_lt_is_Some_2 frames (start + n)) as [x Hx]; [lia|].
  rewrite (drop_S _ _ _ Hx). cbn [fmap list_fmap app insert list_insert]. do 2 f_equal. lia.
Qed.

Lemma add_frame_ok frames addr (i : nat) :
  (i < length frames)%nat →
  add_frame (frames, addr) (Z.of_nat i) = Ok (<[i := addr]> frames, addr ⊞[seL4_WordBits] page_bytes).
Proof. intros Hi. unfold add_frame. rewrite aset_Some by lia. by rewrite Nat2Z.id. Qed.

Lemma add_frame_out frames addr i :
  ¬ 0 <= i < Z.of_nat (length frames) → add_frame (frames, addr) i = Undef.
Proof. intros Hi. unfold add_frame. by rewrite aset_None by done. Qed.

Lemma add_frames_loop frames start addr n m :
  (start + m + n <= length frames)%nat → 0 <= addr < 2 ^ seL4_WordBits →
  fold_outcome add_frame (seqZ (Z.of_nat (start + m)) (Z.of_nat n))
    (with_frames frames start addr m, wrap seL4_WordBits (addr + Z.of_nat m * page_bytes)) =
  Ok (with_frames frames start addr (m + n),
      wrap seL4_WordBits (addr + Z.of_nat (m + n) * page_bytes)).
Proof.
  intros Hn Haddr. revert m Hn. induction n as [|n IH]; intros m Hn.
  { by rewrite Nat.add_0_r. }
  rewrite seqZ_succ_l by lia. cbn [fold_outcome].
  rewrite add_frame_ok by (rewrite length_with_frames; lia).
  rewrite with_frames_step by lia. cbn [mbind outcome_bind].
  replace (Z.of_nat (start + m) + 1) with (Z.of_nat (start + S m)) by lia.
  replace (Z.of_nat (S n) - 1) with (Z.of_nat n) by lia.
  replace (wrap seL4_WordBits (addr + Z.of_nat m * page_bytes) ⊞[seL4_WordBits] page_bytes)
    with (wrap seL4_WordBits (addr + Z.of_nat (S m) * page_bytes)).
  { rewrite IH by lia. by replace (S m + n)%nat with (m + S n)%nat by lia. }
  change (eqw seL4_WordBits (addr + Z.of_nat (S m) * page_bytes)
    (wrap seL4_WordBits (addr + Z.of_nat m * page_bytes) + page_bytes)).
  drop_wraps seL4_WordBits. unfold eqw. f_equal. lia.
Qed.

Lemma add_frames_spec frames start addr n :
  (start + n <= length frames)%nat → 0 <= addr < 2 ^ seL4_WordBits →
  add_frames frames (Z.of_nat start) addr (Z.of_nat n) =
    Ok (Z.of_nat (start + n), with_frames frames start addr n).
Proof.
  intros Hn Haddr. unfold add_frames.
  pose proof (add_frames_loop frames start addr n 0) as E.
  rewrite Nat.add_0_r, Z.mul_0_l, Z.add_0_r, Nat.add_0_l in E.
  rewrite (wrap_small _ addr) in E by done.
  replace (with_frames frames start addr 0) with frames in E.
  2:{ unfold with_frames. simpl. by rewrite Nat.add_0_r, take_drop. }
  rewrite E by done. simpl. by rewrite Nat2Z.inj_add.
Qed.

(** A write behind the end of the array is undefined. *)
Lemma add_frames_full frames addr n :
  (0 < n)%nat → add_frames frames (Z.of_nat (length frames)) addr (Z.of_nat n) = Undef.
Proof.
  intros Hn. unfold add_frames. rewrite seqZ_succ_l by lia. cbn [fold_outcome].
  by rewrite add_frame_out by lia.
Qed.

Lemma existing_frames_undefined stack_pages stack_vaddr results_addr results_size ipc_buffer
    ipc_buffer_size args_vaddr :
  0 <= stack_pages → 0 <= results_size → 0 <= ipc_buffer_size →
  in_word seL4_WordBits stack_vaddr → in_word seL4_WordBits results_addr →
  in_word seL4_WordBits ipc_buffer →
  existing_frames stack_pages stack_vaddr results_addr results_size ipc_buffer ipc_buffer_size
    args_vaddr = Undef.
Proof.
  intros Hs Hr Hi As Ar Ai. unfold existing_frames.
  set (s := Z.to_nat stack_pages). set (r := Z.to_nat results_size). set (i := Z.to_nat ipc_buffer_size).
  replace stack_pages with (Z.of_nat s) by lia. replace results_size with (Z.of_nat r) by lia.
  replace ipc_buffer_size with (Z.of_nat i) by lia.
  replace (Z.to_nat (Z.of_nat s + Z.of_nat r + Z.of_nat i)) with (s + r + i)%nat by lia.
  set (f0 := replicate (s + r + i) 0).
  assert (L0 : length f0 = (s + r + i)%nat) by apply length_replicate.
  rewrite (add_frames_spec f0 0 _ r) by (done || lia). cbn [mbind outcome_bind].
  set (f1 := with_frames f0 0 results_addr r).
  assert (L1 : length f1 = (s + r + i)%nat) by (unfold f1; rewrite length_with_frames; lia).
  rewrite (add_frames_spec f1 (0 + r) _ i) by (done || lia). cbn [mbind outcome_bind].
  set (f2 := with_frames f1 (0 + r) ipc_buffer i).
  assert (L2 : length f2 = (s + r + i)%nat) by (unfold f2; rewrite length_with_frames; lia).
  rewrite (add_frames_spec f2 (0 + r + i) _ s) by (done || lia). cbn [mbind outcome_bind].
  set (f3 := with_frames f2 (0 + r + i) stack_vaddr s).
  assert (L3 : length f3 = (s + r + i)%nat) by (unfold f3; rewrite length_with_frames; lia).
  replace (0 + r + i + s)%nat with (length f3) by lia.
  change 1 with (Z.of_nat 1). by rewrite add_frames_full by lia.
Qed.

(** C19.  [init_vspace] always writes one element past [existing_frames]: the
    array has room for the stack, the results and the IPC buffer, and the page
    of the arguments comes on top.  Whatever the sizes, no call to the library
    is reached. *)
Theorem init_vspace_undefined pages_of sizeof_IPCBuffer env tr stack_pages stack_vaddr results_addr
    results_bytes ipc_buffer args_vaddr :
  (∀ bytes, 0 <= pages_of bytes seL4_PageBits) → 0 <= stack_pages →
  in_word seL4_WordBits stack_vaddr → in_word seL4_WordBits results_addr →
  in_word seL4_WordBits ipc_buffer →
  exec env (init_vspace pages_of sizeof_IPCBuffer stack_pages stack_vaddr results_addr results_bytes
              ipc_buffer args_vaddr) tr = (Undef, tr).
Proof.
  intros Hp Hs As Ar Ai. unfold init_vspace. by rewrite existing_frames_undefined.
Qed.
End vspace_theorems.

(** ** Starting and awaiting children *)
Section process_theorems.
Context `{Platform}.
Import Process.

(** [sel4utils_stack_write] moves the stack pointer below what it wrote. *)
Definition stack_write_law (env : environment lib) : Prop :=
  ∀ tr p image len sp, (env tr _ (stack_write p image len sp)).1 = 0 →
    (env tr _ (stack_write p image len sp)).2 = sp ⊟[seL4_WordBits] len.

(** Where the TLS image goes, and the stack pointer below it. *)
Definition tls_base (p : process_t) (tls_size : Z) : Z :=
  (stack_top p ⊟[seL4_WordBits] word_size) ⊟[seL4_WordBits] tls_size.
Definition entry_stack (p : process_t) (tls_size : Z) : Z :=
  round_down (tls_base p tls_size ⊟[seL4_WordBits] word_size) STACK_CALL_ALIGNMENT.

Lemma round_down_spec n b : 0 < b → (b | round_down n b) ∧ round_down n b <= n < round_down n b + b.
Proof.
  intros Hb. unfold round_down. pose proof (Z.mod_pos_bound n b Hb). split; [|lia].
  exists (n `div` b). pose proof (Z.div_mod n b). lia.
Qed.

Lemma word_size_pos : 0 < word_size.
Proof. unfold word_size. destruct word_bits_law as [-> | ->]; reflexivity. Qed.

(** C16.  [benchmark_spawn_process], when the runtime and the kernel accept
    every call, and the stack is large enough: the TLS image is written right
    below the last word of the stack, with the address of the IPC buffer of the
    process and, on x86, its own address in the new process; the process is
    entered with an aligned stack below the image; the thread pointer is the
    image's address plus the offset the runtime gave; and the process keeps its
    stack top. *)
Theorem benchmark_spawn_process_correct env p args resume tr :
  stack_write_law env →
  let tls_size := env tr _ get_tls_size in
  let tr1 := tr ++ [Ev get_tls_size tls_size] in
  let tp_offset := env tr1 _ write_tls_image in
  let tr2 := tr1 ++ [Ev write_tls_image tp_offset] in
  let base := tls_base p tls_size in
  let tp := base ⊞[seL4_WordBits] tp_offset in
  let image := TlsImage (ipc_buffer_addr p) (if CONFIG_ARCH_X86 then Some tp else None) in
  let sp := stack_top p ⊟[seL4_WordBits] word_size in
  0 <= tls_size <= PAGE_SIZE_4K → 2 * word_size + PAGE_SIZE_4K <= stack_top p < 2 ^ seL4_WordBits →
  (∀ tr, (env tr _ (stack_write (process_id p) image tls_size sp)).1 = 0) →
  (∀ tr, env tr _ (spawn_process (process_id p) (entry_stack p tls_size) args false) = 0) →
  (∀ tr, env tr _ (TCB_SetTLSBase (tcb p) tp) = 0) →
  exec env (benchmark_spawn_process p args resume) tr =
    (let tr3 := tr2 ++
       [Ev (stack_write (process_id p) image tls_size sp) (0, base);
        Ev (spawn_process (process_id p) (entry_stack p tls_size) args false) 0;
        Ev (TCB_SetTLSBase (tcb p) tp) 0] in
     if resume
     then (Ok (env tr3 _ (TCB_Resume (tcb p)), p), tr3 ++ [Ev (TCB_Resume (tcb p)) (env tr3 _ (TCB_Resume (tcb p)))])
     else (Ok (0, p), tr3)) ∧
  base = stack_top p - word_size - tls_size ∧
  (STACK_CALL_ALIGNMENT | entry_stack p tls_size) ∧ entry_stack p tls_size + word_size <= base.
Proof.
  intros Hlaw tls_size tr1 tp_offset tr2 base tp image sp Htls Htop Hw Hs Ht.
  pose proof word_size_pos. pose proof alignment_law.
  assert (Esp : sp = stack_top p - word_size).
  { unfold sp. apply wrap_small. unfold in_word, PAGE_SIZE_4K in *. lia. }
  assert (Ebase : base = stack_top p - word_size - tls_size).
  { unfold base, tls_base. fold sp. rewrite Esp. apply wrap_small. unfold in_word, PAGE_SIZE_4K in *. lia. }
  assert (Eentry : base ⊟[seL4_WordBits] word_size = base - word_size).
  { apply wrap_small. unfold in_word, PAGE_SIZE_4K in *. lia. }
  split.
  2:{ split; [done|]. unfold entry_stack. fold base. rewrite Eentry.
      destruct (round_down_spec (base - word_size) STACK_CALL_ALIGNMENT) as [? ?]; [done|].
      split; [done|lia]. }
  unfold benchmark_spawn_process. rewrite exec_bind, exec_perform. fold tls_size tr1.
  destruct (Z.ltb_spec PAGE_SIZE_4K tls_size); [lia|].
  rewrite exec_bind, exec_perform. fold tp_offset tr2.
  fold sp. change (sp ⊟[seL4_WordBits] tls_size) with base. fold tp. fold image.
  rewrite exec_bind, exec_perform.
  pose proof (Hlaw tr2 _ _ _ _ (Hw tr2)) as E2. specialize (Hw tr2).
  destruct (env tr2 _ (stack_write _ image tls_size sp)) as [err sp']. simpl in Hw, E2. subst err sp'.
  change (sp ⊟[seL4_WordBits] tls_size) with base. rewrite Z.eqb_refl. cbn [negb].
  rewrite exec_bind. unfold assert_that. rewrite exec_fatal_if, Z.eqb_refl. cbn [negb].
  rewrite exec_bind, exec_perform. cbn [process_id stack_top].
  change (round_down (base ⊟[seL4_WordBits] word_size) STACK_CALL_ALIGNMENT) with (entry_stack p tls_size).
  rewrite Hs, Z.eqb_refl. cbn [negb].
  rewrite exec_bind, exec_perform. cbn [tcb]. rewrite Ht, Z.eqb_refl. cbn [negb].
  rewrite <-!app_assoc. cbn [app]. replace (ProcessT _ _ _ _) with p by by destruct p.
  destruct resume; [|done]. rewrite exec_bind, exec_perform, exec_ret, <-app_assoc. done.
Qed.

(** The calls of a parent that has awaited [k] children. *)
Definition awaited (ep : Z) (k : nat) : list (event lib) := replicate k (Ev (api_wait ep) 0).

Lemma wait_children_spec env ep n tr :
  (exec env (benchmark_wait_children ep (Z.of_nat n)) tr = (Ok tt, tr ++ awaited ep n)) ∨
  (∃ k label, (k < n)%nat ∧ label ≠ seL4_Fault_NullFault ∧
     exec env (benchmark_wait_children ep (Z.of_nat n)) tr =
       (Fatal, tr ++ awaited ep k ++
          [Ev (api_wait ep) label; Ev (print_fault_message label) tt])).
Proof.
  unfold benchmark_wait_children.
  assert (∀ a, (exec env (loop (seqZ a (Z.of_nat n)) (λ _, wait_child ep)) tr = (Ok tt, tr ++ awaited ep n)) ∨
    (∃ k label, (k < n)%nat ∧ label ≠ seL4_Fault_NullFault ∧
     exec env (loop (seqZ a (Z.of_nat n)) (λ _, wait_child ep)) tr =
       (Fatal, tr ++ awaited ep k ++ [Ev (api_wait ep) label; Ev (print_fault_message label) tt])))
    as Hgen; [|apply Hgen].
  revert tr. induction n as [|n IH]; intros tr a.
  { left. simpl. by rewrite app_nil_r. }
  rewrite seqZ_succ_l by lia. replace (Z.of_nat (S n) - 1) with (Z.of_nat n) by lia.
  set (label := env tr _ (api_wait ep)).
  set (run := exec env (loop _ _) tr).
  assert (Hrun : run = if label =? seL4_Fault_NullFault
    then exec env (loop (seqZ (a + 1) (Z.of_nat n)) (λ _, wait_child ep)) (tr ++ [Ev (api_wait ep) label])
    else (Fatal, tr ++ [Ev (api_wait ep) label; Ev (print_fault_message label) tt])).
  { unfold run. cbn [loop]. rewrite exec_bind. unfold wait_child at 1.
    rewrite exec_bind, exec_perform. fold label. destruct (label =? seL4_Fault_NullFault); [done|].
    cbn [negb]. rewrite exec_bind, exec_perform. destruct (env _ _ (print_fault_message label)).
    by rewrite <-app_assoc. }
  rewrite Hrun. destruct (Z.eqb_spec label seL4_Fault_NullFault) as [E|E].
  - rewrite E. change seL4_Fault_NullFault with 0.
    destruct (IH (tr ++ [Ev (api_wait ep) 0]) (a + 1)) as [-> | (k & l & Hk & Hl & ->)].
    + left. by rewrite <-app_assoc.
    + right. exists (S k), l. split; [lia|]. split; [done|]. by rewrite <-app_assoc.
  - right. exists 0%nat, label. split; [lia|]. done.
Qed.

(** C17.  [benchmark_wait_children] returns when [num_children] messages with
    the label of no fault have arrived, having waited exactly that many times;
    at the first other label it prints the fault and aborts, and waits no
    more. *)
Theorem benchmark_wait_children_correct env ep n tr :
  (exec env (benchmark_wait_children ep (Z.of_nat n)) tr = (Ok tt, tr ++ awaited ep n)) ∨
  (∃ k label, (k < n)%nat ∧ label ≠ seL4_Fault_NullFault ∧
     exec env (benchmark_wait_children ep (Z.of_nat n)) tr =
       (Fatal, tr ++ awaited ep k ++
          [Ev (api_wait ep) label; Ev (print_fault_message label) tt])).
Proof. apply wait_children_spec. Qed.
End process_theorems.

(** ** The timer and the end of a benchmark *)
Section env_theorems.
Context `{Platform}.
Import Env.

(** The allocation functions of a timer's lifetime. *)
Definition remote_vka : vka_t := Vka benchmark_utspace_alloc_at benchmark_utspace_free.

(** C18.  The timer is initialised with the two allocation functions that ask
    the driver, and only then: afterwards the functions of the benchmark are
    the ones from before, and the environment knows there is a timer.  A
    benchmark that ends frees the timer through the remote function, before it
    leaves the serial server and sends its exit code; one that never had a
    timer does not touch it.  An initialisation that fails is fatal. *)
Theorem timer_lifetime (os : environment lib) env exit_code tr :
  let init := os tr _ (ltimer_default_init remote_vka) in
  exec os (env ← benchmark_init_timer true env; benchmark_finished env exit_code) tr =
    (if init =? 0
     then (Ok tt, tr ++
       [Ev (ltimer_default_init remote_vka) 0;
        Ev (ltimer_destroy (Vka (utspace_alloc_at (slab_vka env)) benchmark_utspace_free)) tt;
        Ev serial_server_disconnect tt;
        Ev (seL4_Call SEL4UTILS_ENDPOINT_SLOT seL4_Fault_NullFault exit_code) tt])
     else (Fatal, tr ++ [Ev (ltimer_default_init remote_vka) init])) ∧
  exec os (benchmark_init_timer true env) tr =
    (if init =? 0
     then (Ok (with_timer env), tr ++ [Ev (ltimer_default_init remote_vka) 0])
     else (Fatal, tr ++ [Ev (ltimer_default_init remote_vka) init])) ∧
  (timer_initialised env = false →
   exec os (benchmark_finished env exit_code) tr =
     (Ok tt, tr ++
       [Ev serial_server_disconnect tt;
        Ev (seL4_Call SEL4UTILS_ENDPOINT_SLOT seL4_Fault_NullFault exit_code) tt])).
Proof.
  intros init.
  assert (Hu : ∀ (x : unit), x = tt) by by intros [].
  assert (Hinit : exec os (benchmark_init_timer true env) tr =
    (if init =? 0
     then (Ok (with_timer env), tr ++ [Ev (ltimer_default_init remote_vka) 0])
     else (Fatal, tr ++ [Ev (ltimer_default_init remote_vka) init]))).
  { unfold benchmark_init_timer. cbn [slab_vka with_vka]. fold remote_vka.
    rewrite !exec_bind, exec_perform, exec_fatal_if. fold init.
    destruct (Z.eqb_spec init 0) as [->|]; cbn [negb]; [|done].
    rewrite exec_ret. unfold with_timer, with_vka. by destruct env as [? [] ? ? ?]. }
  split; [|split; [done|]].
  - rewrite exec_bind, Hinit. destruct (init =? 0); [|done].
    unfold benchmark_finished. cbn [timer_initialised with_timer slab_vka with_vka].
    rewrite exec_bind, exec_perform, exec_bind, exec_perform, exec_perform.
    rewrite !(Hu (os _ _ _)). by rewrite <-!app_assoc.
  - intros Ht. unfold benchmark_finished. rewrite Ht.
    rewrite exec_bind, exec_ret, exec_bind, !exec_perform.
    rewrite !(Hu (os _ _ _)). by rewrite <-!app_assoc.
Qed.
End env_theorems.

(** ** Witnesses *)
Definition example_args (first_free : Z) : benchmark_args_t :=
  BenchmarkArgs 24 0x10000000 16 0x20000000 1 0 first_free 9 0 8.

(** On x86-64 without MCS slots 4, 6 and 7 are holes. *)
Lemma get_nth_cap_correct_witness :
  layout_ok (H := x86_64) (example_args 11) ∧
  Caps.get_nth_cap (H := x86_64) (example_args 11) <$> seqZ 0 8 = [1; 2; 3; 5; 8; 9; 10; 0] ∧
  ∃ n, 0 <= n < 7 ∧ Caps.get_nth_cap (H := x86_64) (example_args 11) n = 8.
Proof.
  assert (Hok : layout_ok (H := x86_64) (example_args 11)) by by vm_compute.
  split; [exact Hok|]. split; [by vm_compute|].
  destruct (@get_nth_cap_correct x86_64 (example_args 11) Hok) as (_ & _ & Hall & _).
  apply (Hall 8); [by vm_compute|by vm_compute].
Defined.

(** A library that answers every call with success. *)
Definition answer {X} (e : lib X) : X :=
  match e in lib X return X with
  | sel4rpc_call _ _ _ _ => RpcReply 0 0 0
  | bootstrap_vspace _ => 0
  | configure_process_custom _ _ => 0
  | bootstrap_clone_into_vspace _ => 0
  | configure_thread_config _ _ => 0
  | name_thread _ => tt
  | api_wait _ => 0
  | print_fault_message _ => tt
  | get_tls_size => 256
  | write_tls_image => 192
  | stack_write _ _ len sp => (0, wrap 64 (sp - len))
  | spawn_process _ _ _ _ => 0
  | TCB_SetTLSBase _ _ => 0
  | TCB_Resume _ => 0
  | TCB_SetFlags _ _ _ => 0
  | ltimer_default_init _ => 0
  | ltimer_destroy _ => tt
  | serial_server_disconnect => tt
  | seL4_Call _ _ _ => tt
  | bootstrap_allocator => 1
  | mspace_alloc_reservation => 1
  | reserve_range_no_alloc => (0, 0)
  | configure_virtual_pool _ => tt
  | serial_server_client_connect _ => 0
  | slab_init _ => 0
  | alloc_notification => 0
  | new_malloc_ops => 0
  | new_io_mapper => 0
  | new_arch_ops => 0
  | new_mini_irq_ops _ => 0
  | serial_server_write _ count => count
  end.
Definition example_env : environment lib := λ _ _ e, answer e.

Lemma init_vspace_undefined_witness :
  exec example_env
    (VSpace.init_vspace (H := x86_64) (λ bytes bits, (Z.abs bytes + 2 ^ bits - 1) `div` 2 ^ bits) 1024
       16 0x10000000 0x20000000 5000 0x30000000 0x40000000) [] = (Undef, []).
Proof.
  apply (@init_vspace_undefined x86_64).
  - intros bytes. apply Z.div_pos; [|by vm_compute]. change (2 ^ seL4_PageBits) with 4096. lia.
  - done.
  - by vm_compute.
  - by vm_compute.
  - by vm_compute.
Defined.

Definition example_process : Process.process_t := Process.ProcessT 7 0x10000 0x5000 3.

Lemma benchmark_spawn_process_correct_witness :
  ∃ tr, exec example_env (Process.benchmark_spawn_process (H := x86_64) example_process [Vint 1] true) [] =
    (Ok (0, example_process), tr) ∧
    tr !! 3%nat = Some (Ev (spawn_process 7 0xfef0 [Vint 1] false) 0).
Proof.
  destruct (@benchmark_spawn_process_correct x86_64 example_env example_process [Vint 1] true [])
    as (Hrun & _ & _ & _).
  - by intros tr p image len sp _.
  - vm_compute. split; congruence.
  - vm_compute. split; congruence.
  - done.
  - done.
  - done.
  - eexists. split; [exact Hrun|]. vm_compute. reflexivity.
Defined.
