(* ===== verification/Driver.v ===== *)
(** * Driver: the root task that runs the benchmarks

    [apps/sel4bench/src/main.c] and [plat/*]: it gives every benchmark an
    untyped, a page of arguments, pages for its results and, on Arm, the device
    tree, serves its requests until it sends an exit code, takes everything
    back, and hands the results to the [process] function of Reports.

    Libraries and the kernel are the environment of Program; a call that
    returns a pointer or a handle answers it as an integer, [0] being [NULL]. *)

From S2P Require Import Prelude Platform Program Support.

#[global] Open Scope string_scope.
#[global] Open Scope list_scope.
#[global] Open Scope Z_scope.

Definition EXIT_SUCCESS : Z := 0.
Definition EXIT_FAILURE : Z := 1.

(** [benchmark_t]; its functions are named by the benchmark. *)
Record benchmark_t := Benchmark {
  name : Z;
  enabled : bool;
  results_pages : Z;
}.

(** The objects a run refers to: the handles in [env_t], and those of the new
    process. *)
Record process_t := Proc {
  proc : Z;
  proc_stack_top : Z;
  proc_fault_endpoint : Z;
  proc_reply : Z;
}.

Section driver.
Context `{Platform}.

Definition US_IN_S : Z := 1000000.

(** ** Start-up *)
Definition setup_fault_handler : prog c_call unit :=
  checked "vka_alloc_endpoint" [];;
  checked "api_tcb_set_space" [];;
  checked "sel4utils_start_fault_handler" [];;
  checked "seL4_TCB_SetPriority" [seL4_MaxPrio];;
  if CONFIG_KERNEL_MCS then
    checked "vka_alloc_sched_context" [];;
    checked "api_sched_ctrl_configure" [100 * US_IN_S; 100 * US_IN_S];;
    checked "api_sc_bind" []
  else mret tt.

(** The loop of [find_untyped] from [size_bits] down, [n] being the sizes
    left; the size that was found, or the last error. *)
Fixpoint find_from (size_bits : Z) (n : nat) (error : Z) : prog c_call (Z + Z) :=
  match n with
  | O => mret (inr error)
  | S n =>
      error ← cc "vka_alloc_untyped" [size_bits];
      if error =? 0 then mret (inl size_bits) else find_from (size_bits - 1) n error
  end.

Definition find_untyped : prog c_call Z :=
  found ← find_from seL4_MaxUntypedBits (Z.to_nat (seL4_MaxUntypedBits - seL4_PageBits)) 0;
  match found with
  | inl size_bits => mret size_bits
  | inr error => fatal_if (negb (error =? 0));; mret 0
  end.

(** ** The device tree *)

(** [DIV_ROUND_UP(fdt_size, BIT(seL4_PageBits))] *)
Definition fdt_pages (fdt_size : Z) : Z := (fdt_size + page_bytes - 1) `div` page_bytes.
Definition page_mask (a : Z) : Z := Z.land a (page_bytes - 1).

(** The address of the device tree in the benchmark, from the address the
    pages were mapped at. *)
Definition fdt_address (shared fdt_blob : Z) : Z :=
  if page_mask shared =? page_mask fdt_blob then shared
  else shared ⊞[seL4_WordBits] page_mask fdt_blob.

Definition aligned_fdt_addr (fdt : Z) : Z := round_down fdt page_bytes.

(** The pages shared, and the address the benchmark is told. *)
Definition share_fdt (p : Z) : prog c_call (Z * Z) :=
  fdt_blob ← checked_ptr "ps_io_fdt_get" [];
  fdt_size ← cc "fdt_totalsize" [fdt_blob];
  let num_fdt_pages := fdt_pages fdt_size in
  fdt ← checked_ptr "vspace_share_mem" [p; fdt_blob; num_fdt_pages];
  mret (num_fdt_pages, fdt_address fdt fdt_blob).

(** ** Serving a benchmark *)

(** The loop that waits for the exit code; [None] when [fuel] messages were not
    enough.  [GetMR(0)] is narrowed to an [int]. *)
Fixpoint serve (fuel : nat) (b : benchmark_t) (p : process_t) : prog c_call (option Z) :=
  match fuel with
  | O => mret None
  | S fuel =>
      label ← cc "api_recv" [proc_fault_endpoint p; proc_reply p];
      mr ← cc "seL4_GetMR" [0];
      let result := swrap int_bits mr in
      if negb (label =? seL4_Fault_NullFault) then
        do_call "sel4utils_print_fault_message" [label; name b];;
        do_call "sel4debug_dump_registers" [proc p];;
        mret (Some EXIT_FAILURE)
      else if result =? SEL4BENCH_PROTOBUF_RPC then
        do_call "sel4rpc_server_recv" [];;
        serve fuel b p
      else
        (if negb (result =? EXIT_SUCCESS) then do_call "sel4debug_dump_registers" [proc p]
         else mret tt);;
        mret (Some result)
  end.

(** The scheduling control capabilities of the cores, the first of which the
    benchmark is told. *)
Definition copy_sched_ctrl (p : Z) : prog c_call Z :=
  sched_ctrl ← cc "simple_get_sched_ctrl" [0];
  first ← cc "sel4utils_copy_cap_to_process" [p; sched_ctrl];
  loop (seqZ 1 (CONFIG_MAX_NUM_NODES - 1)) (λ i,
    sched_ctrl ← cc "simple_get_sched_ctrl" [i];
    do_call "sel4utils_copy_cap_to_process" [p; sched_ctrl]);;
  mret first.

(** The arguments of the new process; [sched_ctrl] keeps its old value without
    MCS, as [fdt] does off Arm. *)
Definition set_args (old : benchmark_args_t) (untyped_bits stack_top results nr_cores fdt untyped_cptr
    sched_ctrl serial_ep : Z) : benchmark_args_t :=
  BenchmarkArgs untyped_bits (stack_top ⊟[seL4_WordBits] CONFIG_SEL4UTILS_STACK_SIZE)
    (CONFIG_SEL4UTILS_STACK_SIZE `div` page_bytes) results nr_cores fdt
    (untyped_cptr ⊞[seL4_WordBits] 1) untyped_cptr sched_ctrl serial_ep.

(** Everything before the process starts: the process, its arguments, where
    they and the device tree are mapped. *)
Definition set_up (b : benchmark_t) (untyped untyped_bits local_results_vaddr args_vaddr : Z)
    (old : benchmark_args_t) : prog c_call (process_t * benchmark_args_t * Z * Z) :=
  checked "sel4utils_configure_process_custom" [name b; seL4_MaxPrio];;
  p ← cc "process" [];
  sched_ctrl ← (if CONFIG_KERNEL_MCS then copy_sched_ctrl p else mret (sched_ctrl_cptr old));
  serial ← checked_ptr "serial_server_parent_mint_endpoint_to_process" [p];
  untyped_cptr ← cc "sel4utils_copy_cap_to_process" [p; untyped];
  stack_top ← cc "process.thread.stack_top" [p];
  results ← cc "vspace_share_mem" [p; local_results_vaddr; results_pages b];
  do_call "benchmark->init" [name b; p];;
  '(num_fdt_pages, fdt) ← (if CONFIG_ARCH_ARM then share_fdt p else mret (0, Support.fdt old));
  remote_args_vaddr ← cc "vspace_share_mem" [p; args_vaddr; 1];
  nr_cores ← cc "simple_get_core_count" [];
  fault_ep ← cc "process.fault_endpoint" [p];
  reply ← cc "process.thread.reply" [p];
  checked "sel4rpc_server_init" [reply];;
  let args := set_args old untyped_bits stack_top results nr_cores fdt untyped_cptr sched_ctrl serial in
  checked "sel4utils_spawn_process_v" [p; remote_args_vaddr];;
  mret (Proc p stack_top fault_ep reply, args, remote_args_vaddr, num_fdt_pages).

(** Everything after the exit code. *)
Definition tear_down (b : benchmark_t) (p : process_t) (args : benchmark_args_t)
    (remote_args_vaddr num_fdt_pages untyped : Z) : prog c_call unit :=
  do_call "vspace_unmap_pages" [proc p; results args; results_pages b];;
  do_call "vspace_unmap_pages" [proc p; remote_args_vaddr; 1];;
  (if CONFIG_ARCH_ARM then
     do_call "vspace_unmap_pages" [proc p; aligned_fdt_addr (Support.fdt args); num_fdt_pages]
   else mret tt);;
  path ← cc "vka_cspace_make_path" [untyped];
  do_call "vka_cnode_revoke" [path];;
  do_call "sel4utils_destroy_process" [proc p].

Definition run_benchmark (fuel : nat) (b : benchmark_t) (untyped untyped_bits results args_vaddr : Z)
    (old : benchmark_args_t) : prog c_call (option Z) :=
  '(p, args, remote_args_vaddr, num_fdt_pages) ← set_up b untyped untyped_bits results args_vaddr old;
  result ← serve fuel b p;
  match result with
  | None => mret None
  | Some result =>
      tear_down b p args remote_args_vaddr num_fdt_pages untyped;;
      mret (Some result)
  end.

(** ** The benchmarks in turn *)

(** The JSON of a run; [Some 0] is [NULL].  The page of arguments is used
    whether or not it could be allocated. *)
Definition launch_benchmark (fuel : nat) (b : benchmark_t) (untyped untyped_bits run : Z)
    (old : benchmark_args_t) : prog c_call (option Z) :=
  do_call "print_title" [name b; run];;
  results ← checked_ptr "vspace_new_pages" [results_pages b];
  args ← cc "vspace_new_pages" [1];
  exit_code ← run_benchmark fuel b untyped untyped_bits results args old;
  match exit_code with
  | None => mret None
  | Some exit_code =>
      json ← (if exit_code =? EXIT_SUCCESS then cc "benchmark->process" [name b; results] else mret 0);
      do_call "vspace_unmap_pages" [0; results; results_pages b];;
      do_call "vspace_unmap_pages" [0; args; 1];;
      mret (Some json)
  end.

Definition add_iteration_tag (result run : Z) : prog c_call unit :=
  size ← cc "json_array_size" [result];
  loop (seqZ 0 size) (λ idx,
    result_set ← cc "json_array_get" [result; idx];
    value ← cc "json_integer" [run];
    checked "json_object_set_new: Iteration" [result_set; value]).

(** One run of one benchmark; [false] when the fuel was not enough. *)
Definition run_once (fuel : nat) (output untyped untyped_bits : Z) (old : benchmark_args_t)
    (b : benchmark_t) (run : Z) : prog c_call bool :=
  result ← launch_benchmark fuel b untyped untyped_bits run old;
  match result with
  | None => mret false
  | Some result =>
      fatal_if (result =? 0);;
      add_iteration_tag result run;;
      checked "json_array_extend" [output; result];;
      mret true
  end.

(** The inner loop, over the numbers of the runs that are left. *)
Fixpoint run_iterations (fuel : nat) (output untyped untyped_bits : Z) (old : benchmark_args_t)
    (b : benchmark_t) (runs : list Z) : prog c_call bool :=
  match runs with
  | [] => mret true
  | run :: runs =>
      finished ← run_once fuel output untyped untyped_bits old b run;
      if finished : bool then run_iterations fuel output untyped untyped_bits old b runs
      else mret false
  end.

(** The outer loop, over the benchmarks that are left. *)
Fixpoint run_benchmarks (fuel : nat) (output untyped untyped_bits : Z) (old : benchmark_args_t)
    (benchmarks : list benchmark_t) : prog c_call bool :=
  match benchmarks with
  | [] => mret true
  | b :: benchmarks =>
      finished ←
        (if enabled b then
           run_iterations fuel output untyped untyped_bits old b (seqZ 0 CONFIG_ITERATIONS)
         else mret true);
      if finished : bool then run_benchmarks fuel output untyped untyped_bits old benchmarks
      else mret false
  end.

Definition main_continued (fuel : nat) (benchmarks : list benchmark_t) (old : benchmark_args_t)
  : prog c_call bool :=
  setup_fault_handler;;
  untyped_bits ← find_untyped;
  untyped ← cc "untyped.cptr" [];
  output ← checked_ptr "json_array" [];
  finished ← run_benchmarks fuel output untyped untyped_bits old benchmarks;
  if finished : bool then
    do_call "printf: JSON OUTPUT" [];;
    checked "json_dumpf" [output];;
    do_call "printf: END JSON OUTPUT" [];;
    do_call "printf: All is well in the universe." [];;
    do_call "printf: Fin" [];;
    mret true
  else mret false.

(** The runs that the two loops start, in order: used to say which runs there
    are, and never to run them. *)
Definition schedule (benchmarks : list benchmark_t) : list (benchmark_t * Z) :=
  b ← filter (λ b, enabled b = true) benchmarks;
  pair b <$> seqZ 0 CONFIG_ITERATIONS.

(** ** Bootstrap *)

(** [main]; the error of the first virtual-memory call is overwritten before it
    is looked at.  [plat_setup] is a weak symbol.  The library that switches
    the stack runs [main_continued] when it could allocate one. *)
Definition main (plat_setup : option (prog c_call unit)) (seL4_LargePageBits fuel : Z)
    (benchmarks : list benchmark_t) (old : benchmark_args_t) : prog c_call bool :=
  do_call "sel4runtime_set_exit" [];;
  info ← cc "platsupport_get_bootinfo" [];
  do_call "simple_default_init_bootinfo" [info];;
  allocman ← checked_ptr "bootstrap_use_current_simple" [];
  do_call "allocman_make_vka" [allocman];;
  _ ← cc "sel4utils_bootstrap_vspace_with_bootinfo_leaky" [info];
  checked "sel4utils_reserve_range_no_alloc" [seL4_LargePageBits];;
  res ← checked_ptr "vspace_reserve_range" [page_bytes * 200];
  do_call "bootstrap_configure_virtual_pool" [allocman; page_bytes * 200];;
  do_call "platsupport_serial_setup_simple" [];;
  checked "serial_server_parent_spawn_thread" [seL4_MaxPrio];;
  (if CONFIG_ARCH_ARM then
     checked "sel4platsupport_new_malloc_ops" [];; checked "sel4platsupport_new_fdt_ops" []
   else mret tt);;
  default (mret tt) plat_setup;;
  checked "sel4utils_run_on_stack" [];;
  main_continued (Z.to_nat fuel) benchmarks old.

(** [sel4bench_exit] *)
Definition sel4bench_exit (seL4_CapInitThreadTCB : Z) : prog c_call unit :=
  do_call "seL4_TCB_Suspend" [seL4_CapInitThreadTCB].

End driver.

(** ** plat *)
Definition MHZ : Z := 1000000.
Definition IMX6_MAX_FREQ : Z := 996 * MHZ.

(** The third check is of the error of the second call again: a clock that
    could not be found is not noticed. *)
Definition imx6_plat_setup : prog c_call unit :=
  error ← cc "sel4platsupport_new_io_mapper" [];
  fatal_if (negb (error =? 0));;
  error ← cc "clock_sys_init" [];
  fatal_if (negb (error =? 0));;
  clk ← cc "clk_get_clock" [];
  fatal_if (negb (error =? 0));;
  freq ← cc "clk_set_freq" [clk; IMX6_MAX_FREQ];
  fatal_if (negb (freq =? IMX6_MAX_FREQ)).

(** [cpuid] leaf [0x80000001], register [edx]; [CONFIG_ARCH_X86_64]. *)
Definition pc99_plat_setup (arch_x86_64 : bool) : prog c_call unit :=
  if arch_x86_64 then
    edx ← cc "cpuid" [0x80000001];
    fatal_if (Z.land edx (Z.shiftl 1 27) =? 0)
  else mret tt.

Definition tx2_plat_setup : prog c_call unit := mret tt.

(** ** The untyped *)
Section find_untyped.
Context `{Platform} (env : environment c_call).

(** The sizes [n] down from [size_bits], refused with the errors [errs]. *)
Definition refused (size_bits : Z) (errs : list Z) : list (event c_call) :=
  imap (λ i e, c_event "vka_alloc_untyped" [size_bits - Z.of_nat i] e) errs.

Lemma refused_cons s e errs :
  refused s (e :: errs) = c_event "vka_alloc_untyped" [s] e :: refused (s - 1) errs.
Proof.
  unfold refused. rewrite imap_cons. f_equal; [by rewrite Z.sub_0_r|].
  apply imap_ext. intros i x _. simpl. do 2 f_equal. lia.
Qed.

Lemma last_default {A} (l : list A) x d d' : List.last (x :: l) d = List.last (x :: l) d'.
Proof. revert x. induction l as [|y l IH]; intros x; [done|]. apply (IH y). Qed.

Lemma find_from_spec s n error tr :
  (∃ k errs, (k < n)%nat ∧ length errs = k ∧ Forall (λ e, e ≠ 0) errs ∧
     exec env (find_from s n error) tr =
       (Ok (inl (s - Z.of_nat k)),
        tr ++ refused s errs ++ [c_event "vka_alloc_untyped" [s - Z.of_nat k] 0])) ∨
  (∃ errs, length errs = n ∧ Forall (λ e, e ≠ 0) errs ∧
     exec env (find_from s n error) tr = (Ok (inr (List.last errs error)), tr ++ refused s errs)).
Proof.
  revert s error tr. induction n as [|n IH]; intros s error tr.
  { right. exists []. simpl. by rewrite app_nil_r. }
  set (e := env tr _ (call "vka_alloc_untyped" [s])).
  assert (Hstep : exec env (find_from s (S n) error) tr =
    if e =? 0 then (Ok (inl s), tr ++ [c_event "vka_alloc_untyped" [s] e])
    else exec env (find_from (s - 1) n e) (tr ++ [c_event "vka_alloc_untyped" [s] e])).
  { cbn [find_from]. rewrite exec_bind, exec_cc. fold e. by destruct (e =? 0). }
  rewrite Hstep. destruct (Z.eqb_spec e 0) as [E|E].
  - left. exists 0%nat, []. split; [lia|]. split; [done|]. split; [constructor|].
    rewrite E. simpl. by rewrite Z.sub_0_r.
  - destruct (IH (s - 1) e (tr ++ [c_event "vka_alloc_untyped" [s] e]))
      as [(k & errs & Hk & Hl & Herr & ->) | (errs & Hl & Herr & ->)].
    + left. exists (S k), (e :: errs). split; [lia|]. split; [simpl; lia|].
      split; [by constructor|]. replace (s - 1 - Z.of_nat k) with (s - Z.of_nat (S k)) by lia.
      rewrite refused_cons, <-app_assoc. done.
    + right. exists (e :: errs). split; [simpl; lia|]. split; [by constructor|].
      rewrite refused_cons, <-app_assoc. simpl. do 3 f_equal.
      by destruct errs as [|x errs]; [|apply last_default].
Qed.

(** C20.  [find_untyped] takes the largest untyped the allocator has: it asks
    for the sizes from [seL4_MaxUntypedBits] down to one bit more than a page,
    each at most once, and stops at the first that is served; it is fatal when
    none is. *)
Theorem find_untyped_correct tr :
  (∃ s errs, seL4_PageBits < s <= seL4_MaxUntypedBits ∧
     Z.of_nat (length errs) = seL4_MaxUntypedBits - s ∧ Forall (λ e, e ≠ 0) errs ∧
     exec env find_untyped tr =
       (Ok s, tr ++ refused seL4_MaxUntypedBits errs ++ [c_event "vka_alloc_untyped" [s] 0])) ∨
  (∃ errs, Z.of_nat (length errs) = seL4_MaxUntypedBits - seL4_PageBits ∧ Forall (λ e, e ≠ 0) errs ∧
     exec env find_untyped tr = (Fatal, tr ++ refused seL4_MaxUntypedBits errs)).
Proof.
  pose proof untyped_law. unfold find_untyped.
  destruct (find_from_spec seL4_MaxUntypedBits (Z.to_nat (seL4_MaxUntypedBits - seL4_PageBits)) 0 tr)
    as [(k & errs & Hk & Hl & Herr & Hrun) | (errs & Hl & Herr & Hrun)].
  - left. exists (seL4_MaxUntypedBits - Z.of_nat k), errs. split; [lia|]. split; [lia|].
    split; [done|]. by rewrite exec_bind, Hrun.
  - right. exists errs. split; [lia|]. split; [done|].
    rewrite exec_bind, Hrun, exec_bind, exec_fatal_if.
    assert (errs ≠ []) as Hne by (intros ->; simpl in Hl; lia).
    destruct (Z.eqb_spec (List.last errs 0) 0) as [E|]; [|done]. exfalso.
    rewrite list.Forall_forall in Herr. apply (Herr (List.last errs 0)); [|done].
    apply list_elem_of_In. destruct (exists_last Hne) as (l & x & ->).
    rewrite List.last_last. apply in_or_app. right. by left.
Qed.
End find_untyped.

(** ** The device tree *)
Section fdt.
Context `{Platform}.

Lemma page_bytes_pos : 0 < page_bytes.
Proof. unfold page_bytes. pose proof page_bits_law. by apply Z.pow_pos_nonneg; lia. Qed.

Lemma page_mask_mod a : page_mask a = a `mod` page_bytes.
Proof.
  unfold page_mask, page_bytes. pose proof page_bits_law.
  rewrite Z.sub_1_r, <-Z.ones_equiv, Z.land_ones by lia. done.
Qed.

Lemma word_bytes : 2 ^ seL4_WordBits = page_bytes * 2 ^ (seL4_WordBits - seL4_PageBits).
Proof. unfold page_bytes. pose proof page_bits_law. rewrite <-Z.pow_add_r by lia. f_equal. lia. Qed.

Lemma wrap_mod_page a : wrap seL4_WordBits a `mod` page_bytes = a `mod` page_bytes.
Proof.
  unfold wrap. rewrite word_bytes. apply Z.mod_mod_divide, Z.divide_factor_l.
Qed.

(** [vspace_share_mem] returns the page the sharing starts at, or the address
    with the offset of the source in it. *)
Definition share_law (v src : Z) : Prop :=
  in_word seL4_WordBits v ∧ (v `mod` page_bytes = 0 ∨ v `mod` page_bytes = src `mod` page_bytes).

Lemma fdt_address_spec shared blob :
  share_law shared blob →
  fdt_address shared blob `mod` page_bytes = blob `mod` page_bytes ∧
  aligned_fdt_addr (fdt_address shared blob) = round_down shared page_bytes.
Proof.
  intros [Hw Hv]. unfold fdt_address, aligned_fdt_addr. rewrite !page_mask_mod.
  pose proof page_bytes_pos. pose proof (Z.mod_pos_bound blob page_bytes ltac:(done)).
  destruct (Z.eqb_spec (shared `mod` page_bytes) (blob `mod` page_bytes)) as [E|E]; [done|].
  destruct Hv as [Hv|Hv]; [|done].
  assert (Hsum : (shared + blob `mod` page_bytes) `mod` page_bytes = blob `mod` page_bytes).
  { rewrite Zplus_mod, Hv, Z.add_0_l, !Zmod_mod. done. }
  split; [by rewrite wrap_mod_page|].
  (* an aligned address leaves room for the offset *)
  assert (Hroom : shared + blob `mod` page_bytes < 2 ^ seL4_WordBits).
  { destruct (Z.mod_divide shared page_bytes) as [D _]; [lia|]. destruct (D Hv) as [k Hk].
    unfold in_word in Hw. rewrite word_bytes in *.
    set (m := 2 ^ (seL4_WordBits - seL4_PageBits)) in *.
    assert (k + 1 <= m) by nia. nia. }
  rewrite wrap_small by (unfold in_word in *; lia).
  unfold round_down. rewrite Hsum, Hv. lia.
Qed.

(** The address a benchmark is told for the device tree has the offset
    in its page that the driver's copy has, whichever of its two conventions
    the sharing call follows, and the page that is taken back at the end is
    the one that was mapped. *)
Theorem fdt_address_correct shared blob :
  share_law shared blob →
  fdt_address shared blob `mod` page_bytes = blob `mod` page_bytes ∧
  aligned_fdt_addr (fdt_address shared blob) = round_down shared page_bytes.
Proof. apply fdt_address_spec. Qed.

(** C21.  The pages that are shared hold the whole device tree exactly when
    the offset of the tree in its first page fits in what rounding its size up
    has added: a tree that starts inside a page can lose its end. *)
Theorem fdt_pages_correct blob size :
  0 < size →
  ((∀ a, blob <= a < blob + size →
      round_down blob page_bytes <= a < round_down blob page_bytes + fdt_pages size * page_bytes) ↔
   blob `mod` page_bytes + size <= fdt_pages size * page_bytes) ∧
  0 <= fdt_pages size * page_bytes - size < page_bytes.
Proof.
  intros Hs. pose proof page_bytes_pos. unfold fdt_pages, round_down.
  pose proof (Z.mod_pos_bound blob page_bytes ltac:(done)).
  assert (page_bytes ≠ 0) as Hne by lia.
  pose proof (Z.div_mod (size + page_bytes - 1) page_bytes Hne).
  pose proof (Z.mod_pos_bound (size + page_bytes - 1) page_bytes ltac:(done)).
  split; [split|lia].
  - intros Hall. specialize (Hall (blob + size - 1) ltac:(lia)). lia.
  - intros Hfit a Ha. lia.
Qed.
End fdt.

(** ** The requests of a benchmark *)
Section serving.
Context `{Platform} (env : environment c_call) (b : benchmark_t) (p : process_t).

(** The next message: its label, its first word as an [int], and the calls that
    fetched it. *)
Definition message (tr : list (event c_call)) : Z * Z * list (event c_call) :=
  let label := env tr _ (call "api_recv" [proc_fault_endpoint p; proc_reply p]) in
  let tr := tr ++ [c_event "api_recv" [proc_fault_endpoint p; proc_reply p] label] in
  let mr := env tr _ (call "seL4_GetMR" [0]) in
  (label, swrap int_bits mr, tr ++ [c_event "seL4_GetMR" [0] mr]).

Definition answered (tr : list (event c_call)) (fn : string) (args : list Z) : list (event c_call) :=
  tr ++ [c_event fn args (env tr _ (call fn args))].

(** [serves tr k r tr']: after [k] requests, all of them served, the benchmark
    ends with [r]: by a fault, or with an exit code, which is reported when it
    is not success. *)
Inductive serves : list (event c_call) → nat → Z → list (event c_call) → Prop :=
  | serves_fault tr label code tr1 :
      message tr = (label, code, tr1) → label ≠ seL4_Fault_NullFault →
      serves tr 0 EXIT_FAILURE
        (answered (answered tr1 "sel4utils_print_fault_message" [label; name b])
           "sel4debug_dump_registers" [proc p])
  | serves_success tr tr1 :
      message tr = (seL4_Fault_NullFault, EXIT_SUCCESS, tr1) → serves tr 0 EXIT_SUCCESS tr1
  | serves_failure tr code tr1 :
      message tr = (seL4_Fault_NullFault, code, tr1) →
      code ≠ SEL4BENCH_PROTOBUF_RPC → code ≠ EXIT_SUCCESS →
      serves tr 0 code (answered tr1 "sel4debug_dump_registers" [proc p])
  | serves_rpc tr tr1 k r tr2 :
      message tr = (seL4_Fault_NullFault, SEL4BENCH_PROTOBUF_RPC, tr1) →
      serves (answered tr1 "sel4rpc_server_recv" []) k r tr2 →
      serves tr (S k) r tr2.

Lemma serve_step fuel tr label code tr1 :
  message tr = (label, code, tr1) →
  exec env (serve (S fuel) b p) tr =
    if negb (label =? seL4_Fault_NullFault) then
      (Ok (Some EXIT_FAILURE),
       answered (answered tr1 "sel4utils_print_fault_message" [label; name b])
         "sel4debug_dump_registers" [proc p])
    else if code =? SEL4BENCH_PROTOBUF_RPC then
      exec env (serve fuel b p) (answered tr1 "sel4rpc_server_recv" [])
    else if code =? EXIT_SUCCESS then (Ok (Some code), tr1)
    else (Ok (Some code), answered tr1 "sel4debug_dump_registers" [proc p]).
Proof.
  unfold message. intros [= <- <- <-]. cbn [serve].
  rewrite exec_bind, exec_cc, exec_bind, exec_cc.
  set (label := env tr _ _). set (tr1 := tr ++ _). set (mr := env tr1 _ _).
  destruct (negb (label =? _)).
  { rewrite exec_bind, exec_do_call, exec_bind, exec_do_call. done. }
  destruct (_ =? SEL4BENCH_PROTOBUF_RPC).
  { rewrite exec_bind, exec_do_call. done. }
  destruct (_ =? EXIT_SUCCESS); cbn [negb]; rewrite exec_bind; [done|].
  rewrite exec_do_call. done.
Qed.

Lemma serve_serves tr k r tr' fuel :
  serves tr k r tr' → (k < fuel)%nat → exec env (serve fuel b p) tr = (Ok (Some r), tr').
Proof.
  intros Hs. revert fuel. induction Hs as [tr label code tr1 Hm Hl|tr tr1 Hm|tr code tr1 Hm H1 H2|
    tr tr1 k r tr2 Hm Hs IH]; intros [|fuel] Hf; try lia; rewrite (serve_step _ _ _ _ _ Hm).
  - apply Z.eqb_neq in Hl. by rewrite Hl.
  - done.
  - apply Z.eqb_neq in H1, H2. by rewrite H1, H2.
  - apply IH. lia.
Qed.

Lemma serves_serve fuel tr r tr' :
  exec env (serve fuel b p) tr = (Ok (Some r), tr') → ∃ k, (k < fuel)%nat ∧ serves tr k r tr'.
Proof.
  revert tr. induction fuel as [|fuel IH]; intros tr; [done|].
  destruct (message tr) as [[label code] tr1] eqn:Hm. rewrite (serve_step _ _ _ _ _ Hm).
  destruct (Z.eqb_spec label seL4_Fault_NullFault) as [->|Hl]; cbn [negb].
  - destruct (Z.eqb_spec code SEL4BENCH_PROTOBUF_RPC) as [->|H1].
    + intros (k & Hk & Hs)%IH. exists (S k). split; [lia|]. by eapply serves_rpc.
    + destruct (Z.eqb_spec code EXIT_SUCCESS) as [->|H2]; intros [= <- <-]; exists 0%nat;
        (split; [lia|]); by econstructor.
  - intros [= <- <-]. exists 0%nat. split; [lia|]. by eapply serves_fault.
Qed.

(** C12.  The driver's loop and the protocol agree: with more fuel than the
    benchmark makes requests it returns, and its result is the one the
    protocol assigns to the messages: failure at a fault, the exit code
    otherwise; every result it returns comes from such a session. *)
Theorem serve_correct tr r tr' :
  (∀ k fuel, serves tr k r tr' → (k < fuel)%nat → exec env (serve fuel b p) tr = (Ok (Some r), tr')) ∧
  (∀ fuel, exec env (serve fuel b p) tr = (Ok (Some r), tr') → ∃ k, (k < fuel)%nat ∧ serves tr k r tr').
Proof. split; [intros k fuel; apply serve_serves|intros fuel; apply serves_serve]. Qed.

(** The loop never fails. *)
Lemma serve_total fuel tr : ∃ r, (exec env (serve fuel b p) tr).1 = Ok r.
Proof.
  revert tr. induction fuel as [|fuel IH]; intros tr; [by exists None|].
  destruct (message tr) as [[label code] tr1] eqn:Hm. rewrite (serve_step _ _ _ _ _ Hm).
  destruct (negb _); [by eexists|]. destruct (_ =? _); [apply IH|].
  destruct (_ =? EXIT_SUCCESS); by eexists.
Qed.
End serving.

(** ** What a run maps and unmaps *)
Section balance.
Context `{Platform} (env : environment c_call).

Definition mappings : list string := ["vspace_share_mem"; "vspace_unmap_pages"].

(** [vspace_share_mem] keeps to its two conventions. *)
Definition sharing_law : Prop :=
  ∀ tr p src n, share_law (env tr _ (call "vspace_share_mem" [p; src; n])) src.

Definition shared (p src n v : Z) : event c_call := c_event "vspace_share_mem" [p; src; n] v.
Definition unmapped (p v n x : Z) : event c_call := c_event "vspace_unmap_pages" [p; v; n] x.

Definition traced_m {A} (m : prog c_call A) Q := traced env (calls_to mappings) m Q.

Lemma share_fdt_traced p : sharing_law →
  traced_m (share_fdt p) (λ '(n, fdt) l, ∃ blob v,
    l = [shared p blob n v] ∧ share_law v blob ∧ fdt = fdt_address v blob).
Proof.
  intros Hlaw. unfold share_fdt. apply traced_skip; [by avoid|]. intros blob.
  apply traced_skip; [by avoid|]. intros size. unfold checked_ptr.
  apply traced_bind with (Q := λ v l, l = [shared p blob (fdt_pages size) v] ∧ share_law v blob).
  - apply traced_call; [done|]. intros v [tr ->].
    apply traced_skip; [by avoid|]. intros _. apply traced_ret. split; [done|apply Hlaw].
  - intros v l [-> Hv]. apply traced_ret. by exists blob, v.
Qed.

(** The mappings of [set_up]. *)
Definition set_up_maps (b : benchmark_t) (results args_vaddr : Z)
    (out : process_t * benchmark_args_t * Z * Z) (l : list (event c_call)) : Prop :=
  let '(p, args, remote, n) := out in
  share_law (Support.results args) results ∧ share_law remote args_vaddr ∧
  if CONFIG_ARCH_ARM then
    ∃ blob v, share_law v blob ∧ Support.fdt args = fdt_address v blob ∧
      l = [shared (proc p) results (results_pages b) (Support.results args);
           shared (proc p) blob n v; shared (proc p) args_vaddr 1 remote]
  else
    l = [shared (proc p) results (results_pages b) (Support.results args);
         shared (proc p) args_vaddr 1 remote].

Lemma set_up_traced b untyped untyped_bits results args_vaddr old : sharing_law →
  traced_m (set_up b untyped untyped_bits results args_vaddr old) (set_up_maps b results args_vaddr).
Proof.
  intros Hlaw. unfold set_up. apply traced_skip; [by avoid|]. intros _.
  apply traced_skip; [by avoid|]. intros p.
  apply traced_skip; [unfold copy_sched_ctrl; by avoid|]. intros sched.
  apply traced_skip; [by avoid|]. intros serial.
  apply traced_skip; [by avoid|]. intros ucptr.
  apply traced_skip; [by avoid|]. intros top.
  apply traced_call; [done|]. intros res [tr1 Hres].
  apply traced_skip; [by avoid|]. intros _.
  apply traced_bind with (Q := λ '(n, fdt) l,
    if CONFIG_ARCH_ARM
    then ∃ blob v, l = [shared p blob n v] ∧ share_law v blob ∧ fdt = fdt_address v blob
    else l = []).
  { destruct CONFIG_ARCH_ARM; [by apply share_fdt_traced|by apply traced_ret]. }
  intros [n fdt] l Hl. apply traced_call; [done|]. intros remote [tr2 Hremote].
  do 4 (apply traced_skip; [by avoid|]; intros ?).
  apply traced_skip; [by avoid|]. intros _. apply traced_ret.
  unfold set_up_maps. cbn [proc Support.results set_args Support.fdt].
  split; [rewrite Hres; apply Hlaw|]. split; [rewrite Hremote; apply Hlaw|].
  destruct CONFIG_ARCH_ARM.
  - destruct Hl as (blob & v & -> & Hv & ->). exists blob, v. done.
  - by rewrite Hl.
Qed.

Lemma tear_down_traced b p args remote n untyped :
  traced_m (tear_down b p args remote n untyped) (λ _ l, ∃ x1 x2 x3,
    l = [unmapped (proc p) (Support.results args) (results_pages b) x1;
         unmapped (proc p) remote 1 x2] ++
        (if CONFIG_ARCH_ARM
         then [unmapped (proc p) (aligned_fdt_addr (Support.fdt args)) n x3] else [])).
Proof.
  unfold tear_down. apply traced_do_call; [done|]. intros x1.
  apply traced_do_call; [done|]. intros x2.
  apply traced_bind with (Q := λ _ l, ∃ x3, l = if CONFIG_ARCH_ARM
    then [unmapped (proc p) (aligned_fdt_addr (Support.fdt args)) n x3] else []).
  - destruct CONFIG_ARCH_ARM; [|apply traced_ret; by exists 0].
    unfold do_call. apply traced_call; [done|]. intros x _. apply traced_ret. by exists x.
  - intros [] l [x3 ->]. eapply traced_mono; [apply traced_avoid; by avoid|].
    intros _ l ->. exists x1, x2, x3. rewrite app_nil_r. done.
Qed.

Lemma serve_avoids fuel b p : all_ops (other_than mappings) (serve fuel b p).
Proof. induction fuel as [|fuel IH]; cbn [serve]; avoid; apply IH. Qed.

Definition page_aligned (a : Z) : Prop := a `mod` page_bytes = 0.

Lemma aligned_round a : page_aligned a → round_down a page_bytes = a.
Proof. unfold page_aligned, round_down. lia. Qed.

Lemma share_aligned v src : share_law v src → page_aligned src → page_aligned v.
Proof. unfold share_law, page_aligned. naive_solver congruence. Qed.

(** The mappings of a whole run: [fdt] pairs the sharing of the device tree
    with its release. *)
Definition balanced (results args_vaddr pages : Z) (l : list (event c_call)) : Prop :=
  ∃ p v1 v2 x1 x2 fdt,
    l = [shared p results pages v1] ++ fdt.*1 ++
        [shared p args_vaddr 1 v2; unmapped p v1 pages x1; unmapped p v2 1 x2] ++ fdt.*2 ∧
    page_aligned v1 ∧ page_aligned v2 ∧
    if CONFIG_ARCH_ARM
    then ∃ blob n v x, fdt = [(shared p blob n v, unmapped p (round_down v page_bytes) n x)]
    else fdt = [].

Lemma run_benchmark_traced fuel b untyped untyped_bits results args_vaddr old :
  sharing_law → page_aligned results → page_aligned args_vaddr →
  traced_m (run_benchmark fuel b untyped untyped_bits results args_vaddr old) (λ r l,
    r = None ∨ balanced results args_vaddr (results_pages b) l).
Proof.
  intros Hlaw Hr Ha. unfold run_benchmark.
  apply traced_bind with (Q := set_up_maps b results args_vaddr); [by apply set_up_traced|].
  intros [[[p args] remote] n] l (Hres & Hrem & Hl).
  apply traced_skip; [apply serve_avoids|]. intros [r|]; [|apply traced_ret; by left].
  eapply traced_bind; [apply tear_down_traced|]. intros [] l2 (x1 & x2 & x3 & ->).
  apply traced_ret. right. unfold balanced.
  exists (proc p), (Support.results args), remote, x1, x2.
  pose proof (share_aligned _ _ Hres Hr). pose proof (share_aligned _ _ Hrem Ha).
  destruct CONFIG_ARCH_ARM.
  - destruct Hl as (blob & v & Hv & Hfdt & ->).
    exists [(shared (proc p) blob n v, unmapped (proc p) (round_down v page_bytes) n x3)].
    rewrite Hfdt, (proj2 (fdt_address_spec v blob Hv)), app_nil_r.
    split; [done|]. split; [done|]. split; [done|]. by exists blob, n, v, x3.
  - exists []. rewrite Hl, !app_nil_r. done.
Qed.

(** C13.  A run that ends gives back what it mapped into the benchmark: the
    calls it makes to share and to unmap pages are those of the results, the
    device tree (on Arm) and the arguments, each page range unmapped once, at
    the address and with the number of pages it was mapped with, after the
    last sharing. *)
Theorem run_benchmark_balanced fuel b untyped untyped_bits results args_vaddr old tr r tr' :
  sharing_law → page_aligned results → page_aligned args_vaddr →
  exec env (run_benchmark fuel b untyped untyped_bits results args_vaddr old) tr = (Ok (Some r), tr') →
  ∃ new, tr' = tr ++ new ∧
    balanced results args_vaddr (results_pages b) (filter (λ ev, calls_to mappings ev = true) new).
Proof.
  intros Hlaw Hr Ha Hrun.
  destruct (run_benchmark_traced fuel b untyped untyped_bits results args_vaddr old Hlaw Hr Ha
    _ _ _ Hrun) as (new & -> & [|Hb]); [done|]. by exists new.
Qed.
End balance.

(** ** What a run does, and the order of the runs *)
Section order.
Context `{Platform} (env : environment c_call).

(** The calls that say what became of a run: its title, its pages, its
    process and the messages of that process, what is given back, the results
    and their place in the output. *)
Definition milestones : list string :=
  ["print_title"; "vspace_new_pages"; "sel4utils_configure_process_custom"; "benchmark->init";
   "sel4utils_spawn_process_v"; "api_recv"; "seL4_GetMR"; "sel4rpc_server_recv";
   "vspace_unmap_pages"; "vka_cspace_make_path"; "vka_cnode_revoke"; "sel4utils_destroy_process";
   "benchmark->process"; "json_array_size"; "json_array_get"; "json_integer";
   "json_object_set_new: Iteration"; "json_array_extend";
   "printf: JSON OUTPUT"; "json_dumpf"; "printf: END JSON OUTPUT"].

Definition traced_o {A} (m : prog c_call A) Q := traced env (calls_to milestones) m Q.

(** A message that is no fault and starts with [mr]. *)
Definition received (endpoint reply mr : Z) : list (event c_call) :=
  [c_event "api_recv" [endpoint; reply] seL4_Fault_NullFault; c_event "seL4_GetMR" [0] mr].

(** Messages up to the exit code of success: requests, each of them answered
    before the next message is taken. *)
Inductive session (endpoint reply : Z) : list (event c_call) → Prop :=
  | session_end mr :
      swrap int_bits mr = EXIT_SUCCESS → session endpoint reply (received endpoint reply mr)
  | session_request mr x l :
      swrap int_bits mr = SEL4BENCH_PROTOBUF_RPC →
      session endpoint reply l →
      session endpoint reply
        (received endpoint reply mr ++ c_event "sel4rpc_server_recv" [] x :: l).

(** Pages of the process [p] are given back, then the memory of all that was
    made of the untyped, then the process. *)
Inductive released (p untyped : Z) : list (event c_call) → Prop :=
  | release pages path x y :
      Forall (λ ev, ∃ v n z, ev = c_event "vspace_unmap_pages" [p; v; n] z) pages →
      released p untyped
        (pages ++ [c_event "vka_cspace_make_path" [untyped] path;
                   c_event "vka_cnode_revoke" [path] x; c_event "sel4utils_destroy_process" [p] y]).

(** The entries [idxs] of the array [json] get the number of the run. *)
Inductive tagged (json run : Z) : list Z → list (event c_call) → Prop :=
  | tagged_none : tagged json run [] []
  | tagged_entry idx idxs entry number l :
      tagged json run idxs l →
      tagged json run (idx :: idxs)
        (c_event "json_array_get" [json; idx] entry :: c_event "json_integer" [run] number ::
         c_event "json_object_set_new: Iteration" [entry; number] 0 :: l).

(** One run: its title; pages for the results and for the arguments; a
    process, prepared by the benchmark and started; its session, which ends
    with success; everything of the process taken back; the results, which
    the processing function of this benchmark makes from the pages of this run
    while they are still mapped, and which are not [NULL]; the pages unmapped;
    every entry of the results tagged with the run and all of them added to
    the output. *)
Inductive run_events (output untyped : Z) (b : benchmark_t) (run : Z) : list (event c_call) → Prop :=
  | a_run x1 x2 x3 x4 results args p remote endpoint reply served freed json size tags :
      results ≠ 0 → json ≠ 0 →
      session endpoint reply served → released p untyped freed →
      tagged json run (seqZ 0 size) tags →
      run_events output untyped b run
        ([c_event "print_title" [name b; run] x1;
          c_event "vspace_new_pages" [results_pages b] results;
          c_event "vspace_new_pages" [1] args;
          c_event "sel4utils_configure_process_custom" [name b; seL4_MaxPrio] 0;
          c_event "benchmark->init" [name b; p] x2;
          c_event "sel4utils_spawn_process_v" [p; remote] 0] ++
         served ++ freed ++
         [c_event "benchmark->process" [name b; results] json;
          c_event "vspace_unmap_pages" [0; results; results_pages b] x3;
          c_event "vspace_unmap_pages" [0; args; 1] x4;
          c_event "json_array_size" [json] size] ++
         tags ++ [c_event "json_array_extend" [output; json] 0]).

(** The runs [runs] of a benchmark, one after the other. *)
Inductive iterated (output untyped : Z) (b : benchmark_t) : list Z → list (event c_call) → Prop :=
  | iterated_none : iterated output untyped b [] []
  | iterated_run run runs l1 l2 :
      run_events output untyped b run l1 → iterated output untyped b runs l2 →
      iterated output untyped b (run :: runs) (l1 ++ l2).

(** The benchmarks in the order of the list: nothing for one that is not
    enabled, [CONFIG_ITERATIONS] runs numbered from zero for the others. *)
Inductive suite (output untyped : Z) : list benchmark_t → list (event c_call) → Prop :=
  | suite_end : suite output untyped [] []
  | suite_disabled b bs l :
      enabled b = false → suite output untyped bs l → suite output untyped (b :: bs) l
  | suite_enabled b bs l1 l2 :
      enabled b = true → iterated output untyped b (seqZ 0 CONFIG_ITERATIONS) l1 →
      suite output untyped bs l2 → suite output untyped (b :: bs) (l1 ++ l2).

(** *** Every part of the driver against its events *)
Lemma traced_checked {B} fn args (f : unit → prog c_call B) R :
  calls_to milestones (c_event fn args 0) = true →
  traced_o (f tt) (λ b l, R b (c_event fn args 0 :: l)) →
  traced_o (checked fn args ≫= f) R.
Proof.
  intros Hfn Hf. apply traced_bind with (Q := λ _ l, l = [c_event fn args 0]).
  - unfold checked. apply traced_call; [done|]. intros e _. apply traced_fatal_if.
    intros He%negb_false_iff%Z.eqb_eq. by subst e.
  - intros [] l ->. exact Hf.
Qed.

Lemma traced_checked_ptr {B} fn args (f : Z → prog c_call B) R :
  calls_to milestones (c_event fn args 0) = true →
  (∀ x, x ≠ 0 → traced_o (f x) (λ b l, R b (c_event fn args x :: l))) →
  traced_o (checked_ptr fn args ≫= f) R.
Proof.
  intros Hfn Hf. apply traced_bind with (Q := λ x l, x ≠ 0 ∧ l = [c_event fn args x]).
  - unfold checked_ptr. apply traced_call; [done|]. intros p _.
    apply traced_bind with (Q := λ _ l, p ≠ 0 ∧ l = []).
    + apply traced_fatal_if. by intros ?%Z.eqb_neq.
    + intros [] l [? ->]. by apply traced_ret.
  - intros x l [Hx ->]. by apply Hf.
Qed.

Lemma set_up_milestones b untyped untyped_bits results args_vaddr old :
  traced_o (set_up b untyped untyped_bits results args_vaddr old) (λ '(p, _, remote, _) l,
    ∃ x, l = [c_event "sel4utils_configure_process_custom" [name b; seL4_MaxPrio] 0;
              c_event "benchmark->init" [name b; proc p] x;
              c_event "sel4utils_spawn_process_v" [proc p; remote] 0]).
Proof.
  unfold set_up. apply traced_checked; [done|]. apply traced_skip; [by avoid|]. intros p.
  apply traced_skip; [unfold copy_sched_ctrl; by avoid|]. intros sched.
  do 4 (apply traced_skip; [by avoid|]; intros ?). apply traced_do_call; [done|]. intros x.
  apply traced_skip; [unfold share_fdt; by avoid|]. intros [n fdt].
  do 5 (apply traced_skip; [by avoid|]; intros ?). apply traced_checked; [done|].
  apply traced_ret. by exists x.
Qed.

Lemma serve_milestones fuel b p :
  traced_o (serve fuel b p) (λ r l,
    r = Some EXIT_SUCCESS → session (proc_fault_endpoint p) (proc_reply p) l).
Proof.
  induction fuel as [|fuel IH]; cbn [serve]; [by apply traced_ret|].
  apply traced_call; [done|]. intros label _. apply traced_call; [done|]. intros mr _.
  destruct (Z.eqb_spec label seL4_Fault_NullFault) as [->|_]; cbn [negb].
  2: { apply traced_skip; [by avoid|]. intros _. apply traced_skip; [by avoid|]. intros _.
       by apply traced_ret. }
  destruct (Z.eqb_spec (swrap int_bits mr) SEL4BENCH_PROTOBUF_RPC) as [Hmr|_].
  - apply traced_do_call; [done|]. intros x. eapply traced_mono; [exact IH|]. intros r l Hl Hr.
    apply (session_request _ _ mr x); [done|]. by apply Hl.
  - apply traced_skip; [by avoid|]. intros []. apply traced_ret. intros [= Hmr]. by constructor.
Qed.

Lemma tear_down_milestones b p args remote n untyped :
  traced_o (tear_down b p args remote n untyped) (λ _, released (proc p) untyped).
Proof.
  unfold tear_down. apply traced_do_call; [done|]. intros x1. apply traced_do_call; [done|].
  intros x2. apply traced_bind with (Q := λ _ l,
    Forall (λ ev, ∃ v n z, ev = c_event "vspace_unmap_pages" [proc p; v; n] z) l).
  - destruct CONFIG_ARCH_ARM; [|apply traced_ret; constructor].
    unfold do_call. apply traced_call; [done|]. intros x _. apply traced_ret.
    constructor; [by eexists _, _, _|constructor].
  - intros [] l Hl. apply traced_call; [done|]. intros path _. apply traced_do_call; [done|].
    intros x3. unfold do_call. apply traced_call; [done|]. intros x4 _. apply traced_ret.
    apply (release _ _ (_ :: _ :: l) path x3 x4).
    constructor; [by eexists _, _, _|]. constructor; [by eexists _, _, _|done].
Qed.

(** A run of the process that ends with success. *)
Definition process_events (untyped : Z) (b : benchmark_t) (l : list (event c_call)) : Prop :=
  ∃ p remote x endpoint reply served freed,
    session endpoint reply served ∧ released p untyped freed ∧
    l = [c_event "sel4utils_configure_process_custom" [name b; seL4_MaxPrio] 0;
         c_event "benchmark->init" [name b; p] x;
         c_event "sel4utils_spawn_process_v" [p; remote] 0] ++ served ++ freed.

Lemma run_benchmark_milestones fuel b untyped untyped_bits results args_vaddr old :
  traced_o (run_benchmark fuel b untyped untyped_bits results args_vaddr old) (λ r l,
    r = Some EXIT_SUCCESS → process_events untyped b l).
Proof.
  unfold run_benchmark. eapply traced_bind; [apply set_up_milestones|].
  intros [[[p args] remote] n] l [x ->]. eapply traced_bind; [apply serve_milestones|].
  intros [r|] served Hs; [|by apply traced_ret].
  eapply traced_bind; [apply tear_down_milestones|]. intros [] freed Hf.
  apply traced_ret. intros [= ->]. exists (proc p), remote, x, (proc_fault_endpoint p), (proc_reply p).
  exists served, freed. rewrite app_nil_r. split; [by apply Hs|done].
Qed.

Lemma tag_milestones json run idxs :
  traced_o (loop idxs (λ idx, result_set ← cc "json_array_get" [json; idx];
    value ← cc "json_integer" [run];
    checked "json_object_set_new: Iteration" [result_set; value])) (λ _, tagged json run idxs).
Proof.
  induction idxs as [|idx idxs IH]; cbn [loop]; [apply traced_ret; constructor|].
  apply traced_bind with (Q := λ _ l, ∃ entry number,
    l = [c_event "json_array_get" [json; idx] entry; c_event "json_integer" [run] number;
         c_event "json_object_set_new: Iteration" [entry; number] 0]).
  - apply traced_call; [done|]. intros entry _. apply traced_call; [done|]. intros number _.
    unfold checked. apply traced_call; [done|]. intros e _. apply traced_fatal_if.
    intros He%negb_false_iff%Z.eqb_eq. subst e. by exists entry, number.
  - intros [] l (entry & number & ->). eapply traced_mono; [exact IH|]. intros [] l Hl.
    by constructor.
Qed.

(** Up to the results, which are not [NULL] after a success only. *)
Definition launch_events (untyped : Z) (b : benchmark_t) (run json : Z) (l : list (event c_call)) : Prop :=
  ∃ x1 x3 x4 results args ran, results ≠ 0 ∧ process_events untyped b ran ∧
    l = [c_event "print_title" [name b; run] x1;
         c_event "vspace_new_pages" [results_pages b] results;
         c_event "vspace_new_pages" [1] args] ++ ran ++
        [c_event "benchmark->process" [name b; results] json;
         c_event "vspace_unmap_pages" [0; results; results_pages b] x3;
         c_event "vspace_unmap_pages" [0; args; 1] x4].

Lemma launch_milestones fuel b untyped untyped_bits run old :
  traced_o (launch_benchmark fuel b untyped untyped_bits run old) (λ r l,
    ∀ json, r = Some json → json ≠ 0 → launch_events untyped b run json l).
Proof.
  unfold launch_benchmark. apply traced_do_call; [done|]. intros x1.
  apply traced_checked_ptr; [done|]. intros results Hres.
  apply traced_call; [done|]. intros args _.
  eapply traced_bind; [apply run_benchmark_milestones|]. intros [code|] ran Hran; [|by apply traced_ret].
  apply traced_bind with (Q := λ json l, json ≠ 0 → code = EXIT_SUCCESS ∧
    l = [c_event "benchmark->process" [name b; results] json]).
  - destruct (Z.eqb_spec code EXIT_SUCCESS) as [->|_]; [|by apply traced_ret].
    apply traced_perform. intros json _ _. done.
  - intros json l Hl. apply traced_do_call; [done|]. intros x3. apply traced_do_call; [done|].
    intros x4. apply traced_ret. intros ? [= <-] Hjson. destruct (Hl Hjson) as [-> ->].
    exists x1, x3, x4, results, args, ran. split; [done|]. split; [by apply Hran|done].
Qed.

Lemma run_once_milestones fuel output untyped untyped_bits old b run :
  traced_o (run_once fuel output untyped untyped_bits old b run)
    (λ done l, done = true → run_events output untyped b run l).
Proof.
  unfold run_once. eapply traced_bind; [apply launch_milestones|].
  intros [json|] l Hl; [|by apply traced_ret].
  apply traced_bind with (Q := λ _ l, json ≠ 0 ∧ l = []).
  { apply traced_fatal_if. by intros ?%Z.eqb_neq. }
  intros [] l' [Hjson ->]. unfold add_iteration_tag.
  apply traced_bind with (Q := λ _ l, ∃ size tags, tagged json run (seqZ 0 size) tags ∧
    l = c_event "json_array_size" [json] size :: tags).
  { apply traced_call; [done|]. intros size _. eapply traced_mono; [apply tag_milestones|].
    intros [] tags Ht. by exists size, tags. }
  intros [] l' (size & tags & Ht & ->). apply traced_checked; [done|]. apply traced_ret. intros _.
  destruct (Hl json eq_refl Hjson) as (x1 & x3 & x4 & results & args & ran & Hres &
    (p & remote & x2 & endpoint & reply & served & freed & Hs & Hf & ->) & ->).
  pose proof (a_run output untyped b run x1 x2 x3 x4 results args p remote endpoint reply served freed
    json size tags Hres Hjson Hs Hf Ht) as Hrun.
  cbn [app] in Hrun |- *. rewrite <-?app_assoc. cbn [app]. exact Hrun.
Qed.

Lemma iterations_milestones fuel output untyped untyped_bits old b runs :
  traced_o (run_iterations fuel output untyped untyped_bits old b runs)
    (λ done l, done = true → iterated output untyped b runs l).
Proof.
  induction runs as [|run runs IH]; cbn [run_iterations]; [apply traced_ret; constructor|].
  eapply traced_bind; [apply run_once_milestones|]. intros [] l Hl; [|by apply traced_ret].
  eapply traced_mono; [exact IH|]. intros d l2 Hl2 Hd. constructor; [by apply Hl|by apply Hl2].
Qed.

Lemma benchmarks_milestones fuel output untyped untyped_bits old benchmarks :
  traced_o (run_benchmarks fuel output untyped untyped_bits old benchmarks)
    (λ done l, done = true → suite output untyped benchmarks l).
Proof.
  induction benchmarks as [|b bs IH]; cbn [run_benchmarks]; [apply traced_ret; constructor|].
  apply traced_bind with (Q := λ done l, done = true →
    if enabled b then iterated output untyped b (seqZ 0 CONFIG_ITERATIONS) l else l = []).
  { destruct (enabled b); [apply iterations_milestones|by apply traced_ret]. }
  intros [] l Hl; [|by apply traced_ret]. specialize (Hl eq_refl).
  eapply traced_mono; [exact IH|]. intros d l2 Hl2 Hd. destruct (enabled b) eqn:He.
  - apply suite_enabled; [done..|]. by apply Hl2.
  - rewrite Hl. apply suite_disabled; [done|]. by apply Hl2.
Qed.

Lemma find_untyped_avoids : all_ops (other_than milestones) find_untyped.
Proof.
  unfold find_untyped. apply all_ops_bind; [|intros [?|?]; avoid].
  generalize seL4_MaxUntypedBits, 0, (Z.to_nat (seL4_MaxUntypedBits - seL4_PageBits)).
  intros s e n. revert s e. induction n as [|n IH]; intros s e; cbn [find_from]; avoid. apply IH.
Qed.

Lemma main_continued_milestones fuel benchmarks old :
  traced_o (main_continued fuel benchmarks old) (λ done l, done = true →
    ∃ runs output untyped x y, output ≠ 0 ∧ suite output untyped benchmarks runs ∧
      l = runs ++ [c_event "printf: JSON OUTPUT" [] x; c_event "json_dumpf" [output] 0;
                   c_event "printf: END JSON OUTPUT" [] y]).
Proof.
  unfold main_continued. apply traced_skip; [unfold setup_fault_handler; by avoid|]. intros _.
  apply traced_skip; [apply find_untyped_avoids|].
  intros untyped_bits. apply traced_skip; [by avoid|]. intros untyped.
  apply traced_bind with (Q := λ output l, output ≠ 0 ∧ l = []).
  { unfold checked_ptr. apply traced_skip; [by avoid|]. intros p.
    apply traced_bind with (Q := λ _ l, p ≠ 0 ∧ l = []).
    - apply traced_fatal_if. by intros ?%Z.eqb_neq.
    - intros [] l [? ->]. by apply traced_ret. }
  intros output l [Hout ->].
  eapply traced_bind; [apply benchmarks_milestones|]. intros [] l Hl; [|by apply traced_ret].
  apply traced_do_call; [done|]. intros x. apply traced_checked; [done|].
  apply traced_do_call; [done|]. intros y.
  eapply traced_mono; [apply traced_avoid; by avoid|]. intros o l2 -> _.
  exists l, output, untyped, x, y. split; [done|]. split; [by apply Hl|done].
Qed.

(** The titles of a suite are those of its schedule. *)
Definition title (x : Z) (todo : benchmark_t * Z) : event c_call :=
  c_event "print_title" [name todo.1; todo.2] x.

Definition titles (l : list (event c_call)) : list (event c_call) :=
  filter (λ ev, calls_to ["print_title"] ev = true) l.

Lemma session_untitled endpoint reply l : session endpoint reply l → titles l = [].
Proof. induction 1 as [mr Hmr|mr x l Hmr Hs IH]; [done|exact IH]. Qed.

Lemma released_untitled p untyped l : released p untyped l → titles l = [].
Proof.
  intros [pages path x y Hpages]. unfold titles. rewrite list.filter_app.
  induction Hpages as [|ev pages (v & n & z & ->) _ IH]; [done|exact IH].
Qed.

Lemma tagged_untitled json run idxs l : tagged json run idxs l → titles l = [].
Proof. induction 1 as [|idx idxs entry number l Ht IH]; [done|exact IH]. Qed.

Lemma run_titles output untyped b run l :
  run_events output untyped b run l → ∃ x, titles l = [title x (b, run)].
Proof.
  intros [x1 x2 x3 x4 results args p remote endpoint reply served freed json size tags _ _ Hs Hf Ht].
  exists x1. unfold titles. rewrite !list.filter_app.
  fold (titles served) (titles freed) (titles tags).
  by rewrite (session_untitled _ _ _ Hs), (released_untitled _ _ _ Hf), (tagged_untitled _ _ _ _ Ht).
Qed.

Lemma suite_titles output untyped bs l :
  suite output untyped bs l →
  ∃ xs, length xs = length (schedule bs) ∧ titles l = zip_with title xs (schedule bs).
Proof.
  assert (Hit : ∀ b runs l, iterated output untyped b runs l → ∃ xs, length xs = length runs ∧
    titles l = zip_with title xs (pair b <$> runs)).
  { intros b runs l'. induction 1 as [|run runs l1 l2 H1 _ (xs & Hlen & IH)]; [by exists []|].
    destruct (run_titles _ _ _ _ _ H1) as [x Hx]. exists (x :: xs). split; [simpl; by rewrite Hlen|].
    unfold titles in *. rewrite list.filter_app, Hx, IH. done. }
  induction 1 as [|b bs l Hb Hs IH|b bs l1 l2 Hb H1 Hs (ys & Hlen & IH)]; [by exists []| |].
  - unfold schedule in *. rewrite list.filter_cons, decide_False by congruence. exact IH.
  - destruct (Hit _ _ _ H1) as (xs & Hx & Htx). exists (xs ++ ys).
    unfold schedule in *. rewrite list.filter_cons, decide_True by done.
    rewrite bind_cons. split; [by rewrite !length_app, Hx, length_fmap, Hlen|].
    unfold titles in *. rewrite list.filter_app, Htx, IH.
    rewrite zip_with_app; [done|]. by rewrite length_fmap.
Qed.

(** *** An environment that grants what is asked *)

(** Whatever was called before, [m] returns. *)
Definition returns {A} (m : prog c_call A) (Q : A → Prop) : Prop :=
  ∀ tr, always env m (λ a _, Q a) tr.

Lemma returns_ret {A} (a : A) (Q : A → Prop) : Q a → returns (mret a) Q.
Proof. intros HQ tr. exact HQ. Qed.

Lemma returns_bind {A B} (m : prog c_call A) (f : A → prog c_call B) Q (R : B → Prop) :
  returns m Q → (∀ a, Q a → returns (f a) R) → returns (m ≫= f) R.
Proof.
  intros Hm Hf tr. apply always_bind. eapply always_mono, Hm. intros a tr' Ha. by apply Hf.
Qed.

Lemma returns_then {A B} (m : prog c_call A) (f : A → prog c_call B) (R : B → Prop) :
  returns m (λ _, True) → (∀ a, returns (f a) R) → returns (m ≫= f) R.
Proof. intros Hm Hf. eapply returns_bind; [exact Hm|]. intros a _. apply Hf. Qed.

Lemma returns_cc fn args : returns (cc fn args) (λ _, True).
Proof. done. Qed.

Lemma returns_loop {A} (l : list A) body :
  (∀ x, returns (body x) (λ _, True)) → returns (loop l body) (λ _, True).
Proof. intros Hb. induction l as [|x l IH]; [done|]. by apply returns_then. Qed.

(** The calls whose error the driver looks for, and those whose pointer it
    needs. *)
Definition error_calls : list string :=
  ["vka_alloc_endpoint"; "api_tcb_set_space"; "sel4utils_start_fault_handler";
   "seL4_TCB_SetPriority"; "vka_alloc_sched_context"; "api_sched_ctrl_configure"; "api_sc_bind";
   "vka_alloc_untyped"; "sel4utils_configure_process_custom"; "sel4rpc_server_init";
   "sel4utils_spawn_process_v"; "json_object_set_new: Iteration"; "json_array_extend"; "json_dumpf"].
Definition pointer_calls : list string :=
  ["json_array"; "vspace_new_pages"; "serial_server_parent_mint_endpoint_to_process";
   "ps_io_fdt_get"; "vspace_share_mem"; "benchmark->process"].

(** No call fails, and every benchmark ends its session with success, after
    fewer than [fuel] requests. *)
Definition obliging (fuel : nat) : Prop :=
  (∀ fn args tr, fn ∈ error_calls → env tr _ (call fn args) = 0) ∧
  (∀ fn args tr, fn ∈ pointer_calls → env tr _ (call fn args) ≠ 0) ∧
  (∀ b p tr, ∃ k tr', (k < fuel)%nat ∧ serves env b p tr k EXIT_SUCCESS tr').

Section obliging.
Context (fuel : nat) (Henv : obliging fuel).

Lemma returns_checked fn args :
  bool_decide (fn ∈ error_calls) = true → returns (checked fn args) (λ _, True).
Proof using Henv.
  intros Hfn%bool_decide_eq_true tr. unfold checked. apply always_bind, always_cc.
  apply always_fatal_if. destruct Henv as [He _]. by rewrite (He fn args _ Hfn).
Qed.

Lemma returns_checked_ptr fn args :
  bool_decide (fn ∈ pointer_calls) = true → returns (checked_ptr fn args) (λ _, True).
Proof using Henv.
  intros Hfn%bool_decide_eq_true tr. unfold checked_ptr. apply always_bind, always_cc.
  apply always_bind, always_fatal_if. destruct Henv as (_ & Hp & _).
  split; [|done]. by apply Z.eqb_neq, Hp.
Qed.

Lemma returns_serve b p : returns (serve fuel b p) (λ r, r = Some EXIT_SUCCESS).
Proof using Henv.
  intros tr. destruct Henv as (_ & _ & Hs). destruct (Hs b p tr) as (k & tr' & Hk & Hk').
  apply always_exec. exists (Some EXIT_SUCCESS), tr'. split; [|done]. by eapply serve_serves.
Qed.

Ltac oblige :=
  repeat first
    [ apply returns_checked; reflexivity
    | apply returns_checked_ptr; reflexivity
    | apply returns_cc
    | apply returns_ret; done
    | apply returns_loop; intros ?
    | apply returns_then; [|intros ?]
    | match goal with
      | |- returns (do_call _ _) _ => unfold do_call
      | |- returns (let '(_, _) := ?x in _) _ => destruct x
      | |- returns (if ?b then _ else _) _ => destruct b
      end ].

Lemma find_untyped_returns : returns find_untyped (λ _, True).
Proof using Henv.
  unfold find_untyped. eapply returns_bind with (Q := λ r, r = inr 0 ∨ ∃ s, r = inl s).
  - generalize seL4_MaxUntypedBits, (Z.to_nat (seL4_MaxUntypedBits - seL4_PageBits)).
    intros s [|n]; cbn [find_from]; [apply returns_ret; by left|].
    apply returns_bind with (Q := λ e, e = 0).
    { intros tr. apply always_cc. destruct Henv as [He _]. apply He.
      by apply (bool_decide_eq_true_1 _). }
    intros e ->. apply returns_ret. right. by eexists.
  - intros r [->|[s ->]]; [|by apply returns_ret]. oblige.
Qed.

Lemma run_benchmark_returns b untyped untyped_bits results args_vaddr old :
  returns (run_benchmark fuel b untyped untyped_bits results args_vaddr old)
    (λ r, r = Some EXIT_SUCCESS).
Proof using Henv.
  unfold run_benchmark. apply returns_then.
  { unfold set_up, copy_sched_ctrl, share_fdt. oblige. }
  intros [[[p args] remote] n]. eapply returns_bind; [apply returns_serve|]. intros r ->.
  unfold tear_down. oblige.
Qed.

Lemma run_once_returns output untyped untyped_bits old b run :
  returns (run_once fuel output untyped untyped_bits old b run) (λ done, done = true).
Proof using Henv.
  unfold run_once, launch_benchmark, add_iteration_tag.
  apply returns_bind with (Q := λ r, ∃ json, r = Some json ∧ json ≠ 0).
  - apply returns_then; [oblige|]. intros _. apply returns_then; [oblige|]. intros results.
    apply returns_then; [oblige|]. intros args.
    eapply returns_bind; [apply run_benchmark_returns|]. intros r ->. rewrite Z.eqb_refl.
    apply returns_bind with (Q := λ json, json ≠ 0).
    { intros tr. apply always_cc. destruct Henv as (_ & Hp & _). apply Hp.
      by apply (bool_decide_eq_true_1 _). }
    intros json Hjson. apply returns_then; [oblige|]. intros _. apply returns_then; [oblige|].
    intros _. apply returns_ret. by exists json.
  - intros r (json & -> & Hjson%Z.eqb_neq). rewrite Hjson. apply returns_then; [done|]. intros _.
    oblige.
Qed.

Lemma run_benchmarks_returns output untyped untyped_bits old benchmarks :
  returns (run_benchmarks fuel output untyped untyped_bits old benchmarks) (λ done, done = true).
Proof using Henv.
  induction benchmarks as [|b bs IH]; cbn [run_benchmarks]; [done|].
  apply returns_bind with (Q := λ done, done = true); [|by intros ? ->].
  destruct (enabled b); [|done]. generalize (seqZ 0 CONFIG_ITERATIONS). intros runs.
  induction runs as [|run runs IHr]; cbn [run_iterations]; [done|].
  eapply returns_bind; [apply run_once_returns|]. by intros ? ->.
Qed.

Lemma main_continued_returns benchmarks old :
  returns (main_continued fuel benchmarks old) (λ done, done = true).
Proof using Henv.
  unfold main_continued. apply returns_then; [unfold setup_fault_handler; oblige|]. intros _.
  apply returns_then; [apply find_untyped_returns|]. intros bits.
  apply returns_then; [oblige|]. intros untyped. apply returns_then; [oblige|]. intros output.
  eapply returns_bind; [apply run_benchmarks_returns|]. intros ? ->. oblige.
Qed.
End obliging.

(** C14.  When [main_continued] comes to its end, every enabled benchmark has
    been run [CONFIG_ITERATIONS] times, in the order of the list and with the
    runs numbered from zero, and a benchmark that is not enabled not at all.
    Each run created, prepared and started its own process, answered its
    requests until it sent the exit code of success, took its memory back, and
    handed the pages of the run to the processing function, whose results were
    not [NULL], were tagged with the number of the run and added to the one
    output array.  After the last run that array was printed between its two
    markers, once.  And it does come to its end when no call fails and every
    benchmark sends success after fewer requests than there is fuel. *)
Theorem main_continued_correct fuel benchmarks old :
  (∀ tr tr', exec env (main_continued fuel benchmarks old) tr = (Ok true, tr') →
    ∃ new runs output untyped x y, tr' = tr ++ new ∧ output ≠ 0 ∧
      suite output untyped benchmarks runs ∧
      filter (λ ev, calls_to milestones ev = true) new =
        runs ++ [c_event "printf: JSON OUTPUT" [] x; c_event "json_dumpf" [output] 0;
                 c_event "printf: END JSON OUTPUT" [] y]) ∧
  (obliging fuel → ∀ tr, ∃ tr', exec env (main_continued fuel benchmarks old) tr = (Ok true, tr')).
Proof.
  split.
  - intros tr tr' Hrun. destruct (main_continued_milestones fuel benchmarks old _ _ _ Hrun)
      as (new & -> & Hl). destruct (Hl eq_refl) as (runs & output & untyped & x & y & ?).
    by exists new, runs, output, untyped, x, y.
  - intros Henv tr.
    destruct (proj1 (always_exec _ _ _ _) (main_continued_returns fuel Henv benchmarks old tr))
      as (done & tr' & Hrun & ->). by exists tr'.
Qed.
End order.

(** ** Witnesses *)

(** An environment in which calls that return pointers succeed, every call to
    share pages answers the page of its source, and benchmarks finish at
    once. *)
Definition good_env : environment c_call := λ _ _ e,
  match e in c_call X return X with
  | call fn args =>
      if bool_decide (fn ∈ ["json_array"; "benchmark->process"; "vspace_new_pages";
                            "serial_server_parent_mint_endpoint_to_process"; "ps_io_fdt_get"])
      then 8192
      else if bool_decide (fn = "vspace_share_mem") then
        match args with [_; src; _] => src mod 4096 + 65536 | _ => 65536 end
      else if bool_decide (fn ∈ ["json_array_size"]) then 1
      else if bool_decide (fn = "fdt_totalsize") then 5000
      else 0
  end.

(** A tree of one page that starts 16 bytes into a page needs two, and one is
    shared. *)
Lemma fdt_pages_correct_witness :
  fdt_pages (H := x86_64) 4096 = 1 ∧
  ¬ (∀ a, 65552 <= a < 65552 + 4096 →
       round_down 65552 (page_bytes (H := x86_64)) <= a <
       round_down 65552 (page_bytes (H := x86_64)) + fdt_pages (H := x86_64) 4096 * page_bytes (H := x86_64)).
Proof.
  split; [by vm_compute|]. intros Hall.
  destruct (@fdt_pages_correct x86_64 65552 4096) as [[Hiff _] _]; [done|].
  specialize (Hiff Hall). vm_compute in Hiff. by apply Hiff.
Defined.

Lemma fdt_address_correct_witness :
  fdt_address (H := aarch64) 0x70000 0x40123 = 0x70123 ∧
  aligned_fdt_addr (H := aarch64) 0x70123 = 0x70000.
Proof.
  assert (Hlaw : share_law (H := aarch64) 0x70000 0x40123).
  { split; [by vm_compute|]. left. by vm_compute. }
  destruct (@fdt_address_correct aarch64 0x70000 0x40123 Hlaw) as [_ Ha].
  split; [by vm_compute|]. exact Ha.
Defined.

Definition example_benchmark (n : Z) (enabled : bool) : benchmark_t := Benchmark n enabled 2.

Lemma run_benchmark_balanced_witness :
  ∃ new, (exec good_env (run_benchmark (H := aarch64) 1 (example_benchmark 5 true) 77 24 8192 12288
            (example_args 11)) []).2 = new ∧
    balanced (H := aarch64) 8192 12288 2 (filter (λ ev, calls_to mappings ev = true) new).
Proof.
  destruct (exec good_env (run_benchmark (H := aarch64) 1 (example_benchmark 5 true) 77 24 8192 12288
            (example_args 11)) []) as [o tr'] eqn:Hrun.
  assert (Ho : o = Ok (Some 0)).
  { change o with ((o, tr').1). rewrite <-Hrun. vm_compute. reflexivity. }
  subst o.
  destruct (@run_benchmark_balanced aarch64 good_env 1 (example_benchmark 5 true) 77 24 8192 12288
    (example_args 11) [] 0 tr') as (new & Hnew & Hb).
  - intros tr p src n. unfold good_env. cbn [bool_decide].
    change (share_law (H := aarch64) (src mod 4096 + 65536) src). unfold share_law.
    change (page_bytes (H := aarch64)) with 4096.
    pose proof (Z.mod_pos_bound src 4096 ltac:(done)). split.
    + unfold in_word. change (2 ^ seL4_WordBits (Platform := aarch64)) with 18446744073709551616. lia.
    + right. change 65536 with (16 * 4096). rewrite Z.mod_add, Z.mod_mod by done. done.
  - by vm_compute.
  - by vm_compute.
  - exact Hrun.
  - exists new. split; [exact Hnew|exact Hb].
Defined.

(** Two enabled benchmarks and one that is not, in an environment that obliges. *)
Lemma good_env_obliging : obliging good_env 1.
Proof.
  split; [|split].
  - intros fn args tr Hfn. unfold error_calls in Hfn. set_unfold in Hfn.
    destruct_or! Hfn; by subst fn.
  - intros fn args tr Hfn. unfold pointer_calls in Hfn. set_unfold in Hfn.
    destruct_or! Hfn; subst fn; try done.
    destruct args as [|a [|src [|n [|? ?]]]]; try done.
    change (src mod 4096 + 65536 ≠ 0). pose proof (Z.mod_pos_bound src 4096 ltac:(done)). lia.
  - intros b p tr. eexists 0%nat, _. split; [lia|]. by apply serves_success.
Qed.

Lemma main_continued_correct_witness :
  obliging good_env 1 ∧
  ∃ new runs output untyped x y,
    exec good_env (main_continued (H := x86_64) 1
      [example_benchmark 5 true; example_benchmark 6 false; example_benchmark 7 true]
      (example_args 11)) [] = (Ok true, new) ∧
    suite (H := x86_64) output untyped
      [example_benchmark 5 true; example_benchmark 6 false; example_benchmark 7 true] runs ∧
    length runs = 42%nat ∧
    filter (λ ev, calls_to milestones ev = true) new =
      runs ++ [c_event "printf: JSON OUTPUT" [] x; c_event "json_dumpf" [output] 0;
               c_event "printf: END JSON OUTPUT" [] y].
Proof.
  split; [apply good_env_obliging|].
  destruct (@main_continued_correct x86_64 good_env 1
    [example_benchmark 5 true; example_benchmark 6 false; example_benchmark 7 true]
    (example_args 11)) as [Hdone Hends].
  destruct (Hends good_env_obliging []) as [tr' Hrun].
  destruct (Hdone _ _ Hrun) as (new & runs & output & untyped & x & y & Hnew & Hout & Hs & Hf).
  exists new, runs, output, untyped, x, y. simpl in Hnew. subst tr'.
  split; [exact Hrun|]. split; [exact Hs|]. split; [|exact Hf].
  apply (f_equal length) in Hf. rewrite length_app in Hf.
  apply (f_equal snd) in Hrun. cbn [snd] in Hrun. rewrite <-Hrun in Hf.
  assert (Hlen : length (filter (λ ev, calls_to milestones ev = true)
    (exec good_env (main_continued (H := x86_64) 1
      [example_benchmark 5 true; example_benchmark 6 false; example_benchmark 7 true]
      (example_args 11)) []).2) = 45%nat) by (vm_compute; reflexivity).
  rewrite Hlen in Hf. simpl in Hf. lia.
Defined.
