(* ===== verification/Threads.v ===== *)
(** * Threads: concurrent benchmark threads on a priority scheduler

    The measuring threads of the applications are programs over [sys]: the
    counter, the memory they share, the system calls of seL4 and the
    primitives of libsel4sync.  [config] is a set of such threads with the
    kernel objects and the memory between them, and [step] what the documented
    behaviour of those calls lets happen next: one of the ready threads of the
    highest priority performs its next operation.  The kernel is not part of
    the sources, so the theorems are about any [Kernel]: a transition relation
    that makes only documented steps, and makes one whenever there is one. *)

From S2P Require Import Prelude Platform Memory Program Collect Support.

(** ** The operations of a thread *)

(** The label and the message registers of a message. *)
Record message := Msg { msg_label : Z; msg_words : list Z }.

Inductive sys : Type → Type :=
  | ReadCcnt : sys Z
  | Load (p : ptr) (i : Z) : sys Z
  | Store (p : ptr) (i v : Z) : sys unit
  | Nop : sys unit
  | NullSyscall : sys unit
  | Yield : sys unit
  | Signal (ntfn : Z) : sys unit
  | Wait (cap : Z) : sys unit
  | Send (ep : Z) (m : message) : sys unit
  | Recv (ep : Z) : sys message
  | Call (ep : Z) (m : message) : sys message
  | Reply (m : message) : sys unit
  | ReplyRecv (ep : Z) (m : message) : sys message
  | NBSendRecv (dest : Z) (m : message) (src : Z) : sys message
  | Fault (ip : Z) : sys unit
  | BinSemWait (lock : Z) : sys unit
  | BinSemPost (lock : Z) : sys unit
  | CvWait (lock cv : Z) : sys unit
  | CvSignal (cv : Z) : sys unit
  | CvBroadcast (cv : Z) : sys unit
  | support {X} (e : lib X) : sys X
  | lib_call (fn : string) (args : list val) : sys Z
  | lib_ptr (fn : string) (args : list val) : sys (option ptr)
  | lib_alloc (fn : string) (args : list val) : sys (Z * Z).

Notation proc A := (prog sys A).

(** A function of support.c called by an application. *)
Fixpoint from_support {A} (m : prog lib A) : proc A :=
  match m with
  | Ret a => Ret a
  | Op e k => Op (support e) (λ x, from_support (k x))
  | Stop s => Stop s
  end.

Definition SEL4BENCH_READ_CCNT : proc Z := perform ReadCcnt.
Definition load_from (p : ptr) (i : Z) : proc Z := perform (Load p i).
Definition store_to (p : ptr) (i v : Z) : proc unit := perform (Store p i v).
Definition seL4_Send (ep : Z) : proc unit := perform (Send ep (Msg 0 [])).
Definition seL4_Wait (cap : Z) : proc unit := perform (Wait cap).
Definition seL4_Yield : proc unit := perform Yield.

(** A call into a library: its result dropped, or asserted to be zero; one that
    returns a page or [NULL], and one that leaves a capability beside its error
    code, both asserted. *)
Definition sys_call (fn : string) (args : list val) : proc Z := perform (lib_call fn args).
Definition sys_do (fn : string) (args : list val) : proc unit := _ ← sys_call fn args; mret tt.
Definition sys_checked (fn : string) (args : list val) : proc unit :=
  error ← sys_call fn args; assert_that (error =? 0).

Definition sys_ptr (fn : string) (args : list val) : proc ptr :=
  p ← perform (lib_ptr fn args); match p with Some p => mret p | None => Stop Abort end.
Definition sys_alloc (fn : string) (args : list val) : proc Z :=
  r ← perform (lib_alloc fn args); assert_that (r.1 =? 0);; mret r.2.

(** [atol(argv[i])], used as a word and used as a pointer.  An argument is
    passed as decimal text and read back: the value itself, as long as it fits
    the type it is read with.  Where the source reads a capability with [atoi],
    that is an [int]; capabilities are small slot numbers. *)
Definition word_arg (argv : list val) (i : nat) : proc Z :=
  match argv !! i with Some (Vint z) => mret z | _ => Stop Undefined end.
Definition ptr_arg (argv : list val) (i : nat) : proc ptr :=
  match argv !! i with Some (Vptr p) => mret p | _ => Stop Undefined end.

(** The loop of a function that measures: [for (i = 0; i < n; i++)]. *)
Definition for_to (n : Z) (body : Z → proc unit) : proc unit := loop (seqZ 0 n) body.

(** [while (cond) body], with at most [fuel] checks of the condition: needing
    more is an error, which a theorem about the loop has to exclude. *)
Fixpoint while_do (fuel : nat) (cond : proc bool) (body : proc unit) : proc unit :=
  match fuel with
  | O => Stop Undefined
  | S fuel => b ← cond; if (b : bool) then body;; while_do fuel cond body else mret tt
  end.

(** ** Threads and kernel objects *)

Record thread := Thread {
  prio : Z;
  fault_ep : Z;
  blocked : bool;
  caller : option nat;
  code : proc unit;
}.

(** The queues hold the threads that wait, in order. *)
Inductive object :=
  | Notification (active : bool) (waiting : list nat)
  | Endpoint (senders receivers : list nat)
  | BinSem (available : bool) (waiting : list nat)
  | CondVar (waiting : list nat).

Record config := Config {
  threads : list thread;
  objects : gmap Z object;
  mem : heap;
  readings : list (nat * Z);
}.

Definition set_object (a : Z) (o : object) (c : config) : config :=
  Config (threads c) (<[a := o]> (objects c)) (mem c) (readings c).
Definition set_memory (h : heap) (c : config) : config :=
  Config (threads c) (objects c) h (readings c).
Definition set_thread (t : nat) (th : thread) (c : config) : config :=
  Config (<[t := th]> (threads c)) (objects c) (mem c) (readings c).
Definition log_reading (t : nat) (v : Z) (c : config) : config :=
  Config (threads c) (objects c) (mem c) (readings c ++ [(t, v)]).

(** The size of the undefined instruction a benchmark faults on, and the label
    of the message the kernel sends for it. *)
Class FaultAbi := {
  UD_INSTRUCTION_SIZE : Z;
  seL4_Fault_UserException : Z;
  user_exception_law : seL4_Fault_UserException ≠ seL4_Fault_NullFault;
}.

(** ** The documented behaviour of the calls *)
Section kernel.
Context `{Platform} `{FaultAbi}.

(** The rest of a thread whose operation is answered: a message for a
    receiver; for a fault, the reply restarts the thread at the address in its
    first register, which is the next instruction only after
    [UD_INSTRUCTION_SIZE]. *)
Definition answered {X} (e : sys X) (m : message) : (X → proc unit) → proc unit :=
  match e in sys X return (X → proc unit) → proc unit with
  | Recv _ | Call _ _ | ReplyRecv _ _ | NBSendRecv _ _ _ => λ k, k m
  | Wait _ | Send _ _ | Signal _ | Reply _ => λ k, k tt
  | BinSemWait _ => λ k, k tt
  | Fault ip => λ k,
      if decide (head (msg_words m) = Some (ip ⊞[seL4_WordBits] UD_INSTRUCTION_SIZE)) then k tt
      else Stop Undefined
  | @support _ e => match e in lib X return (X → proc unit) → proc unit with
                    | api_wait _ => λ k, k (msg_label m)
                    | _ => λ _, Stop Undefined
                    end
  | _ => λ _, Stop Undefined
  end.

Definition wake (m : message) (th : thread) : thread :=
  Thread (prio th) (fault_ep th) false (caller th)
    match code th with Op e k => answered e m k | p => p end.

Definition with_code (p : proc unit) (th : thread) : thread :=
  Thread (prio th) (fault_ep th) (blocked th) (caller th) p.
Definition with_caller (u : option nat) (th : thread) : thread :=
  Thread (prio th) (fault_ep th) (blocked th) u (code th).
Definition suspend (th : thread) : thread :=
  Thread (prio th) (fault_ep th) true (caller th) (code th).

Definition on_thread (t : nat) (f : thread → thread) (c : config) : option config :=
  th ← threads c !! t; Some (set_thread t (f th) c).

(** The message a queued sender holds, and whether it awaits a reply. *)
Definition outgoing (th : thread) : option (message * bool) :=
  match code th with
  | Op e _ => match e in sys _ return option (message * bool) with
              | Send _ m => Some (m, false)
              | Call _ m => Some (m, true)
              | Fault ip => Some (Msg seL4_Fault_UserException [ip], true)
              | _ => None
              end
  | _ => None
  end.

(** Thread [t] receives from [cap]. *)
Definition receive (t : nat) (cap : Z) (c : config) : option config :=
  match objects c !! cap with
  | Some (Notification true q) =>
      on_thread t (wake (Msg 0 [])) (set_object cap (Notification false q) c)
  | Some (Notification false q) =>
      on_thread t suspend (set_object cap (Notification false (q ++ [t])) c)
  | Some (Endpoint (s :: ss) rs) =>
      sender ← threads c !! s;
      out ← outgoing sender;
      c ← on_thread t (wake (out.1)) (set_object cap (Endpoint ss rs) c);
      if (out.2 : bool) then on_thread t (with_caller (Some s)) c else on_thread s (wake (out.1)) c
  | Some (Endpoint [] rs) =>
      on_thread t suspend (set_object cap (Endpoint [] (rs ++ [t])) c)
  | _ => None
  end.

(** Thread [t] sends [m] to [ep]; with [reply] it waits for the answer. *)
Definition transmit (t : nat) (ep : Z) (m : message) (reply : bool) (c : config) : option config :=
  match objects c !! ep with
  | Some (Endpoint ss (r :: rs)) =>
      c ← on_thread r (wake m) (set_object ep (Endpoint ss rs) c);
      if reply then
        c ← on_thread r (with_caller (Some t)) c; on_thread t suspend c
      else on_thread t (wake m) c
  | Some (Endpoint ss []) =>
      on_thread t suspend (set_object ep (Endpoint (ss ++ [t]) []) c)
  | _ => None
  end.

(** The reply to the thread that called [t]. *)
Definition answer_caller (t : nat) (m : message) (c : config) : option config :=
  th ← threads c !! t;
  match caller th with
  | Some u => c ← on_thread u (wake m) c; on_thread t (with_caller None) c
  | None => Some c
  end.

(** Thread [u] takes the lock or queues for it. *)
Definition acquire (u : nat) (lock : Z) (c : config) : option config :=
  match objects c !! lock with
  | Some (BinSem true q) => on_thread u (wake (Msg 0 [])) (set_object lock (BinSem false q) c)
  | Some (BinSem false q) => on_thread u suspend (set_object lock (BinSem false (q ++ [u])) c)
  | _ => None
  end.

(** The lock goes to the first thread that waits for it. *)
Definition release (lock : Z) (c : config) : option config :=
  match objects c !! lock with
  | Some (BinSem _ (u :: q)) => on_thread u (wake (Msg 0 [])) (set_object lock (BinSem false q) c)
  | Some (BinSem _ []) => Some (set_object lock (BinSem true []) c)
  | _ => None
  end.

(** A thread that leaves a condition variable contends for its lock again. *)
Definition contend {X} (e : sys X) : (X → proc unit) → proc unit :=
  match e in sys X return (X → proc unit) → proc unit with
  | CvWait lock _ => λ k, Op (BinSemWait lock) k
  | _ => λ _, Stop Undefined
  end.
Definition leave (th : thread) : thread :=
  Thread (prio th) (fault_ep th) false (caller th)
    match code th with Op e k => contend e k | p => p end.

(** The operation [e] of thread [t]; [v] is the value of the cycle counter. *)
Definition perform_op {X} (t : nat) (v : Z) (c : config) (e : sys X)
  : (X → proc unit) → option config :=
  match e in sys X return (X → proc unit) → option config with
  | ReadCcnt => λ k, on_thread t (with_code (k v)) (log_reading t v c)
  | Load p i => λ k,
      match load p i (mem c) with Ok x => on_thread t (with_code (k x)) c | _ => None end
  | Store p i x => λ k,
      match store p i x (mem c) with
      | Ok h => on_thread t (with_code (k tt)) (set_memory h c)
      | _ => None
      end
  | Nop | NullSyscall | Yield => λ k, on_thread t (with_code (k tt)) c
  | Signal n => λ k,
      match objects c !! n with
      | Some (Notification _ (u :: q)) =>
          c ← on_thread u (wake (Msg 0 [])) (set_object n (Notification false q) c);
          on_thread t (with_code (k tt)) c
      | Some (Notification _ []) =>
          on_thread t (with_code (k tt)) (set_object n (Notification true []) c)
      | _ => None
      end
  | Wait cap => λ _, receive t cap c
  | Send ep m => λ _, transmit t ep m false c
  | Recv ep => λ _, receive t ep c
  | Call ep m => λ _, transmit t ep m true c
  | Reply m => λ k, c ← answer_caller t m c; on_thread t (with_code (k tt)) c
  | ReplyRecv ep m => λ _, c ← answer_caller t m c; receive t ep c
  | NBSendRecv dest m src => λ _,
      match objects c !! dest with
      | Some (Endpoint ss (r :: rs)) =>
          c ← on_thread r (wake m) (set_object dest (Endpoint ss rs) c); receive t src c
      | Some (Endpoint _ []) => receive t src c
      | _ => None
      end
  | Fault ip => λ _,
      th ← threads c !! t;
      transmit t (fault_ep th) (Msg seL4_Fault_UserException [ip]) true c
  | BinSemWait lock => λ _, acquire t lock c
  | BinSemPost lock => λ k, c ← release lock c; on_thread t (with_code (k tt)) c
  | CvWait lock cv => λ _,
      match objects c !! cv with
      | Some (CondVar q) =>
          c ← release lock (set_object cv (CondVar (q ++ [t])) c); on_thread t suspend c
      | _ => None
      end
  | CvSignal cv => λ k,
      match objects c !! cv with
      | Some (CondVar (u :: q)) =>
          c ← on_thread u leave (set_object cv (CondVar q) c); on_thread t (with_code (k tt)) c
      | Some (CondVar []) => on_thread t (with_code (k tt)) c
      | _ => None
      end
  | CvBroadcast cv => λ k,
      match objects c !! cv with
      | Some (CondVar q) =>
          c ← foldr (λ u r, c ← r; on_thread u leave c) (Some (set_object cv (CondVar []) c)) q;
          on_thread t (with_code (k tt)) c
      | _ => None
      end
  | @support _ e => match e in lib X return (X → proc unit) → option config with
                    | api_wait ep => λ _, receive t ep c
                    | _ => λ _, None
                    end
  | lib_call _ _ => λ _, None
  | lib_ptr _ _ => λ _, None
  | lib_alloc _ _ => λ _, None
  end.

Definition next (t : nat) (v : Z) (c : config) : option config :=
  th ← threads c !! t;
  match code th with Op e k => perform_op t v c e k | _ => None end.

(** ** Steps *)

Definition ready (th : thread) : bool :=
  negb (blocked th) && match code th with Op _ _ => true | _ => false end.

(** The scheduler runs a ready thread of the highest priority. *)
Definition eligible (c : config) (t : nat) : Prop :=
  ∃ th, threads c !! t = Some th ∧ ready th = true ∧
    ∀ u thu, threads c !! u = Some thu → ready thu = true → prio thu <= prio th.

Inductive step (c c' : config) : Prop :=
  | step_run t v : eligible c t → in_word ccnt_bits v → next t v c = Some c' → step c c'.

(** What the development assumes of a kernel. *)
Class Kernel := {
  kernel_step : config → config → Prop;
  kernel_documented : ∀ c c', kernel_step c c' → step c c';
  kernel_progress : ∀ c c', step c c' → ∃ c'', kernel_step c c'';
}.

(** The kernel that may do all of it. *)
Definition reference_kernel : Kernel :=
  {| kernel_step := step; kernel_documented := λ _ _ Hs, Hs;
     kernel_progress := λ _ c' Hs, ex_intro _ c' Hs |}.

Context `{Kernel}.

(** The configurations a run can come to. *)
Definition reachable (c c' : config) : Prop := rtc kernel_step c c'.

(** Every run from [c] comes to a configuration in [Q]: it can always go on
    until then, and it does so after finitely many steps, whatever the kernel
    chooses. *)
Inductive eventually (Q : config → Prop) (c : config) : Prop :=
  | eventually_now : Q c → eventually Q c
  | eventually_later : (∃ c', kernel_step c c') →
      (∀ c', kernel_step c c' → eventually Q c') → eventually Q c.

Lemma eventually_bind (P Q : config → Prop) c :
  eventually P c → (∀ c', P c' → eventually Q c') → eventually Q c.
Proof.
  intros Hc HQ. induction Hc as [c HP|c Hex Hc IH]; [by apply HQ|]. by apply eventually_later.
Qed.

Lemma eventually_mono (P Q : config → Prop) c :
  (∀ c', P c' → Q c') → eventually P c → eventually Q c.
Proof. intros HPQ Hc. apply (eventually_bind P); [done|]. intros c' HP. by apply eventually_now, HPQ. Qed.

(** An invariant of the documented steps holds wherever a run comes to. *)
Lemma reachable_invariant (I : config → Prop) c :
  I c → (∀ c1 c2, I c1 → step c1 c2 → I c2) → ∀ c', reachable c c' → I c'.
Proof.
  intros HI Hstep c' Hc'. induction Hc' as [|c1 c2 c3 Hs _ IH]; [done|].
  apply IH, (Hstep c1); [done|]. by apply kernel_documented.
Qed.

(** When one thread only may run, a run makes its step. *)
Lemma eventually_run Q c t th :
  threads c !! t = Some th → ready th = true →
  (∀ u thu, u ≠ t → threads c !! u = Some thu → ready thu = true → prio thu < prio th) →
  (∀ v, in_word ccnt_bits v → ∃ c', next t v c = Some c' ∧ eventually Q c') →
  eventually Q c.
Proof.
  intros Ht Hr Hother Hnext.
  assert (eligible c t) as Hel.
  { exists th. split; [done|]. split; [done|]. intros u thu Hu Hru.
    destruct (decide (u = t)) as [->|Hne]; [simplify_eq; lia|].
    specialize (Hother u thu Hne Hu Hru). lia. }
  apply eventually_later.
  - destruct (Hnext 0) as (c' & Hc' & _); [apply in_word_0, ccnt_bits_nonneg|].
    apply (kernel_progress c c'). by apply (step_run _ _ t 0); [|apply in_word_0, ccnt_bits_nonneg|].
  - intros c' Hs. apply kernel_documented in Hs as [u v (thu & Hu & Hru & Hmax) Hv Hn].
    destruct (decide (u = t)) as [->|Hne].
    + destruct (Hnext v Hv) as (c'' & Hc'' & HQ). by simplify_eq.
    + specialize (Hother u thu Hne Hu Hru). specialize (Hmax t th Ht Hr). lia.
Qed.

(** When two threads of one priority may run, a run makes a step of either. *)
Lemma eventually_either Q c t u tht thu :
  threads c !! t = Some tht → ready tht = true →
  threads c !! u = Some thu → ready thu = true → prio thu = prio tht →
  (∀ w thw, w ≠ t → w ≠ u → threads c !! w = Some thw → ready thw = true → prio thw < prio tht) →
  (∀ v, in_word ccnt_bits v → ∃ c', next t v c = Some c' ∧ eventually Q c') →
  (∀ v, in_word ccnt_bits v → ∃ c', next u v c = Some c' ∧ eventually Q c') →
  eventually Q c.
Proof.
  intros Ht Hrt Hu Hru Hp Hother Hnt Hnu.
  assert (eligible c t) as Hel.
  { exists tht. split; [done|]. split; [done|]. intros w thw Hw Hrw.
    destruct (decide (w = t)) as [->|Hwt]; [simplify_eq; lia|].
    destruct (decide (w = u)) as [->|Hwu]; [simplify_eq; lia|].
    specialize (Hother w thw Hwt Hwu Hw Hrw). lia. }
  apply eventually_later.
  - destruct (Hnt 0) as (c' & Hc' & _); [apply in_word_0, ccnt_bits_nonneg|].
    apply (kernel_progress c c'). by apply (step_run _ _ t 0); [|apply in_word_0, ccnt_bits_nonneg|].
  - intros c' Hs. apply kernel_documented in Hs as [w v (thw & Hw & Hrw & Hmax) Hv Hn].
    destruct (decide (w = t)) as [->|Hwt].
    { destruct (Hnt v Hv) as (c'' & Hc'' & HQ). by simplify_eq. }
    destruct (decide (w = u)) as [->|Hwu].
    { destruct (Hnu v Hv) as (c'' & Hc'' & HQ). by simplify_eq. }
    specialize (Hother w thw Hwt Hwu Hw Hrw). specialize (Hmax t tht Ht Hrt). lia.
Qed.

(** A run that decreases a measure under an invariant, and can go on. *)
Lemma eventually_measure (I : nat → config → Prop) (Q : config → Prop) :
  (∀ n c, I n c → Q c ∨
     (∃ c', step c c') ∧ ∀ c', step c c' → ∃ n', (n' < n)%nat ∧ I n' c') →
  ∀ n c, I n c → eventually Q c.
Proof.
  intros Hstep n. induction (lt_wf n) as [n _ IH]. intros c HI.
  destruct (Hstep n c HI) as [HQ|[[c' Hs] Hall]]; [by apply eventually_now|].
  apply eventually_later; [by eapply kernel_progress|].
  intros c1 Hk. apply kernel_documented in Hk. destruct (Hall c1 Hk) as (n' & Hlt & HI').
  by apply (IH n').
Qed.
End kernel.

(** Some ready thread has the highest priority. *)
Lemma eligible_exists (c : config) t th :
  threads c !! t = Some th → ready th = true → ∃ u, eligible c u.
Proof.
  intros Ht Hr.
  assert (∃ u thu, threads c !! u = Some thu ∧ ready thu = true ∧
    ∀ w thw, (w < length (threads c))%nat → threads c !! w = Some thw → ready thw = true →
      prio thw <= prio thu) as (u & thu & Hu & Hru & Hmax).
  { induction (length (threads c)) as [|n IH]; [by exists t, th; split; [|split; [|lia]]|].
    destruct IH as (u & thu & Hu & Hru & Hmax).
    assert (∀ w thw, (w < S n)%nat → w ≠ n → threads c !! w = Some thw → ready thw = true →
      prio thw <= prio thu) as Hlow by (intros w thw Hw Hne; apply Hmax; lia).
    assert ((∃ thn, threads c !! n = Some thn ∧ ready thn = true ∧ prio thu < prio thn) ∨
      ∀ thn, threads c !! n = Some thn → ready thn = true → prio thn <= prio thu)
      as [(thn & Hn & Hrn & Hlt)|Hno].
    { destruct (threads c !! n) as [thn|]; [|by right].
      destruct (ready thn) eqn:Hrn; [|right; intros thn' [= <-]; congruence].
      destruct (decide (prio thu < prio thn)); [by left; exists thn|].
      right. intros thn' [= <-] _. lia. }
    - exists n, thn. split; [done|]. split; [done|]. intros w thw Hw Ew Hrw.
      destruct (decide (w = n)) as [->|Hne]; [simplify_eq; lia|].
      specialize (Hlow w thw Hw Hne Ew Hrw). lia.
    - exists u, thu. split; [done|]. split; [done|]. intros w thw Hw Ew Hrw.
      destruct (decide (w = n)) as [->|Hne]; [by apply Hno|by apply (Hlow w thw)]. }
  exists u, thu. split; [done|]. split; [done|]. intros w thw Hw.
  apply (Hmax w thw); [by eapply lookup_lt_Some|done].
Qed.

(** ** Running the threads of a concrete configuration *)

Lemma decide_refl {A B} (x : A) `{!Decision (x = x)} (a b : B) :
  (if decide (x = x) then a else b) = a.
Proof. by rewrite decide_True. Qed.

(** The objects a run has changed, one at a time. *)
Ltac lookups :=
  repeat match goal with
  | |- context [<[?a:=?x]> ?m !! ?a] => rewrite (lookup_insert_eq m a x)
  | |- context [<[?a:=?x]> ?m !! ?b] => rewrite (lookup_insert_ne m a b x) by (clear -m; congruence)
  | |- context [<[?a:=?x]> ?m !! ?b] => rewrite (lookup_insert_ne m a b x) by congruence
  | Ho : ?m !! ?a = Some _ |- context [?m !! ?a] => rewrite Ho
  | |- context [decide (?x = ?x)] => rewrite decide_refl
  | Ho : store ?p ?i ?v ?m = Ok _ |- context [store ?p ?i ?v ?m] => rewrite Ho
  | Ho : load ?p ?i ?m = Ok _ |- context [load ?p ?i ?m] => rewrite Ho
  end.

(** No other thread is ready, or those that are have lower priorities. *)
Ltac lower_priorities :=
  let Hu := fresh in let Hr := fresh in
  intros [|[|[|[|?]]]] ? ? Hu Hr; simplify_eq/=; try done; lia.

Ltac thread_simpl :=
  repeat (progress (
    cbn; unfold on_thread, set_thread, set_object, set_memory, log_reading, with_code, with_caller,
      suspend, wake, receive, transmit, answer_caller, acquire, release, leave; cbn; lookups)).

(** The next operation of thread [t], the only one that may run; [v] is the
    value of the counter. *)
Ltac run_as t v Hv :=
  eapply (eventually_run _ _ t); [reflexivity|reflexivity|lower_priorities|];
  intros v Hv; eexists; split; [unfold next; thread_simpl; reflexivity|thread_simpl].
Ltac run t := let v := fresh "v" in let Hv := fresh "Hv" in run_as t v Hv; clear v Hv.

(** Two threads of one priority are ready: one goal for each going first. *)
Ltac run_either t u :=
  eapply (eventually_either _ _ t u);
  [reflexivity|reflexivity|reflexivity|reflexivity|try reflexivity; simpl; lia
  |let Hu := fresh in let Hr := fresh in
   intros [|[|[|[|?]]]] ? ? ? Hu Hr; simplify_eq/=; try done; lia
  |let v := fresh "v" in let Hv := fresh "Hv" in
   intros v Hv; eexists; split; [unfold next; thread_simpl; reflexivity|thread_simpl; try clear v Hv]
  |let v := fresh "v" in let Hv := fresh "Hv" in
   intros v Hv; eexists; split; [unfold next; thread_simpl; reflexivity|thread_simpl; try clear v Hv]].

(** ** Pairs of readings *)

(** The readings two threads make in turn, one [(start, end)] pair a sample. *)
Definition interleaved (t u : nat) (samples : list (Z * Z)) : list (nat * Z) :=
  samples ≫= λ se, [(t, se.1); (u, se.2)].

(** What a loop stores for them. *)
Definition elapsed (w : Z) (samples : list (Z * Z)) : list Z := (λ se, se.2 ⊟[w] se.1) <$> samples.

Lemma interleaved_snoc t u samples s e :
  interleaved t u (samples ++ [(s, e)]) = interleaved t u samples ++ [(t, s); (u, e)].
Proof. unfold interleaved. by rewrite bind_app. Qed.

Lemma elapsed_snoc w samples s e :
  elapsed w (samples ++ [(s, e)]) = elapsed w samples ++ [e ⊟[w] s].
Proof. unfold elapsed. by rewrite fmap_app. Qed.

Lemma elapsed_app w s1 s2 : elapsed w (s1 ++ s2) = elapsed w s1 ++ elapsed w s2.
Proof. apply fmap_app. Qed.

Lemma length_elapsed w samples : length (elapsed w samples) = length samples.
Proof. unfold elapsed. by rewrite length_fmap. Qed.

(** The block after the first results are stored from [n] on. *)
Lemma list_inserts_snoc {A} (n : nat) (k l : list A) (x : A) :
  <[(n + length k)%nat := x]> (list_inserts n k l) = list_inserts n (k ++ [x]) l.
Proof.
  revert n. induction k as [|y k IH]; intros n; simpl; [by rewrite Nat.add_0_r|].
  rewrite <-IH. rewrite list_insert_insert_ne by lia. f_equal. f_equal. lia.
Qed.

(** A thread that has returned. *)
Definition returned (t : nat) (c : config) : Prop :=
  ∃ th, threads c !! t = Some th ∧ code th = Ret tt.

(** The loop index after one more sample. *)
Lemma next_index {A} (l : list A) x : Z.of_nat (length l) + 1 = Z.of_nat (length (l ++ [x])).
Proof. rewrite length_app. simpl. lia. Qed.

Ltac next_sample s e :=
  rewrite <-?app_assoc; cbn [app]; rewrite <-interleaved_snoc; rewrite (next_index _ (s, e));
  match goal with |- context [Z.of_nat (S ?n) - 1] =>
    replace (Z.of_nat (S n) - 1) with (Z.of_nat n) by lia end.
Ltac count_samples := rewrite ?length_app; simpl; lia.

(** ** A concrete instance

    The kernel that may do every documented step, two unused notifications and
    two unused endpoints, a shared variable and a block of results. *)
Definition example_abi : FaultAbi :=
  {| UD_INSTRUCTION_SIZE := 2; seL4_Fault_UserException := 3;
     user_exception_law := ltac:(discriminate) |}.

Definition example_kernel (P : Platform) : @Kernel P example_abi := @reference_kernel P example_abi.

Definition example_objects : gmap Z object :=
  {[10 := Notification false []; 11 := Notification false [];
    12 := Endpoint [] []; 13 := Endpoint [] []]}.

Definition example_heap : heap :=
  Heap {[1%positive := [0]; 2%positive := replicate 600 7]} 0.
