(* ===== verification/Measuring.v ===== *)
(** * Measuring: what the measuring threads are written with

    The system-call stubs of [libsel4benchsupport/sel4_arch_include] and
    [arch_include] (their aarch64 version: the registers an instruction takes
    and leaves), the fields of a result structure, which are all arrays of
    [ccnt_t], and the starting of a thread at a function with its words. *)

From S2P Require Import Prelude Platform Memory Program Collect Support Threads.

(** ** Stubs *)

(** The instruction of a stub: the trap into the kernel, or the [nop] of the
    version that measures the overhead. *)
Inductive instruction := svc | nop.
Inductive syscall := seL4_SysSend | seL4_SysRecv | seL4_SysWait.

Section stubs.
Context `{Platform}.

Definition DO_NTFN_OP (ntfn : Z) (swi : instruction) (scno : syscall) : proc unit :=
  match swi with
  | nop => perform Nop
  | svc => match scno with
           | seL4_SysSend => perform (Signal ntfn)
           | seL4_SysRecv | seL4_SysWait => perform (Wait ntfn)
           end
  end.

Definition DO_WAIT (ntfn : Z) (swi : instruction) : proc unit :=
  if CONFIG_KERNEL_MCS then DO_NTFN_OP ntfn swi seL4_SysWait else DO_NTFN_OP ntfn swi seL4_SysRecv.
Definition DO_SIGNAL (ntfn : Z) (swi : instruction) : proc unit := DO_NTFN_OP ntfn swi seL4_SysSend.

Definition DO_REAL_WAIT (ntfn : Z) : proc unit := DO_WAIT ntfn svc.
Definition DO_REAL_SIGNAL (ntfn : Z) : proc unit := DO_SIGNAL ntfn svc.
Definition DO_NOP_SIGNAL (ntfn : Z) : proc unit := DO_SIGNAL ntfn nop.

(** The stubs are the operations they perform. *)
Lemma do_real_wait ntfn : DO_REAL_WAIT ntfn = perform (Wait ntfn).
Proof. unfold DO_REAL_WAIT, DO_WAIT. by destruct CONFIG_KERNEL_MCS. Qed.

Lemma do_real_signal ntfn : DO_REAL_SIGNAL ntfn = perform (Signal ntfn).
Proof. done. Qed.

Definition DO_NULLSYSCALL_OP (swi : instruction) : proc unit :=
  match swi with nop => perform Nop | svc => perform NullSyscall end.
Definition DO_REAL_NULLSYSCALL : proc unit := DO_NULLSYSCALL_OP svc.
Definition DO_NOP_NULLSYSCALL : proc unit := DO_NULLSYSCALL_OP nop.

(** The first register of a message that was received. *)
Definition first_register (m : message) : proc Z :=
  match msg_words m with x :: _ => mret x | [] => Stop Undefined end.

(** [DO_REPLY_RECV_1(ep, ip, ro, swi)]: the value [ip] has afterwards. *)
Definition DO_REPLY_RECV_1 (ep ip : Z) (swi : instruction) : proc Z :=
  match swi with
  | nop => perform Nop;; mret ip
  | svc => m ← perform (ReplyRecv ep (Msg 0 [ip])); first_register m
  end.
Definition DO_REAL_REPLY_RECV_1 (ep mr0 : Z) : proc Z := DO_REPLY_RECV_1 ep mr0 svc.
Definition DO_NOP_REPLY_RECV_1 (ep mr0 : Z) : proc Z := DO_REPLY_RECV_1 ep mr0 nop.

(** On the kernels without MCS the reply object is not used. *)
Definition seL4_RecvWith1MR (src : Z) : proc Z := m ← perform (Recv src); first_register m.
Definition seL4_ReplyWith1MR (mr0 : Z) : proc unit := perform (Reply (Msg 0 [mr0])).

End stubs.

(** ** Time units and the timer

    [utils/time.h] *)
Class TimeUnits := {
  NS_IN_MS : Z;
  NS_IN_S : Z;
  time_units_law : 0 < NS_IN_MS ∧ NS_IN_S = 1000 * NS_IN_MS;
}.

(** ** Result structures *)

(** The fields in order, with the number of [ccnt_t] of each. *)
Definition layout := list (string * Z).

Fixpoint field_offset (l : layout) (name : string) : option Z :=
  match l with
  | [] => None
  | (f, n) :: l => if decide (f = name) then Some 0 else off ← field_offset l name; Some (n + off)
  end.

Definition struct_size (l : layout) : Z := sumZ (snd <$> l).

(** [&results->name]; a name the structure has not is no address. *)
Definition field (l : layout) (results : ptr) (name : string) : ptr :=
  ptr_add results (default (struct_size l) (field_offset l name)).

(** [results->name = v], [results->name] *)
Definition set_field (l : layout) (results : ptr) (name : string) (v : Z) : proc unit :=
  store_to (field l results name) 0 v.
Definition get_field (l : layout) (results : ptr) (name : string) : proc Z :=
  load_from (field l results name) 0.

(** ** Threads *)

(** A [sel4utils_thread_t] of the application: its handle and its TCB. *)
Record helper := Helper { handle : Z; tcb_cptr : Z }.

(** [sel4utils_start_thread(thread, fn, argc, argv, resume)], with the words of
    [argv] *)
Definition start_thread (thread : helper) (fn : string) (argc : Z) (argv : list val) (resume : bool)
  : proc Z :=
  sys_call "sel4utils_start_thread"
    (Vint (handle thread) :: Vfn fn :: Vint argc :: argv ++ [Vint (if resume then 1 else 0)]).

(** The TCB of the calling thread's process, from [env->simple]. *)
Definition simple_get_tcb : proc Z := sys_call "simple_get_tcb" [].

Definition TCB_SetPriority (tcb auth prio : Z) : proc Z :=
  sys_call "seL4_TCB_SetPriority" [Vint tcb; Vint auth; Vint prio].
Definition TCB_Suspend (tcb : Z) : proc Z := sys_call "seL4_TCB_Suspend" [Vint tcb].

(** A capability to [cap] in [process]; [seL4_CapNull] is asserted not to be
    the answer. *)
Definition copy_cap (process cap : Z) : proc Z :=
  path ← sys_call "vka_cspace_make_path" [Vint cap];
  remote ← sys_call "sel4utils_copy_path_to_process" [Vint process; Vint path];
  assert_that (negb (remote =? seL4_CapNull));; mret remote.

Section runtime.
Context `{Platform}.

(** What [benchmark_get_env] takes from the linker and the libraries. *)
Record runtime := Runtime {
  seL4_BadgeBits : Z;
  executable_start : Z;
  etext : Z;
  ipc_buffer : Z;
  library_vka : vka_t;
  BYTES_TO_SIZE_BITS_PAGES : Z → Z → Z;
  sizeof_IPCBuffer : Z;
  io_fdt_addr : Z;
  args_vaddr : Z;
  bargs : benchmark_args_t;
}.

(** The size of a result structure in bytes. *)
Definition sizeof (l : layout) : Z := (ccnt_bits / 8) * struct_size l.

(** [benchmark_get_env(argc, argv, results_size, object_freq)];
    [notifications] is the entry of [object_freq] it changes. *)
Definition get_env (rt : runtime) (argc results_size notifications : Z) : proc Env.env_t :=
  from_support
    (Env.benchmark_get_env (seL4_BadgeBits rt) (executable_start rt) (etext rt) (ipc_buffer rt)
       (library_vka rt) (BYTES_TO_SIZE_BITS_PAGES rt) (sizeof_IPCBuffer rt) (io_fdt_addr rt)
       argc (bargs rt) (args_vaddr rt) results_size notifications).

Definition finished (env : Env.env_t) (exit_code : Z) : proc unit :=
  from_support (Env.benchmark_finished env exit_code).
Definition wait_children (ep n : Z) : proc unit :=
  from_support (Process.benchmark_wait_children ep n).
Definition configure_thread (fault_ep prio : Z) (thread : helper) : proc unit :=
  from_support (Process.benchmark_configure_thread fault_ep prio (handle thread)).
Definition shallow_clone (process : Process.process_t) (prio : Z) (entry : string) : proc unit :=
  from_support
    (Process.benchmark_shallow_clone_process (Process.process_id process) prio (Vfn entry)).
Definition spawn (process : Process.process_t) (argv : list val) (resume : bool)
  : proc (Z * Process.process_t) :=
  from_support (Process.benchmark_spawn_process process argv resume).

(** [getMinOverhead(results->name, n)], in place. *)
Definition read_array (p : ptr) (n : Z) : proc (list Z) :=
  loop_acc (seqZ 0 n) [] (λ i l, x ← load_from p i; mret (l ++ [x])).
Definition min_overhead (p : ptr) (n : Z) : proc Z :=
  l ← read_array p n;
  match MinOverhead.getMinOverhead l n with
  | Ok x => mret x
  | Fatal => Stop Abort
  | Undef => Stop Undefined
  end.
(** [send_result] and [get_result] of support.c, with the message they make of
    the 120 message registers, and take. *)
Definition send_result (ep result : Z) : proc unit :=
  match Transfer.send_result (replicate 120 0) result with
  | Ok (mrs, length) => perform (Send ep (Msg 0 (take (Z.to_nat length) mrs)))
  | Fatal => Stop Abort
  | Undef => Stop Undefined
  end.
Definition get_result (ep : Z) : proc Z :=
  m ← perform (Recv ep);
  match Transfer.get_result (msg_words m) (Z.of_nat (length (msg_words m))) with
  | Ok result => mret result
  | Fatal => Stop Abort
  | Undef => Stop Undefined
  end.

(** The message of the words of the result. *)
Lemma send_result_perform ep result :
  send_result ep result = perform (Send ep (Msg 0 (Transfer.result_words result))).
Proof.
  unfold send_result. destruct (Transfer.send_result_words 0 0 (replicate 118 0) result) as [rest E].
  change (replicate 120 0) with (0 :: 0 :: replicate 118 0). rewrite E. do 2 f_equal.
  rewrite <-(Transfer.length_result_words result), Nat2Z.id. by rewrite take_app_length.
Qed.
End runtime.

(** A parent's first wait of two. *)
Lemma wait_two_children `{Platform} ep :
  wait_children ep 2 =
    Op (support (api_wait ep)) (λ label, from_support (
       (if negb (label =? 0) then perform (print_fault_message label);; Stop Abort else mret tt);;
       Process.wait_child ep;; mret tt)).
Proof. done. Qed.

(** Its second one, and its return. *)
Definition wait_last_child (ep : Z) : proc unit :=
  from_support (Process.wait_child ep;; mret tt).

(** ** Loops that time one operation

    [READ(start); op; READ(end)], with the difference stored or collected: the
    overhead and null-system-call loops of the applications. *)

(** An operation that only takes time. *)
Definition quiet (op : proc unit) : Prop :=
  op = perform Nop ∨ op = perform NullSyscall ∨ op = mret tt.

Section timed.
Context `{Platform}.
Import EarlyProc.

Definition timed_body (op : proc unit) (results : ptr) (i : Z) : proc unit :=
  start ← SEL4BENCH_READ_CCNT; op;; end_ ← SEL4BENCH_READ_CCNT;
  store_to results i (end_ ⊟[ccnt_bits] start).
Definition timed_body_ep (op : proc unit) (ignored overhead : Z) (i : Z) (p : sums) : proc sums :=
  start ← SEL4BENCH_READ_CCNT; op;; end_ ← SEL4BENCH_READ_CCNT;
  mret (DATACOLLECT_GET_SUMS ccnt_bits i ignored start end_ overhead p).

Lemma timed_body_step op p i (L k : proc unit) :
  quiet op →
  ((timed_body op p i;; L);; k : proc unit) =
    (start ← SEL4BENCH_READ_CCNT; op;; end_ ← SEL4BENCH_READ_CCNT;
     store_to p i (end_ ⊟[ccnt_bits] start);; L;; k).
Proof. by intros [-> |[-> | ->]]. Qed.

Lemma timed_body_ep_step op n o i p (L : sums → proc sums) (k : sums → proc unit) :
  quiet op →
  ((timed_body_ep op n o i p ≫= L) ≫= k : proc unit) =
    (start ← SEL4BENCH_READ_CCNT; op;; end_ ← SEL4BENCH_READ_CCNT;
     L (DATACOLLECT_GET_SUMS ccnt_bits i n start end_ o p) ≫= k).
Proof. by intros [-> |[-> | ->]]. Qed.

Context `{FaultAbi} `{!Kernel}.
Context (pr fe : Z) (objs : gmap Z object).

(** The only thread. *)
Definition alone (p : proc unit) (m : heap) (rs : list (nat * Z)) : config :=
  Config [Thread pr fe false None p] objs m rs.

Lemma timed_op (Q : config → Prop) op (k : Z → Z → proc unit) m rs :
  quiet op → (∀ s e, eventually Q (alone (k s e) m (rs ++ [(0%nat, s); (0%nat, e)]))) →
  eventually Q (alone (s ← SEL4BENCH_READ_CCNT; op;; e ← SEL4BENCH_READ_CCNT; k s e) m rs).
Proof.
  intros [-> |[-> | ->]] HQ; unfold alone in *;
    (run_as 0%nat s Hs; try run 0%nat; run_as 0%nat e He; rewrite <-app_assoc; apply HQ).
Qed.

(** The raw loop, after the samples it has taken. *)
Lemma timed_loop (Q : config → Prop) op rb off l (k : proc unit) rs n samples m :
  quiet op → 0 <= off → off + Z.of_nat (length samples + n) <= Z.of_nat (length l) →
  holds m rb (list_inserts (Z.to_nat off) (elapsed ccnt_bits samples) l) →
  (∀ m' samples', length samples' = (length samples + n)%nat →
     holds m' rb (list_inserts (Z.to_nat off) (elapsed ccnt_bits samples') l) →
     (∀ b l', b ≠ rb → holds m b l' → holds m' b l') →
     eventually Q (alone k m' (rs ++ interleaved 0 0 samples'))) →
  eventually Q (alone (loop (seqZ (Z.of_nat (length samples)) (Z.of_nat n))
    (timed_body op (Ptr rb off));; k) m (rs ++ interleaved 0 0 samples)).
Proof.
  intros Hop Hoff. revert samples m.
  induction n as [|n IH]; intros samples m Hlen Hr HQ; [apply HQ; [lia|done|done]|].
  rewrite seqZ_succ_l by lia. cbn [loop]. rewrite timed_body_step by done.
  apply timed_op; [done|]. intros s e.
  destruct (store_frame m rb (list_inserts (Z.to_nat off) (elapsed ccnt_bits samples) l) off
    (Z.of_nat (length samples)) (e ⊟[ccnt_bits] s)) as (m2 & E2 & Hr2 & Hf2).
  { done. } { rewrite length_inserts. lia. }
  unfold alone. run 0%nat.
  replace (Z.to_nat (off + Z.of_nat (length samples)))
    with (Z.to_nat off + length (elapsed ccnt_bits samples))%nat in Hr2
    by (rewrite length_elapsed; lia).
  rewrite list_inserts_snoc, <-elapsed_snoc in Hr2.
  next_sample s e.
  apply IH; [count_samples|done|].
  intros m' samples' Hl Hr' Hf'. apply HQ; [|done|].
  - rewrite Hl. count_samples.
  - intros b l' Hb Hl'. by apply Hf', Hf2.
Qed.

(** The early-processing loop. *)
Lemma timed_loop_ep (Q : config → Prop) op ignored overhead (k : sums → proc unit) m rs n samples :
  quiet op → Z.of_nat (length samples + n) < 2 ^ seL4_WordBits →
  (∀ samples', length samples' = (length samples + n)%nat →
     eventually Q (alone (k (collect ccnt_bits ignored overhead samples')) m
                     (rs ++ interleaved 0 0 samples'))) →
  eventually Q (alone (loop_acc (seqZ (Z.of_nat (length samples)) (Z.of_nat n))
    (collect ccnt_bits ignored overhead samples) (timed_body_ep op ignored overhead) ≫= k)
    m (rs ++ interleaved 0 0 samples)).
Proof.
  intros Hop. revert samples. induction n as [|n IH]; intros samples Hlen HQ; [apply HQ; lia|].
  rewrite seqZ_succ_l by lia. cbn [loop_acc]. rewrite timed_body_ep_step by done.
  apply timed_op; [done|]. intros s e.
  rewrite <-collect_snoc by lia.
  next_sample s e.
  apply IH; [count_samples|].
  intros samples' Hl. apply HQ. rewrite Hl. count_samples.
Qed.

(** The loops from their start. *)
Lemma timed_loop_all (Q : config → Prop) op rb off l (k : proc unit) n m rs :
  quiet op → 0 <= off → 0 <= n → off + n <= Z.of_nat (length l) → holds m rb l →
  (∀ m' samples, Z.of_nat (length samples) = n →
     holds m' rb (list_inserts (Z.to_nat off) (elapsed ccnt_bits samples) l) →
     (∀ b l', b ≠ rb → holds m b l' → holds m' b l') →
     eventually Q (alone k m' (rs ++ interleaved 0 0 samples))) →
  eventually Q (alone (loop (seqZ 0 n) (timed_body op (Ptr rb off));; k) m rs).
Proof.
  intros Hop Hoff Hn Hlen Hr HQ. rewrite <-(Z2Nat.id n), <-(app_nil_r rs) by done.
  apply (timed_loop Q op rb off l k rs (Z.to_nat n) [] m); [done..|simpl; lia|done|].
  intros m' samples Hl. apply HQ. simpl in Hl. lia.
Qed.

Lemma timed_loop_ep_all (Q : config → Prop) op ignored overhead (k : sums → proc unit) n m rs :
  quiet op → 0 <= n < 2 ^ seL4_WordBits →
  (∀ samples, Z.of_nat (length samples) = n →
     eventually Q (alone (k (collect ccnt_bits ignored overhead samples)) m
                     (rs ++ interleaved 0 0 samples))) →
  eventually Q (alone (loop_acc (seqZ 0 n) (mkSums 0 0) (timed_body_ep op ignored overhead) ≫= k)
    m rs).
Proof.
  intros Hop Hn HQ. rewrite <-(Z2Nat.id n), <-(app_nil_r rs) by lia.
  apply (timed_loop_ep Q op ignored overhead k m rs (Z.to_nat n) []); [done|simpl; lia|].
  intros samples Hl. apply HQ. simpl in Hl. lia.
Qed.

(** A store, a load and the return of the only thread. *)
Lemma alone_store (Q : config → Prop) rb off l v (k : proc unit) m rs :
  holds m rb l → 0 <= off < Z.of_nat (length l) →
  (∀ m', holds m' rb (<[Z.to_nat off := v]> l) →
     (∀ b l', b ≠ rb → holds m b l' → holds m' b l') → eventually Q (alone k m' rs)) →
  eventually Q (alone (store_to (Ptr rb off) 0 v;; k) m rs).
Proof.
  intros Hr Hoff HQ. destruct (store_frame m rb l off 0 v Hr) as (m2 & E2 & Hr2 & Hf2); [lia|].
  rewrite Z.add_0_r in Hr2. unfold alone in *. run 0%nat. by apply HQ.
Qed.

Lemma alone_load (Q : config → Prop) rb off l x (k : Z → proc unit) m rs :
  holds m rb l → 0 <= off → l !! Z.to_nat off = Some x →
  eventually Q (alone (k x) m rs) → eventually Q (alone (load_from (Ptr rb off) 0 ≫= k) m rs).
Proof.
  intros Hr Hoff Hx HQ.
  assert (E : load (Ptr rb off) 0 m = Ok x).
  { apply (load_holds _ _ l); [done|lia|by rewrite Z.add_0_r]. }
  unfold alone in *. run 0%nat. done.
Qed.

Lemma alone_last_store (Q : config → Prop) rb off l v m rs :
  holds m rb l → 0 <= off < Z.of_nat (length l) →
  (∀ c, returned 0 c → holds (mem c) rb (<[Z.to_nat off := v]> l) → readings c = rs → Q c) →
  eventually Q (alone (store_to (Ptr rb off) 0 v) m rs).
Proof.
  intros Hr Hoff HQ. destruct (store_frame m rb l off 0 v Hr) as (m2 & E2 & Hr2 & Hf2); [lia|].
  rewrite Z.add_0_r in Hr2. unfold alone. run 0%nat. apply eventually_now, HQ; [|done|done].
  by eexists.
Qed.
End timed.
