(* ===== verification/Stubs.v ===== *)
(** * Stubs: the system-call stubs of the five targets

    The macros of [sel4_arch_include/{x86_64,ia32,aarch32,aarch64}] and of
    [arch_include/riscv] that a measurement brackets with two readings of the
    counter.  A macro is a block of inline assembly: the registers that the
    compiler loads for it, those it reads back, those it is told are lost, and
    the instructions between.  The block runs on a register file and a stack;
    the trap is the kernel's.  The programs of the applications use the
    operations these blocks stand for (Threads, Measuring). *)

From S2P Require Import Prelude Platform Measuring.

(** ** Blocks of inline assembly *)

Definition regs : Type := string → Z.
Definition set (r : string) (v : Z) (ρ : regs) : regs := λ r', if decide (r = r') then v else ρ r'.

(** [Lea r] loads the address of the label before the trap; [Nops] is the
    macro [NOPS]. *)
Inductive insn :=
  | Mov (from to : string)
  | Lea (to : string)
  | Push (r : string)
  | Pop (r : string)
  | Nops
  | Sys (i : instruction).

Record asm_block := Asm {
  inputs : list (string * Z);
  outputs : list string;
  clobbers : list string;
  code : list insn;
}.

(** The registers when the block starts. *)
Definition loaded (b : asm_block) (ρ : regs) : regs :=
  foldl (λ ρ x, set x.1 x.2 ρ) ρ (inputs b).

(** A processor: its stack pointer, the bytes of a word, the address of the
    label; what the kernel leaves in the registers. *)
Record cpu := Cpu { sp : string; word_bytes : Z; label_address : Z }.
Definition memory : Type := Z → Z.

Definition insn_step (c : cpu) (kernel : regs → regs) (i : insn) (s : regs * memory) : regs * memory :=
  let '(ρ, m) := s in
  match i with
  | Mov from to => (set to (ρ from) ρ, m)
  | Lea to => (set to (label_address c) ρ, m)
  | Push r => let a := ρ (sp c) - word_bytes c in (set (sp c) a ρ, λ x, if x =? a then ρ r else m x)
  | Pop r => (set r (m (ρ (sp c))) (set (sp c) (ρ (sp c) + word_bytes c) ρ), m)
  | Nops | Sys nop => (ρ, m)
  | Sys svc => (kernel ρ, m)
  end.
Definition run_code (c : cpu) (kernel : regs → regs) (l : list insn) (s : regs * memory) : regs * memory :=
  foldl (λ s i, insn_step c kernel i s) s l.
Definition run_block (c : cpu) (kernel : regs → regs) (b : asm_block) (ρ : regs) (m : memory) : regs * memory :=
  run_code c kernel (code b) (loaded b ρ, m).

(** The instructions before the first trap or its stand-in. *)
Fixpoint before_sys (l : list insn) : list insn :=
  match l with
  | [] => []
  | Sys _ :: _ => []
  | i :: l => i :: before_sys l
  end.

(** ** The numbers of libsel4 *)
Class SyscallNumbers := {
  SysCall : Z; SysReplyRecv : Z; SysSend : Z; SysRecv : Z; SysWait : Z; SysBenchmarkNullSyscall : Z;
  MessageInfo_new : Z → Z → Z → Z → Z;
}.

(** ** x86_64 *)
Module X86_64.
Section stubs.
Context `{Platform} `{SyscallNumbers}.

(** [movq %rsp, %rbx; sys; movq %rbx, %rsp] *)
Definition around (sys : instruction) : list insn := [Mov "rsp" "rbx"; Sys sys; Mov "rbx" "rsp"].
Definition lost : list string := ["rcx"; "rbx"; "r11"].
Definition lost_10 : list string := ["rcx"; "rbx"; "r11"; "r10"; "r8"; "r9"; "r15"].

Definition DO_CALL (ep tag : Z) (sys : instruction) : asm_block :=
  Asm [("rsi", tag); ("rdi", ep); ("rdx", SysCall)] ["rsi"; "rdi"] lost (around sys).
Definition DO_CALL_10 (ep tag : Z) (sys : instruction) : asm_block :=
  Asm [("rsi", tag); ("rdi", ep); ("rdx", SysCall)] ["rsi"; "rdi"] lost_10 (around sys).
Definition DO_SEND (ep tag : Z) (sys : instruction) : asm_block :=
  Asm [("rsi", tag); ("rdi", ep); ("rdx", SysSend)] ["rsi"; "rdi"] lost (around sys).

(** On the kernels that have reply objects, the object is one more operand. *)
Definition DO_REPLY_RECV_plain (ep tag : Z) (sys : instruction) : asm_block :=
  Asm [("rsi", tag); ("rdi", ep); ("rdx", SysReplyRecv)] ["rsi"; "rdi"] lost (around sys).
Definition DO_REPLY_RECV (ep tag ro : Z) (sys : instruction) : asm_block :=
  if CONFIG_KERNEL_MCS then
    Asm [("rsi", tag); ("rdi", ep); ("rdx", SysReplyRecv); ("r12", ro)] ["rsi"; "rdi"] lost (around sys)
  else DO_REPLY_RECV_plain ep tag sys.
Definition DO_REPLY_RECV_10_plain (ep tag : Z) (sys : instruction) : asm_block :=
  Asm [("rsi", tag); ("rdi", ep); ("rdx", SysReplyRecv)] ["rsi"; "rdi"] lost_10 (around sys).
Definition DO_REPLY_RECV_10 (ep tag ro : Z) (sys : instruction) : asm_block :=
  if CONFIG_KERNEL_MCS then
    Asm [("rsi", tag); ("rdi", ep); ("rdx", SysReplyRecv); ("r12", ro)] ["rsi"; "rdi"] lost_10 (around sys)
  else DO_REPLY_RECV_10_plain ep tag sys.
Definition DO_RECV_plain (ep : Z) (sys : instruction) : asm_block :=
  Asm [("rsi", 0); ("rdi", ep); ("rdx", SysRecv)] ["rsi"; "rdi"] lost (around sys).
Definition DO_RECV (ep ro : Z) (sys : instruction) : asm_block :=
  if CONFIG_KERNEL_MCS then
    Asm [("rsi", 0); ("rdi", ep); ("rdx", SysRecv); ("r12", ro)] ["rsi"; "rdi"] lost (around sys)
  else DO_RECV_plain ep sys.
Definition DO_REPLY_RECV_1_plain (ep msg0 : Z) (sys : instruction) : asm_block :=
  Asm [("rsi", MessageInfo_new 0 0 0 1); ("rdi", ep); ("rdx", SysReplyRecv); ("r10", msg0)]
    ["rsi"; "rdi"; "r10"] ["rcx"; "rbx"; "r11"; "r8"; "r9"; "r15"] (around sys).
Definition DO_REPLY_RECV_1 (ep msg0 ro : Z) (sys : instruction) : asm_block :=
  if CONFIG_KERNEL_MCS then
    Asm [("rsi", MessageInfo_new 0 0 0 1); ("rdi", ep); ("rdx", SysReplyRecv); ("r10", msg0); ("r12", ro)]
      ["rsi"; "rdi"; "r10"] ["rcx"; "rbx"; "r11"; "r8"; "r9"; "r15"] (around sys)
  else DO_REPLY_RECV_1_plain ep msg0 sys.
Definition DO_NTFN_OP (ntfn : Z) (sys : instruction) (syscall : Z) : asm_block :=
  Asm [("rdi", ntfn); ("rdx", syscall)] ["rdi"] lost (around sys).
Definition DO_NULLSYSCALL_OP (sys : instruction) (syscall : Z) : asm_block :=
  Asm [("rdx", syscall)] [] lost (around sys).
Definition DO_WAIT (ntfn : Z) (sys : instruction) : asm_block :=
  if CONFIG_KERNEL_MCS then DO_NTFN_OP ntfn sys SysWait else DO_NTFN_OP ntfn sys SysRecv.
Definition DO_SIGNAL (ntfn : Z) (sys : instruction) : asm_block := DO_NTFN_OP ntfn sys SysSend.
Definition DO_NULLSYSCALL (sys : instruction) : asm_block := DO_NULLSYSCALL_OP sys SysBenchmarkNullSyscall.

(** [rdtsc] leaves the two halves of the counter; the macros join them. *)
Definition rdtsc (tsc : Z) : Z * Z := (Z.shiftr tsc 32 mod 2 ^ 32, tsc mod 2 ^ 32).
Definition READ_COUNTER_BEFORE (tsc : Z) : Z :=
  let '(high, low) := rdtsc tsc in Z.lor (wrap 64 (Z.shiftl high 32)) low.
Definition READ_COUNTER_AFTER (tsc : Z) : Z :=
  let '(high, low) := rdtsc tsc in Z.lor (wrap 64 (Z.shiftl high 32)) low.

Lemma read_counter_tsc tsc : in_word 64 tsc → READ_COUNTER_BEFORE tsc = tsc ∧ READ_COUNTER_AFTER tsc = tsc.
Proof.
  intros Hr. unfold READ_COUNTER_BEFORE, READ_COUNTER_AFTER, rdtsc, wrap, in_word in *.
  assert (0 <= Z.shiftr tsc 32 < 2 ^ 32) as Hhigh.
  { rewrite Z.shiftr_div_pow2 by lia. split; [apply Z.div_pos; lia|apply Z.div_lt_upper_bound; lia]. }
  rewrite (Z.mod_small (Z.shiftr tsc 32)) by done.
  rewrite (Z.mod_small (Z.shiftl _ 32)) by (rewrite Z.shiftl_mul_pow2; lia).
  assert (Z.lor (Z.shiftl (Z.shiftr tsc 32) 32) (tsc mod 2 ^ 32) = tsc) as ->; [|done].
  apply Z.bits_inj'. intros n Hn. rewrite Z.lor_spec, Z.shiftl_spec by lia. destruct (Z.lt_ge_cases n 32).
  - rewrite Z.testbit_neg_r by lia. by rewrite Z.mod_pow2_bits_low by lia.
  - rewrite Z.shiftr_spec, Z.mod_pow2_bits_high, orb_false_r by lia. f_equal. lia.
Qed.
End stubs.
End X86_64.

(** ** ia32 *)
Module Ia32.
Section stubs.
Context `{Platform} `{SyscallNumbers}.

(** [movl %esp, %ecx; leal 1f, %edx; 1: sys] *)
Definition enter (sys : instruction) : list insn := [Mov "esp" "ecx"; Lea "edx"; Sys sys].
Definition saving_ebp (l : list insn) : list insn := [Push "ebp"] ++ l ++ [Pop "ebp"].
(** With a reply object in [ecx], which goes to [ebp]. *)
Definition enter_reply (sys : instruction) : list insn := saving_ebp (Mov "ecx" "ebp" :: enter sys).

Definition DO_CALL (ep tag : Z) (sys : instruction) : asm_block :=
  Asm [("esi", tag); ("ebx", ep); ("eax", SysCall)] ["esi"; "ebx"] ["ecx"; "edx"] (enter sys).
Definition DO_CALL_10 (ep tag : Z) (sys : instruction) : asm_block :=
  Asm [("esi", tag); ("ebx", ep); ("eax", SysCall)] ["esi"; "ebx"] ["ecx"; "edx"; "edi"]
    (saving_ebp (enter sys)).
Definition DO_SEND (ep tag : Z) (sys : instruction) : asm_block :=
  Asm [("esi", tag); ("ebx", ep); ("eax", SysSend)] ["esi"; "ebx"] ["ecx"; "edx"] (enter sys).
Definition DO_REPLY_RECV_plain (ep tag : Z) (sys : instruction) : asm_block :=
  Asm [("esi", tag); ("ebx", ep); ("eax", SysReplyRecv)] ["esi"; "ebx"] ["ecx"; "edx"] (enter sys).
Definition DO_REPLY_RECV (ep tag ro : Z) (sys : instruction) : asm_block :=
  if CONFIG_KERNEL_MCS then
    Asm [("esi", tag); ("ebx", ep); ("ecx", ro); ("eax", SysReplyRecv)] ["esi"; "ebx"; "ecx"] ["edx"]
      (enter_reply sys)
  else DO_REPLY_RECV_plain ep tag sys.
Definition DO_REPLY_RECV_10_plain (ep tag : Z) (sys : instruction) : asm_block :=
  Asm [("esi", tag); ("ebx", ep); ("eax", SysReplyRecv)]
    ["esi"; "ebx"] ["ecx"; "edx"; "edi"] (saving_ebp (enter sys)).
Definition DO_REPLY_RECV_10 (ep tag ro : Z) (sys : instruction) : asm_block :=
  if CONFIG_KERNEL_MCS then
    Asm [("esi", tag); ("ebx", ep); ("ecx", ro); ("eax", SysReplyRecv)] ["esi"; "ebx"; "ecx"] ["edx"; "edi"]
      (enter_reply sys)
  else DO_REPLY_RECV_10_plain ep tag sys.
Definition DO_RECV_plain (ep : Z) (sys : instruction) : asm_block :=
  Asm [("ebx", ep); ("eax", SysRecv)] ["ebx"] ["ecx"; "edx"; "esi"] (enter sys).
Definition DO_RECV (ep ro : Z) (sys : instruction) : asm_block :=
  if CONFIG_KERNEL_MCS then
    Asm [("ebx", ep); ("ecx", ro); ("eax", SysRecv)] ["ebx"; "ecx"] ["edx"; "esi"] (enter_reply sys)
  else DO_RECV_plain ep sys.
Definition DO_REPLY_RECV_1_plain (ep msg0 : Z) (sys : instruction) : asm_block :=
  Asm [("esi", MessageInfo_new 0 0 0 1); ("ebx", ep); ("eax", SysReplyRecv); ("edi", msg0)]
    ["esi"; "ebx"; "edi"] ["ecx"; "edx"] (saving_ebp (enter sys)).
Definition DO_REPLY_RECV_1 (ep msg0 ro : Z) (sys : instruction) : asm_block :=
  if CONFIG_KERNEL_MCS then
    Asm [("esi", MessageInfo_new 0 0 0 1); ("ebx", ep); ("ecx", ro); ("eax", SysReplyRecv); ("edi", msg0)]
      ["esi"; "ebx"; "edi"; "ecx"] ["edx"] (enter_reply sys)
  else DO_REPLY_RECV_1_plain ep msg0 sys.
Definition DO_NTFN_OP (ntfn : Z) (sys : instruction) (syscall : Z) : asm_block :=
  Asm [("ebx", ntfn); ("eax", syscall)] ["ebx"] ["ecx"; "edx"] (enter sys).
Definition DO_NULLSYSCALL_OP (sys : instruction) (syscall : Z) : asm_block :=
  Asm [("eax", syscall)] [] ["ecx"; "edx"] (enter sys).
Definition DO_WAIT (ntfn : Z) (sys : instruction) : asm_block :=
  if CONFIG_KERNEL_MCS then DO_NTFN_OP ntfn sys SysWait else DO_NTFN_OP ntfn sys SysRecv.
Definition DO_SIGNAL (ntfn : Z) (sys : instruction) : asm_block := DO_NTFN_OP ntfn sys SysSend.
Definition DO_NULLSYSCALL (sys : instruction) : asm_block := DO_NULLSYSCALL_OP sys SysBenchmarkNullSyscall.
End stubs.
End Ia32.

(** ** aarch32 *)
Module Aarch32.
Section stubs.
Context `{Platform} `{SyscallNumbers}.

(** [NOPS swi NOPS] *)
Definition padded (swi : instruction) : list insn := [Nops; Sys swi; Nops].

Definition DO_CALL (ep tag : Z) (swi : instruction) : asm_block :=
  Asm [("r0", ep); ("r1", tag); ("r7", SysCall)] ["r0"; "r1"] [] (padded swi).
Definition DO_CALL_10 (ep tag : Z) (swi : instruction) : asm_block :=
  Asm [("r0", ep); ("r1", tag); ("r7", SysCall)] ["r0"; "r1"] ["r2"; "r3"; "r4"; "r5"] (padded swi).
Definition DO_SEND (ep tag : Z) (swi : instruction) : asm_block :=
  Asm [("r0", ep); ("r1", tag); ("r7", SysSend)] ["r0"; "r1"] [] (padded swi).

(** On the kernels that have reply objects, the object is one more operand. *)
Definition DO_REPLY_RECV_10_plain (ep tag : Z) (swi : instruction) : asm_block :=
  Asm [("r0", ep); ("r1", tag); ("r7", SysReplyRecv)] ["r0"; "r1"] ["r2"; "r3"; "r4"; "r5"]
    (padded swi).
Definition DO_REPLY_RECV_10 (ep tag ro : Z) (swi : instruction) : asm_block :=
  if CONFIG_KERNEL_MCS then
    Asm [("r0", ep); ("r1", tag); ("r7", SysReplyRecv); ("r6", ro)] ["r0"; "r1"] ["r2"; "r3"; "r4"; "r5"]
    (padded swi)
  else DO_REPLY_RECV_10_plain ep tag swi.
Definition DO_REPLY_RECV_plain (ep tag : Z) (swi : instruction) : asm_block :=
  Asm [("r0", ep); ("r1", tag); ("r7", SysReplyRecv)] ["r0"; "r1"] [] (padded swi).
Definition DO_REPLY_RECV (ep tag ro : Z) (swi : instruction) : asm_block :=
  if CONFIG_KERNEL_MCS then
    Asm [("r0", ep); ("r1", tag); ("r7", SysReplyRecv); ("r6", ro)] ["r0"; "r1"] [] (padded swi)
  else DO_REPLY_RECV_plain ep tag swi.
(** The tag is only read back. *)
Definition DO_RECV_plain (ep : Z) (swi : instruction) : asm_block :=
  Asm [("r0", ep); ("r7", SysRecv)] ["r0"; "r1"] [] (padded swi).
Definition DO_RECV (ep ro : Z) (swi : instruction) : asm_block :=
  if CONFIG_KERNEL_MCS then
    Asm [("r0", ep); ("r7", SysRecv); ("r6", ro)] ["r0"; "r1"] [] (padded swi)
  else DO_RECV_plain ep swi.
Definition DO_REPLY_RECV_1_plain (ep ip : Z) (swi : instruction) : asm_block :=
  Asm [("r0", ep); ("r1", MessageInfo_new 0 0 0 1); ("r7", SysReplyRecv); ("r2", ip)]
    ["r0"; "r1"; "r2"] ["r3"; "r4"; "r5"] (padded swi).
Definition DO_REPLY_RECV_1 (ep ip ro : Z) (swi : instruction) : asm_block :=
  if CONFIG_KERNEL_MCS then
    Asm [("r0", ep); ("r1", MessageInfo_new 0 0 0 1); ("r7", SysReplyRecv); ("r2", ip); ("r6", ro)]
      ["r0"; "r1"; "r2"] ["r3"; "r4"; "r5"] (padded swi)
  else DO_REPLY_RECV_1_plain ep ip swi.
Definition DO_NTFN_OP (ntfn : Z) (swi : instruction) (syscall : Z) : asm_block :=
  Asm [("r0", ntfn); ("r7", syscall)] [] [] (padded swi).
Definition DO_NULLSYSCALL_OP (swi : instruction) (syscall : Z) : asm_block :=
  Asm [("r7", syscall)] [] [] (padded swi).
Definition DO_WAIT (ntfn : Z) (swi : instruction) : asm_block :=
  if CONFIG_KERNEL_MCS then DO_NTFN_OP ntfn swi SysWait else DO_NTFN_OP ntfn swi SysRecv.
Definition DO_SIGNAL (ntfn : Z) (swi : instruction) : asm_block := DO_NTFN_OP ntfn swi SysSend.
Definition DO_NULLSYSCALL (swi : instruction) : asm_block := DO_NULLSYSCALL_OP swi SysBenchmarkNullSyscall.
End stubs.
End Aarch32.

(** ** aarch64 *)
Module Aarch64.
Section stubs.
Context `{Platform} `{SyscallNumbers}.

(** [NOPS swi NOPS] *)
Definition padded (swi : instruction) : list insn := [Nops; Sys swi; Nops].

Definition DO_CALL (ep tag : Z) (swi : instruction) : asm_block :=
  Asm [("x0", ep); ("x1", tag); ("x7", SysCall)] ["x0"; "x1"] [] (padded swi).
Definition DO_CALL_10 (ep tag : Z) (swi : instruction) : asm_block :=
  Asm [("x0", ep); ("x1", tag); ("x7", SysCall)] ["x0"; "x1"] ["x2"; "x3"; "x4"; "x5"] (padded swi).
Definition DO_SEND (ep tag : Z) (swi : instruction) : asm_block :=
  Asm [("x0", ep); ("x1", tag); ("x7", SysSend)] ["x0"; "x1"] [] (padded swi).

(** On the kernels that have reply objects, the object is one more operand. *)
Definition DO_REPLY_RECV_10_plain (ep tag : Z) (swi : instruction) : asm_block :=
  Asm [("x0", ep); ("x1", tag); ("x7", SysReplyRecv)] ["x0"; "x1"] ["x2"; "x3"; "x4"; "x5"]
    (padded swi).
Definition DO_REPLY_RECV_10 (ep tag ro : Z) (swi : instruction) : asm_block :=
  if CONFIG_KERNEL_MCS then
    Asm [("x0", ep); ("x1", tag); ("x7", SysReplyRecv); ("x6", ro)] ["x0"; "x1"] ["x2"; "x3"; "x4"; "x5"]
    (padded swi)
  else DO_REPLY_RECV_10_plain ep tag swi.
Definition DO_REPLY_RECV_plain (ep tag : Z) (swi : instruction) : asm_block :=
  Asm [("x0", ep); ("x1", tag); ("x7", SysReplyRecv)] ["x0"; "x1"] [] (padded swi).
Definition DO_REPLY_RECV (ep tag ro : Z) (swi : instruction) : asm_block :=
  if CONFIG_KERNEL_MCS then
    Asm [("x0", ep); ("x1", tag); ("x7", SysReplyRecv); ("x6", ro)] ["x0"; "x1"] [] (padded swi)
  else DO_REPLY_RECV_plain ep tag swi.
(** The tag is only read back. *)
Definition DO_RECV_plain (ep : Z) (swi : instruction) : asm_block :=
  Asm [("x0", ep); ("x7", SysRecv)] ["x0"; "x1"] [] (padded swi).
Definition DO_RECV (ep ro : Z) (swi : instruction) : asm_block :=
  if CONFIG_KERNEL_MCS then
    Asm [("x0", ep); ("x7", SysRecv); ("x6", ro)] ["x0"; "x1"] [] (padded swi)
  else DO_RECV_plain ep swi.
Definition DO_REPLY_RECV_1_plain (ep ip : Z) (swi : instruction) : asm_block :=
  Asm [("x0", ep); ("x1", MessageInfo_new 0 0 0 1); ("x7", SysReplyRecv); ("x2", ip)]
    ["x0"; "x1"; "x2"] ["x3"; "x4"; "x5"] (padded swi).
Definition DO_REPLY_RECV_1 (ep ip ro : Z) (swi : instruction) : asm_block :=
  if CONFIG_KERNEL_MCS then
    Asm [("x0", ep); ("x1", MessageInfo_new 0 0 0 1); ("x7", SysReplyRecv); ("x2", ip); ("x6", ro)]
      ["x0"; "x1"; "x2"] ["x3"; "x4"; "x5"] (padded swi)
  else DO_REPLY_RECV_1_plain ep ip swi.
Definition DO_NTFN_OP (ntfn : Z) (swi : instruction) (syscall : Z) : asm_block :=
  Asm [("x0", ntfn); ("x7", syscall)] [] [] (padded swi).
Definition DO_NULLSYSCALL_OP (swi : instruction) (syscall : Z) : asm_block :=
  Asm [("x7", syscall)] [] [] (padded swi).
Definition DO_WAIT (ntfn : Z) (swi : instruction) : asm_block :=
  if CONFIG_KERNEL_MCS then DO_NTFN_OP ntfn swi SysWait else DO_NTFN_OP ntfn swi SysRecv.
Definition DO_SIGNAL (ntfn : Z) (swi : instruction) : asm_block := DO_NTFN_OP ntfn swi SysSend.
Definition DO_NULLSYSCALL (swi : instruction) : asm_block := DO_NULLSYSCALL_OP swi SysBenchmarkNullSyscall.
End stubs.
End Aarch64.

(** ** RISC-V *)
Module Riscv.
Section stubs.
Context `{Platform} `{SyscallNumbers}.

(** [NOPS swi NOPS] *)
Definition padded (swi : instruction) : list insn := [Nops; Sys swi; Nops].

Definition DO_CALL (ep tag : Z) (swi : instruction) : asm_block :=
  Asm [("a0", ep); ("a1", tag); ("a7", SysCall)] ["a0"; "a1"] [] (padded swi).
Definition DO_CALL_10 (ep tag : Z) (swi : instruction) : asm_block :=
  Asm [("a0", ep); ("a1", tag); ("a7", SysCall)] ["a0"; "a1"] ["a2"; "a3"; "a4"; "a5"] (padded swi).
Definition DO_SEND (ep tag : Z) (swi : instruction) : asm_block :=
  Asm [("a0", ep); ("a1", tag); ("a7", SysSend)] ["a0"; "a1"] [] (padded swi).

(** On the kernels that have reply objects, the object is one more operand. *)
Definition DO_REPLY_RECV_10_plain (ep tag : Z) (swi : instruction) : asm_block :=
  Asm [("a0", ep); ("a1", tag); ("a7", SysReplyRecv)] ["a0"; "a1"] ["a2"; "a3"; "a4"; "a5"]
    (padded swi).
Definition DO_REPLY_RECV_10 (ep tag ro : Z) (swi : instruction) : asm_block :=
  if CONFIG_KERNEL_MCS then
    Asm [("a0", ep); ("a1", tag); ("a7", SysReplyRecv); ("a6", ro)] ["a0"; "a1"] ["a2"; "a3"; "a4"; "a5"]
    (padded swi)
  else DO_REPLY_RECV_10_plain ep tag swi.
Definition DO_REPLY_RECV_plain (ep tag : Z) (swi : instruction) : asm_block :=
  Asm [("a0", ep); ("a1", tag); ("a7", SysReplyRecv)] ["a0"; "a1"] [] (padded swi).
Definition DO_REPLY_RECV (ep tag ro : Z) (swi : instruction) : asm_block :=
  if CONFIG_KERNEL_MCS then
    Asm [("a0", ep); ("a1", tag); ("a7", SysReplyRecv); ("a6", ro)] ["a0"; "a1"] [] (padded swi)
  else DO_REPLY_RECV_plain ep tag swi.
(** The tag is only read back. *)
Definition DO_RECV_plain (ep : Z) (swi : instruction) : asm_block :=
  Asm [("a0", ep); ("a7", SysRecv)] ["a0"; "a1"] [] (padded swi).
Definition DO_RECV (ep ro : Z) (swi : instruction) : asm_block :=
  if CONFIG_KERNEL_MCS then
    Asm [("a0", ep); ("a7", SysRecv); ("a6", ro)] ["a0"; "a1"] [] (padded swi)
  else DO_RECV_plain ep swi.
Definition DO_NTFN_OP (ntfn : Z) (swi : instruction) (syscall : Z) : asm_block :=
  Asm [("a0", ntfn); ("a7", syscall)] [] [] (padded swi).
Definition DO_NULLSYSCALL_OP (swi : instruction) (syscall : Z) : asm_block :=
  Asm [("a7", syscall)] [] [] (padded swi).
Definition DO_WAIT (ntfn : Z) (swi : instruction) : asm_block :=
  if CONFIG_KERNEL_MCS then DO_NTFN_OP ntfn swi SysWait else DO_NTFN_OP ntfn swi SysRecv.
Definition DO_SIGNAL (ntfn : Z) (swi : instruction) : asm_block := DO_NTFN_OP ntfn swi SysSend.
Definition DO_NULLSYSCALL (swi : instruction) : asm_block := DO_NULLSYSCALL_OP swi SysBenchmarkNullSyscall.
End stubs.
End Riscv.

(** ** What the kernel asks and promises

    The registers of a target's system calls, and those that its trap and the
    return from it do not keep; with [sp_from], the return sets the stack
    pointer from one register and continues at the address in another. *)
Record abi := Abi {
  dest : string; info : string; number : string; reply_object : string;
  message_registers : list string;
  not_kept : list string;
  sp_from : option (string * string);
}.

(** The operations that the stubs make, with their operands. *)
Inductive operation :=
  | Op_call (ep tag : Z)
  | Op_call_10 (ep tag : Z)
  | Op_send (ep tag : Z)
  | Op_reply_recv (ep tag ro : Z)
  | Op_reply_recv_10 (ep tag ro : Z)
  | Op_recv (ep ro : Z)
  | Op_reply_recv_1 (ep mr0 ro : Z)
  | Op_signal (ntfn : Z)
  | Op_wait (ntfn : Z)
  | Op_null.

Section conventions.
Context `{Platform} `{SyscallNumbers}.

(** Where the operands have to be when the processor traps. *)
Definition operands (a : abi) (op : operation) : list (string * Z) :=
  let ro_in ro := if CONFIG_KERNEL_MCS then [(reply_object a, ro)] else [] in
  match op with
  | Op_call ep tag | Op_call_10 ep tag => [(dest a, ep); (info a, tag); (number a, SysCall)]
  | Op_send ep tag => [(dest a, ep); (info a, tag); (number a, SysSend)]
  | Op_reply_recv ep tag ro | Op_reply_recv_10 ep tag ro =>
      [(dest a, ep); (info a, tag); (number a, SysReplyRecv)] ++ ro_in ro
  | Op_recv ep ro => [(dest a, ep); (number a, SysRecv)] ++ ro_in ro
  | Op_reply_recv_1 ep mr0 ro =>
      [(dest a, ep); (info a, MessageInfo_new 0 0 0 1); (number a, SysReplyRecv);
       (default "" (head (message_registers a)), mr0)] ++ ro_in ro
  | Op_signal ntfn => [(dest a, ntfn); (number a, SysSend)]
  | Op_wait ntfn => [(dest a, ntfn); (number a, if CONFIG_KERNEL_MCS then SysWait else SysRecv)]
  | Op_null => [(number a, SysBenchmarkNullSyscall)]
  end.

(** The registers that a call may change: the badge and the tag of a message,
    the message registers of the long ones; the badge alone of a notification. *)
Definition changed (a : abi) (op : operation) : list string :=
  match op with
  | Op_call _ _ | Op_reply_recv _ _ _ | Op_recv _ _ => [dest a; info a]
  | Op_call_10 _ _ | Op_reply_recv_10 _ _ _ | Op_reply_recv_1 _ _ _ => dest a :: info a :: message_registers a
  | Op_wait _ => [dest a]
  | Op_send _ _ | Op_signal _ | Op_null => []
  end ++ not_kept a.

(** A kernel that keeps the other registers. *)
Definition conforms (c : cpu) (a : abi) (op : operation) (kernel : regs → regs) : Prop :=
  ∀ ρ, (∀ r, r ∉ changed a op → kernel ρ r = ρ r) ∧
       match sp_from a with Some (r, _) => kernel ρ (sp c) = ρ r | None => True end.

Inductive target := T_x86_64 | T_ia32 | T_aarch32 | T_aarch64 | T_riscv.

Definition t_cpu (t : target) : Z → cpu :=
  match t with
  | T_x86_64 => Cpu "rsp" 8
  | T_ia32 => Cpu "esp" 4
  | T_aarch32 => Cpu "sp" 4
  | T_aarch64 => Cpu "sp" 8
  | T_riscv => Cpu "sp" 8
  end.
Definition t_abi (t : target) : abi :=
  match t with
  | T_x86_64 => Abi "rdi" "rsi" "rdx" "r12" ["r10"; "r8"; "r9"; "r15"] ["rcx"; "r11"; "rsp"] None
  | T_ia32 => Abi "ebx" "esi" "eax" "ebp" ["edi"; "ebp"] ["ecx"; "edx"; "esp"] (Some ("ecx", "edx"))
  | T_aarch32 => Abi "r0" "r1" "r7" "r6" ["r2"; "r3"; "r4"; "r5"] [] None
  | T_aarch64 => Abi "x0" "x1" "x7" "x6" ["x2"; "x3"; "x4"; "x5"] [] None
  | T_riscv => Abi "a0" "a1" "a7" "a6" ["a2"; "a3"; "a4"; "a5"] [] None
  end.

Definition x86_64_stub (op : operation) : option (instruction → asm_block) :=
  match op with
  | Op_call ep tag => Some (X86_64.DO_CALL ep tag)
  | Op_call_10 ep tag => Some (X86_64.DO_CALL_10 ep tag)
  | Op_send ep tag => Some (X86_64.DO_SEND ep tag)
  | Op_reply_recv ep tag ro => Some (X86_64.DO_REPLY_RECV ep tag ro)
  | Op_reply_recv_10 ep tag ro => Some (X86_64.DO_REPLY_RECV_10 ep tag ro)
  | Op_recv ep ro => Some (X86_64.DO_RECV ep ro)
  | Op_reply_recv_1 ep mr0 ro => Some (X86_64.DO_REPLY_RECV_1 ep mr0 ro)
  | Op_signal ntfn => Some (X86_64.DO_SIGNAL ntfn)
  | Op_wait ntfn => Some (X86_64.DO_WAIT ntfn)
  | Op_null => Some X86_64.DO_NULLSYSCALL
  end.
Definition ia32_stub (op : operation) : option (instruction → asm_block) :=
  match op with
  | Op_call ep tag => Some (Ia32.DO_CALL ep tag)
  | Op_call_10 ep tag => Some (Ia32.DO_CALL_10 ep tag)
  | Op_send ep tag => Some (Ia32.DO_SEND ep tag)
  | Op_reply_recv ep tag ro => Some (Ia32.DO_REPLY_RECV ep tag ro)
  | Op_reply_recv_10 ep tag ro => Some (Ia32.DO_REPLY_RECV_10 ep tag ro)
  | Op_recv ep ro => Some (Ia32.DO_RECV ep ro)
  | Op_reply_recv_1 ep mr0 ro => Some (Ia32.DO_REPLY_RECV_1 ep mr0 ro)
  | Op_signal ntfn => Some (Ia32.DO_SIGNAL ntfn)
  | Op_wait ntfn => Some (Ia32.DO_WAIT ntfn)
  | Op_null => Some Ia32.DO_NULLSYSCALL
  end.
Definition aarch32_stub (op : operation) : option (instruction → asm_block) :=
  match op with
  | Op_call ep tag => Some (Aarch32.DO_CALL ep tag)
  | Op_call_10 ep tag => Some (Aarch32.DO_CALL_10 ep tag)
  | Op_send ep tag => Some (Aarch32.DO_SEND ep tag)
  | Op_reply_recv ep tag ro => Some (Aarch32.DO_REPLY_RECV ep tag ro)
  | Op_reply_recv_10 ep tag ro => Some (Aarch32.DO_REPLY_RECV_10 ep tag ro)
  | Op_recv ep ro => Some (Aarch32.DO_RECV ep ro)
  | Op_reply_recv_1 ep mr0 ro => Some (Aarch32.DO_REPLY_RECV_1 ep mr0 ro)
  | Op_signal ntfn => Some (Aarch32.DO_SIGNAL ntfn)
  | Op_wait ntfn => Some (Aarch32.DO_WAIT ntfn)
  | Op_null => Some Aarch32.DO_NULLSYSCALL
  end.
Definition aarch64_stub (op : operation) : option (instruction → asm_block) :=
  match op with
  | Op_call ep tag => Some (Aarch64.DO_CALL ep tag)
  | Op_call_10 ep tag => Some (Aarch64.DO_CALL_10 ep tag)
  | Op_send ep tag => Some (Aarch64.DO_SEND ep tag)
  | Op_reply_recv ep tag ro => Some (Aarch64.DO_REPLY_RECV ep tag ro)
  | Op_reply_recv_10 ep tag ro => Some (Aarch64.DO_REPLY_RECV_10 ep tag ro)
  | Op_recv ep ro => Some (Aarch64.DO_RECV ep ro)
  | Op_reply_recv_1 ep mr0 ro => Some (Aarch64.DO_REPLY_RECV_1 ep mr0 ro)
  | Op_signal ntfn => Some (Aarch64.DO_SIGNAL ntfn)
  | Op_wait ntfn => Some (Aarch64.DO_WAIT ntfn)
  | Op_null => Some Aarch64.DO_NULLSYSCALL
  end.
Definition riscv_stub (op : operation) : option (instruction → asm_block) :=
  match op with
  | Op_call ep tag => Some (Riscv.DO_CALL ep tag)
  | Op_call_10 ep tag => Some (Riscv.DO_CALL_10 ep tag)
  | Op_send ep tag => Some (Riscv.DO_SEND ep tag)
  | Op_reply_recv ep tag ro => Some (Riscv.DO_REPLY_RECV ep tag ro)
  | Op_reply_recv_10 ep tag ro => Some (Riscv.DO_REPLY_RECV_10 ep tag ro)
  | Op_recv ep ro => Some (Riscv.DO_RECV ep ro)
  | Op_reply_recv_1 _ _ _ => None
  | Op_signal ntfn => Some (Riscv.DO_SIGNAL ntfn)
  | Op_wait ntfn => Some (Riscv.DO_WAIT ntfn)
  | Op_null => Some Riscv.DO_NULLSYSCALL
  end.

(** The block of an operation, on the targets that have a stub for it. *)
Definition t_block (t : target) : operation → option (instruction → asm_block) :=
  match t with
  | T_x86_64 => x86_64_stub
  | T_ia32 => ia32_stub
  | T_aarch32 => aarch32_stub
  | T_aarch64 => aarch64_stub
  | T_riscv => riscv_stub
  end.

(** ** The stubs obey the conventions *)

Lemma set_eq r v ρ : set r v ρ r = v.
Proof. unfold set. by rewrite decide_True. Qed.
Lemma set_ne r v ρ r' : r ≠ r' → set r v ρ r' = ρ r'.
Proof. intros. unfold set. by rewrite decide_False. Qed.

(** The registers as the processor traps. *)
Definition at_sys (c : cpu) (b : asm_block) (ρ : regs) (m : memory) : regs :=
  (run_code c (λ ρ, ρ) (before_sys (code b)) (loaded b ρ, m)).1.

(** The trap replaced by the [nop]s that stand for it. *)
Definition without_trap (i : insn) : insn := match i with Sys _ => Sys nop | i => i end.

(** The compiler may rely on every register that the block does not list, and
    on the stack. *)
Definition honest (c : cpu) (a : abi) (op : operation) (b : asm_block) : Prop :=
  ∀ kernel ρ m, conforms c a op kernel →
    (∀ r, r ∉ outputs b ++ clobbers b → (run_block c kernel b ρ m).1 r = loaded b ρ r) ∧
    ∀ x, loaded b ρ (sp c) <= x → (run_block c kernel b ρ m).2 x = m x.

(** The registers of [l] are listed, apart from those of [saved]. *)
Definition listed (b : asm_block) (saved l : list string) : Prop := l ⊆ saved ++ outputs b ++ clobbers b.

Section honest.
Context (c : cpu) (a : abi) (op : operation) (b : asm_block).

Lemma kernel_keeps kernel saved ρ r :
  conforms c a op kernel → listed b saved (changed a op) → r ∉ saved → r ∉ outputs b ++ clobbers b →
  kernel ρ r = ρ r.
Proof.
  intros Hk Hl Hs Hb. apply (Hk ρ). intros Hr. apply Hl, elem_of_app in Hr. tauto.
Qed.

Lemma honest_padded i :
  code b = [Nops; Sys i; Nops] → listed b [] (changed a op) → honest c a op b.
Proof.
  intros Hc Hl kernel ρ m Hk. unfold run_block. rewrite Hc. destruct i; [|by split].
  split; [|done]. intros r Hr. by apply (kernel_keeps kernel []); [| |apply not_elem_of_nil|].
Qed.

(** A register that the kernel may change and the block does not list. *)
Lemma padded_dishonest r :
  code b = [Nops; Sys svc; Nops] → sp_from a = None → r ∈ changed a op → r ∉ outputs b ++ clobbers b →
  ¬ honest c a op b.
Proof.
  intros Hc Hs Hin Hn Hh. destruct (Hh (λ ρ, set r (ρ r + 1) ρ) (λ _, 0) (λ _, 0)) as [Hr _].
  { intros ρ. rewrite Hs. split; [|done]. intros r' Hr'. apply set_ne. by intros <-. }
  specialize (Hr r Hn). unfold run_block in Hr. rewrite Hc in Hr. cbn in Hr. rewrite set_eq in Hr. lia.
Qed.

Lemma honest_around i :
  code b = X86_64.around i → sp c = "rsp"%string → listed b ["rsp"%string] (changed a op) →
  "rbx"%string ∉ changed a op → "rbx"%string ∈ clobbers b → honest c a op b.
Proof.
  intros Hc Hsp Hl Hrbx Hin kernel ρ m Hk. unfold run_block. rewrite Hc.
  set (ρ0 := loaded b ρ). set (R := set "rbx" (ρ0 "rsp"%string) ρ0).
  assert (∀ r, r ∉ outputs b ++ clobbers b → R r = ρ0 r) as HR.
  { intros r Hr. apply set_ne. intros <-. apply Hr, elem_of_app. by right. }
  split; [intros r Hr|by destruct i].
  destruct (decide (r = "rsp"%string)) as [->|Hne].
  - destruct i; (etrans; [apply set_eq|]); [|apply set_eq]. rewrite (proj1 (Hk R)) by done. apply set_eq.
  - destruct i; (etrans; [by apply set_ne|]); [|by apply HR].
    rewrite (kernel_keeps kernel ["rsp"%string]); [by apply HR|done..| |done].
    by apply not_elem_of_cons; split; [|apply not_elem_of_nil].
Qed.

(** The ia32 sequences: the kernel returns with the stack pointer it was given.
    A piece of code frames [saved] when it loses only those registers and the
    listed ones, and neither the stack nor its pointer. *)
Definition frames (saved : list string) (l : list insn) : Prop :=
  ∀ kernel ρ m, conforms c a op kernel →
    let s := run_code c kernel l (ρ, m) in
    s.2 = m ∧ s.1 "esp"%string = ρ "esp"%string ∧
    ∀ r, r ∉ saved → r ∉ outputs b ++ clobbers b → s.1 r = ρ r.

Lemma frames_enter saved i :
  sp c = "esp"%string → sp_from a = Some ("ecx"%string, "edx"%string) →
  listed b saved (changed a op) → "ecx"%string ∈ outputs b ++ clobbers b → "edx"%string ∈ outputs b ++ clobbers b →
  frames saved (Ia32.enter i).
Proof.
  intros Hsp Hfrom Hl Hcx Hdx kernel ρ m Hk.
  set (R := set "edx" (label_address c) (set "ecx" (ρ "esp"%string) ρ)).
  assert (∀ r, r ∉ outputs b ++ clobbers b → R r = ρ r) as HR.
  { intros r Hr. unfold R. rewrite !set_ne; [done|..]; by intros <-. }
  destruct i; split_and!; try done.
  - destruct (Hk R) as [_ Hs]. rewrite Hfrom, Hsp in Hs. exact Hs.
  - intros r Hs Hr. rewrite <- (HR r Hr). by apply (kernel_keeps kernel saved).
  - intros r Hs Hr. by apply HR.
Qed.

Lemma frames_to_ebp saved l : "ebp"%string ∈ saved → frames saved l → frames saved (Mov "ecx" "ebp" :: l).
Proof.
  intros Hin Hl kernel ρ m Hk. destruct (Hl kernel (set "ebp" (ρ "ecx"%string) ρ) m Hk) as (Hm & Hsp & Hr).
  split_and!; [exact Hm|exact Hsp|]. intros r Hs Hb. etrans; [by apply Hr|]. apply set_ne. by intros <-.
Qed.

Lemma honest_frames l : code b = l → sp c = "esp"%string → frames ["esp"%string] l → honest c a op b.
Proof.
  intros Hc Hsp Hf kernel ρ m Hk. unfold run_block. rewrite Hc.
  destruct (Hf kernel (loaded b ρ) m Hk) as (Hm & He & Hr). split; [|by rewrite Hm].
  intros r Hb. destruct (decide (r = "esp"%string)) as [->|Hne]; [done|].
  apply Hr; [|done]. by apply not_elem_of_cons; split; [|apply not_elem_of_nil].
Qed.

Lemma honest_saving l :
  code b = Ia32.saving_ebp l → sp c = "esp"%string → 0 < word_bytes c →
  frames ["esp"; "ebp"]%string l → honest c a op b.
Proof.
  intros Hc Hsp Hw Hf kernel ρ m Hk. unfold run_block. rewrite Hc. unfold Ia32.saving_ebp, run_code.
  rewrite !foldl_app. cbn [foldl insn_step]. rewrite Hsp. set (ρ0 := loaded b ρ).
  set (p := ρ0 "esp"%string - word_bytes c). set (m1 := λ x : Z, if x =? p then ρ0 "ebp"%string else m x).
  destruct (Hf kernel (set "esp" p ρ0) m1 Hk) as (Hm & He & Hr). unfold run_code in Hm, He, Hr.
  destruct (foldl _ _ l) as [ρ1 m2]. cbn [fst snd insn_step] in *. rewrite Hsp. subst m2. rewrite set_eq in He. split.
  - intros r Hb. destruct (decide (r = "ebp"%string)) as [->|Hne].
    { rewrite set_eq, He. unfold m1. by rewrite Z.eqb_refl. }
    rewrite set_ne by done. destruct (decide (r = "esp"%string)) as [->|Hne'].
    { rewrite set_eq, He. unfold p. lia. }
    rewrite set_ne by done. rewrite Hr; [by apply set_ne| |done].
    apply not_elem_of_cons. split; [done|]. by apply not_elem_of_cons; split; [|apply not_elem_of_nil].
  - intros x Hx. unfold m1. destruct (Z.eqb_spec x p); [unfold p in *; lia|done].
Qed.
End honest.

(** Membership in lists of register names, and the framing of a block. *)
Ltac registers :=
  repeat match goal with
  | |- listed _ _ _ => intros ? ?; cbn in *
  | H : _ ∈ _ :: _ |- _ => apply elem_of_cons in H as [->|H]
  | H : _ ∈ [] |- _ => by apply elem_of_nil in H
  | |- _ ∉ _ => by apply (bool_decide_unpack _)
  | |- _ ∈ _ => by apply (bool_decide_unpack _)
  end.

Ltac frame_block :=
  first
    [ by eapply honest_padded; [reflexivity|registers]
    | by eapply honest_around; [reflexivity|reflexivity|registers..]
    | by eapply honest_frames; [reflexivity|reflexivity|eapply frames_enter; [reflexivity|reflexivity|registers..]]
    | by eapply honest_saving; [reflexivity|reflexivity|reflexivity|];
        eapply frames_enter; [reflexivity|reflexivity|registers..]
    | by eapply honest_saving; [reflexivity|reflexivity|reflexivity|];
        eapply frames_to_ebp; [registers|eapply frames_enter; [reflexivity|reflexivity|registers..]] ].

(** The targets whose stub for a notification reads the badge back. *)
Definition reads_badge (t : target) : bool :=
  match t with T_x86_64 | T_ia32 => true | T_aarch32 | T_aarch64 | T_riscv => false end.

Definition is_wait (op : operation) : bool := match op with Op_wait _ => true | _ => false end.

(** The definitions that look at the configuration. *)
Ltac configurations :=
  cbv beta iota delta [operands t_abi dest info number reply_object message_registers head default
    X86_64.DO_REPLY_RECV X86_64.DO_REPLY_RECV_10 X86_64.DO_RECV X86_64.DO_REPLY_RECV_1 X86_64.DO_WAIT
      X86_64.DO_REPLY_RECV_plain X86_64.DO_REPLY_RECV_10_plain X86_64.DO_RECV_plain X86_64.DO_REPLY_RECV_1_plain
    Ia32.DO_REPLY_RECV Ia32.DO_REPLY_RECV_10 Ia32.DO_RECV Ia32.DO_REPLY_RECV_1 Ia32.DO_WAIT
      Ia32.DO_REPLY_RECV_plain Ia32.DO_REPLY_RECV_10_plain Ia32.DO_RECV_plain Ia32.DO_REPLY_RECV_1_plain
    Aarch32.DO_REPLY_RECV Aarch32.DO_REPLY_RECV_10 Aarch32.DO_RECV Aarch32.DO_REPLY_RECV_1 Aarch32.DO_WAIT
      Aarch32.DO_REPLY_RECV_plain Aarch32.DO_REPLY_RECV_10_plain Aarch32.DO_RECV_plain Aarch32.DO_REPLY_RECV_1_plain
    Aarch64.DO_REPLY_RECV Aarch64.DO_REPLY_RECV_10 Aarch64.DO_RECV Aarch64.DO_REPLY_RECV_1 Aarch64.DO_WAIT
      Aarch64.DO_REPLY_RECV_plain Aarch64.DO_REPLY_RECV_10_plain Aarch64.DO_RECV_plain Aarch64.DO_REPLY_RECV_1_plain
    Riscv.DO_REPLY_RECV Riscv.DO_REPLY_RECV_10 Riscv.DO_RECV Riscv.DO_WAIT Riscv.DO_REPLY_RECV_plain
      Riscv.DO_REPLY_RECV_10_plain Riscv.DO_RECV_plain];
  try destruct CONFIG_KERNEL_MCS; cbv beta iota zeta delta [app].

Lemma stub_honest t op stub l i :
  t_block t op = Some stub → (is_wait op → reads_badge t) → honest (t_cpu t l) (t_abi t) op (stub i).
Proof.
  intros Hs Hw. destruct t, op; cbn in Hs; simplify_eq; try by destruct Hw.
  all: configurations; frame_block.
Qed.

Lemma stub_operands t op stub l ρ m :
  t_block t op = Some stub →
  Forall (λ x, at_sys (t_cpu t l) (stub svc) ρ m x.1 = x.2) (operands (t_abi t) op).
Proof.
  intros Hs. destruct t, op; cbn in Hs; simplify_eq.
  all: configurations; cbn [app]; repeat (apply Forall_cons_2; [reflexivity|]); by apply Forall_nil_2.
Qed.

Lemma stub_return t op stub l ρ m :
  t_block t op = Some stub →
  match sp_from (t_abi t) with
  | Some (from, at_) =>
      at_sys (t_cpu t l) (stub svc) ρ m from = at_sys (t_cpu t l) (stub svc) ρ m (sp (t_cpu t l)) ∧
      at_sys (t_cpu t l) (stub svc) ρ m at_ = l
  | None => True
  end.
Proof.
  intros Hs. destruct t, op; cbn in Hs; simplify_eq; try exact I.
  all: cbv beta iota delta [t_abi sp_from]; configurations; by split.
Qed.

Lemma stub_twin t op stub :
  t_block t op = Some stub →
  inputs (stub nop) = inputs (stub svc) ∧ outputs (stub nop) = outputs (stub svc) ∧
  clobbers (stub nop) = clobbers (stub svc) ∧ code (stub nop) = without_trap <$> code (stub svc).
Proof.
  intros Hs. destruct t, op; cbn in Hs; simplify_eq; configurations; by split_and!.
Qed.

(** On Arm and RISC-V the block of a wait does not say that the register of the
    badge is lost: a kernel that delivers a badge changes a register that the
    compiler may rely on, such as the one that still holds the capability. *)
Lemma wait_badge_lost t ntfn stub l :
  t_block t (Op_wait ntfn) = Some stub → reads_badge t = false →
  ¬ honest (t_cpu t l) (t_abi t) (Op_wait ntfn) (stub svc).
Proof.
  intros Hs Hr. destruct t; cbn in Hs, Hr; simplify_eq; configurations.
  all: by eapply padded_dishonest; [reflexivity|reflexivity|left|apply not_elem_of_nil].
Qed.

(** C39. The system-call stubs of the five targets and the conventions of their
    kernel: when the processor traps, every operand of the operation is in its
    register (on ia32 also the stack pointer and the address to return to);
    after any kernel that keeps what it promises to keep, the registers which
    the block does not list hold what they held and the stack is as it was -
    for every operation but the wait of Arm and RISC-V, where the compiler is
    not told that the badge takes the register of the capability; and the block
    of the overhead measurement is the block of the measurement with the trap
    replaced by a [nop], loading and losing the same registers. *)
Theorem stubs_conform t op stub l ρ m :
  t_block t op = Some stub →
  Forall (λ x, at_sys (t_cpu t l) (stub svc) ρ m x.1 = x.2) (operands (t_abi t) op) ∧
  match sp_from (t_abi t) with
  | Some (from, at_) =>
      at_sys (t_cpu t l) (stub svc) ρ m from = at_sys (t_cpu t l) (stub svc) ρ m (sp (t_cpu t l)) ∧
      at_sys (t_cpu t l) (stub svc) ρ m at_ = l
  | None => True
  end ∧
  (honest (t_cpu t l) (t_abi t) op (stub svc) ↔ is_wait op = false ∨ reads_badge t = true) ∧
  inputs (stub nop) = inputs (stub svc) ∧ outputs (stub nop) = outputs (stub svc) ∧
  clobbers (stub nop) = clobbers (stub svc) ∧ code (stub nop) = without_trap <$> code (stub svc).
Proof.
  intros Hs. split_and!; [by apply stub_operands|by apply (stub_return t op)| |by apply (stub_twin t op)..]. split.
  - intros Hh. destruct (is_wait op) eqn:Hw; [right|by left]. destruct op; try discriminate Hw.
    destruct (reads_badge t) eqn:Hr; [done|]. by destruct (wait_badge_lost t _ stub l Hs Hr).
  - intros Hw. apply stub_honest; [done|]. destruct Hw as [->| ->]; [by intros []|done].
Qed.
End conventions.

(** The numbers of the system calls and the tag in a concrete kernel. *)
Definition example_numbers : SyscallNumbers := {|
  SysCall := -1; SysReplyRecv := -2; SysSend := -3; SysRecv := -5; SysWait := -6; SysBenchmarkNullSyscall := -17;
  MessageInfo_new := λ label unwrapped extra length, Z.lor (Z.shiftl label 12) length |}.

(** Ten registers of a message on ia32: the kernel overwrites [edi] and [ebp],
    and the frame pointer comes back from the stack. *)
Lemma stubs_conform_witness :
  let stub := Ia32.DO_CALL_10 (H0 := example_numbers) 7 12 in
  let c := Cpu "esp" 4 4096 in
  let kernel ρ := set "esp" (ρ "ecx"%string) (set "edi" 99 (set "ebp" 98 ρ)) in
  at_sys c (stub svc) (λ _, 5) (λ _, 0) "esi"%string = 12 ∧
  (run_block c kernel (stub svc) (λ _, 5) (λ _, 0)).1 "ebp"%string = 5.
Proof.
  destruct (stubs_conform (H := ia32) (H0 := example_numbers) T_ia32 (Op_call_10 7 12)
    (Ia32.DO_CALL_10 (H0 := example_numbers) 7 12) 4096 (λ _, 5) (λ _, 0) eq_refl) as (Ho & _ & Hh & _).
  split.
  - apply Forall_cons_1 in Ho as [_ Ho]. apply Forall_cons_1 in Ho as [Ho _]. exact Ho.
  - destruct (proj2 Hh (or_introl eq_refl) (λ ρ, set "esp" (ρ "ecx"%string) (set "edi" 99 (set "ebp" 98 ρ))) (λ _, 5) (λ _, 0))
      as [Hr _].
    + intros ρ. split; [|reflexivity]. intros r Hn. cbn in Hn. rewrite !not_elem_of_cons in Hn.
      rewrite !set_ne; [done|intros <-; tauto..].
    + apply (Hr "ebp"%string). apply (bool_decide_unpack _). exact I.
Defined.
