(* ===== verification/SchedulerApp.v ===== *)
(** * SchedulerApp: the scheduler benchmark

    [apps/scheduler/src/main.c]: the threads that measure a switch between two
    priorities and a yield, and the set-up around them.  Local variables whose
    address is taken, and the objects on the stack, are parameters. *)

From S2P Require Import Prelude Platform Memory Program Collect Support Threads Measuring Reports.

Import Reports.Scheduler.

Section app.
Context `{Platform}.
Import EarlyProc.

Definition N_LOW_ARGS : Z := 8.
Definition N_HIGH_ARGS : Z := 4.
Definition N_YIELD_ARGS : Z := 2.
Definition EXIT_FAILURE : Z := 1.
Definition EXIT_SUCCESS : Z := 0.

(** [struct scheduler_results_t], in [ccnt_t]. *)
Definition scheduler_layout : layout :=
  [("thread_results", N_PRIOS * N_RUNS); ("process_results", N_PRIOS * N_RUNS);
   ("overhead_signal", N_RUNS); ("set_prio_average", N_RUNS * NUM_AVERAGE_EVENTS);
   ("thread_yield", N_RUNS); ("process_yield", N_RUNS); ("overhead_ccnt", N_RUNS);
   ("average_yield", N_RUNS * NUM_AVERAGE_EVENTS); ("overhead_ccnt_min", 1);
   ("thread_yield_ep_sum", 1); ("thread_yield_ep_sum2", 1); ("thread_yield_ep_num", 1);
   ("thread_results_ep_sum", N_PRIOS); ("thread_results_ep_sum2", N_PRIOS);
   ("thread_results_ep_num", N_PRIOS);
   ("process_yield_ep_sum", 1); ("process_yield_ep_sum2", 1); ("process_yield_ep_num", 1);
   ("process_results_ep_sum", N_PRIOS); ("process_results_ep_sum2", N_PRIOS);
   ("process_results_ep_num", N_PRIOS)]%string.

Notation at_ := (field scheduler_layout).

Definition abort (env : Env.env_t) : proc unit := finished env EXIT_FAILURE.

(** ** The measuring threads *)

Definition high_fn (argc : Z) (argv : list val) : proc unit :=
  assert_that (argc =? N_HIGH_ARGS);;
  produce ← word_arg argv 0;
  done_ep ← word_arg argv 1;
  start ← ptr_arg argv 2;
  consume ← word_arg argv 3;
  for_to N_RUNS (λ _,
    DO_REAL_SIGNAL produce;;
    now ← SEL4BENCH_READ_CCNT;
    store_to start 0 now;;
    DO_REAL_WAIT consume);;
  seL4_Send done_ep;;
  seL4_Wait produce.

Definition low_fn (argc : Z) (argv : list val) : proc unit :=
  assert_that (argc =? N_LOW_ARGS);;
  produce ← word_arg argv 0;
  start ← ptr_arg argv 1;
  results ← ptr_arg argv 2;
  done_ep ← word_arg argv 3;
  consume ← word_arg argv 4;
  for_to N_RUNS (λ i,
    DO_REAL_WAIT produce;;
    end_ ← SEL4BENCH_READ_CCNT;
    start_ ← load_from start 0;
    store_to results i (end_ ⊟[ccnt_bits] start_);;
    DO_REAL_SIGNAL consume);;
  seL4_Send done_ep;;
  seL4_Wait produce.

Definition low_fn_ep (argc : Z) (argv : list val) : proc unit :=
  assert_that (argc =? N_LOW_ARGS);;
  produce ← word_arg argv 0;
  start ← ptr_arg argv 1;
  overhead ← word_arg argv 2;
  out_sum ← ptr_arg argv 3;
  out_sum2 ← ptr_arg argv 4;
  out_num ← ptr_arg argv 5;
  done_ep ← word_arg argv 6;
  consume ← word_arg argv 7;
  sums ← loop_acc (seqZ 0 N_RUNS) (mkSums 0 0) (λ i sums,
    DO_REAL_WAIT produce;;
    end_ ← SEL4BENCH_READ_CCNT;
    start_ ← load_from start 0;
    let sums := DATACOLLECT_GET_SUMS ccnt_bits i N_IGNORED start_ end_ overhead sums in
    DO_REAL_SIGNAL consume;;
    mret sums);
  store_to out_sum 0 (par_sum sums);;
  store_to out_sum2 0 (par_sum2 sums);;
  store_to out_num 0 (N_RUNS - N_IGNORED);;
  seL4_Send done_ep;;
  seL4_Wait produce.

Definition yield_fn (argc : Z) (argv : list val) : proc unit :=
  assert_that (argc =? N_YIELD_ARGS);;
  ep ← word_arg argv 0;
  end_ ← ptr_arg argv 1;
  for_to N_RUNS (λ _,
    now ← SEL4BENCH_READ_CCNT;
    store_to end_ 0 now;;
    seL4_Yield);;
  _ ← perform (Call ep (Msg 0 []));
  mret tt.

(** ** The other half of the yield benchmarks *)

Definition benchmark_yield (ep : Z) (results end_ : ptr) : proc unit :=
  for_to N_RUNS (λ i,
    start ← SEL4BENCH_READ_CCNT;
    seL4_Yield;;
    e ← load_from end_ 0;
    store_to results i (e ⊟[ccnt_bits] start));;
  wait_children ep 1.

Definition benchmark_yield_ep (ep overhead : Z) (result_sum result_sum2 result_num end_ : ptr)
  : proc unit :=
  sums ← loop_acc (seqZ 0 N_RUNS) (mkSums 0 0) (λ i sums,
    start ← SEL4BENCH_READ_CCNT;
    seL4_Yield;;
    e ← load_from end_ 0;
    mret (DATACOLLECT_GET_SUMS ccnt_bits i N_IGNORED start e overhead sums));
  store_to result_sum 0 (par_sum sums);;
  store_to result_sum2 0 (par_sum2 sums);;
  store_to result_num 0 (N_RUNS - N_IGNORED);;
  wait_children ep 1.

(** [thread] and [end_] are locals. *)
Definition benchmark_yield_thread (thread : helper) (end_ : ptr) (ep : Z) (results : ptr)
  : proc unit :=
  configure_thread ep seL4_MaxPrio thread;;
  let argv := [Vint ep; Vptr end_] in
  _ ← start_thread thread "yield_fn" N_YIELD_ARGS argv true;
  benchmark_yield ep results end_;;
  _ ← TCB_Suspend (tcb_cptr thread);
  mret tt.

Definition benchmark_yield_thread_ep (thread : helper) (end_ : ptr) (ep : Z) (results : ptr)
  : proc unit :=
  configure_thread ep seL4_MaxPrio thread;;
  let argv := [Vint ep; Vptr end_] in
  _ ← start_thread thread "yield_fn" N_YIELD_ARGS argv true;
  overhead ← get_field scheduler_layout results "overhead_ccnt_min";
  benchmark_yield_ep ep overhead (at_ results "thread_yield_ep_sum")
    (at_ results "thread_yield_ep_sum2") (at_ results "thread_yield_ep_num") end_;;
  _ ← TCB_Suspend (tcb_cptr thread);
  mret tt.

(** A process at [entry], with a page of its own address space for the page
    [start] of ours, a capability to [ep], and the argument words. *)
Definition new_shared_page : proc ptr :=
  sys_ptr "vspace_new_pages" [Vint 1; Vint seL4_PageBits].
Definition share_page (process : Process.process_t) (p : ptr) : proc ptr :=
  sys_ptr "vspace_share_mem" [Vint (Process.process_id process); Vptr p; Vint 1; Vint seL4_PageBits].

Definition benchmark_yield_process (process : Process.process_t) (ep : Z) (results : ptr)
  : proc unit :=
  start ← new_shared_page;
  shallow_clone process seL4_MaxPrio "yield_fn";;
  remote_start ← share_page process start;
  remote_ep ← copy_cap (Process.process_id process) ep;
  let argv := [Vint remote_ep; Vptr remote_start] in
  '(error, process) ← spawn process argv true;
  assert_that (error =? 0);;
  benchmark_yield ep results start;;
  _ ← TCB_Suspend (Process.tcb process);
  mret tt.

Definition benchmark_yield_process_ep (process : Process.process_t) (ep : Z) (results : ptr)
  : proc unit :=
  start ← new_shared_page;
  shallow_clone process seL4_MaxPrio "yield_fn";;
  remote_start ← share_page process start;
  remote_ep ← copy_cap (Process.process_id process) ep;
  let argv := [Vint remote_ep; Vptr remote_start] in
  '(error, process) ← spawn process argv true;
  assert_that (error =? 0);;
  overhead ← get_field scheduler_layout results "overhead_ccnt_min";
  benchmark_yield_ep ep overhead (at_ results "process_yield_ep_sum")
    (at_ results "process_yield_ep_sum2") (at_ results "process_yield_ep_num") start;;
  _ ← TCB_Suspend (Process.tcb process);
  mret tt.

(** ** A signal to a thread of a higher priority *)

(** The words of the low thread for the [i]-th priority: raw results, or the
    places of the sums.  For the raw results eight words are asked for and five
    are given; [stale] is what the last three are read from. *)
Definition low_args (produce : Z) (start results : ptr) (ep consume : Z) (stale : list val)
  : list val :=
  [Vint produce; Vptr start; Vptr results; Vint ep; Vint consume] ++ take 3 stale.

(** The overhead is passed as a word: on a 32-bit target with a 64-bit counter
    the text holds its low word, which is the overhead itself below [2^31]. *)
Definition low_args_ep (produce : Z) (start : ptr) (overhead : Z) (sum sum2 num : ptr) (ep consume : Z)
  : list val :=
  [Vint produce; Vptr start; Vint overhead; Vptr sum; Vptr sum2; Vptr num; Vint ep; Vint consume].

(** [high], [low] and [start] are locals. *)
Definition benchmark_prio_threads (high low : helper) (start : ptr) (stale : list val) (ep produce consume : Z)
    (results : ptr) : proc unit :=
  configure_thread ep seL4_MinPrio high;;
  configure_thread ep seL4_MinPrio low;;
  let high_argv := [Vint produce; Vint ep; Vptr start; Vint consume] in
  for_to N_PRIOS (λ i,
    let prio := gen_next_prio i in
    auth ← simple_get_tcb;
    error ← TCB_SetPriority (tcb_cptr high) auth prio;
    assert_that (error =? 0);;
    let low_argv := low_args produce start (ptr_add results (i * N_RUNS)) ep consume stale in
    error ← start_thread low "low_fn" N_LOW_ARGS low_argv true;
    assert_that (error =? 0);;
    error ← start_thread high "high_fn" N_HIGH_ARGS high_argv true;
    assert_that (error =? 0);;
    wait_children ep 2);;
  _ ← TCB_Suspend (tcb_cptr high);
  _ ← TCB_Suspend (tcb_cptr low);
  mret tt.

Definition benchmark_prio_threads_ep (high low : helper) (start : ptr) (ep produce consume : Z)
    (results : ptr) : proc unit :=
  configure_thread ep seL4_MinPrio high;;
  configure_thread ep seL4_MinPrio low;;
  let high_argv := [Vint produce; Vint ep; Vptr start; Vint consume] in
  for_to N_PRIOS (λ i,
    let prio := gen_next_prio i in
    auth ← simple_get_tcb;
    error ← TCB_SetPriority (tcb_cptr high) auth prio;
    assert_that (error =? 0);;
    overhead ← get_field scheduler_layout results "overhead_ccnt_min";
    let low_argv := low_args_ep produce start overhead
      (ptr_add (at_ results "thread_results_ep_sum") i)
      (ptr_add (at_ results "thread_results_ep_sum2") i)
      (ptr_add (at_ results "thread_results_ep_num") i) ep consume in
    error ← start_thread low "low_fn_ep" N_LOW_ARGS low_argv true;
    assert_that (error =? 0);;
    error ← start_thread high "high_fn" N_HIGH_ARGS high_argv true;
    assert_that (error =? 0);;
    wait_children ep 2);;
  _ ← TCB_Suspend (tcb_cptr high);
  _ ← TCB_Suspend (tcb_cptr low);
  mret tt.

(** The same with the high thread in a process of its own; its stack top is
    the one [spawn] leaves. *)
Definition benchmark_prio_processes (high : Process.process_t) (low : helper) (stale : list val)
    (ep produce consume : Z) (results : ptr) : proc unit :=
  start ← new_shared_page;
  shallow_clone high seL4_MinPrio "high_fn";;
  configure_thread ep seL4_MinPrio low;;
  remote_start ← share_page high start;
  remote_ep ← copy_cap (Process.process_id high) ep;
  remote_produce ← copy_cap (Process.process_id high) produce;
  remote_consume ← copy_cap (Process.process_id high) consume;
  let high_argv := [Vint remote_produce; Vint remote_ep; Vptr remote_start; Vint remote_consume] in
  high ← loop_acc (seqZ 0 N_PRIOS) high (λ i high,
    let prio := gen_next_prio i in
    auth ← simple_get_tcb;
    error ← TCB_SetPriority (Process.tcb high) auth prio;
    assert_that (error =? 0);;
    let low_argv := low_args produce start (ptr_add results (i * N_RUNS)) ep consume stale in
    error ← start_thread low "low_fn" N_LOW_ARGS low_argv true;
    assert_that (error =? 0);;
    '(error, high) ← spawn high high_argv true;
    assert_that (error =? 0);;
    wait_children ep 2;;
    mret high);
  _ ← TCB_Suspend (Process.tcb high);
  _ ← TCB_Suspend (tcb_cptr low);
  mret tt.

Definition benchmark_prio_processes_ep (high : Process.process_t) (low : helper)
    (ep produce consume : Z) (results : ptr) : proc unit :=
  start ← new_shared_page;
  shallow_clone high seL4_MinPrio "high_fn";;
  configure_thread ep seL4_MinPrio low;;
  remote_start ← share_page high start;
  remote_ep ← copy_cap (Process.process_id high) ep;
  remote_produce ← copy_cap (Process.process_id high) produce;
  remote_consume ← copy_cap (Process.process_id high) consume;
  let high_argv := [Vint remote_produce; Vint remote_ep; Vptr remote_start; Vint remote_consume] in
  high ← loop_acc (seqZ 0 N_PRIOS) high (λ i high,
    let prio := gen_next_prio i in
    auth ← simple_get_tcb;
    error ← TCB_SetPriority (Process.tcb high) auth prio;
    assert_that (error =? 0);;
    overhead ← get_field scheduler_layout results "overhead_ccnt_min";
    let low_argv := low_args_ep produce start overhead
      (ptr_add (at_ results "process_results_ep_sum") i)
      (ptr_add (at_ results "process_results_ep_sum2") i)
      (ptr_add (at_ results "process_results_ep_num") i) ep consume in
    error ← start_thread low "low_fn_ep" N_LOW_ARGS low_argv true;
    assert_that (error =? 0);;
    '(error, high) ← spawn high high_argv true;
    assert_that (error =? 0);;
    wait_children ep 2;;
    mret high);
  _ ← TCB_Suspend (Process.tcb high);
  _ ← TCB_Suspend (tcb_cptr low);
  mret tt.

(** ** Overheads and averages *)

Definition measure_signal_overhead (ntfn : Z) (results : ptr) : proc unit :=
  for_to N_RUNS (λ i,
    start ← SEL4BENCH_READ_CCNT;
    DO_NOP_SIGNAL ntfn;;
    end_ ← SEL4BENCH_READ_CCNT;
    store_to results i (end_ ⊟[ccnt_bits] start)).

Definition measure_yield_overhead (results : ptr) : proc unit :=
  for_to N_RUNS (λ i,
    start ← SEL4BENCH_READ_CCNT;
    end_ ← SEL4BENCH_READ_CCNT;
    store_to results i (end_ ⊟[ccnt_bits] start)).

(** [results[j]] receives the counters of every chunk, and the cycle count of
    the last one. *)
Definition benchmark_set_prio_average (results : ptr) (auth : Z) : proc unit :=
  n_counters ← sys_call "sel4bench_get_num_counters" [];
  for_to N_RUNS (λ j,
    chunks ← sys_call "sel4bench_get_num_generic_counter_chunks" [Vint n_counters];
    for_to chunks (λ chunk,
      let row := ptr_add results (j * NUM_AVERAGE_EVENTS) in
      mask ← sys_call "sel4bench_enable_generic_counters" [Vint chunk; Vint n_counters];
      start ← SEL4BENCH_READ_CCNT;
      for_to AVERAGE_RUNS (λ _,
        _ ← TCB_SetPriority SEL4UTILS_TCB_SLOT auth seL4_MaxPrio; mret tt);;
      end_ ← SEL4BENCH_READ_CCNT;
      sys_do "sel4bench_read_and_stop_counters" [Vint mask; Vint chunk; Vint n_counters; Vptr row];;
      store_to row CYCLE_COUNT_EVENT (end_ ⊟[ccnt_bits] start))).

Definition benchmark_yield_average (results : ptr) : proc unit :=
  n_counters ← sys_call "sel4bench_get_num_counters" [];
  for_to N_RUNS (λ j,
    chunks ← sys_call "sel4bench_get_num_generic_counter_chunks" [Vint n_counters];
    for_to chunks (λ chunk,
      let row := ptr_add results (j * NUM_AVERAGE_EVENTS) in
      mask ← sys_call "sel4bench_enable_generic_counters" [Vint chunk; Vint n_counters];
      start ← SEL4BENCH_READ_CCNT;
      for_to AVERAGE_RUNS (λ _, seL4_Yield);;
      end_ ← SEL4BENCH_READ_CCNT;
      sys_do "sel4bench_read_and_stop_counters" [Vint mask; Vint chunk; Vint n_counters; Vptr row];;
      store_to row CYCLE_COUNT_EVENT (end_ ⊟[ccnt_bits] start))).

(** The threads, processes and shared variables on the stacks of the functions
    [main] calls, and the results [env->results] points to. *)
Record locals := Locals {
  high : helper;
  low : helper;
  start_var : ptr;
  high_process : Process.process_t;
  yielder : helper;
  end_var : ptr;
  yield_process : Process.process_t;
  results_mem : ptr;
  stale_words : list val;
}.

Definition main (rt : runtime) (l : locals) (argc : Z) : proc unit :=
  env ← get_env rt argc (sizeof scheduler_layout) 2;
  let results := results_mem l in
  sys_do "sel4bench_init" [];;
  done_ep ← sys_alloc "vka_alloc_endpoint" [];
  produce ← sys_alloc "vka_alloc_notification" [];
  consume ← sys_alloc "vka_alloc_notification" [];
  measure_signal_overhead produce (at_ results "overhead_signal");;
  measure_yield_overhead (at_ results "overhead_ccnt");;
  min ← min_overhead (at_ results "overhead_ccnt") N_RUNS;
  set_field scheduler_layout results "overhead_ccnt_min" min;;
  benchmark_prio_threads (high l) (low l) (start_var l) (stale_words l) done_ep produce consume
    (at_ results "thread_results");;
  benchmark_prio_threads_ep (high l) (low l) (start_var l) done_ep produce consume results;;
  benchmark_prio_processes (high_process l) (low l) (stale_words l) done_ep produce consume
    (at_ results "process_results");;
  benchmark_prio_processes_ep (high_process l) (low l) done_ep produce consume results;;
  auth ← simple_get_tcb;
  benchmark_set_prio_average (at_ results "set_prio_average") auth;;
  benchmark_yield_thread (yielder l) (end_var l) done_ep (at_ results "thread_yield");;
  benchmark_yield_thread_ep (yielder l) (end_var l) done_ep results;;
  benchmark_yield_process (yield_process l) done_ep (at_ results "process_yield");;
  benchmark_yield_process_ep (yield_process l) done_ep results;;
  benchmark_yield_average (at_ results "average_yield");;
  finished env EXIT_SUCCESS.

End app.
