(* ===== verification/SchedulerProofs.v ===== *)
(** * SchedulerProofs: the priority-switch measurement

    The high and the low thread of [apps/scheduler/src/main.c] under the
    scheduler of [Threads]: whatever a kernel does within its documented
    behaviour, the two threads alternate, every result is the time from the
    high thread's reading to the low thread's, and the parent's wait for its
    two children ends. *)

From S2P Require Import Prelude Platform Memory Program Collect Support Threads Measuring Reports.
From S2P Require Import SchedulerApp.

Import Reports.Scheduler.

Section handshake.
Context `{Platform} `{FaultAbi} `{!Kernel}.
Import EarlyProc.

Context (produce consume ep : Z) (sb : positive) (ph pl pm f1 f2 f3 : Z).
Context (Hpc : produce ≠ consume) (Hpe : produce ≠ ep) (Hce : consume ≠ ep).
Context (Hhl : pl < ph) (Hhm : ph < pm).

Notation start := (Ptr sb 0).

(** Both threads about to run, and the parent waiting for them. *)
Definition pair_config (high low parent : proc unit) (objs : gmap Z object) (m : heap)
    (rs : list (nat * Z)) : config :=
  Config [Thread ph f1 false None high; Thread pl f2 false None low;
          Thread pm f3 true None parent] objs m rs.

(** The notifications between two iterations, and the endpoint the parent
    waits on. *)
Definition idle (objs : gmap Z object) : Prop :=
  objs !! produce = Some (Notification false []) ∧
  objs !! consume = Some (Notification false []) ∧
  objs !! ep = Some (Endpoint [] [2%nat]).

(** The low thread after its reading, the high one waiting. *)
Definition measured_config (high low parent : proc unit) (objs : gmap Z object) (m : heap)
    (rs : list (nat * Z)) : config :=
  Config [Thread ph f1 true None (Op (Wait consume) (λ _, high)); Thread pl f2 false None low;
          Thread pm f3 true None parent] objs m rs.
Definition measured (objs : gmap Z object) : Prop :=
  objs !! produce = Some (Notification false []) ∧
  objs !! consume = Some (Notification false [0%nat]) ∧
  objs !! ep = Some (Endpoint [] [2%nat]).

(** The high thread signals, takes the time and blocks; the low one wakes up,
    takes the time and reads the other's. *)
Lemma handshake (Q : config → Prop) high (low : Z → Z → proc unit) parent objs m rs x :
  idle objs → holds m sb [x] →
  (∀ objs m' s e, measured objs → holds m' sb [s] →
     (∀ b l, b ≠ sb → holds m b l → holds m' b l) →
     eventually Q (measured_config high (low e s) parent objs m'
                     (rs ++ [(0%nat, s); (1%nat, e)]))) →
  eventually Q (pair_config
    (perform (Signal produce);; now ← SEL4BENCH_READ_CCNT; store_to start 0 now;;
     perform (Wait consume);; high)
    (perform (Wait produce);; end_ ← SEL4BENCH_READ_CCNT; start_ ← load_from start 0;
     low end_ start_)
    parent objs m rs).
Proof using All.
  intros (Hp & Hc & He) Hs HQ. unfold pair_config.
  run 0%nat. run_as 0%nat s Hs0.
  destruct (store_frame m sb [x] 0 0 s) as (m1 & E1 & Hs1 & Hf1); [done|simpl; lia|].
  run 0%nat. run 0%nat. run 1%nat. run_as 1%nat e He0.
  assert (E2 : load start 0 m1 = Ok s) by (by apply (load_holds _ _ [s])).
  run 1%nat. rewrite <-app_assoc.
  apply HQ; [|done|done]. unfold measured. by lookups.
Qed.

(** The low thread signals back, and both go on. *)
Lemma handshake_end (Q : config → Prop) high low parent objs m rs :
  measured objs →
  (∀ objs, idle objs → eventually Q (pair_config high low parent objs m rs)) →
  eventually Q (measured_config high (perform (Signal consume);; low) parent objs m rs).
Proof using All.
  intros (Hp & Hc & He) HQ. unfold measured_config.
  run 1%nat. apply HQ. unfold idle. by lookups.
Qed.

(** The high thread has reported and blocked; the parent waits for the low
    one. *)
Definition finishing_config (low : proc unit) (objs : gmap Z object) (m : heap) (rs : list (nat * Z))
  : config :=
  Config [Thread ph f1 true None (seL4_Wait produce); Thread pl f2 false None low;
          Thread pm f3 true None (wait_last_child ep)] objs m rs.
Definition finishing (objs : gmap Z object) : Prop :=
  objs !! ep = Some (Endpoint [] [2%nat]) ∧ objs !! produce = Some (Notification false [0%nat]).

Lemma high_finishes (Q : config → Prop) low objs m rs :
  idle objs →
  (∀ objs, finishing objs → eventually Q (finishing_config low objs m rs)) →
  eventually Q (pair_config (seL4_Send ep;; seL4_Wait produce) low (wait_children ep 2) objs m rs).
Proof using All.
  intros (Hp & Hc & He) HQ. unfold pair_config. rewrite wait_two_children.
  run 0%nat. run 2%nat. run 0%nat. apply HQ. unfold finishing. by lookups.
Qed.

(** The low thread reports, and the parent goes on. *)
Lemma low_finishes (Q : config → Prop) objs m rs :
  finishing objs → (∀ c, returned 2 c → mem c = m → readings c = rs → Q c) →
  eventually Q (finishing_config (seL4_Send ep;; seL4_Wait produce) objs m rs).
Proof using All.
  intros [He Hp] HQ. unfold finishing_config.
  run 1%nat. apply eventually_now, HQ; [|done|done]. by eexists.
Qed.

(** ** Raw results *)
Section raw.
Context (rb : positive) (off : Z) (l : list Z) (Hsr : rb ≠ sb) (Hoff : 0 <= off).

Definition high_body : proc unit :=
  DO_REAL_SIGNAL produce;; now ← SEL4BENCH_READ_CCNT; store_to start 0 now;; DO_REAL_WAIT consume.
Definition low_body (i : Z) : proc unit :=
  DO_REAL_WAIT produce;; end_ ← SEL4BENCH_READ_CCNT; start_ ← load_from start 0;
  store_to (Ptr rb off) i (end_ ⊟[ccnt_bits] start_);; DO_REAL_SIGNAL consume.

Lemma high_body_step (L high : proc unit) :
  ((high_body;; L);; high : proc unit) =
    (perform (Signal produce);; now ← SEL4BENCH_READ_CCNT; store_to start 0 now;;
     perform (Wait consume);; L;; high).
Proof. unfold high_body. by rewrite do_real_wait. Qed.

Lemma low_body_step i (L low : proc unit) :
  ((low_body i;; L);; low : proc unit) =
    (perform (Wait produce);; end_ ← SEL4BENCH_READ_CCNT; start_ ← load_from start 0;
     store_to (Ptr rb off) i (end_ ⊟[ccnt_bits] start_);; perform (Signal consume);; L;; low).
Proof. unfold low_body. by rewrite do_real_wait. Qed.

Lemma low_loop (Q : config → Prop) high low parent n samples objs m x :
  idle objs → holds m sb [x] →
  holds m rb (list_inserts (Z.to_nat off) (elapsed ccnt_bits samples) l) →
  off + Z.of_nat (length samples + n) <= Z.of_nat (length l) →
  (∀ objs m samples', idle objs → length samples' = (length samples + n)%nat →
     holds m rb (list_inserts (Z.to_nat off) (elapsed ccnt_bits samples') l) →
     eventually Q (pair_config high low parent objs m (interleaved 0 1 samples'))) →
  eventually Q (pair_config
    (loop (seqZ (Z.of_nat (length samples)) (Z.of_nat n)) (λ _, high_body);; high)
    (loop (seqZ (Z.of_nat (length samples)) (Z.of_nat n)) low_body;; low)
    parent objs m (interleaved 0 1 samples)).
Proof using All.
  revert samples objs m x. induction n as [|n IH]; intros samples objs m x Hi Hs Hr Hlen HQ.
  { apply HQ; [done|lia|done]. }
  rewrite seqZ_succ_l by lia. cbn [loop]. rewrite high_body_step, low_body_step.
  eapply handshake; [done..|]. intros objs1 m1 s e Hm Hs1 Hf.
  unfold measured_config.
  destruct (store_frame m1 rb (list_inserts (Z.to_nat off) (elapsed ccnt_bits samples) l) off
    (Z.of_nat (length samples)) (e ⊟[ccnt_bits] s)) as (m2 & E2 & Hr2 & Hf2).
  { by apply Hf. }
  { rewrite length_inserts. lia. }
  run 1%nat. eapply handshake_end; [done|]. intros objs2 Hi2.
  replace (Z.to_nat (off + Z.of_nat (length samples))) with (Z.to_nat off + length (elapsed ccnt_bits samples))%nat
    in Hr2 by (rewrite length_elapsed; lia).
  rewrite list_inserts_snoc, <-elapsed_snoc in Hr2.
  next_sample s e.
  eapply (IH _ _ _ s); [done|by apply Hf2|done|count_samples|].
  intros objs3 m3 samples' Hi3 Hl3 Hr3. apply HQ; [done| |done].
  rewrite Hl3. count_samples.
Qed.
End raw.

(** ** Early processing *)
Section early.
Context (overhead : Z).

Definition low_body_ep (i : Z) (p : sums) : proc sums :=
  DO_REAL_WAIT produce;; end_ ← SEL4BENCH_READ_CCNT; start_ ← load_from start 0;
  let p := DATACOLLECT_GET_SUMS ccnt_bits i N_IGNORED start_ end_ overhead p in
  DO_REAL_SIGNAL consume;; mret p.

Lemma low_body_ep_step i p (L : sums → proc sums) (low : sums → proc unit) :
  ((low_body_ep i p ≫= L) ≫= low : proc unit) =
    (perform (Wait produce);; end_ ← SEL4BENCH_READ_CCNT; start_ ← load_from start 0;
     perform (Signal consume);;
     L (DATACOLLECT_GET_SUMS ccnt_bits i N_IGNORED start_ end_ overhead p) ≫= low).
Proof. unfold low_body_ep. by rewrite do_real_wait. Qed.

Lemma low_loop_ep (Q : config → Prop) high (low : sums → proc unit) parent n samples objs m x :
  idle objs → holds m sb [x] → Z.of_nat (length samples + n) < 2 ^ seL4_WordBits →
  (∀ objs m' samples', idle objs → length samples' = (length samples + n)%nat →
     (∀ b l, b ≠ sb → holds m b l → holds m' b l) →
     eventually Q (pair_config high (low (collect ccnt_bits N_IGNORED overhead samples')) parent
                     objs m' (interleaved 0 1 samples'))) →
  eventually Q (pair_config
    (loop (seqZ (Z.of_nat (length samples)) (Z.of_nat n)) (λ _, high_body);; high)
    (loop_acc (seqZ (Z.of_nat (length samples)) (Z.of_nat n))
       (collect ccnt_bits N_IGNORED overhead samples) low_body_ep ≫= low)
    parent objs m (interleaved 0 1 samples)).
Proof using All.
  revert samples objs m x. induction n as [|n IH]; intros samples objs m x Hi Hs Hlen HQ.
  { by apply HQ; [|lia|]. }
  rewrite seqZ_succ_l by lia. cbn [loop loop_acc]. rewrite high_body_step, low_body_ep_step.
  eapply handshake; [done..|]. intros objs1 m1 s e Hm Hs1 Hf.
  eapply handshake_end; [done|]. intros objs2 Hi2.
  rewrite <-collect_snoc by lia.
  next_sample s e.
  eapply (IH _ _ _ s); [done|done|count_samples|].
  intros objs3 m3 samples' Hi3 Hl3 Hf3. apply HQ; [done| |].
  - rewrite Hl3. count_samples.
  - intros b l Hb Hl. by apply Hf3, Hf.
Qed.
End early.
End handshake.

(** ** The functions of the sources *)

(** The priorities [main.c] gives to the three threads keep them apart. *)
Lemma gen_next_prio_between `{Platform} i :
  seL4_MinPrio = 0 → seL4_MaxPrio = 255 → 0 <= i < N_PRIOS →
  seL4_MinPrio < gen_next_prio i < seL4_MaxPrio.
Proof.
  unfold N_PRIOS, gen_next_prio. intros -> -> Hi.
  destruct word_bits_law as [E|E]; rewrite E in *.
  - change ((255 + 32 - 1) `div` 32) with 8 in Hi. rewrite wrap_small by (unfold in_word; lia). lia.
  - change ((255 + 64 - 1) `div` 64) with 4 in Hi. rewrite wrap_small by (unfold in_word; lia). lia.
Qed.

Section functions.
Context `{Platform} `{FaultAbi} `{!Kernel}.
Import EarlyProc.

(** The configuration [benchmark_prio_threads] makes for the [i]-th priority:
    the high thread, the low thread with the arguments [largs], and itself
    waiting for them; the kernel objects are the two notifications and the
    endpoint, not in use. *)
Definition prio_config (i produce consume ep : Z) (sb : positive) (f1 f2 f3 : Z)
    (low : Z → list val → proc unit) (largs : list val) (objs : gmap Z object) (m : heap) : config :=
  Config
    [Thread (gen_next_prio i) f1 false None
       (high_fn N_HIGH_ARGS [Vint produce; Vint ep; Vptr (Ptr sb 0); Vint consume]);
     Thread seL4_MinPrio f2 false None (low N_LOW_ARGS largs);
     Thread seL4_MaxPrio f3 false None (wait_children ep 2)] objs m [].

Definition unused (produce consume ep : Z) (objs : gmap Z object) : Prop :=
  objs !! produce = Some (Notification false []) ∧
  objs !! consume = Some (Notification false []) ∧
  objs !! ep = Some (Endpoint [] []).

Context (produce consume ep : Z) (sb : positive) (f1 f2 f3 : Z).
Context (Hpc : produce ≠ consume) (Hpe : produce ≠ ep) (Hce : consume ≠ ep).
Context (HMin : seL4_MinPrio = 0) (HMax : seL4_MaxPrio = 255).

(** The parent is the first to run, and blocks. *)
Lemma parent_blocks Q i (low : Z → list val → proc unit) largs objs m :
  0 <= i < N_PRIOS → unused produce consume ep objs →
  (∀ objs, idle produce consume ep objs →
     eventually Q (pair_config (gen_next_prio i) seL4_MinPrio seL4_MaxPrio f1 f2 f3
       (high_fn N_HIGH_ARGS [Vint produce; Vint ep; Vptr (Ptr sb 0); Vint consume])
       (low N_LOW_ARGS largs) (wait_children ep 2) objs m [])) →
  eventually Q (prio_config i produce consume ep sb f1 f2 f3 low largs objs m).
Proof using All.
  intros Hi (Hp & Hc & He) HQ. pose proof (gen_next_prio_between i HMin HMax Hi).
  unfold prio_config, pair_config in *. rewrite wait_two_children in *.
  set (h := high_fn _ _) in *. set (lo := low _ _) in *. clearbody h lo.
  run 2%nat. apply HQ. unfold idle. by lookups.
Qed.

Lemma high_fn_loop :
  high_fn N_HIGH_ARGS [Vint produce; Vint ep; Vptr (Ptr sb 0); Vint consume] =
    (loop (seqZ 0 N_RUNS) (λ _, high_body produce consume sb);; seL4_Send ep;; seL4_Wait produce).
Proof. done. Qed.

Lemma low_fn_loop rb off stale :
  low_fn N_LOW_ARGS (low_args produce (Ptr sb 0) (Ptr rb off) ep consume stale) =
    (loop (seqZ 0 N_RUNS) (low_body produce consume sb rb off);; seL4_Send ep;; seL4_Wait produce).
Proof. done. Qed.

Lemma low_fn_ep_loop overhead p1 p2 p3 :
  low_fn_ep N_LOW_ARGS (low_args_ep produce (Ptr sb 0) overhead p1 p2 p3 ep consume) =
    (loop_acc (seqZ 0 N_RUNS) (mkSums 0 0) (low_body_ep produce consume sb overhead) ≫=
     λ sums, store_to p1 0 (par_sum sums);; store_to p2 0 (par_sum2 sums);;
             store_to p3 0 (N_RUNS - N_IGNORED);; seL4_Send ep;; seL4_Wait produce).
Proof. done. Qed.

(** C25.  The priority-switch benchmark terminates with the right samples, for
    every kernel and every schedule it chooses: from the configuration
    [benchmark_prio_threads] sets up for its [i]-th priority, every run comes
    to a point where the parent's [benchmark_wait_children] has returned; by
    then the counter has been read alternately by the high and by the low
    thread, [N_RUNS] times each, the array at [results] holds the differences
    of those pairs of readings in order, and nothing else of its block has
    changed. *)
Theorem prio_switch_measured i rb off l x stale objs m :
  0 <= i < N_PRIOS → unused produce consume ep objs →
  rb ≠ sb → holds m sb [x] → holds m rb l → 0 <= off → off + N_RUNS <= Z.of_nat (length l) →
  eventually
    (λ c, returned 2 c ∧ ∃ samples, Z.of_nat (length samples) = N_RUNS ∧
       readings c = interleaved 0 1 samples ∧
       holds (mem c) rb (list_inserts (Z.to_nat off) (elapsed ccnt_bits samples) l))
    (prio_config i produce consume ep sb f1 f2 f3 low_fn
       (low_args produce (Ptr sb 0) (Ptr rb off) ep consume stale) objs m).
Proof using All.
  intros Hi Hu Hne Hs Hr Hoff Hlen. pose proof (gen_next_prio_between i HMin HMax Hi) as [Hlo Hhi].
  apply parent_blocks; [done..|]. intros objs1 Hi1. rewrite high_fn_loop, low_fn_loop.
  apply (low_loop produce consume ep sb _ _ _ f1 f2 f3 Hpc Hpe Hce Hlo Hhi rb off l Hne Hoff _ _ _ _
    (Z.to_nat N_RUNS) [] objs1 m x); [done..|].
  intros objs2 m2 samples Hi2 Hn Hr2.
  apply (high_finishes produce consume ep sb); [done..|]. intros objs3 Hi3.
  apply (low_finishes produce consume ep sb); [done..|]. intros c Hret -> ->.
  split; [done|]. exists samples. split; [|done]. rewrite Hn. done.
Qed.

(** C28.  The early-processing version of that benchmark leaves, in the three
    places it is given, the sum and the sum of squares that the collection
    macro makes of the samples of the run, with the overhead it was given, and
    the number of the samples that count; for every kernel, every schedule and
    all counter values. *)
Theorem prio_switch_summed i overhead ob o1 o2 o3 l x objs m :
  0 <= i < N_PRIOS → unused produce consume ep objs →
  ob ≠ sb → holds m sb [x] → holds m ob l →
  0 <= o1 < Z.of_nat (length l) → 0 <= o2 < Z.of_nat (length l) → 0 <= o3 < Z.of_nat (length l) →
  eventually
    (λ c, returned 2 c ∧ ∃ samples, Z.of_nat (length samples) = N_RUNS ∧
       readings c = interleaved 0 1 samples ∧
       let sums := collect ccnt_bits N_IGNORED overhead samples in
       holds (mem c) ob (<[Z.to_nat o3 := N_RUNS - N_IGNORED]>
         (<[Z.to_nat o2 := par_sum2 sums]> (<[Z.to_nat o1 := par_sum sums]> l))))
    (prio_config i produce consume ep sb f1 f2 f3 low_fn_ep
       (low_args_ep produce (Ptr sb 0) overhead (Ptr ob o1) (Ptr ob o2) (Ptr ob o3) ep consume)
       objs m).
Proof using All.
  intros Hi Hu Hne Hs Hr Ho1 Ho2 Ho3. pose proof (gen_next_prio_between i HMin HMax Hi) as [Hlo Hhi].
  apply parent_blocks; [done..|]. intros objs1 Hi1. rewrite high_fn_loop, low_fn_ep_loop.
  apply (low_loop_ep produce consume ep sb _ _ _ f1 f2 f3 Hpc Hpe Hce Hlo Hhi overhead _ _ _ _
    (Z.to_nat N_RUNS) [] objs1 m x); [done..| |].
  { by apply small_count. }
  intros objs2 m2 samples Hi2 Hn Hf. specialize (Hf _ _ Hne Hr).
  apply (high_finishes produce consume ep sb); [done..|]. intros objs3 Hi3. unfold finishing_config.
  set (sums := collect _ _ _ _).
  destruct (store_frame m2 ob l o1 0 (par_sum sums)) as (m3 & E3 & Hr3 & _); [done|lia|].
  rewrite Z.add_0_r in Hr3. run 1%nat.
  destruct (store_frame m3 ob _ o2 0 (par_sum2 sums) Hr3) as (m4 & E4 & Hr4 & _);
    [rewrite length_insert; lia|].
  rewrite Z.add_0_r in Hr4. run 1%nat.
  destruct (store_frame m4 ob _ o3 0 (N_RUNS - N_IGNORED) Hr4) as (m5 & E5 & Hr5 & _);
    [rewrite !length_insert; lia|].
  rewrite Z.add_0_r in Hr5. change (N_RUNS - N_IGNORED) with 100 in *. run 1%nat.
  apply (low_finishes produce consume ep sb); [done..|]. intros c Hret -> ->.
  split; [done|]. exists samples. split; [|done]. by rewrite Hn.
Qed.
End functions.

(** On x86_64, for the third priority. *)
Lemma prio_switch_measured_witness :
  @eventually x86_64 example_abi (example_kernel x86_64)
    (λ c, returned 2 c ∧ ∃ samples, Z.of_nat (length samples) = N_RUNS ∧
       readings c = interleaved 0 1 samples ∧
       holds (mem c) 2 (list_inserts (Z.to_nat 220) (elapsed 64 samples) (replicate 600 7)))
    (@prio_config x86_64 2 10 11 12 1 0 0 0 (@low_fn x86_64)
       (low_args 10 (Ptr 1 0) (Ptr 2 220) 12 11 []) example_objects example_heap).
Proof.
  apply (@prio_switch_measured x86_64 example_abi (example_kernel x86_64) 10 11 12 1 0 0 0
    ltac:(done) ltac:(done) ltac:(done) ltac:(done) ltac:(done) 2 2 220 (replicate 600 7) 0 []);
    by vm_compute.
Defined.

Lemma prio_switch_summed_witness :
  @eventually x86_64 example_abi (example_kernel x86_64)
    (λ c, returned 2 c ∧ ∃ samples, Z.of_nat (length samples) = N_RUNS ∧
       readings c = interleaved 0 1 samples ∧
       let sums := @EarlyProc.collect x86_64 64 N_IGNORED 5 samples in
       holds (mem c) 2 (<[Z.to_nat 3 := N_RUNS - N_IGNORED]>
         (<[Z.to_nat 2 := EarlyProc.par_sum2 sums]> (<[Z.to_nat 1 := EarlyProc.par_sum sums]> (replicate 600 7)))))
    (@prio_config x86_64 2 10 11 12 1 0 0 0 (@low_fn_ep x86_64)
       (low_args_ep 10 (Ptr 1 0) 5 (Ptr 2 1) (Ptr 2 2) (Ptr 2 3) 12 11) example_objects example_heap).
Proof.
  apply (@prio_switch_summed x86_64 example_abi (example_kernel x86_64) 10 11 12 1 0 0 0
    ltac:(done) ltac:(done) ltac:(done) ltac:(done) ltac:(done) 2 5 2 1 2 3 (replicate 600 7) 0);
    by vm_compute.
Defined.
