(* ===== verification/HardwareApp.v ===== *)
(** * HardwareApp: the null system call benchmark

    [apps/hardware/src/main.c]. *)

From S2P Require Import Prelude Platform Memory Program Collect Support Threads Measuring Reports.

Import Reports.Hardware.

Section app.
Context `{Platform}.
Import EarlyProc.

Definition hardware_layout : layout :=
  [("nullSyscall_results", N_RUNS); ("nullSyscall_overhead", N_RUNS); ("overhead_min", 1);
   ("nullSyscall_ep_sum", 1); ("nullSyscall_ep_sum2", 1); ("nullSyscall_ep_num", 1)]%string.

Definition measure_nullsyscall_overhead (results : ptr) : proc unit :=
  for_to N_RUNS (λ i,
    start ← SEL4BENCH_READ_CCNT;
    DO_NOP_NULLSYSCALL;;
    end_ ← SEL4BENCH_READ_CCNT;
    store_to results i (end_ ⊟[ccnt_bits] start)).

Definition measure_nullsyscall (results : ptr) : proc unit :=
  for_to N_RUNS (λ i,
    start ← SEL4BENCH_READ_CCNT;
    DO_REAL_NULLSYSCALL;;
    end_ ← SEL4BENCH_READ_CCNT;
    store_to results i (end_ ⊟[ccnt_bits] start)).

Definition measure_nullsyscall_ep (results : ptr) : proc unit :=
  overhead ← get_field hardware_layout results "overhead_min";
  sums ← loop_acc (seqZ 0 N_RUNS) (mkSums 0 0) (λ i sums,
    start ← SEL4BENCH_READ_CCNT;
    DO_REAL_NULLSYSCALL;;
    end_ ← SEL4BENCH_READ_CCNT;
    mret (DATACOLLECT_GET_SUMS ccnt_bits i N_IGNORED start end_ overhead sums));
  set_field hardware_layout results "nullSyscall_ep_sum" (par_sum sums);;
  set_field hardware_layout results "nullSyscall_ep_sum2" (par_sum2 sums);;
  set_field hardware_layout results "nullSyscall_ep_num" (N_RUNS - N_IGNORED).

Definition measurements (results : ptr) : proc unit :=
  measure_nullsyscall_overhead (field hardware_layout results "nullSyscall_overhead");;
  measure_nullsyscall (field hardware_layout results "nullSyscall_results");;
  measure_nullsyscall_ep results.

Definition abort (env : Env.env_t) : proc unit := finished env 1.

Definition main (rt : runtime) (results : ptr) (argc : Z) : proc unit :=
  env ← get_env rt argc (sizeof hardware_layout) 0;
  sys_do "sel4bench_init" [];;
  measurements results;;
  finished env 0.

End app.

(** ** What the benchmark leaves in the shared memory *)
Section proofs.
Context `{Platform} `{FaultAbi} `{!Kernel}.
Import EarlyProc.

(** The three measurements, with the addresses of the fields. *)
Lemma measurements_steps rb :
  measurements (Ptr rb 0) =
    (loop (seqZ 0 N_RUNS) (timed_body (perform Nop) (Ptr rb 110));;
     loop (seqZ 0 N_RUNS) (timed_body (perform NullSyscall) (Ptr rb 0));;
     overhead ← load_from (Ptr rb 220) 0;
     sums ← loop_acc (seqZ 0 N_RUNS) (mkSums 0 0)
              (timed_body_ep (perform NullSyscall) N_IGNORED overhead);
     store_to (Ptr rb 221) 0 (par_sum sums);; store_to (Ptr rb 222) 0 (par_sum2 sums);;
     store_to (Ptr rb 223) 0 100).
Proof. done. Qed.

(** The hardware benchmark's measurements end, and leave in the shared
    structure the times of the [nop] loop and of the system-call loop, one for
    each of the [N_RUNS] pairs of readings in order, and the sums the
    collection macro makes of a third loop with the overhead the structure
    already held: nothing before has written that field. *)
Theorem hardware_measured (pr fe : Z) rb l overhead m :
  holds m rb l → Z.of_nat (length l) = struct_size hardware_layout →
  l !! 220%nat = Some overhead →
  eventually
    (λ c, returned 0 c ∧ ∃ s1 s2 s3,
       Forall (λ s, Z.of_nat (length s) = N_RUNS) [s1; s2; s3] ∧
       readings c = interleaved 0 0 s1 ++ interleaved 0 0 s2 ++ interleaved 0 0 s3 ∧
       let sums := collect ccnt_bits N_IGNORED overhead s3 in
       holds (mem c) rb (<[223%nat := N_RUNS - N_IGNORED]>
         (<[222%nat := par_sum2 sums]> (<[221%nat := par_sum sums]>
           (list_inserts 0 (elapsed ccnt_bits s2) (list_inserts 110 (elapsed ccnt_bits s1) l))))))
    (alone pr fe ∅ (measurements (Ptr rb 0)) m []).
Proof.
  intros Hr Hlen Hov. rewrite measurements_steps. change (struct_size hardware_layout) with 224 in Hlen.
  assert (0 <= N_RUNS < 2 ^ seL4_WordBits) by (split; [done|by apply small_count]).
  apply (timed_loop_all pr fe ∅ _ _ _ _ l); [by left|done|done|unfold N_RUNS, N_IGNORED; lia|done|].
  intros m1 s1 Hl1 Hr1 _.
  apply (timed_loop_all pr fe ∅ _ _ _ _ (list_inserts 110 (elapsed ccnt_bits s1) l));
    [by right; left|done|done|rewrite length_inserts; unfold N_RUNS, N_IGNORED; lia|done|].
  intros m2 s2 Hl2 Hr2 _.
  apply (alone_load pr fe ∅ _ _ _ _ overhead) with (1 := Hr2); [done| |].
  { rewrite !list_lookup_inserts_ge; [done|rewrite length_elapsed..];
      change (Z.to_nat 220) with 220%nat; change (Z.to_nat 0) with 0%nat; unfold N_RUNS, N_IGNORED in *; lia. }
  apply timed_loop_ep_all; [by right; left|done|]. intros s3 Hl3.
  set (sums := collect _ _ _ _).
  apply (alone_store pr fe ∅ _ _ _ _ _ _ _ _ Hr2); [rewrite !length_inserts; lia|]. intros m3 Hr3 _.
  apply (alone_store pr fe ∅ _ _ _ _ _ _ _ _ Hr3); [rewrite length_insert, !length_inserts; lia|].
  intros m4 Hr4 _.
  apply (alone_last_store pr fe ∅ _ _ _ _ _ _ _ Hr4);
    [rewrite !length_insert, !length_inserts; lia|].
  intros c Hret Hr5 ->. split; [done|].
  exists s1, s2, s3. split; [by repeat constructor|]. split; [by rewrite <-app_assoc|done].
Qed.
End proofs.

Lemma hardware_measured_witness :
  @eventually x86_64 example_abi (example_kernel x86_64)
    (λ c, returned 0 c ∧ ∃ s1 s2 s3,
       Forall (λ s, Z.of_nat (length s) = N_RUNS) [s1; s2; s3] ∧
       readings c = interleaved 0 0 s1 ++ interleaved 0 0 s2 ++ interleaved 0 0 s3 ∧
       let sums := @EarlyProc.collect x86_64 64 N_IGNORED 0 s3 in
       holds (mem c) 1 (<[223%nat := N_RUNS - N_IGNORED]>
         (<[222%nat := EarlyProc.par_sum2 sums]> (<[221%nat := EarlyProc.par_sum sums]>
           (list_inserts 0 (elapsed 64 s2) (list_inserts 110 (elapsed 64 s1) (replicate 224 0)))))))
    (alone 255 0 ∅ (@measurements x86_64 (Ptr 1 0)) (Heap {[1%positive := replicate 224 0]} 0) []).
Proof.
  apply (@hardware_measured x86_64 example_abi (example_kernel x86_64) 255 0 1 (replicate 224 0) 0);
    by vm_compute.
Defined.
