(* ===== verification/SignalApp.v ===== *)
(** * SignalApp: the signal benchmark

    [apps/signal/src/main.c]: the waiting thread, the signalling threads below
    and above its priority, and the set-up around them. *)

From S2P Require Import Prelude Platform Memory Program Collect Support Threads Measuring Reports.

Import Reports.Signal.

Section app.
Context `{Platform}.
Import EarlyProc.

Definition N_LO_SIGNAL_ARGS : Z := 4.
Definition N_HI_SIGNAL_ARGS : Z := 3.
Definition N_WAIT_ARGS : Z := 3.

(** [struct signal_results], in [ccnt_t]. *)
Definition signal_layout : layout :=
  [("lo_prio_results", N_RUNS); ("hi_prio_results", N_RUNS);
   ("hi_prio_average", N_RUNS * NUM_AVERAGE_EVENTS); ("overhead", N_RUNS);
   ("lo_sum", 1); ("lo_sum2", 1); ("lo_num", 1); ("overhead_min", 1);
   ("diag_results", N_RUNS)]%string.

Notation at_ := (field signal_layout).

Definition abort (env : Env.env_t) : proc unit := finished env 1.

(** ** The threads *)

Definition wait_fn (argc : Z) (argv : list val) : proc unit :=
  assert_that (argc =? N_WAIT_ARGS);;
  ntfn ← word_arg argv 0;
  done_ep ← word_arg argv 1;
  end_ ← ptr_arg argv 2;
  for_to N_RUNS (λ _,
    DO_REAL_WAIT ntfn;;
    now ← SEL4BENCH_READ_CCNT;
    store_to end_ 0 now);;
  seL4_Send done_ep;;
  seL4_Wait ntfn.

Definition low_prio_signal_fn (argc : Z) (argv : list val) : proc unit :=
  assert_that (argc =? N_LO_SIGNAL_ARGS);;
  ntfn ← word_arg argv 0;
  end_ ← ptr_arg argv 1;
  results ← ptr_arg argv 2;
  done_ep ← word_arg argv 3;
  for_to N_RUNS (λ i,
    start ← SEL4BENCH_READ_CCNT;
    DO_REAL_SIGNAL ntfn;;
    e ← load_from end_ 0;
    store_to results i (e ⊟[ccnt_bits] start));;
  seL4_Send done_ep;;
  seL4_Wait ntfn.

Definition low_prio_signal_early_proc_fn (argc : Z) (argv : list val) : proc unit :=
  assert_that (argc =? N_LO_SIGNAL_ARGS);;
  ntfn ← word_arg argv 0;
  end_ ← ptr_arg argv 1;
  results ← ptr_arg argv 2;
  done_ep ← word_arg argv 3;
  overhead ← get_field signal_layout results "overhead_min";
  sums ← loop_acc (seqZ 0 N_RUNS) (mkSums 0 0) (λ i sums,
    start ← SEL4BENCH_READ_CCNT;
    DO_REAL_SIGNAL ntfn;;
    e ← load_from end_ 0;
    mret (DATACOLLECT_GET_SUMS ccnt_bits i N_IGNORED start e overhead sums));
  set_field signal_layout results "lo_sum" (par_sum sums);;
  set_field signal_layout results "lo_sum2" (par_sum2 sums);;
  set_field signal_layout results "lo_num" (N_RUNS - N_IGNORED);;
  seL4_Send done_ep;;
  seL4_Wait ntfn.

(** Individual runs first, then chunks of averaged ones with the performance
    counters of [row]. *)
Definition high_prio_signal_fn (argc : Z) (argv : list val) : proc unit :=
  assert_that (argc =? N_HI_SIGNAL_ARGS);;
  ntfn ← word_arg argv 0;
  results ← ptr_arg argv 1;
  done_ep ← word_arg argv 2;
  for_to N_RUNS (λ i,
    start ← SEL4BENCH_READ_CCNT;
    DO_REAL_SIGNAL ntfn;;
    end_ ← SEL4BENCH_READ_CCNT;
    store_to (at_ results "hi_prio_results") i (end_ ⊟[ccnt_bits] start));;
  n_counters ← sys_call "sel4bench_get_num_counters" [];
  assert_that (0 <? n_counters);;
  chunks ← sys_call "sel4bench_get_num_generic_counter_chunks" [Vint n_counters];
  assert_that (0 <? chunks);;
  for_to N_RUNS (λ j,
    chunks ← sys_call "sel4bench_get_num_generic_counter_chunks" [Vint n_counters];
    for_to chunks (λ chunk,
      let row := ptr_add (at_ results "hi_prio_average") (j * NUM_AVERAGE_EVENTS) in
      mask ← sys_call "sel4bench_enable_generic_counters" [Vint chunk; Vint n_counters];
      start ← SEL4BENCH_READ_CCNT;
      for_to AVERAGE_RUNS (λ _, DO_REAL_SIGNAL ntfn);;
      end_ ← SEL4BENCH_READ_CCNT;
      sys_do "sel4bench_read_and_stop_counters" [Vint mask; Vint chunk; Vint n_counters; Vptr row];;
      store_to row CYCLE_COUNT_EVENT (end_ ⊟[ccnt_bits] start)));;
  seL4_Send done_ep;;
  seL4_Wait ntfn.

(** ** The set-up *)

(** [helper_thread_t]: the thread, its function and the words of [argv]. *)
Record helper_thread_t := HelperThread { thread : helper; fn : string; argc : Z; argv : list val }.

Definition start_helper (h : helper_thread_t) : proc unit :=
  error ← start_thread (thread h) (fn h) (argc h) (argv h) true;
  assert_that (error =? 0).
Definition start_threads (first second : helper_thread_t) : proc unit :=
  start_helper first;; start_helper second.

Definition stop_helper (h : helper_thread_t) : proc unit :=
  error ← TCB_Suspend (tcb_cptr (thread h));
  assert_that (error =? 0).
Definition stop_threads (first second : helper_thread_t) : proc unit :=
  stop_helper first;; stop_helper second.

(** [seL4_TCBFlag_NoFlag] and [seL4_TCBFlag_fpuDisabled] *)
Context (no_flag fpu_disabled : Z).

Definition set_fpu (tcb : Z) (fpu_on : bool) : proc unit :=
  from_support (Process.configure_fpu no_flag fpu_disabled tcb fpu_on).

(** The three threads and [end_] are locals. *)
Definition benchmark (wait_thread signal_thread signal_early_thread : helper) (end_ : ptr)
    (ep ntfn : Z) (results : ptr) : proc unit :=
  assert_that (N_HI_SIGNAL_ARGS <=? N_LO_SIGNAL_ARGS);;
  configure_thread ep seL4_MaxPrio wait_thread;;
  configure_thread ep (seL4_MaxPrio - 1) signal_thread;;
  configure_thread ep (seL4_MaxPrio - 1) signal_early_thread;;
  set_fpu (tcb_cptr wait_thread) false;;
  set_fpu (tcb_cptr signal_thread) false;;
  set_fpu (tcb_cptr signal_early_thread) false;;
  let wait := HelperThread wait_thread "wait_fn" N_WAIT_ARGS [Vint ntfn; Vint ep; Vptr end_] in
  let signal := HelperThread signal_thread "low_prio_signal_fn" N_LO_SIGNAL_ARGS
    [Vint ntfn; Vptr end_; Vptr (at_ results "lo_prio_results"); Vint ep] in
  let signal_early_proc := HelperThread signal_early_thread "low_prio_signal_early_proc_fn"
    N_LO_SIGNAL_ARGS [Vint ntfn; Vptr end_; Vptr results; Vint ep] in
  start_threads signal wait;;
  wait_children ep 2;;
  stop_threads signal wait;;
  start_threads signal_early_proc wait;;
  wait_children ep 2;;
  stop_threads signal_early_proc wait;;
  auth ← simple_get_tcb;
  error ← TCB_SetPriority (tcb_cptr wait_thread) auth (seL4_MaxPrio - 1);
  assert_that (error =? 0);;
  error ← TCB_SetPriority (tcb_cptr signal_thread) auth seL4_MaxPrio;
  assert_that (error =? 0);;
  _ ← TCB_SetPriority SEL4UTILS_TCB_SLOT auth (seL4_MaxPrio - 2);
  let signal := HelperThread signal_thread "high_prio_signal_fn" N_HI_SIGNAL_ARGS
    [Vint ntfn; Vptr results; Vint ep] in
  start_threads wait signal;;
  wait_children ep 1;;
  stop_threads wait signal.

Definition measure_signal_overhead (ntfn : Z) (results : ptr) : proc unit :=
  for_to N_RUNS (λ i,
    start ← SEL4BENCH_READ_CCNT;
    DO_NOP_SIGNAL ntfn;;
    end_ ← SEL4BENCH_READ_CCNT;
    store_to results i (end_ ⊟[ccnt_bits] start)).

Definition main (rt : runtime) (wait_thread signal_thread signal_early_thread : helper)
    (end_ results : ptr) (argc : Z) : proc unit :=
  env ← get_env rt argc (sizeof signal_layout) 1;
  sys_do "sel4bench_init" [];;
  done_ep ← sys_alloc "vka_alloc_endpoint" [];
  ntfn ← sys_alloc "vka_alloc_notification" [];
  measure_signal_overhead ntfn (at_ results "overhead");;
  min ← min_overhead (at_ results "overhead") N_RUNS;
  set_field signal_layout results "overhead_min" min;;
  benchmark wait_thread signal_thread signal_early_thread end_ done_ep ntfn results;;
  finished env 0.

End app.
