(* ===== verification/SignalProofs.v ===== *)
(** * SignalProofs: a signal to a thread of a higher priority

    The waiting and the signalling thread of [apps/signal/src/main.c] under the
    scheduler of [Threads]: the waiting thread and the parent have the same
    priority, so the kernel may run them in either order. *)

From S2P Require Import Prelude Platform Memory Program Collect Support Threads Measuring Reports.
From S2P Require Import SignalApp.

Import Reports.Signal.

Section signal.
Context `{Platform} `{FaultAbi} `{!Kernel}.
Import EarlyProc.

Context (ntfn ep : Z) (eb : positive) (ph pl f1 f2 f3 : Z).
Context (Hne : ntfn ≠ ep) (Hhl : pl < ph).

Notation end_ := (Ptr eb 0).

(** The waiting thread blocked on the notification. *)
Definition waiting_config (wait low parent : proc unit) (objs : gmap Z object) (m : heap)
    (rs : list (nat * Z)) : config :=
  Config [Thread ph f1 true None (perform (Wait ntfn);; wait); Thread pl f2 false None low;
          Thread ph f3 true None parent] objs m rs.
Definition waiting (objs : gmap Z object) : Prop :=
  objs !! ntfn = Some (Notification false [0%nat]) ∧ objs !! ep = Some (Endpoint [] [2%nat]).

(** The waiting thread woken up, with its reading taken. *)
Definition woken_config (wait low parent : proc unit) (objs : gmap Z object) (m : heap)
    (rs : list (nat * Z)) : config :=
  Config [Thread ph f1 false None wait; Thread pl f2 false None low;
          Thread ph f3 true None parent] objs m rs.
Definition woken (objs : gmap Z object) : Prop :=
  objs !! ntfn = Some (Notification false []) ∧ objs !! ep = Some (Endpoint [] [2%nat]).

Lemma signal_once (Q : config → Prop) wait (low : Z → proc unit) parent objs m rs x :
  waiting objs → holds m eb [x] →
  (∀ objs m' s e, woken objs → holds m' eb [e] →
     (∀ b l, b ≠ eb → holds m b l → holds m' b l) →
     eventually Q (woken_config wait (low s) parent objs m' (rs ++ [(1%nat, s); (0%nat, e)]))) →
  eventually Q (waiting_config
    (now ← SEL4BENCH_READ_CCNT; store_to end_ 0 now;; wait)
    (s ← SEL4BENCH_READ_CCNT; perform (Signal ntfn);; low s) parent objs m rs).
Proof using Hne Hhl.
  intros (Hn & He) Hx HQ. unfold waiting_config.
  run_as 1%nat s Hs. run 1%nat. run_as 0%nat e He0.
  destruct (store_frame m eb [x] 0 0 e) as (m1 & E1 & Hx1 & Hf1); [done|simpl; lia|].
  run 0%nat. rewrite <-app_assoc. apply HQ; [|done|done]. unfold woken. by lookups.
Qed.

Lemma wait_again (Q : config → Prop) wait low parent objs m rs :
  woken objs →
  (∀ objs, waiting objs → eventually Q (waiting_config wait low parent objs m rs)) →
  eventually Q (woken_config (perform (Wait ntfn);; wait) low parent objs m rs).
Proof using Hne Hhl.
  intros (Hn & He) HQ. unfold woken_config.
  run 0%nat. apply HQ. unfold waiting. by lookups.
Qed.

(** The waiting thread reports and blocks; the parent waits for the other. *)
Definition finishing_config (low : proc unit) (objs : gmap Z object) (m : heap) (rs : list (nat * Z))
  : config :=
  Config [Thread ph f1 true None (seL4_Wait ntfn); Thread pl f2 false None low;
          Thread ph f3 true None (wait_last_child ep)] objs m rs.

Lemma wait_finishes (Q : config → Prop) low objs m rs :
  woken objs →
  (∀ objs, waiting objs → eventually Q (finishing_config low objs m rs)) →
  eventually Q (woken_config (seL4_Send ep;; seL4_Wait ntfn) low (wait_children ep 2) objs m rs).
Proof using Hne Hhl.
  intros (Hn & He) HQ. unfold woken_config. rewrite wait_two_children.
  run 0%nat. run_either 0%nat 2%nat.
  - run 2%nat. apply HQ. unfold waiting. by lookups.
  - run 0%nat. apply HQ. unfold waiting. by lookups.
Qed.

Lemma signaller_finishes (Q : config → Prop) objs m rs :
  waiting objs → (∀ c, returned 2 c → mem c = m → readings c = rs → Q c) →
  eventually Q (finishing_config (seL4_Send ep;; seL4_Wait ntfn) objs m rs).
Proof using Hne Hhl.
  intros (Hn & He) HQ. unfold finishing_config.
  run 1%nat. apply eventually_now, HQ; [|done|done]. by eexists.
Qed.

Definition wait_body : proc unit :=
  DO_REAL_WAIT ntfn;; now ← SEL4BENCH_READ_CCNT; store_to end_ 0 now.

Lemma wait_body_step (L k : proc unit) :
  ((wait_body;; L);; k : proc unit) =
    (perform (Wait ntfn);; now ← SEL4BENCH_READ_CCNT; store_to end_ 0 now;; L;; k).
Proof. unfold wait_body. by rewrite do_real_wait. Qed.

(** ** Raw results *)
Section raw.
Context (rb : positive) (off : Z) (l : list Z) (Hsr : rb ≠ eb) (Hoff : 0 <= off).

Definition low_body (i : Z) : proc unit :=
  start ← SEL4BENCH_READ_CCNT; DO_REAL_SIGNAL ntfn;; e ← load_from end_ 0;
  store_to (Ptr rb off) i (e ⊟[ccnt_bits] start).

(** What it does once it runs again. *)
Definition low_rest (i : Z) (k : proc unit) (start : Z) : proc unit :=
  e ← load_from end_ 0; store_to (Ptr rb off) i (e ⊟[ccnt_bits] start);; k.

Lemma signaller_step i (L k : proc unit) :
  ((low_body i;; L);; k : proc unit) =
    (s ← SEL4BENCH_READ_CCNT; perform (Signal ntfn);; low_rest i (L;; k) s).
Proof. done. Qed.

Lemma low_rest_runs (Q : config → Prop) i k s e w objs p m rs samples :
  holds m eb [e] → holds m rb (list_inserts (Z.to_nat off) (elapsed ccnt_bits samples) l) →
  i = Z.of_nat (length samples) → off + i < Z.of_nat (length l) →
  (∀ m', holds m' eb [e] →
     holds m' rb (list_inserts (Z.to_nat off) (elapsed ccnt_bits (samples ++ [(s, e)])) l) →
     eventually Q (Config [Thread ph f1 true None w; Thread pl f2 false None k;
                           Thread ph f3 true None p] objs m' rs)) →
  eventually Q (Config [Thread ph f1 true None w; Thread pl f2 false None (low_rest i k s);
                        Thread ph f3 true None p] objs m rs).
Proof using All.
  intros He Hr -> Hi HQ.
  assert (E : load end_ 0 m = Ok e) by (by apply (load_holds _ _ [e])). run 1%nat.
  destruct (store_frame m rb _ off (Z.of_nat (length samples)) (e ⊟[ccnt_bits] s) Hr)
    as (m2 & E2 & Hr2 & Hf2).
  { rewrite length_inserts. lia. }
  run 1%nat. apply HQ; [by apply Hf2|].
  replace (Z.to_nat (off + Z.of_nat (length samples)))
    with (Z.to_nat off + length (elapsed ccnt_bits samples))%nat in Hr2
    by (rewrite length_elapsed; lia).
  by rewrite list_inserts_snoc, <-elapsed_snoc in Hr2.
Qed.

Lemma signaller_loop (Q : config → Prop) kw kl parent n samples objs m x :
  waiting objs → holds m eb [x] →
  holds m rb (list_inserts (Z.to_nat off) (elapsed ccnt_bits samples) l) →
  off + Z.of_nat (length samples + S n) <= Z.of_nat (length l) →
  (∀ objs m samples' s e, woken objs → holds m eb [e] →
     length samples' = (length samples + n)%nat →
     holds m rb (list_inserts (Z.to_nat off) (elapsed ccnt_bits samples') l) →
     eventually Q (woken_config kw (low_rest (Z.of_nat (length samples')) kl s) parent objs m
                     (interleaved 1 0 (samples' ++ [(s, e)])))) →
  eventually Q (waiting_config
    (now ← SEL4BENCH_READ_CCNT; store_to end_ 0 now;;
     loop (seqZ (Z.of_nat (length samples) + 1) (Z.of_nat n)) (λ _, wait_body);; kw)
    (loop (seqZ (Z.of_nat (length samples)) (Z.of_nat (S n))) low_body;; kl)
    parent objs m (interleaved 1 0 samples)).
Proof using All.
  revert samples objs m x. induction n as [|n IH]; intros samples objs m x Hw Hx Hr Hlen HQ;
    (rewrite (seqZ_succ_l (Z.of_nat (length samples))) by lia; cbn [loop]; rewrite signaller_step;
     eapply signal_once; [done..|]; intros objs1 m1 s e Hw1 Hx1 Hf1; rewrite <-interleaved_snoc).
  - simpl. apply HQ; [done|done|lia|by apply Hf1].
  - rewrite seqZ_succ_l by lia. cbn [loop]. rewrite wait_body_step.
    apply wait_again; [done|]. intros objs2 Hw2. unfold waiting_config.
    eapply (low_rest_runs _ _ _ _ e _ _ _ m1 _ samples); [done|by apply Hf1|done|lia|].
    intros m3 Hx3 Hr3. rewrite (next_index samples (s, e)).
    replace (Z.of_nat (S n) - 1) with (Z.of_nat n) by lia.
    replace (Z.of_nat (S (S n)) - 1) with (Z.of_nat (S n)) by lia.
    eapply (IH _ _ _ e); [done|done|done|count_samples|].
    intros objs4 m4 samples' s' e' Hw4 Hx4 Hl4 Hr4. apply HQ; [done|done| |done].
    rewrite Hl4. count_samples.
Qed.
End raw.
End signal.

(** ** The functions of the sources *)
Section functions.
Context `{Platform} `{FaultAbi} `{!Kernel}.
Context (ntfn ep : Z) (eb : positive) (f1 f2 f3 : Z) (Hne : ntfn ≠ ep).

(** The configuration [benchmark] makes for its first run. *)
Definition signal_config (results : ptr) (objs : gmap Z object) (m : heap) : config :=
  Config
    [Thread seL4_MaxPrio f1 false None
       (wait_fn N_WAIT_ARGS [Vint ntfn; Vint ep; Vptr (Ptr eb 0)]);
     Thread (seL4_MaxPrio - 1) f2 false None
       (low_prio_signal_fn N_LO_SIGNAL_ARGS [Vint ntfn; Vptr (Ptr eb 0); Vptr results; Vint ep]);
     Thread seL4_MaxPrio f3 false None (wait_children ep 2)] objs m [].

Lemma wait_fn_loop :
  wait_fn N_WAIT_ARGS [Vint ntfn; Vint ep; Vptr (Ptr eb 0)] =
    (loop (seqZ 0 N_RUNS) (λ _, wait_body ntfn eb);; seL4_Send ep;; seL4_Wait ntfn).
Proof. done. Qed.

Lemma low_prio_signal_fn_loop rb off :
  low_prio_signal_fn N_LO_SIGNAL_ARGS [Vint ntfn; Vptr (Ptr eb 0); Vptr (Ptr rb off); Vint ep] =
    (loop (seqZ 0 N_RUNS) (low_body ntfn eb rb off);; seL4_Send ep;; seL4_Wait ntfn).
Proof. done. Qed.

(** Whichever of the two goes first, the waiting thread and the parent block. *)
Lemma both_block Q results objs m low :
  objs !! ntfn = Some (Notification false []) → objs !! ep = Some (Endpoint [] []) →
  low_prio_signal_fn N_LO_SIGNAL_ARGS [Vint ntfn; Vptr (Ptr eb 0); Vptr results; Vint ep] = low →
  (∀ objs, waiting ntfn ep objs →
     eventually Q (waiting_config ntfn seL4_MaxPrio (seL4_MaxPrio - 1) f1 f2 f3
       (now ← SEL4BENCH_READ_CCNT; store_to (Ptr eb 0) 0 now;;
        loop (seqZ 1 (N_RUNS - 1)) (λ _, wait_body ntfn eb);; seL4_Send ep;; seL4_Wait ntfn)
       low (wait_children ep 2) objs m [])) →
  eventually Q (signal_config results objs m).
Proof using Hne.
  intros Hn He Hlow HQ. unfold signal_config, waiting_config in *.
  rewrite Hlow, wait_fn_loop. clear Hlow. rewrite seqZ_succ_l by done. cbn [loop].
  rewrite wait_body_step. change (0 + 1) with 1. rewrite wait_two_children in *.
  set (rest := loop (seqZ 1 _) _) in *. clearbody rest.
  run_either 0%nat 2%nat.
  - run 2%nat. apply HQ. unfold waiting. by lookups.
  - run 0%nat. apply HQ. unfold waiting. by lookups.
Qed.

(** C27.  The signal benchmark's first run terminates with the right samples,
    for every kernel and every schedule, including the two orders in which the
    waiting thread and the parent, which share the highest priority, may run
    when both are ready: the parent's wait returns, and the results hold the
    time from each of the [N_RUNS] readings before a signal to the reading the
    woken thread makes before anything else runs. *)
Theorem signal_measured rb off l x objs m :
  objs !! ntfn = Some (Notification false []) → objs !! ep = Some (Endpoint [] []) →
  rb ≠ eb → holds m eb [x] → holds m rb l → 0 <= off → off + N_RUNS <= Z.of_nat (length l) →
  eventually
    (λ c, returned 2 c ∧ ∃ samples, Z.of_nat (length samples) = N_RUNS ∧
       readings c = interleaved 1 0 samples ∧
       holds (mem c) rb (list_inserts (Z.to_nat off) (elapsed ccnt_bits samples) l))
    (signal_config (Ptr rb off) objs m).
Proof using Hne.
  intros Hn He Hrb Hx Hr Hoff Hlen. assert (Hhl : seL4_MaxPrio - 1 < seL4_MaxPrio) by lia.
  apply (both_block _ (Ptr rb off) _ _ _ Hn He (low_prio_signal_fn_loop rb off)).
  intros objs1 Hw1.
  eapply (signaller_loop ntfn ep eb _ _ f1 f2 f3 Hne Hhl rb off l Hrb Hoff _ _ _ _ 109 [] objs1 m x);
    [done..|].
  intros objs2 m2 samples s e Hw2 Hx2 Hl2 Hr2.
  apply (wait_finishes ntfn ep _ _ f1 f2 f3 Hne Hhl); [done|]. intros objs3 Hw3.
  eapply (low_rest_runs ntfn ep eb _ _ f1 f2 f3 Hne Hhl rb off l Hrb Hoff _ _ _ s e);
    [done|done|done|unfold N_RUNS, N_IGNORED in *; simpl in *; lia|].
  intros m3 Hx3 Hr3. eapply (signaller_finishes ntfn ep _ _ f1 f2 f3 Hne Hhl); [done|].
  intros c Hret -> ->. split; [done|]. exists (samples ++ [(s, e)]).
  split; [|done]. rewrite length_app, Hl2. done.
Qed.
End functions.

Lemma signal_measured_witness :
  @eventually x86_64 example_abi (example_kernel x86_64)
    (λ c, returned 2 c ∧ ∃ samples, Z.of_nat (length samples) = N_RUNS ∧
       readings c = interleaved 1 0 samples ∧
       holds (mem c) 2 (list_inserts (Z.to_nat 0) (elapsed 64 samples) (replicate 600 7)))
    (@signal_config x86_64 10 12 1 0 0 0 (Ptr 2 0) example_objects example_heap).
Proof.
  apply (@signal_measured x86_64 example_abi (example_kernel x86_64) 10 12 1 0 0 0 ltac:(done)
    2 0 (replicate 600 7) 0); by vm_compute.
Defined.
