(* ===== verification/FaultApp.v ===== *)
(** * FaultApp: the fault benchmark

    [apps/fault/src/main.c]: pairs of a thread that faults on an undefined
    instruction and a handler that restarts it behind that instruction, and
    the set-up around them.  [ip] is the address of the undefined instruction a
    faulting function was compiled with. *)

From S2P Require Import Prelude Platform Memory Program Collect Support Threads Measuring Reports.

Import Reports.Fault.

Section app.
Context `{Platform} `{FaultAbi}.
Import EarlyProc.

Definition N_FAULTER_ARGS : Z := 3.
Definition N_HANDLER_ARGS : Z := 5.

(** [fault_results_t], in [ccnt_t]. *)
Definition fault_layout : layout :=
  [("reply_recv_overhead", N_RUNS); ("ccnt_overhead", N_RUNS); ("round_trip", N_RUNS + 1);
   ("fault", N_RUNS + 1); ("fault_reply", N_RUNS + 1);
   ("round_trip_ep_sum", 1); ("round_trip_ep_sum2", 1); ("round_trip_ep_num", 1);
   ("round_trip_ep_min_overhead", 1);
   ("fault_ep_sum", 1); ("fault_ep_sum2", 1); ("fault_ep_num", 1); ("fault_ep_min_overhead", 1);
   ("fault_reply_ep_sum", 1); ("fault_reply_ep_sum2", 1); ("fault_reply_ep_num", 1);
   ("fault_reply_ep_min_overhead", 1)]%string.

Notation at_ := (field fault_layout).
Notation get := (get_field fault_layout).
Notation set := (set_field fault_layout).

Definition abort (env : Env.env_t) : proc unit := finished env 1.

Definition fault_ (ip : Z) : proc unit := perform (Fault ip).

(** The endpoint, [start], [results], [done_ep] and the reply object. *)
Definition parse_handler_args (argc : Z) (argv : list val) : proc (Z * ptr * ptr * Z * Z) :=
  assert_that (argc =? N_HANDLER_ARGS);;
  ep ← word_arg argv 0;
  start ← ptr_arg argv 1;
  results ← ptr_arg argv 2;
  done_ep ← word_arg argv 3;
  reply ← word_arg argv 4;
  mret (ep, start, results, done_ep, reply).

(** [ip += UD_INSTRUCTION_SIZE] *)
Definition skip_ud (ip : Z) : Z := ip ⊞[seL4_WordBits] UD_INSTRUCTION_SIZE.

Definition fault_handler_done (ep ip done_ep : Z) : proc unit :=
  seL4_ReplyWith1MR (skip_ud ip);;
  seL4_Send done_ep;;
  seL4_Wait ep.

Definition fault_handler_start (ep done_ep : Z) : proc Z :=
  if CONFIG_KERNEL_MCS then
    m ← perform (NBSendRecv done_ep (Msg 0 []) ep); first_register m
  else seL4_RecvWith1MR ep.

(** ** Fault to handler *)

Definition measure_fault_fn (ip argc : Z) (argv : list val) : proc unit :=
  assert_that (argc =? N_FAULTER_ARGS);;
  start ← ptr_arg argv 0;
  done_ep ← word_arg argv 2;
  for_to (N_RUNS + 1) (λ _,
    now ← SEL4BENCH_READ_CCNT;
    store_to start 0 now;;
    fault_ ip);;
  seL4_Send done_ep.

Definition measure_fault_handler_fn (argc : Z) (argv : list val) : proc unit :=
  '(ep, start, results, done_ep, reply) ← parse_handler_args argc argv;
  ip ← fault_handler_start ep done_ep;
  ip ← loop_acc (seqZ 0 N_RUNS) ip (λ i ip,
    ip ← DO_REAL_REPLY_RECV_1 ep (skip_ud ip);
    end_ ← SEL4BENCH_READ_CCNT;
    start_ ← load_from start 0;
    store_to (at_ results "fault") i (end_ ⊟[ccnt_bits] start_);;
    mret ip);
  fault_handler_done ep ip done_ep.

Definition measure_fault_handler_fn_ep (argc : Z) (argv : list val) : proc unit :=
  '(ep, start, results, done_ep, reply) ← parse_handler_args argc argv;
  overhead ← get results "fault_ep_min_overhead";
  ip ← fault_handler_start ep done_ep;
  '(ip, sums) ← loop_acc (seqZ 0 N_RUNS) (ip, mkSums 0 0) (λ i '(ip, sums),
    ip ← DO_REAL_REPLY_RECV_1 ep (skip_ud ip);
    end_ ← SEL4BENCH_READ_CCNT;
    start_ ← load_from start 0;
    mret (ip, DATACOLLECT_GET_SUMS ccnt_bits i N_IGNORED start_ end_ overhead sums));
  set results "fault_ep_sum" (par_sum sums);;
  set results "fault_ep_sum2" (par_sum2 sums);;
  set results "fault_ep_num" (N_RUNS - N_IGNORED);;
  fault_handler_done ep ip done_ep.

(** ** Handler to faulter *)

(** [ip0] is the first [fault()], [ip] the one in the loop. *)
Definition measure_fault_reply_fn (ip0 ip argc : Z) (argv : list val) : proc unit :=
  assert_that (argc =? N_FAULTER_ARGS);;
  start ← ptr_arg argv 0;
  results ← ptr_arg argv 1;
  done_ep ← word_arg argv 2;
  fault_ ip0;;
  for_to (N_RUNS + 1) (λ i,
    fault_ ip;;
    end_ ← SEL4BENCH_READ_CCNT;
    start_ ← load_from start 0;
    store_to (at_ results "fault_reply") i (end_ ⊟[ccnt_bits] start_));;
  seL4_Send done_ep.

Definition measure_fault_reply_handler_fn (argc : Z) (argv : list val) : proc unit :=
  '(ep, start, results, done_ep, reply) ← parse_handler_args argc argv;
  ip ← fault_handler_start ep done_ep;
  ip ← loop_acc (seqZ 0 (N_RUNS + 1)) ip (λ i ip,
    let ip := skip_ud ip in
    now ← SEL4BENCH_READ_CCNT;
    store_to start 0 now;;
    DO_REAL_REPLY_RECV_1 ep ip);
  fault_handler_done ep ip done_ep.

Definition measure_fault_reply_fn_ep (ip0 ip ip1 argc : Z) (argv : list val) : proc unit :=
  assert_that (argc =? N_FAULTER_ARGS);;
  start ← ptr_arg argv 0;
  results ← ptr_arg argv 1;
  done_ep ← word_arg argv 2;
  overhead ← get results "fault_reply_ep_min_overhead";
  fault_ ip0;;
  sums ← loop_acc (seqZ 0 N_RUNS) (mkSums 0 0) (λ i sums,
    fault_ ip;;
    end_ ← SEL4BENCH_READ_CCNT;
    start_ ← load_from start 0;
    mret (DATACOLLECT_GET_SUMS ccnt_bits i N_IGNORED start_ end_ overhead sums));
  fault_ ip1;;
  set results "fault_reply_ep_sum" (par_sum sums);;
  set results "fault_reply_ep_sum2" (par_sum2 sums);;
  set results "fault_reply_ep_num" (N_RUNS - N_IGNORED);;
  seL4_Send done_ep.

(** ** Round trip *)

Definition measure_fault_roundtrip_fn (ip argc : Z) (argv : list val) : proc unit :=
  assert_that (argc =? N_FAULTER_ARGS);;
  results ← ptr_arg argv 1;
  done_ep ← word_arg argv 2;
  for_to (N_RUNS + 1) (λ i,
    start ← SEL4BENCH_READ_CCNT;
    fault_ ip;;
    end_ ← SEL4BENCH_READ_CCNT;
    store_to (at_ results "round_trip") i (end_ ⊟[ccnt_bits] start));;
  seL4_Send done_ep.

Definition measure_fault_roundtrip_fn_ep (ip ip1 argc : Z) (argv : list val) : proc unit :=
  assert_that (argc =? N_FAULTER_ARGS);;
  results ← ptr_arg argv 1;
  done_ep ← word_arg argv 2;
  overhead ← get results "round_trip_ep_min_overhead";
  sums ← loop_acc (seqZ 0 N_RUNS) (mkSums 0 0) (λ i sums,
    start ← SEL4BENCH_READ_CCNT;
    fault_ ip;;
    end_ ← SEL4BENCH_READ_CCNT;
    mret (DATACOLLECT_GET_SUMS ccnt_bits i N_IGNORED start end_ overhead sums));
  fault_ ip1;;
  set results "round_trip_ep_sum" (par_sum sums);;
  set results "round_trip_ep_sum2" (par_sum2 sums);;
  set results "round_trip_ep_num" (N_RUNS - N_IGNORED);;
  seL4_Send done_ep.

Definition measure_fault_roundtrip_handler_fn (argc : Z) (argv : list val) : proc unit :=
  '(ep, start, results, done_ep, reply) ← parse_handler_args argc argv;
  ip ← fault_handler_start ep done_ep;
  ip ← loop_acc (seqZ 0 N_RUNS) ip (λ i ip, DO_REAL_REPLY_RECV_1 ep (skip_ud ip));
  fault_handler_done ep ip done_ep.

(** ** The set-up *)

(** The two threads of the application, with the scheduling context and the
    reply object of the handler. *)
Context (faulter fault_handler : helper) (handler_sc handler_reply : Z).
Context (no_flag fpu_disabled : Z).

Definition checked_call (fn : string) (args : list val) : proc unit :=
  error ← sys_call fn args; fatal_if (negb (error =? 0)).

Definition run_benchmark (faulter_fn handler_fn : string) (faulter_argv handler_argv : list val)
    (done_ep : Z) : proc unit :=
  error ← start_thread fault_handler handler_fn N_HANDLER_ARGS handler_argv true;
  fatal_if (negb (error =? 0));;
  (if CONFIG_KERNEL_MCS then
     seL4_Wait done_ep;;
     checked_call "api_sc_unbind" [Vint handler_sc]
   else mret tt);;
  error ← start_thread faulter faulter_fn N_FAULTER_ARGS faulter_argv true;
  fatal_if (negb (error =? 0));;
  wait_children done_ep 1;;
  (if CONFIG_KERNEL_MCS then
     checked_call "api_sc_bind" [Vint handler_sc; Vint (tcb_cptr fault_handler)]
   else mret tt);;
  wait_children done_ep 1;;
  checked_call "seL4_TCB_Suspend" [Vint (tcb_cptr faulter)];;
  checked_call "seL4_TCB_Suspend" [Vint (tcb_cptr fault_handler)].

(** [start] is a local. *)
Definition run_fault_benchmark (start results : ptr) : proc unit :=
  fault_endpoint ← sys_alloc "vka_alloc_endpoint" [];
  done_ep ← sys_alloc "vka_alloc_endpoint" [];
  store_to start 0 0;;
  configure_thread fault_endpoint (seL4_MinPrio + 1) faulter;;
  let faulter_argv := [Vptr start; Vptr results; Vint done_ep] in
  configure_thread seL4_CapNull seL4_MinPrio fault_handler;;
  from_support (Process.configure_fpu no_flag fpu_disabled (tcb_cptr fault_handler) false);;
  let handler_argv :=
    [Vint fault_endpoint; Vptr start; Vptr results; Vint done_ep; Vint handler_reply] in
  let run faulter_fn handler_fn :=
    run_benchmark faulter_fn handler_fn faulter_argv handler_argv done_ep in
  run "measure_fault_fn" "measure_fault_handler_fn";;
  min ← min_overhead (at_ results "reply_recv_overhead") N_RUNS;
  set results "fault_ep_min_overhead" min;;
  run "measure_fault_fn" "measure_fault_handler_fn_ep";;
  run "measure_fault_reply_fn" "measure_fault_reply_handler_fn";;
  min ← min_overhead (at_ results "ccnt_overhead") N_RUNS;
  set results "fault_reply_ep_min_overhead" min;;
  run "measure_fault_reply_fn_ep" "measure_fault_reply_handler_fn";;
  run "measure_fault_roundtrip_fn" "measure_fault_roundtrip_handler_fn";;
  min ← min_overhead (at_ results "reply_recv_overhead") N_RUNS;
  set results "round_trip_ep_min_overhead" min;;
  run "measure_fault_roundtrip_fn_ep" "measure_fault_roundtrip_handler_fn".

Definition measure_overhead (results : ptr) : proc unit :=
  for_to N_RUNS (λ i,
    start ← SEL4BENCH_READ_CCNT;
    _ ← DO_NOP_REPLY_RECV_1 0 0;
    end_ ← SEL4BENCH_READ_CCNT;
    store_to (at_ results "reply_recv_overhead") i (end_ ⊟[ccnt_bits] start));;
  for_to N_RUNS (λ i,
    start ← SEL4BENCH_READ_CCNT;
    end_ ← SEL4BENCH_READ_CCNT;
    store_to (at_ results "ccnt_overhead") i (end_ ⊟[ccnt_bits] start)).

Definition main (rt : runtime) (start results : ptr) (argc : Z) : proc unit :=
  env ← get_env rt argc (sizeof fault_layout) 0;
  sys_do "sel4bench_init" [];;
  measure_overhead results;;
  run_fault_benchmark start results;;
  finished env 0.

End app.
