(* ===== verification/FaultProofs.v ===== *)
(** * FaultProofs: a fault and its handler

    The faulting thread and its handler of [apps/fault/src/main.c] under the
    scheduler of [Threads], on the kernels without MCS: every fault is answered
    with the address behind the faulting instruction, the two threads agree on
    the number of faults, and the results are the times from the reading
    before a fault to the handler's reading after it. *)

From S2P Require Import Prelude Platform Memory Program Collect Support Threads Measuring Reports.
From S2P Require Import FaultApp.

Import Reports.Fault.

Section fault.
Context `{Platform} `{FaultAbi} `{!Kernel}.
Import EarlyProc.

Context (ep done_ep : Z) (sb : positive) (ip : Z) (ph pl pm f2 f3 : Z).
Context (Hne : ep ≠ done_ep) (Hhl : pl < ph) (Hhm : ph < pm).

Notation start := (Ptr sb 0).

(** The parent waits for each of the two in turn. *)
Definition parent_fn : proc unit := wait_children done_ep 1;; wait_children done_ep 1.

Lemma parent_steps :
  parent_fn =
    Op (support (api_wait done_ep)) (λ label,
      from_support ((if negb (label =? 0) then perform (print_fault_message label);; Stop Abort
                     else mret tt);; mret tt);;
      Op (support (api_wait done_ep)) (λ label,
        from_support ((if negb (label =? 0) then perform (print_fault_message label);; Stop Abort
                       else mret tt);; mret tt))).
Proof. done. Qed.

(** The faulter stopped at its instruction, and the handler holding its fault. *)
Definition delivered_config (fc hc : proc unit) (objs : gmap Z object) (m : heap)
    (rs : list (nat * Z)) : config :=
  Config [Thread ph ep true None (perform (Fault ip);; fc); Thread pl f2 false (Some 0%nat) hc;
          Thread pm f3 true None parent_fn] objs m rs.
Definition delivered (objs : gmap Z object) : Prop :=
  objs !! ep = Some (Endpoint [] []) ∧ objs !! done_ep = Some (Endpoint [] [2%nat]).

(** The message of a fault. *)
Definition fault_message : message := Msg seL4_Fault_UserException [ip].

(** The reply restarts the faulter, which takes the time and faults again. *)
Lemma next_fault (Q : config → Prop) fc (hc : message → proc unit) objs m rs x :
  delivered objs → holds m sb [x] →
  (∀ objs m' s, delivered objs → holds m' sb [s] →
     (∀ b l, b ≠ sb → holds m b l → holds m' b l) →
     eventually Q (delivered_config fc (hc fault_message) objs m' (rs ++ [(0%nat, s)]))) →
  eventually Q (delivered_config
    (now ← SEL4BENCH_READ_CCNT; store_to start 0 now;; perform (Fault ip);; fc)
    (m ← perform (ReplyRecv ep (Msg 0 [skip_ud ip])); hc m) objs m rs).
Proof using Hne Hhl Hhm.
  intros (He & Hd) Hx HQ. unfold delivered_config, skip_ud.
  run 1%nat. run_as 0%nat s Hs.
  destruct (store_frame m sb [x] 0 0 s) as (m1 & E1 & Hx1 & Hf1); [done|simpl; lia|].
  run 0%nat. run 0%nat. apply HQ; [|done|done]. unfold delivered. by lookups.
Qed.

(** The handler's first fault: it arrives before the handler listens. *)
Lemma first_fault (Q : config → Prop) fc (hc : message → proc unit) objs m x :
  objs !! ep = Some (Endpoint [] []) → objs !! done_ep = Some (Endpoint [] []) → holds m sb [x] →
  (∀ objs m' s, delivered objs → holds m' sb [s] →
     (∀ b l, b ≠ sb → holds m b l → holds m' b l) →
     eventually Q (delivered_config fc (hc fault_message) objs m' [(0%nat, s)])) →
  eventually Q (Config
    [Thread ph ep false None
       (now ← SEL4BENCH_READ_CCNT; store_to start 0 now;; perform (Fault ip);; fc);
     Thread pl f2 false None (m ← perform (Recv ep); hc m);
     Thread pm f3 false None parent_fn] objs m []).
Proof using Hne Hhl Hhm.
  intros He Hd Hx HQ. unfold delivered_config in *. rewrite parent_steps in *.
  run 2%nat. run_as 0%nat s Hs.
  destruct (store_frame m sb [x] 0 0 s) as (m1 & E1 & Hx1 & Hf1); [done|simpl; lia|].
  run 0%nat. run 0%nat. run 1%nat. apply HQ; [|done|done]. unfold delivered. by lookups.
Qed.

(** After the last fault: the faulter reports, and then the handler. *)
Lemma both_finish (Q : config → Prop) objs m rs :
  delivered objs → (∀ c, returned 2 c → mem c = m → readings c = rs → Q c) →
  eventually Q (delivered_config (seL4_Send done_ep) (fault_handler_done ep ip done_ep) objs m rs).
Proof using Hne Hhl Hhm.
  intros (He & Hd) HQ. unfold delivered_config, fault_handler_done, skip_ud.
  rewrite parent_steps.
  run 1%nat. run 0%nat. run 2%nat. run 1%nat.
  apply eventually_now, HQ; [|done|done]. by eexists.
Qed.

(** ** Fault to handler *)
Section raw.
Context (rb : positive) (off : Z) (l : list Z) (Hsr : rb ≠ sb) (Hoff : 0 <= off).

Definition fault_body : proc unit :=
  now ← SEL4BENCH_READ_CCNT; store_to start 0 now;; fault_ ip.
Definition handler_body (i ip : Z) : proc Z :=
  ip ← DO_REAL_REPLY_RECV_1 ep (skip_ud ip);
  end_ ← SEL4BENCH_READ_CCNT; start_ ← load_from start 0;
  store_to (Ptr rb off) i (end_ ⊟[ccnt_bits] start_);; mret ip.

Definition handler_rest (i : Z) (k : Z → proc unit) (ip : Z) : proc unit :=
  end_ ← SEL4BENCH_READ_CCNT; start_ ← load_from start 0;
  store_to (Ptr rb off) i (end_ ⊟[ccnt_bits] start_);; k ip.

Lemma fault_body_step (L k : proc unit) :
  ((fault_body;; L);; k : proc unit) =
    (now ← SEL4BENCH_READ_CCNT; store_to start 0 now;; perform (Fault ip);; L;; k).
Proof. done. Qed.

Lemma handler_body_step i (L : Z → proc Z) (k : Z → proc unit) :
  ((handler_body i ip ≫= L) ≫= k : proc unit) =
    (m ← perform (ReplyRecv ep (Msg 0 [skip_ud ip]));
     ((ip ← first_register m;
       end_ ← SEL4BENCH_READ_CCNT; start_ ← load_from start 0;
       store_to (Ptr rb off) i (end_ ⊟[ccnt_bits] start_);; mret ip) ≫= L) ≫= k).
Proof. done. Qed.

Lemma fault_loop (Q : config → Prop) fk (hk : Z → proc unit) n s0 samples objs m x :
  delivered objs → holds m sb [x] →
  holds m rb (list_inserts (Z.to_nat off) (elapsed ccnt_bits samples) l) →
  off + Z.of_nat (length samples + n) <= Z.of_nat (length l) →
  (∀ objs m samples', delivered objs → length samples' = (length samples + n)%nat →
     holds m rb (list_inserts (Z.to_nat off) (elapsed ccnt_bits samples') l) →
     eventually Q (delivered_config fk (hk ip) objs m ((0%nat, s0) :: interleaved 0 1 samples'))) →
  eventually Q (delivered_config
    (loop (seqZ (Z.of_nat (length samples) + 1) (Z.of_nat n)) (λ _, fault_body);; fk)
    (loop_acc (seqZ (Z.of_nat (length samples)) (Z.of_nat n)) ip handler_body ≫= hk)
    objs m ((0%nat, s0) :: interleaved 0 1 samples)).
Proof using All.
  revert samples objs m x. induction n as [|n IH]; intros samples objs m x Hd Hx Hr Hlen HQ.
  { apply HQ; [done|lia|done]. }
  rewrite !(seqZ_succ_l _ (Z.of_nat (S n))) by lia. cbn [loop loop_acc].
  rewrite fault_body_step, handler_body_step.
  eapply next_fault; [done..|]. intros objs1 m1 s Hd1 Hx1 Hf1. unfold delivered_config.
  assert (E : load start 0 m1 = Ok s) by (by apply (load_holds _ _ [s])).
  run_as 1%nat e He. run 1%nat.
  destruct (store_frame m1 rb (list_inserts (Z.to_nat off) (elapsed ccnt_bits samples) l) off
    (Z.of_nat (length samples)) (e ⊟[ccnt_bits] s)) as (m2 & E2 & Hr2 & Hf2).
  { by apply Hf1. } { rewrite length_inserts. lia. }
  run 1%nat.
  replace (Z.to_nat (off + Z.of_nat (length samples)))
    with (Z.to_nat off + length (elapsed ccnt_bits samples))%nat in Hr2
    by (rewrite length_elapsed; lia).
  rewrite list_inserts_snoc, <-elapsed_snoc in Hr2.
  next_sample s e.
  eapply (IH _ _ _ s); [done|by apply Hf2|done|count_samples|].
  intros objs3 m3 samples' Hd3 Hl3 Hr3. apply HQ; [done| |done]. rewrite Hl3. count_samples.
Qed.
End raw.
End fault.

(** ** The functions of the sources *)
Section functions.
Context `{Platform} `{FaultAbi} `{!Kernel}.
Context (ep done_ep reply : Z) (sb rb : positive) (ip f2 f3 : Z) (Hne : ep ≠ done_ep).
Context (Hmcs : CONFIG_KERNEL_MCS = false) (HMin : seL4_MinPrio + 1 < seL4_MaxPrio).

(** The configuration [run_benchmark] makes of a faulter and a handler, with
    the priorities [run_fault_benchmark] gives them. *)
Definition fault_config (faulter handler : Z → list val → proc unit) (objs : gmap Z object) (m : heap)
  : config :=
  Config
    [Thread (seL4_MinPrio + 1) ep false None
       (faulter N_FAULTER_ARGS [Vptr (Ptr sb 0); Vptr (Ptr rb 0); Vint done_ep]);
     Thread seL4_MinPrio f2 false None
       (handler N_HANDLER_ARGS [Vint ep; Vptr (Ptr sb 0); Vptr (Ptr rb 0); Vint done_ep; Vint reply]);
     Thread seL4_MaxPrio f3 false None (parent_fn done_ep)] objs m [].

Lemma measure_fault_fn_loop :
  measure_fault_fn ip N_FAULTER_ARGS [Vptr (Ptr sb 0); Vptr (Ptr rb 0); Vint done_ep] =
    (loop (seqZ 0 (N_RUNS + 1)) (λ _, fault_body sb ip);; seL4_Send done_ep).
Proof. done. Qed.

Lemma measure_fault_handler_fn_loop :
  measure_fault_handler_fn N_HANDLER_ARGS
    [Vint ep; Vptr (Ptr sb 0); Vptr (Ptr rb 0); Vint done_ep; Vint reply] =
  (m ← perform (Recv ep);
   (ip ← first_register m;
    loop_acc (seqZ 0 N_RUNS) ip (handler_body ep sb rb 331) ≫= λ ip,
    fault_handler_done ep ip done_ep)).
Proof using Hmcs. unfold measure_fault_handler_fn, fault_handler_start. by rewrite Hmcs. Qed.

(** C26.  The fault benchmark terminates with the right samples, for every
    kernel without MCS and every schedule: the faulter's [N_RUNS + 1] faults
    are the first one the handler receives and the [N_RUNS] of its loop, each
    is answered with the address behind the undefined instruction (a thread
    restarted anywhere else would have no continuation), both threads report,
    and the parent's two waits return.  Each result is the time from the
    faulter's reading before one of the last [N_RUNS] faults to the handler's
    reading after it; the first fault is in no result. *)
Theorem fault_measured l x objs m :
  objs !! ep = Some (Endpoint [] []) → objs !! done_ep = Some (Endpoint [] []) →
  rb ≠ sb → holds m sb [x] → holds m rb l → struct_size fault_layout <= Z.of_nat (length l) →
  eventually
    (λ c, returned 2 c ∧ ∃ s0 samples, Z.of_nat (length samples) = N_RUNS ∧
       readings c = (0%nat, s0) :: interleaved 0 1 samples ∧
       holds (mem c) rb
         (list_inserts (Z.to_nat (p_off (field fault_layout (Ptr rb 0) "fault")))
            (elapsed ccnt_bits samples) l))
    (fault_config (measure_fault_fn ip) measure_fault_handler_fn objs m).
Proof using Hne Hmcs HMin.
  intros He Hd Hrb Hx Hr Hlen. change (struct_size fault_layout) with 565 in Hlen.
  change (p_off (field _ _ "fault")) with 331.
  assert (Hhl : seL4_MinPrio < seL4_MinPrio + 1) by lia.
  unfold fault_config. rewrite measure_fault_fn_loop, measure_fault_handler_fn_loop.
  rewrite (seqZ_succ_l 0 (N_RUNS + 1)) by done. cbn [loop]. rewrite fault_body_step.
  eapply (first_fault ep done_ep sb ip _ _ _ f2 f3 Hne Hhl HMin); [done..|].
  intros objs1 m1 s0 Hd1 Hx1 Hf1.
  apply (fault_loop ep done_ep sb ip _ _ _ f2 f3 Hne Hhl HMin rb 331 l Hrb ltac:(done) _ _ _
    110 s0 [] objs1 m1 s0); [done|done|by apply Hf1|simpl; lia|].
  intros objs2 m2 samples Hd2 Hl2 Hr2.
  eapply (both_finish ep done_ep ip _ _ _ f2 f3 Hne Hhl HMin); [done|].
  intros c Hret -> ->. split; [done|]. exists s0, samples. split; [|done]. by rewrite Hl2.
Qed.
End functions.

Lemma fault_measured_witness :
  @eventually x86_64 example_abi (example_kernel x86_64)
    (λ c, returned 2 c ∧ ∃ s0 samples, Z.of_nat (length samples) = N_RUNS ∧
       readings c = (0%nat, s0) :: interleaved 0 1 samples ∧
       holds (mem c) 2 (list_inserts (Z.to_nat (p_off (field fault_layout (Ptr 2 0) "fault"))) (elapsed 64 samples) (replicate 600 7)))
    (@fault_config x86_64 12 13 0 1 2 0 0 (measure_fault_fn 0x401000)
       (@measure_fault_handler_fn x86_64 example_abi) example_objects example_heap).
Proof.
  apply (@fault_measured x86_64 example_abi (example_kernel x86_64) 12 13 0 1 2 0x401000 0 0
    ltac:(done) ltac:(done) ltac:(done) (replicate 600 7) 0); by vm_compute.
Defined.
