(* ===== verification/SyncApp.v ===== *)
(** * SyncApp: the synchronisation benchmark

    [apps/sync/src/main.c]: the waiters and the broadcaster on a condition
    variable, the producer and the consumer of a one-element queue, and the
    set-up around them.  A lock or condition variable is the address the
    threads are given; the primitives on them are libsel4sync's.  The fuel
    bounds how often a thread checks the condition it waits for. *)

From S2P Require Import Prelude Platform Memory Program Collect Support Threads Measuring Reports.

Import Reports.Sync.

Section app.
Context `{Platform}.
Import EarlyProc.

Definition N_WAIT_ARGS : Z := 7.
Definition N_BROADCAST_ARGS : Z := 7.
Definition N_PRODUCER_CONSUMER_ARGS : Z := 9.
Definition FIFO_SIZE : Z := 1.

(** [struct sync_results], in [ccnt_t]. *)
Definition sync_layout : layout :=
  [("broadcast_wait_time", N_BROADCAST_BENCHMARKS * N_WAITERS * N_RUNS);
   ("broadcast_broadcast_time", N_BROADCAST_BENCHMARKS * N_RUNS);
   ("producer_to_consumer", N_PROD_CONS_BENCHMARKS * N_RUNS);
   ("consumer_to_producer", N_PROD_CONS_BENCHMARKS * N_RUNS);
   ("producer_to_consumer_ep_sum", 1); ("producer_to_consumer_ep_sum2", 1);
   ("producer_to_consumer_ep_num", 1);
   ("consumer_to_producer_ep_sum", 1); ("consumer_to_producer_ep_sum2", 1);
   ("consumer_to_producer_ep_num", 1)]%string.
Notation at_ := (field sync_layout).

Definition abort (env : Env.env_t) : proc unit := finished env 1.

Definition sync_bin_sem_wait (lock : Z) : proc unit := perform (BinSemWait lock).
Definition sync_bin_sem_post (lock : Z) : proc unit := perform (BinSemPost lock).
Definition sync_cv_wait (lock cv : Z) : proc unit := perform (CvWait lock cv).
Definition sync_cv_signal (cv : Z) : proc unit := perform (CvSignal cv).
Definition sync_cv_broadcast (cv : Z) : proc unit := perform (CvBroadcast cv).

(** ** Broadcast *)

(** [SYNC_GET_ARGUMENTS] *)
Record sync_arguments := Arguments {
  done_ep : Z; block_ep : Z; lock : Z; cv : Z; shared : ptr; start : ptr; result : ptr }.
Definition SYNC_GET_ARGUMENTS (argv : list val) : proc sync_arguments :=
  done_ep ← word_arg argv 0;
  block_ep ← word_arg argv 1;
  lock ← word_arg argv 2;
  cv ← word_arg argv 3;
  shared ← ptr_arg argv 4;
  start ← ptr_arg argv 5;
  result ← ptr_arg argv 6;
  mret (Arguments done_ep block_ep lock cv shared start result).

Definition SYNC_WAITER_FUNC (wait_fn : Z → Z → proc unit) (fuel : nat) (argv : list val) : proc unit :=
  a ← SYNC_GET_ARGUMENTS argv;
  sync_bin_sem_wait (lock a);;
  while_do fuel (x ← load_from (shared a) 0; mret (x =? 0)) (wait_fn (lock a) (cv a));;
  end_ ← SEL4BENCH_READ_CCNT;
  s ← load_from (start a) 0;
  store_to (result a) 0 (end_ ⊟[ccnt_bits] s);;
  sync_bin_sem_post (lock a);;
  seL4_Yield;;
  seL4_Send (done_ep a);;
  seL4_Wait (block_ep a).

Definition waiter_func0 : nat → list val → proc unit := SYNC_WAITER_FUNC sync_cv_wait.
Definition bench_waiter_funcs : list string := ["waiter_func0"%string].

Definition SYNC_BROADCAST_FUNC (broadcast_fn post_fn : Z → proc unit) (argv : list val) : proc unit :=
  a ← SYNC_GET_ARGUMENTS argv;
  sync_bin_sem_wait (lock a);;
  store_to (shared a) 0 N_WAITERS;;
  now ← SEL4BENCH_READ_CCNT;
  store_to (start a) 0 now;;
  broadcast_fn (cv a);;
  end_ ← SEL4BENCH_READ_CCNT;
  s ← load_from (start a) 0;
  store_to (result a) 0 (end_ ⊟[ccnt_bits] s);;
  post_fn (lock a);;
  seL4_Send (done_ep a);;
  seL4_Wait (block_ep a).

Definition broadcast_func0 : list val → proc unit :=
  SYNC_BROADCAST_FUNC sync_cv_broadcast sync_bin_sem_post.
Definition bench_broadcast_funcs : list string := ["broadcast_func0"%string].

(** [functions[j]], as the entry point of a thread. *)
Definition entry (functions : list string) (j : Z) : proc string :=
  match functions !! Z.to_nat j with Some f => mret f | None => Stop Undefined end.

(** One run: the error of each waiter's start replaces the one before. *)
Definition broadcast_run (waiters : list helper) (broadcaster : helper) (shared start : ptr)
    (ep block_ep lock cv : Z) (results : ptr) (j run : Z) : proc unit :=
  store_to shared 0 0;;
  error ← loop_acc (zip (seqZ 0 N_WAITERS) waiters) 0 (λ iw _,
    fn ← entry bench_waiter_funcs j;
    start_thread iw.2 fn N_WAIT_ARGS
      [Vint ep; Vint block_ep; Vint lock; Vint cv; Vptr shared; Vptr start;
       Vptr (ptr_add (at_ results "broadcast_wait_time")
               (j * (N_WAITERS * N_RUNS) + iw.1 * N_RUNS + run))] true);
  assert_that (error =? 0);;
  fn ← entry bench_broadcast_funcs j;
  error ← start_thread broadcaster fn N_BROADCAST_ARGS
    [Vint ep; Vint block_ep; Vint lock; Vint cv; Vptr shared; Vptr start;
     Vptr (ptr_add (at_ results "broadcast_broadcast_time") (j * N_RUNS + run))] true;
  assert_that (error =? 0);;
  wait_children ep (N_WAITERS + 1).

Definition benchmark_broadcast (waiters : list helper) (broadcaster : helper) (shared start : ptr)
    (ep block_ep lock cv : Z) (results : ptr) : proc unit :=
  loop waiters (configure_thread 0 seL4_MaxPrio);;
  configure_thread 0 (seL4_MaxPrio - 1) broadcaster;;
  for_to N_BROADCAST_BENCHMARKS (λ j,
    for_to N_RUNS (broadcast_run waiters broadcaster shared start ep block_ep lock cv results j));;
  _ ← TCB_Suspend (tcb_cptr broadcaster);
  loop waiters (λ w, _ ← TCB_Suspend (tcb_cptr w); mret tt).

(** ** Producer and consumer *)

(** What an [int] holds after [v] is assigned to it: overflow is undefined. *)
Definition store_int (p : ptr) (v : Z) : proc unit :=
  if decide (- 2 ^ (int_bits - 1) <= v < 2 ^ (int_bits - 1)) then store_to p 0 v else Stop Undefined.
(** [( *fifo_head)++], [( *fifo_head)--] *)
Definition increment (p : ptr) : proc unit := x ← load_from p 0; store_int p (x + 1).
Definition decrement (p : ptr) : proc unit := x ← load_from p 0; store_int p (x - 1).
(** [*fifo_head == n] *)
Definition head_is (n : Z) (fifo_head : ptr) : proc bool := x ← load_from fifo_head 0; mret (x =? n).

Definition SYNC_PRODUCER_CONSUMER_FUNC (condition : ptr → proc bool) (wait_func : Z → Z → proc unit)
    (work : ptr → proc unit) (fuel : nat) (argv : list val) : proc unit :=
  done_ep ← word_arg argv 0;
  block_ep ← word_arg argv 1;
  lock ← word_arg argv 2;
  wait_cv ← word_arg argv 3;
  signal_cv ← word_arg argv 4;
  fifo_head ← ptr_arg argv 5;
  start ← ptr_arg argv 6;
  signal ← ptr_arg argv 7;
  result ← ptr_arg argv 8;
  for_to N_RUNS (λ i,
    sync_bin_sem_wait lock;;
    while_do fuel (condition fifo_head) (wait_func lock wait_cv);;
    end_ ← SEL4BENCH_READ_CCNT;
    s ← load_from start 0;
    store_to result i (end_ ⊟[ccnt_bits] s);;
    work fifo_head;;
    now ← SEL4BENCH_READ_CCNT;
    store_to signal 0 now;;
    sync_cv_signal signal_cv;;
    sync_bin_sem_post lock);;
  seL4_Send done_ep;;
  seL4_Wait block_ep.

Definition consumer_func0 : nat → list val → proc unit :=
  SYNC_PRODUCER_CONSUMER_FUNC (head_is 0) sync_cv_wait decrement.
Definition producer_func0 : nat → list val → proc unit :=
  SYNC_PRODUCER_CONSUMER_FUNC (head_is FIFO_SIZE) sync_cv_wait increment.
Definition bench_consumer_funcs : list string := ["consumer_func0"%string].
Definition bench_producer_funcs : list string := ["producer_func0"%string].

(** The words of the two threads' arguments. *)
Definition producer_args (ep block_ep lock producer_cv consumer_cv : Z)
    (fifo_head producer_signal consumer_signal result : ptr) : list val :=
  [Vint ep; Vint block_ep; Vint lock; Vint consumer_cv; Vint producer_cv; Vptr fifo_head;
   Vptr producer_signal; Vptr consumer_signal; Vptr result].
Definition consumer_args (ep block_ep lock producer_cv consumer_cv : Z)
    (fifo_head producer_signal consumer_signal result : ptr) : list val :=
  [Vint ep; Vint block_ep; Vint lock; Vint producer_cv; Vint consumer_cv; Vptr fifo_head;
   Vptr consumer_signal; Vptr producer_signal; Vptr result].

Definition benchmark_producer_consumer (producer consumer : helper)
    (fifo_head producer_signal consumer_signal : ptr)
    (ep block_ep lock producer_cv consumer_cv : Z) (results : ptr) : proc unit :=
  configure_thread 0 seL4_MaxPrio producer;;
  configure_thread 0 seL4_MaxPrio consumer;;
  for_to N_PROD_CONS_BENCHMARKS (λ j,
    store_to fifo_head 0 0;;
    fn ← entry bench_producer_funcs j;
    error ← start_thread producer fn N_PRODUCER_CONSUMER_ARGS
      (producer_args ep block_ep lock producer_cv consumer_cv fifo_head producer_signal
         consumer_signal (ptr_add (at_ results "consumer_to_producer") (j * N_RUNS))) true;
    assert_that (error =? 0);;
    fn ← entry bench_consumer_funcs j;
    error ← start_thread consumer fn N_PRODUCER_CONSUMER_ARGS
      (consumer_args ep block_ep lock producer_cv consumer_cv fifo_head producer_signal
         consumer_signal (ptr_add (at_ results "producer_to_consumer") (j * N_RUNS))) true;
    assert_that (error =? 0);;
    wait_children ep 2);;
  _ ← TCB_Suspend (tcb_cptr producer);
  _ ← TCB_Suspend (tcb_cptr consumer);
  mret tt.

(** [direction##_ep_sum] and the like *)
Definition SYNC_PRODUCER_CONSUMER_FUNC_EP (condition : ptr → proc bool)
    (wait_func : Z → Z → proc unit) (work : ptr → proc unit) (direction : string) (fuel : nat)
    (argv : list val) : proc unit :=
  done_ep ← word_arg argv 0;
  block_ep ← word_arg argv 1;
  lock ← word_arg argv 2;
  wait_cv ← word_arg argv 3;
  signal_cv ← word_arg argv 4;
  fifo_head ← ptr_arg argv 5;
  start ← ptr_arg argv 6;
  signal ← ptr_arg argv 7;
  results ← ptr_arg argv 8;
  sums ← loop_acc (seqZ 0 N_RUNS) (mkSums 0 0) (λ i p,
    sync_bin_sem_wait lock;;
    while_do fuel (condition fifo_head) (wait_func lock wait_cv);;
    end_ ← SEL4BENCH_READ_CCNT;
    s ← load_from start 0;
    let p := DATACOLLECT_GET_SUMS ccnt_bits i N_IGNORED s end_ 0 p in
    work fifo_head;;
    now ← SEL4BENCH_READ_CCNT;
    store_to signal 0 now;;
    sync_cv_signal signal_cv;;
    sync_bin_sem_post lock;;
    mret p);
  set_field sync_layout results (direction ++ "_ep_sum") (par_sum sums);;
  set_field sync_layout results (direction ++ "_ep_sum2") (par_sum2 sums);;
  set_field sync_layout results (direction ++ "_ep_num") (N_RUNS - N_IGNORED);;
  seL4_Send done_ep;;
  seL4_Wait block_ep.

Definition consumer_func_ep : nat → list val → proc unit :=
  SYNC_PRODUCER_CONSUMER_FUNC_EP (head_is 0) sync_cv_wait decrement "producer_to_consumer".
Definition producer_func_ep : nat → list val → proc unit :=
  SYNC_PRODUCER_CONSUMER_FUNC_EP (head_is FIFO_SIZE) sync_cv_wait increment "consumer_to_producer".

Definition benchmark_producer_consumer_ep (producer consumer : helper)
    (fifo_head producer_signal consumer_signal : ptr)
    (ep block_ep lock producer_cv consumer_cv : Z) (results : ptr) : proc unit :=
  configure_thread 0 seL4_MaxPrio producer;;
  configure_thread 0 seL4_MaxPrio consumer;;
  store_to fifo_head 0 0;;
  error ← start_thread producer "producer_func_ep" N_PRODUCER_CONSUMER_ARGS
    (producer_args ep block_ep lock producer_cv consumer_cv fifo_head producer_signal
       consumer_signal results) true;
  assert_that (error =? 0);;
  error ← start_thread consumer "consumer_func_ep" N_PRODUCER_CONSUMER_ARGS
    (consumer_args ep block_ep lock producer_cv consumer_cv fifo_head producer_signal
       consumer_signal results) true;
  assert_that (error =? 0);;
  wait_children ep 2;;
  _ ← TCB_Suspend (tcb_cptr producer);
  _ ← TCB_Suspend (tcb_cptr consumer);
  mret tt.

(** ** main *)

(** The addresses of the objects on the stacks of [main] and of the functions
    it calls. *)
Record locals := Locals {
  waiters : list helper; broadcaster : helper; producer : helper; consumer : helper;
  shared_ : ptr; start_ : ptr; fifo_head : ptr; producer_signal : ptr; consumer_signal : ptr;
  lock_ : Z; cv_ : Z; producer_cv : Z; consumer_cv : Z;
}.

Definition main (rt : runtime) (l : locals) (results : ptr) (argc : Z) : proc unit :=
  env ← get_env rt argc (sizeof sync_layout) 5;
  sys_do "sel4bench_init" [];;
  done_ep ← sys_alloc "vka_alloc_endpoint" [];
  block_ep ← sys_alloc "vka_alloc_endpoint" [];
  sys_checked "sync_bin_sem_new" [Vint (lock_ l); Vint 1];;
  sys_checked "sync_cv_new" [Vint (cv_ l)];;
  benchmark_broadcast (waiters l) (broadcaster l) (shared_ l) (start_ l) done_ep block_ep (lock_ l)
    (cv_ l) results;;
  sys_do "sync_cv_destroy" [Vint (cv_ l)];;
  sys_do "sync_bin_sem_destroy" [Vint (lock_ l)];;
  sys_checked "sync_bin_sem_new" [Vint (lock_ l); Vint 1];;
  sys_checked "sync_cv_new" [Vint (producer_cv l)];;
  sys_checked "sync_cv_new" [Vint (consumer_cv l)];;
  benchmark_producer_consumer (producer l) (consumer l) (fifo_head l) (producer_signal l)
    (consumer_signal l) done_ep block_ep (lock_ l) (producer_cv l) (consumer_cv l) results;;
  benchmark_producer_consumer_ep (producer l) (consumer l) (fifo_head l) (producer_signal l)
    (consumer_signal l) done_ep block_ep (lock_ l) (producer_cv l) (consumer_cv l) results;;
  sys_do "sync_cv_destroy" [Vint (producer_cv l)];;
  sys_do "sync_cv_destroy" [Vint (consumer_cv l)];;
  sys_do "sync_bin_sem_destroy" [Vint (lock_ l)];;
  sys_do "vka_free_object" [Vint done_ep];;
  sys_do "vka_free_object" [Vint block_ep];;
  finished env 0.

End app.
