(* ===== verification/SyncProofs.v ===== *)
(** * SyncProofs: the producer and the consumer

    [producer_func0] and [consumer_func0] of [apps/sync/src/main.c] beside the
    parent, at any priorities and under any schedule.  Every reachable
    configuration is described by the stage each of the two threads is in
    ([coherent], [objs_ok], [data_ok]); each step keeps that description and
    decreases a measure, so the benchmark ends. *)

From S2P Require Import Prelude Platform Memory Program Collect Support Threads Measuring Reports.
From S2P Require Import SyncApp.
From Stdlib Require Import Zify ZifyNat.

Import Reports.Sync.

#[local] Ltac Zify.zify_post_hook ::= Z.div_mod_to_equations.

(** ** The two sides *)
Inductive side := Producer | Consumer.

#[export] Instance side_eq_dec : EqDecision side.
Proof. solve_decision. Defined.

Definition other (s : side) : side := match s with Producer => Consumer | Consumer => Producer end.
Definition tid (s : side) : nat := match s with Producer => 0 | Consumer => 1 end.

Lemma tid_other s : tid (other s) = (1 - tid s)%nat.
Proof. by destruct s. Qed.
Lemma other_ne s : other s ≠ s.
Proof. by destruct s. Qed.

(** The value of [*fifo_head] that a side waits to change: a full and an empty
    queue. *)
Definition limit (s : side) : Z := match s with Producer => FIFO_SIZE | Consumer => 0 end.

(** ** The items so far

    Each finished turn is a pair of readings, at its start and at its signal;
    the producer and the consumer take turns, and the producer begins. *)

Definition runs : nat := Z.to_nat N_RUNS.

(** How many of [n] turns are those of [s], and whose turn it is then. *)
Definition turns (s : side) (n : nat) : nat := ((n + 1 - tid s) / 2)%nat.
Definition on_turn (s : side) (n : nat) : Prop := (n mod 2 = tid s)%nat.

#[export] Instance on_turn_dec s n : Decision (on_turn s n).
Proof. unfold on_turn. apply _. Defined.

(** What the kernel's counter has been read for. *)
Fixpoint turn_log (s : side) (h : list (Z * Z)) : list (nat * Z) :=
  match h with
  | [] => []
  | (e, v) :: h => (tid s, e) :: (tid s, v) :: turn_log (other s) h
  end.

(** The samples: from the signal before a turn (at first the value [g]) to its
    start. *)
Fixpoint waits (w g : Z) (h : list (Z * Z)) : list Z :=
  match h with
  | [] => []
  | (e, v) :: h => (e ⊟[w] g) :: waits w v h
  end.
Definition last_signal (g : Z) (h : list (Z * Z)) : Z := from_option snd g (list.last h).

Lemma turn_log_snoc s t h e v :
  on_turn t (length h + tid s) → turn_log s (h ++ [(e, v)]) = turn_log s h ++ [(tid t, e); (tid t, v)].
Proof.
  revert s. induction h as [|[e0 v0] h IH]; intros s Ht.
  - by destruct s, t.
  - cbn [app turn_log]. rewrite IH; [done|]. rewrite tid_other. unfold on_turn in *. cbn [length] in Ht.
    destruct s, t; cbn [tid] in *; lia.
Qed.

Lemma waits_snoc w g h e v : waits w g (h ++ [(e, v)]) = waits w g h ++ [e ⊟[w] last_signal g h].
Proof.
  revert g. induction h as [|[e0 v0] h IH]; intros g; [done|]. simpl. rewrite IH. simpl.
  do 4 f_equal. unfold last_signal. rewrite list.last_cons. by destruct (list.last h).
Qed.

Lemma last_signal_snoc g h e v : last_signal g (h ++ [(e, v)]) = v.
Proof. unfold last_signal. by rewrite list.last_snoc. Qed.

Lemma length_waits w g h : length (waits w g h) = length h.
Proof. revert g. induction h as [|[e v] h IH]; intros g; simpl; [done|by rewrite IH]. Qed.

(** ** Stages of a side *)

(** [f] counts the checks of the condition that are left, [e] is the reading
    of the turn and [v] the one at its signal. *)
Inductive stage :=
  | Locking (f : nat) | Queued (f : nat) | Checking (f : nat) | Leaving (f : nat) | Sleeping (f : nat)
  | Turn0 | Turn1 (e : Z) | Turn2 (e d : Z) | Turn3 (e : Z) | Turn4 (e : Z) | Turn5 (e : Z)
  | Signal6 (v : Z) | Signal7 | Posting
  | Telling | Told | Ending | Ended.

Definition holding (x : stage) : bool :=
  match x with
  | Checking _ | Leaving _ | Turn0 | Turn1 _ | Turn2 _ _ | Turn3 _ | Turn4 _ | Turn5 _
  | Signal6 _ | Signal7 | Posting => true
  | _ => false
  end.
Definition queued (x : stage) : bool := match x with Queued _ => true | _ => false end.
Definition sleeping (x : stage) : bool := match x with Sleeping _ => true | _ => false end.
Definition telling (x : stage) : bool := match x with Told => true | _ => false end.
Definition told (x : stage) : bool := match x with Ending | Ended => true | _ => false end.
(** The turn is over, the other side not woken yet. *)
Definition signalling (x : stage) : bool := match x with Signal6 _ | Signal7 => true | _ => false end.
Definition stops (x : stage) : bool :=
  match x with Queued _ | Sleeping _ | Told | Ended => true | _ => false end.

(** A side in its [i]-th turn. *)
Notation sstate := (nat * stage)%type.
Notation sides := (side → sstate).
Definition upd (st : sides) (s : side) (x : sstate) : sides :=
  λ t, match s, t with Producer, Producer | Consumer, Consumer => x | _, _ => st t end.

Lemma upd_eq st s x t : upd st s x t = if decide (t = s) then x else st t.
Proof. by destruct s, t. Qed.

Lemma upd_same st s x : upd st s x s = x.
Proof. by destruct s. Qed.
Lemma upd_other st s x : upd st s x (other s) = st (other s).
Proof. by destruct s. Qed.

(** ** Coherence of the stages after [n] turns *)

Definition stage_ok (s : side) (x y : sstate) (n : nat) : Prop :=
  let i := x.1 in
  match x.2 with
  | Locking f | Queued f | Checking f =>
      i = turns s n ∧ (i < runs)%nat ∧ (1 <= f)%nat ∧ (on_turn s n ∨ (2 <= f)%nat)
  | Leaving f => i = turns s n ∧ (i < runs)%nat ∧ (1 <= f)%nat ∧ ¬ on_turn s n
  | Sleeping f => i = turns s n ∧ (i < runs)%nat ∧ (1 <= f)%nat ∧ (¬ on_turn s n ∨ signalling y.2 = true)
  | Turn0 | Turn1 _ | Turn2 _ _ | Turn3 _ | Turn4 _ | Turn5 _ =>
      i = turns s n ∧ (i < runs)%nat ∧ on_turn s n
  | Signal6 _ | Signal7 | Posting => S i = turns s n ∧ (i < runs)%nat ∧ ¬ on_turn s n
  | Telling | Told | Ending | Ended => turns s n = runs
  end.

Definition coherent (s : side) (x y : sstate) (n : nat) : Prop :=
  stage_ok s x y n ∧ stage_ok (other s) y x n ∧
  (holding x.2 = true → holding y.2 = false) ∧
  (queued x.2 = true → holding y.2 = true) ∧ (queued y.2 = true → holding x.2 = true).

Lemma other_other s : other (other s) = s.
Proof. by destruct s. Qed.

Lemma coherent_sym s x y n : coherent s x y n → coherent (other s) y x n.
Proof.
  intros (Hx & Hy & Hh & Hqx & Hqy). unfold coherent. rewrite other_other.
  repeat split; try done. intros Hy'. by destruct (holding x.2); [rewrite Hh in Hy'|].
Qed.

(** One more turn of [s]. *)
Lemma turns_step s n :
  on_turn s n →
  turns s (S n) = S (turns s n) ∧ turns (other s) (S n) = turns (other s) n ∧
  on_turn (other s) (S n) ∧ ¬ on_turn s (S n) ∧ ¬ on_turn (other s) n.
Proof. unfold turns, on_turn. rewrite tid_other. destruct s; cbn [tid]; lia. Qed.

Lemma on_turn_other s n : on_turn (other s) n ↔ ¬ on_turn s n.
Proof. unfold on_turn. rewrite tid_other. destruct s; cbn [tid]; lia. Qed.

(** The other side does not lag behind when it is not its turn. *)
Lemma turns_balance s n : on_turn s n → (turns s n <= turns (other s) n)%nat.
Proof. unfold turns, on_turn. rewrite tid_other. destruct s; cbn [tid]; lia. Qed.
Lemma turns_close s n : (turns (other s) n <= S (turns s n))%nat.
Proof. unfold turns. rewrite tid_other. destruct s; cbn [tid]; lia. Qed.

(** ** The configurations of a run *)
Section run.
#[local] Set Default Proof Using "All".
Context `{Platform} `{FaultAbi} `{!Kernel}.
Context (fuel : nat) (Hfuel : (2 <= fuel)%nat).
(** Priorities and fault endpoints of the sides and of the parent. *)
Context (pr fe : side → Z) (pp pf : Z).
Context (lock pcv ccv ep blk : Z) (Haddr : NoDup [lock; pcv; ccv; ep; blk]).
Context (hb pb cb rb : positive) (Hblocks : NoDup [hb; pb; cb; rb]).
Context (poff coff : Z) (Hpoff : 0 <= poff) (Hcoff : 0 <= coff)
  (Hdisjoint : poff + N_RUNS <= coff ∨ coff + N_RUNS <= poff).

Definition wait_cv (s : side) : Z := match s with Producer => ccv | Consumer => pcv end.
(** The variable a side's start is taken from. *)
Definition start_block (s : side) : positive := match s with Producer => pb | Consumer => cb end.
Definition offset (s : side) : Z := match s with Producer => poff | Consumer => coff end.
Definition work (s : side) : ptr → proc unit :=
  match s with Producer => increment | Consumer => decrement end.

(** *** Their code *)

Notation head := (Ptr hb 0).
Notation start s := (Ptr (start_block s) 0).

Definition turn_body (s : side) (i : Z) : proc unit :=
  sync_bin_sem_wait lock;;
  while_do fuel (head_is (limit s) head) (sync_cv_wait lock (wait_cv s));;
  end_ ← SEL4BENCH_READ_CCNT;
  b ← load_from (start s) 0;
  store_to (Ptr rb (offset s)) i (end_ ⊟[ccnt_bits] b);;
  work s head;;
  now ← SEL4BENCH_READ_CCNT;
  store_to (start (other s)) 0 now;;
  sync_cv_signal (wait_cv (other s));;
  sync_bin_sem_post lock.

Definition finish : proc unit := seL4_Send ep;; seL4_Wait blk.
Definition turns_from (s : side) (i : Z) : proc unit := loop (seqZ i (N_RUNS - i)) (turn_body s).
Definition iter (s : side) (i : nat) : proc unit := turns_from s (Z.of_nat i);; finish.

(** The code at each stage of a turn, from its end. *)
Definition posting s i : proc unit := Op (BinSemPost lock) (λ _, turns_from s (Z.of_nat i + 1);; finish).
Definition signal7 s i : proc unit := Op (CvSignal (wait_cv (other s))) (λ _, posting s i).
Definition signal6 s i v : proc unit := Op (Store (start (other s)) 0 v) (λ _, signal7 s i).
Definition turn5 s i : proc unit := Op ReadCcnt (signal6 s i).
Definition turn4 s i x : proc unit := Op (Store head 0 x) (λ _, turn5 s i).
Definition turn3 s i : proc unit :=
  ((work s head;;
    now ← SEL4BENCH_READ_CCNT;
    store_to (start (other s)) 0 now;;
    sync_cv_signal (wait_cv (other s));;
    sync_bin_sem_post lock);;
   turns_from s (Z.of_nat i + 1));; finish.
Definition turn2 s i d : proc unit :=
  Op (Store (Ptr rb (offset s)) (Z.of_nat i) d) (λ _, turn3 s i).
Definition turn1 s i e : proc unit := Op (Load (start s) 0) (λ b, turn2 s i (e ⊟[ccnt_bits] b)).
Definition turn0 s i : proc unit := Op ReadCcnt (turn1 s i).
Definition checking (s : side) (i f : nat) : proc unit :=
  ((while_do f (head_is (limit s) head) (sync_cv_wait lock (wait_cv s));;
    end_ ← SEL4BENCH_READ_CCNT;
    b ← load_from (start s) 0;
    store_to (Ptr rb (offset s)) (Z.of_nat i) (end_ ⊟[ccnt_bits] b);;
    work s head;;
    now ← SEL4BENCH_READ_CCNT;
    store_to (start (other s)) 0 now;;
    sync_cv_signal (wait_cv (other s));;
    sync_bin_sem_post lock);;
   turns_from s (Z.of_nat i + 1));; finish.

Definition code_at (s : side) (x : sstate) : proc unit :=
  let i := x.1 in
  match x.2 with
  | Locking f | Queued f => Op (BinSemWait lock) (λ _, checking s i f)
  | Checking f => checking s i f
  | Leaving f | Sleeping f => Op (CvWait lock (wait_cv s)) (λ _, checking s i f)
  | Turn0 => turn0 s i
  | Turn1 e => turn1 s i e
  | Turn2 _ d => turn2 s i d
  | Turn3 _ => turn3 s i
  | Turn4 _ => turn4 s i (limit s)
  | Turn5 _ => turn5 s i
  | Signal6 v => signal6 s i v
  | Signal7 => signal7 s i
  | Posting => posting s i
  | Telling | Told => finish
  | Ending | Ended => seL4_Wait blk
  end.

Lemma turns_from_step s i :
  0 <= i < N_RUNS → turns_from s i = (turn_body s i;; turns_from s (i + 1)).
Proof.
  intros Hi. unfold turns_from. rewrite (seqZ_succ_l i) by lia. cbn [loop].
  by replace (N_RUNS - i - 1) with (N_RUNS - (i + 1)) by lia.
Qed.

(** A turn begins at the lock; the last one is followed by the report. *)
Lemma iter_locking s i : (i < runs)%nat → iter s i = code_at s (i, Locking fuel).
Proof. intros Hi. unfold iter. rewrite turns_from_step; [by destruct s|unfold runs in Hi; lia]. Qed.
Lemma iter_telling s : iter s runs = code_at s (runs, Telling).
Proof. unfold iter, runs, turns_from. rewrite Z2Nat.id by done. by rewrite Z.sub_diag. Qed.

(** Checking the condition. *)
Lemma checking_load s i f :
  ∃ k, checking s i (S f) = Op (Load head 0) k ∧
    ∀ x, k x = code_at s (i, if x =? limit s then Leaving f else Turn0).
Proof.
  eexists. split; [reflexivity|]. intros x.
  destruct s; cbn -[limit Z.eqb]; by destruct (x =? limit _).
Qed.

(** The work on the queue, when it is the side's turn. *)
Lemma turn3_load s i :
  ∃ k, turn3 s i = Op (Load head 0) k ∧ k (limit (other s)) = turn4 s i (limit s).
Proof. destruct s; (eexists; split; [reflexivity|done]). Qed.

(** *** The threads *)

Definition thread_of (s : side) (x : sstate) : thread :=
  Thread (pr s) (fe s) (stops x.2) None (code_at s x).

(** The parent: how many reports it has, and whether it is blocked. *)
Definition parent_code (got : nat) : proc unit :=
  match got with O => wait_children ep 2 | S O => wait_last_child ep | _ => Ret tt end.
Definition parent_of (r : nat * bool) : thread := Thread pp pf r.2 None (parent_code r.1).

Definition threads_of (st : sides) (r : nat * bool) : list thread :=
  [thread_of Producer (st Producer); thread_of Consumer (st Consumer); parent_of r].

Lemma threads_lookup st r s : threads_of st r !! tid s = Some (thread_of s (st s)).
Proof. by destruct s. Qed.

(** A step of [f] on a side. *)
Lemma on_side s f x st r objs m rs :
  f (thread_of s (st s)) = thread_of s x →
  on_thread (tid s) f (Config (threads_of st r) objs m rs) =
    Some (Config (threads_of (upd st s x) r) objs m rs).
Proof. intros Hf. unfold on_thread. by destruct s; cbn; rewrite Hf. Qed.

Lemma on_parent f r' st r objs m rs :
  f (parent_of r) = parent_of r' →
  on_thread 2 f (Config (threads_of st r) objs m rs) = Some (Config (threads_of st r') objs m rs).
Proof. intros Hf. unfold on_thread. cbn. by rewrite Hf. Qed.

Lemma next_side s v st r objs m rs X (e : sys X) k :
  code_at s (st s) = Op e k →
  next (tid s) v (Config (threads_of st r) objs m rs) =
    perform_op (tid s) v (Config (threads_of st r) objs m rs) e k.
Proof. intros Hc. unfold next. cbn [threads]. rewrite threads_lookup. cbn. by rewrite Hc. Qed.

(** *** The objects *)

Definition ids (p : stage → bool) (st : sides) : list nat :=
  (if p (st Producer).2 then [0%nat] else []) ++ (if p (st Consumer).2 then [1%nat] else []).

Record objs_ok (st : sides) (r : nat * bool) (objs : gmap Z object) : Prop := {
  lock_ok : objs !! lock =
    Some (BinSem (negb (holding (st Producer).2 || holding (st Consumer).2)) (ids queued st));
  cv_ok : ∀ s, objs !! wait_cv s =
    Some (CondVar (if sleeping (st s).2 then [tid s] else []));
  ep_ok : ∃ q, objs !! ep = Some (Endpoint q (if r.2 then [2%nat] else [])) ∧
    (q = ids telling st ∨ q = reverse (ids telling st));
  blk_ok : ∃ q, objs !! blk = Some (Endpoint [] q);
}.

(** *** Memory and readings *)
Context (g : Z) (l : list Z) (Hpl : poff + N_RUNS <= Z.of_nat (length l)) (Hcl : coff + N_RUNS <= Z.of_nat (length l)).

Definition slot (j : nat) : nat := (Z.to_nat (if decide (j mod 2 = 0)%nat then poff else coff) + j / 2)%nat.

(** The reading of the turn that is under way, and its sample once stored. *)
Definition pending (x : stage) : option Z :=
  match x with
  | Turn1 e | Turn2 e _ | Turn3 e | Turn4 e | Turn5 e => Some e
  | _ => None
  end.
Definition stored (x : stage) : option Z :=
  match x with Turn3 e | Turn4 e | Turn5 e => Some e | _ => None end.

Definition head_value (s : side) (x : stage) : Z :=
  match x with Turn5 _ => limit s | _ => limit (other s) end.

(** [s] is the side whose turn it is. *)
Record data_ok (s : side) (x y : stage) (h : list (Z * Z)) (m : heap) (rs : list (nat * Z)) : Prop := {
  head_ok : holds m hb [head_value s x];
  cells_ok : ∃ a b, holds m (start_block s) [a] ∧ holds m (start_block (other s)) [b] ∧
    match y with Signal6 v => v = last_signal g h | _ => a = last_signal g h end;
  sample_ok : match x with Turn2 e d => d = e ⊟[ccnt_bits] last_signal g h | _ => True end;
  log_ok : rs = turn_log Producer h ++ from_option (λ e, [(tid s, e)]) [] (pending x);
  results_ok : ∃ lr, holds m rb lr ∧ length lr = length l ∧
    (∀ j d, (waits ccnt_bits g h ++
              from_option (λ e, [e ⊟[ccnt_bits] last_signal g h]) [] (stored x)) !! j = Some d →
       lr !! slot j = Some d) ∧
    (∀ j, (∀ k, (k < 2 * runs)%nat → j ≠ slot k) → lr !! j = l !! j);
}.

(** *** The measure *)

Definition lap : nat := (4 * fuel + 30)%nat.
Definition stage_weight (x : stage) : nat :=
  match x with
  | Locking f | Sleeping f => 4 * f + 23
  | Queued f => 4 * f + 22
  | Checking f => 4 * f + 21
  | Leaving f => 4 * f + 24
  | Turn0 => 20 | Turn1 _ => 19 | Turn2 _ _ => 18 | Turn3 _ => 17 | Turn4 _ => 16 | Turn5 _ => 15
  | Signal6 _ => 14 | Signal7 => 13 | Posting => 12
  | Telling => 3 | Told => 2 | Ending => 1 | Ended => 0
  end%nat.
(** [x.1] turns, and the one under way, are behind it. *)
Definition side_weight (x : sstate) : nat := (lap * (runs - S x.1) + stage_weight x.2)%nat.
Definition parent_weight (r : nat * bool) : nat :=
  (2 * (2 - r.1) + (if r.2 then 0 else 1))%nat.

Definition weight (st : sides) (r : nat * bool) : nat :=
  (side_weight (st Producer) + side_weight (st Consumer) + parent_weight r)%nat.

Lemma weight_side s st r :
  weight st r = (side_weight (st s) + side_weight (st (other s)) + parent_weight r)%nat.
Proof. unfold weight. destruct s; simpl; lia. Qed.

(** ** The invariant *)

Record state_ok (st : sides) (r : nat * bool) (h : list (Z * Z)) (objs : gmap Z object) (m : heap)
    (rs : list (nat * Z)) : Prop := {
  coherent_ok : ∀ s, coherent s (st s) (st (other s)) (length h);
  objects_ok : objs_ok st r objs;
  memory_ok : ∃ s, on_turn s (length h) ∧ data_ok s (st s).2 (st (other s)).2 h m rs;
  reports_ok : (r.1 = (if told (st Producer).2 then 1 else 0) + (if told (st Consumer).2 then 1 else 0))%nat;
  parent_ok : r.2 = true → (r.1 < 2)%nat ∧ ids telling st = [];
}.

Definition inv (n : nat) (c : config) : Prop :=
  ∃ st r h objs m rs, c = Config (threads_of st r) objs m rs ∧ n = weight st r ∧
    state_ok st r h objs m rs.

(** What a step of thread [t] has to be. *)
Definition steps (t : nat) (v : Z) (st : sides) (r : nat * bool) (objs : gmap Z object) (m : heap)
    (rs : list (nat * Z)) : Prop :=
  ∃ st' r' h' objs' m' rs',
    next t v (Config (threads_of st r) objs m rs) = Some (Config (threads_of st' r') objs' m' rs') ∧
    (weight st' r' < weight st r)%nat ∧ state_ok st' r' h' objs' m' rs'.

(** Stages that leave no trace in the memory or the readings. *)
Definition neutral (x : stage) : bool :=
  match x with
  | Turn1 _ | Turn2 _ _ | Turn3 _ | Turn4 _ | Turn5 _ | Signal6 _ => false
  | _ => true
  end.

Lemma data_neutral s x x' y y' h m rs :
  (x = x' ∨ neutral x = true ∧ neutral x' = true) →
  (y = y' ∨ neutral y = true ∧ neutral y' = true) →
  data_ok s x y h m rs → data_ok s x' y' h m rs.
Proof.
  intros Hx Hy [Hh Hc Hs Hl Hr].
  assert (data_ok s x' y h m rs) as [Hh' Hc' Hs' Hl' Hr'].
  { destruct Hx as [<-|[Hx Hx']]; [by constructor|]. by destruct x, x'; constructor. }
  destruct Hy as [<-|[Hy Hy']]; [by constructor|]. by destruct y, y'; constructor.
Qed.

Lemma data_move s x st h m rs :
  neutral (st s).2 = true → neutral x.2 = true →
  (∃ t, on_turn t (length h) ∧ data_ok t (st t).2 (st (other t)).2 h m rs) →
  ∃ t, on_turn t (length h) ∧ data_ok t (upd st s x t).2 (upd st s x (other t)).2 h m rs.
Proof.
  intros Hs Hx (t & Ht & Hd). exists t. split; [done|]. eapply data_neutral; [..|exact Hd];
    rewrite upd_eq; (destruct (decide _) as [->|]; [by right|by left]).
Qed.

Lemma coherent_upd s x st n :
  coherent s x (st (other s)) n →
  ∀ t, coherent t (upd st s x t) (upd st s x (other t)) n.
Proof.
  intros Hc t. destruct (decide (t = s)) as [->|Hne].
  - by rewrite upd_same, upd_other.
  - assert (t = other s) as -> by (destruct s, t; done).
    apply coherent_sym in Hc. by rewrite other_other, upd_same, upd_other.
Qed.

(** ** The steps

    A step that changes the stages to [st'] without a report. *)
Lemma stage_step t v st r h objs m rs st' h' objs' m' rs' :
  state_ok st r h objs m rs →
  (∀ s, told (st' s).2 = told (st s).2 ∧ telling (st' s).2 = telling (st s).2) →
  (weight st' r < weight st r)%nat →
  (∀ s, coherent s (st' s) (st' (other s)) (length h')) →
  objs_ok st' r objs' →
  (∃ s, on_turn s (length h') ∧ data_ok s (st' s).2 (st' (other s)).2 h' m' rs') →
  next t v (Config (threads_of st r) objs m rs) = Some (Config (threads_of st' r) objs' m' rs') →
  steps t v st r objs m rs.
Proof.
  intros Hst Htold Hw Hc Ho Hd Hn. exists st', r, h', objs', m', rs'. split; [done|]. split; [done|].
  destruct Hst as [_ _ _ Hr Hp]. constructor; [done..| |].
  - by rewrite (proj1 (Htold Producer)), (proj1 (Htold Consumer)).
  - unfold ids. rewrite (proj2 (Htold Producer)), (proj2 (Htold Consumer)). exact Hp.
Qed.

(** One side moves. *)
Lemma side_step s v st r h objs m rs x h' objs' m' rs' :
  state_ok st r h objs m rs →
  told x.2 = told (st s).2 → telling x.2 = telling (st s).2 →
  (side_weight x < side_weight (st s))%nat →
  coherent s x (st (other s)) (length h') →
  objs_ok (upd st s x) r objs' →
  (∃ t, on_turn t (length h') ∧ data_ok t (upd st s x t).2 (upd st s x (other t)).2 h' m' rs') →
  next (tid s) v (Config (threads_of st r) objs m rs) =
    Some (Config (threads_of (upd st s x) r) objs' m' rs') →
  steps (tid s) v st r objs m rs.
Proof.
  intros Hst Htold Htell Hw Hc Ho Hd Hn. eapply stage_step; [exact Hst|..|exact Hn]; [| |by apply coherent_upd|done..].
  - intros t. rewrite upd_eq. by destruct (decide _) as [->|].
  - rewrite !(weight_side s), upd_same, upd_other. lia.
Qed.

(** The objects after a move that concerns none of them. *)
Lemma objs_same s x st r objs :
  holding x.2 = holding (st s).2 → queued x.2 = queued (st s).2 →
  sleeping x.2 = sleeping (st s).2 → telling x.2 = telling (st s).2 →
  objs_ok st r objs → objs_ok (upd st s x) r objs.
Proof.
  intros Hh Hq Hs Ht Ho.
  assert (∀ t, holding (upd st s x t).2 = holding (st t).2 ∧ queued (upd st s x t).2 = queued (st t).2 ∧
    sleeping (upd st s x t).2 = sleeping (st t).2 ∧ telling (upd st s x t).2 = telling (st t).2) as Hall.
  { intros t. rewrite upd_eq. by destruct (decide _) as [->|]. }
  pose proof (Hall Producer) as (HhP & HqP & _ & HtP). pose proof (Hall Consumer) as (HhC & HqC & _ & HtC).
  destruct Ho as [Hl Hc He Hb]. constructor; unfold ids; rewrite ?HhP, ?HhC, ?HqP, ?HqC, ?HtP, ?HtC; try done.
  intros t. by rewrite (proj1 (proj2 (proj2 (Hall t)))).
Qed.

(** The addresses differ. *)
Lemma wait_cv_other s : wait_cv s ≠ wait_cv (other s).
Proof. pose proof Haddr as Hd. rewrite !list.NoDup_cons in Hd. destruct s; simpl; set_solver. Qed.
Lemma addr_ne s : lock ≠ wait_cv s ∧ ep ≠ wait_cv s ∧ blk ≠ wait_cv s ∧ lock ≠ ep ∧ lock ≠ blk ∧ ep ≠ blk.
Proof. pose proof Haddr as Hd. rewrite !list.NoDup_cons in Hd. destruct s; simpl; set_solver. Qed.

(** The objects after the lock or a condition variable has changed. *)
Lemma objs_lock b q st st' r objs :
  negb (holding (st' Producer).2 || holding (st' Consumer).2) = b → ids queued st' = q →
  (∀ s, sleeping (st' s).2 = sleeping (st s).2 ∧ telling (st' s).2 = telling (st s).2) →
  objs_ok st r objs → objs_ok st' r (<[lock := BinSem b q]> objs).
Proof.
  intros <- <- Hall [Hl Hc He Hb]. pose proof (addr_ne Producer) as (_ & _ & _ & Hle & Hlb & _).
  constructor.
  - by rewrite lookup_insert_eq.
  - intros s. rewrite lookup_insert_ne by apply addr_ne. by rewrite (proj1 (Hall s)).
  - rewrite lookup_insert_ne by done. unfold ids.
    by rewrite (proj2 (Hall Producer)), (proj2 (Hall Consumer)).
  - by rewrite lookup_insert_ne.
Qed.

Lemma objs_cv s q st st' r objs :
  (if sleeping (st' s).2 then [tid s] else []) = q →
  sleeping (st' (other s)).2 = sleeping (st (other s)).2 →
  (∀ t, holding (st' t).2 = holding (st t).2 ∧ queued (st' t).2 = queued (st t).2 ∧
        telling (st' t).2 = telling (st t).2) →
  objs_ok st r objs → objs_ok st' r (<[wait_cv s := CondVar q]> objs).
Proof.
  intros <- Ho Hall [Hl Hc He Hb]. pose proof (addr_ne s) as (Hls & Hes & Hbs & _).
  destruct (Hall Producer) as (HhP & HqP & HtP), (Hall Consumer) as (HhC & HqC & HtC).
  constructor; unfold ids in *; rewrite ?HhP, ?HhC, ?HqP, ?HqC, ?HtP, ?HtC.
  - by rewrite lookup_insert_ne.
  - intros t. destruct (decide (t = s)) as [->|Hne]; [by rewrite lookup_insert_eq|].
    assert (t = other s) as -> by (destruct s, t; done).
    rewrite lookup_insert_ne by apply wait_cv_other. by rewrite Ho.
  - by rewrite lookup_insert_ne.
  - by rewrite lookup_insert_ne.
Qed.

Arguments threads_of : simpl never.
Arguments on_thread : simpl never.
Arguments limit : simpl never.

Lemma ids_side p st s : p (st s).2 = false → p (st (other s)).2 = false → ids p st = [].
Proof. unfold ids. destruct s; simpl; by intros -> ->. Qed.
Lemma ids_self p st s :
  p (st (other s)).2 = false → ids p st = if p (st s).2 then [tid s] else [].
Proof. unfold ids. destruct s; simpl; intros ->; [by rewrite app_nil_r|done]. Qed.
Lemma ids_other p st s :
  p (st s).2 = false → ids p st = if p (st (other s)).2 then [tid (other s)] else [].
Proof. unfold ids. destruct s; simpl; intros ->; [done|by rewrite app_nil_r]. Qed.
Lemma or_side (p : side → bool) s : (p Producer || p Consumer) = (p s || p (other s)).
Proof. destruct s; [done|apply orb_comm]. Qed.

(** What coherence says of the side that moves. *)
Lemma coherent_at st r h objs m rs s i x :
  state_ok st r h objs m rs → st s = (i, x) → coherent s (i, x) (st (other s)) (length h).
Proof. intros Hst <-. by apply Hst. Qed.

(** A new stage of one side is coherent with the stage of the other. *)
Ltac coherence :=
  match goal with
  | Hc : coherent ?s _ ?y _ |- coherent ?s _ _ _ =>
      repeat match goal with
             | Hh : holding y.2 = _ |- _ => revert Hh
             | Hs : sleeping y.2 = _ |- _ => revert Hs
             | Hn : on_turn s _ |- _ => revert Hn
             | Hn : on_turn (other s) _ |- _ => revert Hn
             | Hn : (_ <= _)%nat |- _ => revert Hn
             | Hn : (_ < runs)%nat |- _ => revert Hn
             | Hn : S _ = runs |- _ => revert Hn
             | Hn : ¬ on_turn s _ |- _ => revert Hn
             end; revert Hc;
      generalize y; clear; intros [? []]; unfold coherent, stage_ok; cbn;
      intuition (congruence || lia)
  end.
(** The stage of the side that moves alone. *)
Lemma stage_at s i x y n : coherent s (i, x) y n → stage_ok s (i, x) y n.
Proof. by intros (Hx & _). Qed.
Ltac lighter E := rewrite E; unfold side_weight, lap; cbn; lia.
(** Flags a move of [s] leaves as they are. *)
Ltac flags E :=
  intros ?; rewrite !upd_eq; destruct (decide _) as [->|]; [by rewrite E|done].
Ltac prim := unfold set_object, set_memory, log_reading; cbn.
(** The operation of [s], in stage [x]. *)
Ltac performs E := erewrite next_side by (by rewrite E); cbn.
Ltac on_side_of E := prim; erewrite on_side; [reflexivity|by rewrite E].

(** Nobody queues for a free lock, and one side at most for a lock that is held. *)
Lemma queue_empty s st r h objs m rs :
  state_ok st r h objs m rs → holding (st s).2 = false → holding (st (other s)).2 = false →
  ids queued st = [].
Proof.
  intros Hst Hs Ho. apply (ids_side _ _ s).
  - destruct (coherent_ok _ _ _ _ _ _ Hst s) as (_ & _ & _ & H4 & _). destruct (queued _); [|done].
    by rewrite Ho in H4; discriminate H4.
  - destruct (coherent_ok _ _ _ _ _ _ Hst s) as (_ & _ & _ & _ & H5). destruct (queued _); [|done].
    by rewrite Hs in H5; discriminate H5.
Qed.

Lemma holding_not_queued x : holding x = true → queued x = false.
Proof. by destruct x. Qed.

Lemma step_queue s i f v st r h objs m rs :
  state_ok st r h objs m rs → st s = (i, Locking f) → holding (st (other s)).2 = true →
  steps (tid s) v st r objs m rs.
Proof.
  intros Hst E Hh. pose proof (coherent_at _ _ _ _ _ _ _ _ _ Hst E) as Hc.
  pose proof (lock_ok _ _ _ (objects_ok _ _ _ _ _ _ Hst)) as Hlock.
  rewrite (or_side (λ t, holding (st t).2) s), (ids_side queued st s), E, Hh in Hlock
    by first [by rewrite E|by apply holding_not_queued].
  eapply (side_step s v _ _ _ _ _ _ (i, Queued f) h); [exact Hst|by rewrite E|by rewrite E|lighter E| | | |].
  - coherence.
  - eapply (objs_lock false [tid s]); [..|apply Hst].
    + by rewrite (or_side (λ t, holding (upd st s (i, Queued f) t).2) s), upd_same, upd_other, Hh.
    + rewrite (ids_self _ _ s), upd_same; [done|]. rewrite upd_other. by apply holding_not_queued.
    + flags E.
  - apply data_move; [by rewrite E|done|apply Hst].
  - performs E. unfold acquire. cbn. rewrite Hlock. cbn. on_side_of E.
Qed.

Lemma step_acquire s i f v st r h objs m rs :
  state_ok st r h objs m rs → st s = (i, Locking f) → holding (st (other s)).2 = false →
  steps (tid s) v st r objs m rs.
Proof.
  intros Hst E Hh. pose proof (coherent_at _ _ _ _ _ _ _ _ _ Hst E) as Hc.
  pose proof (lock_ok _ _ _ (objects_ok _ _ _ _ _ _ Hst)) as Hlock.
  pose proof (queue_empty s _ _ _ _ _ _ Hst ltac:(by rewrite E) Hh) as Hq.
  rewrite (or_side (λ t, holding (st t).2) s), E, Hh, Hq in Hlock.
  eapply (side_step s v _ _ _ _ _ _ (i, Checking f) h); [exact Hst|by rewrite E|by rewrite E|lighter E| | | |].
  - coherence.
  - eapply (objs_lock false []); [..|apply Hst].
    + by rewrite (or_side (λ t, holding (upd st s (i, Checking f) t).2) s), upd_same, upd_other, Hh.
    + rewrite (ids_other _ _ s), upd_other by by rewrite upd_same.
      rewrite (ids_other _ _ s) in Hq by by rewrite E. exact Hq.
    + flags E.
  - apply data_move; [by rewrite E|done|apply Hst].
  - performs E. unfold acquire. cbn. rewrite Hlock. cbn. on_side_of E.
Qed.

(** The queue's head as a side that holds the lock before its turn sees it. *)
Lemma head_seen s i f st r h objs m rs :
  state_ok st r h objs m rs → st s = (i, Checking f) →
  load head 0 m = Ok (if decide (on_turn s (length h)) then limit (other s) else limit s).
Proof.
  intros Hst E. pose proof (coherent_at _ _ _ _ _ _ _ _ _ Hst E) as (_ & _ & Hh & _).
  specialize (Hh eq_refl).
  destruct (memory_ok _ _ _ _ _ _ Hst) as (t & Ht & [Hhead _ _ _ _]).
  apply (load_holds _ _ _ 0 0 _ Hhead); [done|]. f_equal.
  destruct (decide (t = s)) as [->|Hne].
  - rewrite E. simpl. by rewrite decide_True.
  - assert (t = other s) as -> by (destruct s, t; done). apply on_turn_other in Ht.
    rewrite decide_False by done. unfold head_value. rewrite other_other.
    by destruct (st (other s)).2.
Qed.

Lemma limit_other s : limit (other s) ≠ limit s.
Proof. by destruct s. Qed.

Lemma step_check s i f v st r h objs m rs :
  state_ok st r h objs m rs → st s = (i, Checking f) → steps (tid s) v st r objs m rs.
Proof.
  intros Hst E. pose proof (coherent_at _ _ _ _ _ _ _ _ _ Hst E) as Hc.
  pose proof (head_seen _ _ _ _ _ _ _ _ _ Hst E) as Hload.
  destruct f as [|f]; [destruct Hc as ((_ & _ & Hf & _) & _); lia|].
  destruct (checking_load s i f) as (k & Ek & Hk).
  set (x := if decide (on_turn s (length h)) then Turn0 else Leaving f).
  assert (k (if decide (on_turn s (length h)) then limit (other s) else limit s) = code_at s (i, x)) as Hkx.
  { rewrite Hk. unfold x. destruct (decide _); [|by rewrite Z.eqb_refl].
    rewrite (proj2 (Z.eqb_neq _ _) (limit_other s)). done. }
  assert (holding x = true ∧ queued x = false ∧ sleeping x = false ∧ telling x = false ∧ told x = false ∧
    neutral x = true ∧ stops x = false) as (X1 & X2 & X3 & X4 & X5 & X6 & X7)
    by (unfold x; by destruct (decide _)).
  apply (side_step s v _ _ _ _ _ _ (i, x) h objs m rs Hst); try (by rewrite E).
  - unfold x. destruct (decide _); lighter E.
  - unfold x. destruct (decide _); coherence.
  - by apply objs_same; [rewrite E..|apply Hst].
  - by apply data_move; [rewrite E| |apply Hst].
  - rewrite (next_side _ _ _ _ _ _ _ _ _ k) by (rewrite E; exact Ek). cbn. rewrite Hload. prim.
    erewrite on_side; [reflexivity|]. rewrite E. unfold with_code, thread_of. simpl. by rewrite Hkx, X7.
Qed.

(** Releasing the lock hands it to the other side when that queues for it. *)
Definition woken (y : sstate) : sstate :=
  match y.2 with Queued f => (y.1, Checking f) | _ => y end.

Lemma woken_flags y :
  holding (woken y).2 = (holding y.2 || queued y.2) ∧ queued (woken y).2 = false ∧
  sleeping (woken y).2 = sleeping y.2 ∧ telling (woken y).2 = telling y.2 ∧
  told (woken y).2 = told y.2 ∧ (side_weight (woken y) <= side_weight y)%nat ∧
  neutral (woken y).2 = neutral y.2.
Proof. destruct y as [j []]; unfold side_weight; cbn -[runs lap Nat.mul]; split_and!; try done; lia. Qed.

Lemma data_woken s t st h m rs :
  data_ok t (st t).2 (st (other t)).2 h m rs →
  let st' := upd st s (woken (st s)) in data_ok t (st' t).2 (st' (other t)).2 h m rs.
Proof.
  intros Hd st'. eapply data_neutral; [..|exact Hd]; unfold st'; rewrite upd_eq;
    (destruct (decide _) as [->|]; [|by left]); destruct (st s) as [j []]; try (by left); by right.
Qed.

Lemma release_lock s st b r objs m rs :
  queued (st s).2 = false → objs !! lock = Some (BinSem b (ids queued st)) →
  release lock (Config (threads_of st r) objs m rs) =
    Some (Config (threads_of (upd st (other s) (woken (st (other s)))) r)
            (<[lock := BinSem (negb (queued (st (other s)).2)) []]> objs) m rs).
Proof.
  intros Hs Hlock. unfold release. cbn. rewrite Hlock, (ids_other _ _ s) by done.
  destruct (st (other s)) as [j []] eqn:E; cbn; prim; try (by destruct s; cbn in E; cbn; rewrite <-E).
  by rewrite (on_side _ _ (j, Checking f)) by (by rewrite E).
Qed.

(** [st'] is [st] after the side [s] has moved to [x] and released the lock. *)
Definition released (st : sides) (s : side) (x : sstate) : sides :=
  upd (upd st (other s) (woken (st (other s)))) s x.

Lemma released_self st s x : released st s x s = x.
Proof. apply upd_same. Qed.
Lemma released_other st s x : released st s x (other s) = woken (st (other s)).
Proof. unfold released. by rewrite upd_other, upd_same. Qed.

Lemma coherent_released s x st n :
  coherent s x (woken (st (other s))) n →
  ∀ t, coherent t (released st s x t) (released st s x (other t)) n.
Proof. intros Hc. apply coherent_upd. by rewrite upd_same. Qed.

Lemma released_step s v st r h objs m rs x h' objs' m' rs' :
  state_ok st r h objs m rs →
  told x.2 = told (st s).2 → telling x.2 = telling (st s).2 →
  (side_weight x < side_weight (st s))%nat →
  coherent s x (woken (st (other s))) (length h') →
  objs_ok (released st s x) r objs' →
  (∃ t, on_turn t (length h') ∧ data_ok t (released st s x t).2 (released st s x (other t)).2 h' m' rs') →
  next (tid s) v (Config (threads_of st r) objs m rs) =
    Some (Config (threads_of (released st s x) r) objs' m' rs') →
  steps (tid s) v st r objs m rs.
Proof.
  intros Hst Htold Htell Hw Hc Ho Hd Hn. pose proof (woken_flags (st (other s))) as (_ & _ & _ & W4 & W5 & W6 & _).
  eapply stage_step; [exact Hst|..|exact Hn]; [| |by apply coherent_released|done..].
  - intros t. destruct (decide (t = s)) as [->|Hne]; [by rewrite released_self|].
    assert (t = other s) as -> by (destruct s, t; done). by rewrite released_other.
  - rewrite !(weight_side s), released_self, released_other. lia.
Qed.

(** The stages whose flags the lock's object depends on. *)
Lemma lock_released st s x :
  holding x.2 = false → queued x.2 = false → holding (st (other s)).2 = false →
  negb (holding (released st s x Producer).2 || holding (released st s x Consumer).2) =
    negb (queued (st (other s)).2) ∧
  ids queued (released st s x) = [].
Proof.
  intros Hx Hqx Hh. pose proof (woken_flags (st (other s))) as (W1 & W2 & _).
  rewrite (or_side (λ t, holding (released st s x t).2) s), released_self, released_other, Hx, W1, Hh.
  split; [done|]. apply (ids_side _ _ s); by rewrite ?released_self, ?released_other.
Qed.

Lemma released_telling st s x t :
  telling x.2 = telling (st s).2 → telling (released st s x t).2 = telling (st t).2.
Proof.
  intros Ht. destruct (decide (t = s)) as [->|Hne]; [by rewrite released_self|].
  assert (t = other s) as -> by (destruct s, t; done). by rewrite released_other; apply woken_flags.
Qed.
Lemma released_sleeping st s x t :
  sleeping x.2 = sleeping (st s).2 → sleeping (released st s x t).2 = sleeping (st t).2.
Proof.
  intros Ht. destruct (decide (t = s)) as [->|Hne]; [by rewrite released_self|].
  assert (t = other s) as -> by (destruct s, t; done). by rewrite released_other; apply woken_flags.
Qed.

(** A holder has the lock to itself. *)
Lemma holder_lock st r h objs m rs s :
  state_ok st r h objs m rs → holding (st s).2 = true →
  holding (st (other s)).2 = false ∧ objs !! lock = Some (BinSem false (ids queued st)).
Proof.
  intros Hst Hs. destruct (coherent_ok _ _ _ _ _ _ Hst s) as (_ & _ & Hh & _).
  split; [by apply Hh|]. rewrite (lock_ok _ _ _ (objects_ok _ _ _ _ _ _ Hst)).
  by rewrite (or_side (λ t, holding (st t).2) s), Hs.
Qed.

Lemma data_released s x st h m rs :
  neutral (st s).2 = true → neutral x.2 = true →
  (∃ t, on_turn t (length h) ∧ data_ok t (st t).2 (st (other t)).2 h m rs) →
  ∃ t, on_turn t (length h) ∧ data_ok t (released st s x t).2 (released st s x (other t)).2 h m rs.
Proof.
  intros Hs Hx (t & Ht & Hd). apply data_move; [|done|].
  - rewrite upd_eq, decide_False; [done|]. intros Hs'. by apply (other_ne s).
  - exists t. split; [done|]. by apply (data_woken (other s) t).
Qed.

Lemma step_leave s i f v st r h objs m rs :
  state_ok st r h objs m rs → st s = (i, Leaving f) → steps (tid s) v st r objs m rs.
Proof.
  intros Hst E. pose proof (coherent_at _ _ _ _ _ _ _ _ _ Hst E) as Hc.
  destruct (holder_lock _ _ _ _ _ _ s Hst) as [Hh Hlock]; [by rewrite E|].
  pose proof (cv_ok _ _ _ (objects_ok _ _ _ _ _ _ Hst)) as Hcv.
  pose proof (Hcv s) as Hcvs. rewrite E in Hcvs. cbn in Hcvs.
  pose proof (addr_ne s) as (Hls & Hes & Hbs & Hle & Hlb & _).
  eapply (released_step s v _ _ _ _ _ _ (i, Sleeping f) h); [exact Hst|by rewrite E|by rewrite E|lighter E| | | |].
  - coherence.
  - instantiate (1 := <[lock := BinSem (negb (queued (st (other s)).2)) []]>
                       (<[wait_cv s := CondVar [tid s]]> objs)).
    destruct (lock_released st s (i, Sleeping f)) as [Hb Hq]; [done..|].
    destruct (objects_ok _ _ _ _ _ _ Hst) as [_ _ He Hbl]. constructor.
    + by rewrite lookup_insert_eq, Hb, Hq.
    + intros t. rewrite lookup_insert_ne by apply addr_ne.
      destruct (decide (t = s)) as [->|Hne]; [by rewrite lookup_insert_eq, released_self|].
      assert (t = other s) as -> by (destruct s, t; done).
      rewrite lookup_insert_ne by apply wait_cv_other. rewrite Hcv, released_other.
      by rewrite (proj1 (proj2 (proj2 (woken_flags (st (other s)))))).
    + rewrite !lookup_insert_ne by done. unfold ids.
      by rewrite !released_telling by by rewrite E.
    + by rewrite !lookup_insert_ne.
  - apply data_released; [by rewrite E|done|apply Hst].
  - performs E. rewrite Hcvs. prim. erewrite release_lock; [|by rewrite E|by rewrite lookup_insert_ne].
    cbn. erewrite on_side; [reflexivity|]. by rewrite upd_eq, decide_False, E by (intros ?; by apply (other_ne s)).
Qed.

(** The signal wakes the other side if it sleeps. *)
Lemma step_signal s i v st r h objs m rs :
  state_ok st r h objs m rs → st s = (i, Signal7) → steps (tid s) v st r objs m rs.
Proof.
  intros Hst E. pose proof (coherent_at _ _ _ _ _ _ _ _ _ Hst E) as Hc.
  pose proof (stage_at _ _ _ _ _ Hc) as (Hi & Hr & Hn). apply on_turn_other in Hn as Ho.
  pose proof (cv_ok _ _ _ (objects_ok _ _ _ _ _ _ Hst) (other s)) as Hcv.
  destruct (sleeping (st (other s)).2) eqn:Hs.
  - destruct (st (other s)) as [j [| | | |f| | | | | | | | | | | | |]] eqn:Ey; try done.
    set (st1 := upd st (other s) (j, Locking f)).
    assert (∀ t, upd st1 s (i, Posting) t = if decide (t = s) then (i, Posting) else (j, Locking f)) as Hst1.
    { intros t. unfold st1. rewrite upd_eq. destruct (decide _); [done|].
      assert (t = other s) as -> by (destruct s, t; done). apply upd_same. }
    apply (stage_step _ v st r h objs m rs (upd st1 s (i, Posting)) h
      (<[wait_cv (other s) := CondVar []]> objs) m rs Hst).
    + intros t. rewrite Hst1. destruct (decide (t = s)) as [->|Hne]; [by rewrite E|].
      assert (t = other s) as -> by (destruct s, t; done). by rewrite Ey.
    + rewrite !(weight_side s), !Hst1, decide_True, decide_False, E, Ey by (done || apply other_ne).
      unfold side_weight. cbn -[runs lap Nat.mul]. lia.
    + apply coherent_upd. unfold st1. rewrite upd_same. revert Hc Ho. clear.
      unfold coherent, stage_ok. cbn. intuition (congruence || lia).
    + eapply objs_cv; [| | |apply Hst]; unfold st1; rewrite ?other_other, ?upd_same, ?upd_other, ?upd_same, ?E; try done.
      intros t. rewrite Hst1. destruct (decide (t = s)) as [->|Hne]; [by rewrite E|].
      assert (t = other s) as -> by (destruct s, t; done). by rewrite Ey.
    + apply data_move; [unfold st1|done|]. 2: apply data_move; [by rewrite Ey|done|apply Hst].
      rewrite upd_eq, decide_False, E; [done|]. intros Hx. by apply (other_ne s).
    + performs E. rewrite Hcv. prim. rewrite (on_side _ _ (j, Locking f)) by (by rewrite Ey). cbn.
      erewrite on_side; [reflexivity|]. rewrite upd_eq, decide_False, E; [done|].
      intros Hx. by apply (other_ne s).
  - eapply (side_step s v _ _ _ _ _ _ (i, Posting) h); [exact Hst|by rewrite E|by rewrite E|lighter E| | | |].
    + coherence.
    + apply objs_same; [by rewrite E..|apply Hst].
    + apply data_move; [by rewrite E|done|apply Hst].
    + performs E. rewrite Hcv. on_side_of E.
Qed.

Lemma step_post s i v st r h objs m rs :
  state_ok st r h objs m rs → st s = (i, Posting) → steps (tid s) v st r objs m rs.
Proof.
  intros Hst E. pose proof (coherent_at _ _ _ _ _ _ _ _ _ Hst E) as Hc.
  pose proof (stage_at _ _ _ _ _ Hc) as (Hi & Hr & Hn).
  destruct (holder_lock _ _ _ _ _ _ s Hst) as [Hh Hlock]; [by rewrite E|].
  assert (∃ x, iter s (S i) = code_at s x ∧ holding x.2 = false ∧ queued x.2 = false ∧ stops x.2 = false ∧
    sleeping x.2 = false ∧ told x.2 = false ∧ telling x.2 = false ∧ neutral x.2 = true ∧
    (side_weight x < side_weight (st s))%nat ∧ coherent s x (woken (st (other s))) (length h))
    as (x & Hx & X1 & X2 & X3 & X4 & X5 & X6 & X7 & Hw & Hcx).
  { destruct (decide (S i < runs)%nat) as [Hlt|Hge].
    - exists (S i, Locking fuel). rewrite iter_locking, E by done. split_and!; try done; [|coherence].
      unfold side_weight, lap. cbn -[runs Nat.mul].
      replace (runs - S i)%nat with (S (runs - S (S i))) by lia. lia.
    - assert (S i = runs) as Hir by (cbn [fst] in Hr; lia).
      exists (S i, Telling). rewrite Hir, iter_telling, <-Hir, E.
      split_and!; try done; [|coherence]. unfold side_weight. cbn -[runs lap Nat.mul].
      replace (runs - S (S i))%nat with 0%nat by lia. lia. }
  eapply (released_step s v _ _ _ _ _ _ x h); [exact Hst|by rewrite E|by rewrite E|done|done| | |].
  - eapply objs_lock; [| | |apply Hst].
    + by apply lock_released.
    + by apply lock_released.
    + intros t. rewrite released_sleeping, released_telling by (by rewrite E). done.
  - by apply data_released; [rewrite E| |apply Hst].
  - performs E. erewrite release_lock; [|by rewrite E|done]. cbn.
    erewrite on_side; [reflexivity|].
    rewrite upd_eq, decide_False, E by (intros ?; by apply (other_ne s)).
    unfold with_code, thread_of. cbn. rewrite X3, <-Hx. unfold iter.
    by replace (Z.of_nat (S i)) with (Z.of_nat i + 1) by lia.
Qed.

(** *** The side whose turn it is *)

Lemma on_turn_unique s t n : on_turn s n → on_turn t n → s = t.
Proof. unfold on_turn. destruct s, t; cbn; intros -> ?; done. Qed.

Lemma turn_data s i x st r h objs m rs :
  state_ok st r h objs m rs → st s = (i, x) → on_turn s (length h) →
  data_ok s x (st (other s)).2 h m rs.
Proof.
  intros Hst E Ht. destruct (memory_ok _ _ _ _ _ _ Hst) as (t & Ht' & Hd).
  rewrite <-(on_turn_unique _ _ _ Ht Ht'), E in Hd. exact Hd.
Qed.

(** While a side holds the lock the other one writes nothing. *)
Lemma idle_other s st r h objs m rs :
  state_ok st r h objs m rs → holding (st s).2 = true →
  (st (other s)).2 = Ended ∨ neutral (st (other s)).2 = true.
Proof.
  intros Hst Hs. destruct (holder_lock _ _ _ _ _ _ s Hst Hs) as [Hh _]. right. by destruct (st (other s)).2.
Qed.

Lemma turn_step s v st r h objs m rs i x x' m' rs' :
  state_ok st r h objs m rs → st s = (i, x) → on_turn s (length h) →
  holding x = true → told x = false → holding x' = true → neutral x' = false →
  sleeping x = false →
  (side_weight (i, x') < side_weight (i, x))%nat →
  coherent s (i, x') (st (other s)) (length h) →
  data_ok s x' (st (other s)).2 h m' rs' →
  next (tid s) v (Config (threads_of st r) objs m rs) =
    Some (Config (threads_of (upd st s (i, x')) r) objs m' rs') →
  steps (tid s) v st r objs m rs.
Proof.
  intros Hst E Ht Hx Htx Hx' Hn' Hsx Hw Hc Hd Hn.
  assert (told x' = false ∧ telling x' = false ∧ telling x = false ∧ queued x = false ∧ queued x' = false ∧
    sleeping x' = false) as (T1 & T2 & T3 & T4 & T5 & T6) by (by destruct x, x').
  eapply (side_step s v _ _ _ _ _ _ (i, x') h); [exact Hst|rewrite E; cbn; congruence|rewrite E; cbn; congruence|by rewrite E|done| | |exact Hn].
  - by apply objs_same; [rewrite E; cbn; congruence..|apply Hst].
  - exists s. split; [done|]. by rewrite upd_same, upd_other.
Qed.

(** The readings of a turn. *)
Lemma step_turn0 s i v st r h objs m rs :
  state_ok st r h objs m rs → st s = (i, Turn0) → steps (tid s) v st r objs m rs.
Proof.
  intros Hst E. pose proof (coherent_at _ _ _ _ _ _ _ _ _ Hst E) as Hc.
  pose proof (stage_at _ _ _ _ _ Hc) as (Hi & Hr & Ht).
  destruct (turn_data _ _ _ _ _ _ _ _ _ Hst E Ht) as [Hh Hce Hs Hl Hre].
  eapply (turn_step s v _ _ _ _ _ _ i _ (Turn1 v)); [exact Hst|exact E|done..| | | |].
  - unfold side_weight. cbn -[runs lap Nat.mul]. lia.
  - coherence.
  - constructor; [done..| |done]. instantiate (1 := rs ++ [(tid s, v)]).
    rewrite Hl. cbn. by rewrite app_nil_r.
  - performs E. on_side_of E.
Qed.

Lemma step_turn1 s i e v st r h objs m rs :
  state_ok st r h objs m rs → st s = (i, Turn1 e) → steps (tid s) v st r objs m rs.
Proof.
  intros Hst E. pose proof (coherent_at _ _ _ _ _ _ _ _ _ Hst E) as Hc.
  pose proof (stage_at _ _ _ _ _ Hc) as (Hi & Hr & Ht).
  destruct (turn_data _ _ _ _ _ _ _ _ _ Hst E Ht) as [Hh Hce Hs Hl Hre].
  destruct (holder_lock _ _ _ _ _ _ s Hst) as [Hho _]; [by rewrite E|].
  eapply (turn_step s v _ _ _ _ _ _ i _ (Turn2 e (e ⊟[ccnt_bits] last_signal g h)));
    [exact Hst|exact E|done..| | | |].
  - unfold side_weight. cbn -[runs lap Nat.mul]. lia.
  - coherence.
  - constructor; [done|exact Hce|done|exact Hl|done].
  - assert (load (start s) 0 m = Ok (last_signal g h)) as Hload.
    { destruct Hce as (a & b & Ha & _ & Hab). apply (load_holds _ _ _ 0 0 _ Ha); [done|].
      destruct (st (other s)).2; by rewrite Hab || done. }
    performs E. rewrite Hload. on_side_of E.
Qed.

Lemma blocks_ne s :
  hb ≠ start_block s ∧ rb ≠ start_block s ∧ start_block s ≠ start_block (other s) ∧ hb ≠ rb.
Proof. pose proof Hblocks as Hd. rewrite !list.NoDup_cons in Hd. destruct s; simpl; set_solver. Qed.

Lemma slot_at s n : on_turn s n → slot n = (Z.to_nat (offset s) + turns s n)%nat.
Proof.
  unfold on_turn, slot, turns. intros Hs.
  destruct (decide _), s; cbn [tid offset] in *; try lia.
Qed.
Lemma turn_bound s n : on_turn s n → (turns s n < runs)%nat → (n < 2 * runs)%nat.
Proof. unfold on_turn, turns. destruct s; cbn [tid]; lia. Qed.
Lemma slot_inj j k : (j < 2 * runs)%nat → (k < 2 * runs)%nat → slot j = slot k → j = k.
Proof.
  intros Hj Hk. unfold slot. assert (N_RUNS = Z.of_nat runs) as Hn by done. rewrite Hn in Hdisjoint.
  destruct (decide _), (decide _); lia.
Qed.

(** The result of the turn, stored. *)
Lemma results_stored s n h lr d :
  on_turn s n → length h = n → (turns s n < runs)%nat → length lr = length l →
  (∀ j x, waits ccnt_bits g h !! j = Some x → lr !! slot j = Some x) →
  let lr' := <[Z.to_nat (offset s + Z.of_nat (turns s n)) := d]> lr in
  length lr' = length l ∧
  (∀ j x, (waits ccnt_bits g h ++ [d]) !! j = Some x → lr' !! slot j = Some x) ∧
  (∀ j, (∀ k, (k < 2 * runs)%nat → j ≠ slot k) → lr' !! j = lr !! j).
Proof.
  intros Ht Hn Hr Hlen Hlr. pose proof (turn_bound s n Ht Hr) as Hb.
  assert (Z.to_nat (offset s + Z.of_nat (turns s n)) = slot n) as ->.
  { rewrite (slot_at s) by done. destruct s; simpl; lia. }
  assert (slot n < length lr)%nat as Hin.
  { rewrite (slot_at s), Hlen by done. assert (N_RUNS = Z.of_nat runs) as HN by done. destruct s; simpl; lia. }
  cbn. split; [by rewrite length_insert|]. split.
  - intros j x Hj. assert (j < S n)%nat as Hjn.
    { apply lookup_lt_Some in Hj. rewrite length_app, length_waits, Hn in Hj. simpl in Hj. lia. }
    destruct (decide (j = n)) as [->|Hne].
    + rewrite list_lookup_insert_eq by done.
      rewrite lookup_app_r, length_waits, Hn, Nat.sub_diag in Hj by (rewrite length_waits; lia). done.
    + rewrite list_lookup_insert_ne by (intros Hs; apply Hne, slot_inj; [lia..|done]).
      apply Hlr. rewrite lookup_app_l in Hj; [done|]. rewrite length_waits. lia.
  - intros j Hj. apply list_lookup_insert_ne. intros Hs. by apply (Hj n).
Qed.

Lemma step_turn2 s i e d v st r h objs m rs :
  state_ok st r h objs m rs → st s = (i, Turn2 e d) → steps (tid s) v st r objs m rs.
Proof.
  intros Hst E. pose proof (coherent_at _ _ _ _ _ _ _ _ _ Hst E) as Hc.
  pose proof (stage_at _ _ _ _ _ Hc) as (Hi & Hr & Ht). cbn [fst] in Hi, Hr.
  destruct (turn_data _ _ _ _ _ _ _ _ _ Hst E Ht) as [Hh Hce Hs Hl (lr & Hlr & Hlen & Hw & Hf)].
  destruct (blocks_ne s) as (B1 & B2 & B3 & B4), (blocks_ne (other s)) as (B5 & B6 & _ & _).
  rewrite Hi in Hr. cbn in Hw. rewrite app_nil_r in Hw.
  destruct (results_stored s _ h lr d Ht eq_refl Hr Hlen Hw) as (Hlen' & Hw' & Hf').
  rewrite <-Hi in Hlen', Hw', Hf'.
  destruct (store_frame m rb lr (offset s) (Z.of_nat i) d Hlr) as (m' & Em & Hlr' & Hfm).
  { assert (N_RUNS = Z.of_nat runs) as HN by done. rewrite Hlen. destruct s; simpl; lia. }
  eapply (turn_step s v _ _ _ _ _ _ i _ (Turn3 e)); [exact Hst|exact E|done..| | | |].
  - unfold side_weight. cbn -[runs lap Nat.mul]. lia.
  - coherence.
  - constructor; [by apply Hfm| |done|exact Hl|].
    + destruct Hce as (a & b & Ha & Hb & Hab). exists a, b. split_and!; [by apply Hfm..|done].
    + exists (<[Z.to_nat (offset s + Z.of_nat i) := d]> lr).
      split_and!; [done|done| |].
      * cbn. by rewrite <-Hs.
      * intros j Hj. rewrite Hf' by done. by apply Hf.
  - performs E. rewrite Em. on_side_of E.
Qed.

Lemma step_turn3 s i e v st r h objs m rs :
  state_ok st r h objs m rs → st s = (i, Turn3 e) → steps (tid s) v st r objs m rs.
Proof.
  intros Hst E. pose proof (coherent_at _ _ _ _ _ _ _ _ _ Hst E) as Hc.
  pose proof (stage_at _ _ _ _ _ Hc) as (Hi & Hr & Ht). cbn [fst] in Hi, Hr.
  destruct (turn_data _ _ _ _ _ _ _ _ _ Hst E Ht) as [Hh Hce Hs Hl Hre].
  destruct (turn3_load s i) as (k & Ek & Hk).
  eapply (turn_step s v _ _ _ _ _ _ i _ (Turn4 e)); [exact Hst|exact E|done..| | | |].
  - unfold side_weight. cbn -[runs lap Nat.mul]. lia.
  - coherence.
  - constructor; [done..|exact Hl|exact Hre].
  - rewrite (next_side _ _ _ _ _ _ _ _ _ k) by (rewrite E; exact Ek). cbn.
    rewrite (load_holds _ _ _ 0 0 _ Hh) by done. cbn.
    erewrite on_side; [reflexivity|]. rewrite E. unfold with_code, thread_of. cbn. by rewrite Hk.
Qed.

Lemma step_turn4 s i e v st r h objs m rs :
  state_ok st r h objs m rs → st s = (i, Turn4 e) → steps (tid s) v st r objs m rs.
Proof.
  intros Hst E. pose proof (coherent_at _ _ _ _ _ _ _ _ _ Hst E) as Hc.
  pose proof (stage_at _ _ _ _ _ Hc) as (Hi & Hr & Ht). cbn [fst] in Hi, Hr.
  destruct (turn_data _ _ _ _ _ _ _ _ _ Hst E Ht) as [Hh Hce Hs Hl Hre].
  destruct (blocks_ne s) as (B1 & B2 & B3 & B4), (blocks_ne (other s)) as (B5 & B6 & _ & _).
  destruct (store_frame m hb _ 0 0 (limit s) Hh) as (m' & Em & Hh' & Hfm); [done|].
  eapply (turn_step s v _ _ _ _ _ _ i _ (Turn5 e)); [exact Hst|exact E|done..| | | |].
  - unfold side_weight. cbn -[runs lap Nat.mul]. lia.
  - coherence.
  - constructor; [exact Hh'| |done|exact Hl|].
    + destruct Hce as (a & b & Ha & Hb & Hab). exists a, b. split_and!; [by apply Hfm..|done].
    + destruct Hre as (lr & Hlr & Hre). exists lr. split; [by apply Hfm|done].
  - performs E. rewrite Em. on_side_of E.
Qed.

(** The reading at the signal ends the turn. *)
Lemma coherent_turn_over s i e v y n :
  on_turn s n → holding y.2 = false → coherent s (i, Turn5 e) y n → coherent s (i, Signal6 v) y (S n).
Proof.
  intros Ht Hy Hc. destruct (turns_step s n Ht) as (F1 & F2 & F3 & F4 & F5).
  revert Hc Hy. destruct y as [j []]; unfold coherent, stage_ok; cbn [fst snd signalling holding queued];
    rewrite ?F1, ?F2; intuition (congruence || lia).
Qed.

Lemma step_turn5 s i e v st r h objs m rs :
  state_ok st r h objs m rs → st s = (i, Turn5 e) → steps (tid s) v st r objs m rs.
Proof.
  intros Hst E. pose proof (coherent_at _ _ _ _ _ _ _ _ _ Hst E) as Hc.
  pose proof (stage_at _ _ _ _ _ Hc) as (Hi & Hr & Ht). cbn [fst] in Hi, Hr.
  destruct (turn_data _ _ _ _ _ _ _ _ _ Hst E Ht) as [Hh Hce Hs Hl Hre].
  destruct (holder_lock _ _ _ _ _ _ s Hst) as [Hho _]; [by rewrite E|].
  destruct (turns_step s (length h) Ht) as (F1 & F2 & F3 & F4 & F5).
  assert (length (h ++ [(e, v)]) = S (length h)) as Hlh by (rewrite length_app; simpl; lia).
  eapply (side_step s v _ _ _ _ _ _ (i, Signal6 v) (h ++ [(e, v)]));
    [exact Hst|by rewrite E|by rewrite E|lighter E| | | |].
  - rewrite Hlh. by eapply coherent_turn_over.
  - by apply objs_same; [rewrite E..|apply Hst].
  - exists (other s). rewrite Hlh. split; [done|]. rewrite other_other, upd_same, upd_other.
    assert (neutral (st (other s)).2 = true) as Hn by by destruct (st (other s)).2.
    constructor.
    + unfold head_value. rewrite other_other. by destruct (st (other s)).2.
    + destruct Hce as (a & b & Ha & Hb & _). exists b, a. rewrite other_other, last_signal_snoc. done.
    + by destruct (st (other s)).2.
    + instantiate (1 := rs ++ [(tid s, v)]). rewrite Hl, (turn_log_snoc _ s) by (cbn; by rewrite Nat.add_0_r).
      replace (pending (st (other s)).2) with (@None Z) by by destruct (st (other s)).2.
      cbn. by rewrite app_nil_r, <-!app_assoc.
    + replace (stored (st (other s)).2) with (@None Z) by by destruct (st (other s)).2.
      rewrite waits_snoc. cbn [from_option]. rewrite app_nil_r. exact Hre.
  - performs E. on_side_of E.
Qed.

Lemma step_signal6 s i w v st r h objs m rs :
  state_ok st r h objs m rs → st s = (i, Signal6 w) → steps (tid s) v st r objs m rs.
Proof.
  intros Hst E. pose proof (coherent_at _ _ _ _ _ _ _ _ _ Hst E) as Hc.
  pose proof (stage_at _ _ _ _ _ Hc) as (Hi & Hr & Ht). apply on_turn_other in Ht as Ho.
  destruct (holder_lock _ _ _ _ _ _ s Hst) as [Hho _]; [by rewrite E|].
  destruct (memory_ok _ _ _ _ _ _ Hst) as (t & Ht' & Hd).
  rewrite <-(on_turn_unique _ _ _ Ho Ht'), other_other, E in Hd. destruct Hd as [Hh Hce Hs Hl Hre].
  destruct (blocks_ne s) as (B1 & B2 & B3 & B4), (blocks_ne (other s)) as (B5 & B6 & B7 & _).
  destruct Hce as (a & b & Ha & Hb & Hw). cbn in Hw.
  destruct (store_frame m (start_block (other s)) [a] 0 0 w Ha) as (m' & Em & Ha' & Hfm); [done|].
  eapply (side_step s v _ _ _ _ _ _ (i, Signal7) h);
    [exact Hst|by rewrite E|by rewrite E|lighter E| | | |].
  - coherence.
  - by apply objs_same; [rewrite E..|apply Hst].
  - exists (other s). split; [done|]. rewrite other_other, upd_same, upd_other.
    constructor; [by apply Hfm| |done|exact Hl|].
    + exists w, b. rewrite other_other in *. split_and!; [done|by apply Hfm|done].
    + destruct Hre as (lr & Hlr & Hre). exists lr. split; [by apply Hfm|done].
  - performs E. rewrite Em. on_side_of E.
Qed.

(** *** Reports *)

Lemma step_ending s i v st r h objs m rs :
  state_ok st r h objs m rs → st s = (i, Ending) → steps (tid s) v st r objs m rs.
Proof.
  intros Hst E. pose proof (coherent_at _ _ _ _ _ _ _ _ _ Hst E) as Hc.
  destruct (objects_ok _ _ _ _ _ _ Hst) as [Hl Hcv He (q & Hq)].
  pose proof (addr_ne s) as (_ & _ & _ & _ & Hlb & Heb).
  eapply (side_step s v _ _ _ _ _ _ (i, Ended) h (<[blk := Endpoint [] (q ++ [tid s])]> objs));
    [exact Hst|by rewrite E|by rewrite E|lighter E| | | |].
  - coherence.
  - destruct (objs_same s (i, Ended) st r objs) as [Hl' Hcv' He' _]; [by rewrite E..|apply Hst|].
    constructor; [by rewrite lookup_insert_ne| |by rewrite lookup_insert_ne|].
    + intros t. rewrite lookup_insert_ne by apply addr_ne. apply Hcv'.
    + rewrite lookup_insert_eq. by eexists.
  - apply data_move; [by rewrite E|done|apply Hst].
  - performs E. unfold receive. cbn. rewrite Hq. on_side_of E.
Qed.

(** The flags a report of [s] changes are its own. *)
Lemma objs_report s x q b st r b' objs :
  holding x.2 = holding (st s).2 → queued x.2 = queued (st s).2 → sleeping x.2 = sleeping (st s).2 →
  (q = ids telling (upd st s x) ∨ q = reverse (ids telling (upd st s x))) →
  b' = (if b : bool then [2%nat] else []) →
  objs_ok st r objs → objs_ok (upd st s x) (r.1, b) (<[ep := Endpoint q b']> objs).
Proof.
  intros Hh Hq Hs Hids -> [Hl Hcv He Hb]. pose proof (addr_ne s) as (_ & _ & _ & Hle & _ & Heb).
  constructor.
  - rewrite lookup_insert_ne by done. rewrite Hl, !(or_side (λ t, holding (_ t).2) s).
    rewrite upd_same, upd_other, Hh. unfold ids. destruct s; cbn; by rewrite Hq.
  - intros t. rewrite lookup_insert_ne by apply addr_ne. rewrite Hcv, upd_eq.
    by destruct (decide _) as [->|]; rewrite ?Hs.
  - exists q. by rewrite lookup_insert_eq.
  - by rewrite lookup_insert_ne.
Qed.

(** The parent takes the report of [s]. *)
Lemma parent_wakes r b :
  (r < 2)%nat → wake (Msg 0 []) (parent_of (r, b)) = parent_of (S r, false).
Proof. intros Hr. destruct r as [|[|]]; [done|done|lia]. Qed.

(** The counts after the report of a side. *)
Lemma reported s x st r :
  told (st s).2 = false → told x.2 = true →
  r = ((if told (st Producer).2 then 1 else 0) + (if told (st Consumer).2 then 1 else 0))%nat →
  S r = ((if told (upd st s x Producer).2 then 1 else 0) + (if told (upd st s x Consumer).2 then 1 else 0))%nat.
Proof. intros Hs Hx ->. destruct s; cbn; rewrite Hs, Hx; lia. Qed.
Lemma unreported s x st :
  told (st s).2 = told x.2 →
  ((if told (upd st s x Producer).2 then 1 else 0) + (if told (upd st s x Consumer).2 then 1 else 0) =
   (if told (st Producer).2 then 1 else 0) + (if told (st Consumer).2 then 1 else 0))%nat.
Proof. intros Hs. destruct s; cbn; by rewrite Hs. Qed.

Lemma step_telling s i v st r h objs m rs :
  state_ok st r h objs m rs → st s = (i, Telling) → steps (tid s) v st r objs m rs.
Proof.
  intros Hst E. pose proof (coherent_at _ _ _ _ _ _ _ _ _ Hst E) as Hc.
  destruct (objects_ok _ _ _ _ _ _ Hst) as [_ _ (q & Hq & Hids) _].
  pose proof (reports_ok _ _ _ _ _ _ Hst) as Hrep. pose proof (parent_ok _ _ _ _ _ _ Hst) as Hpar.
  assert (next (tid s) v (Config (threads_of st r) objs m rs) =
    transmit (tid s) ep (Msg 0 []) false (Config (threads_of st r) objs m rs)) as Hn by (by performs E).
  unfold transmit in Hn. cbn in Hn. rewrite Hq in Hn. destruct r as [got [|]]; cbn in *.
  - destruct (Hpar eq_refl) as [Hgot Hnone]. rewrite Hnone in Hids.
    assert (q = []) as -> by (by destruct Hids).
    assert (ids telling (upd st s (i, Ending)) = []) as Hnone'.
    { rewrite <-Hnone. unfold ids. destruct s; cbn; by rewrite E. }
    exists (upd st s (i, Ending)), (S got, false), h, (<[ep := Endpoint [] []]> objs), m, rs.
    split; [|split].
    + rewrite Hn. prim. erewrite on_parent by (by apply parent_wakes). cbn. on_side_of E.
    + rewrite !(weight_side s), upd_same, upd_other, E. unfold side_weight, parent_weight.
      cbn -[runs lap Nat.mul]. lia.
    + constructor; [by apply coherent_upd; coherence| | | |done].
      * apply (objs_report s (i, Ending) [] false st (S got, true)); [by rewrite E..| |done|].
        { left. by rewrite Hnone'. }
        destruct (objects_ok _ _ _ _ _ _ Hst) as [A B C D]. by constructor.
      * apply data_move; [by rewrite E|done|apply Hst].
      * by apply reported; [rewrite E| |].
  - exists (upd st s (i, Told)), (got, false), h, (<[ep := Endpoint (q ++ [tid s]) []]> objs), m, rs.
    split; [|split].
    + rewrite Hn. on_side_of E.
    + rewrite !(weight_side s), upd_same, upd_other, E. unfold side_weight.
      cbn -[runs lap Nat.mul]. lia.
    + constructor; [by apply coherent_upd; coherence| | | |done].
      * apply (objs_report s (i, Told) _ false st (got, false)); [by rewrite E..| |done|apply Hst].
        unfold ids in *. destruct s; cbn in *; rewrite E in Hids; cbn in Hids.
        { destruct (telling (st Consumer).2); cbn in *; destruct Hids as [-> | ->]; cbn; auto. }
        { destruct (telling (st Producer).2); cbn in *; destruct Hids as [-> | ->]; cbn; auto. }
      * apply data_move; [by rewrite E|done|apply Hst].
      * rewrite unreported; [done|by rewrite E].
Qed.

Lemma step_parent got v st h objs m rs :
  state_ok st (got, false) h objs m rs → (got < 2)%nat → steps 2 v st (got, false) objs m rs.
Proof.
  intros Hst Hgot. destruct (objects_ok _ _ _ _ _ _ Hst) as [_ _ (q & Hq & Hids) _].
  assert (next 2 v (Config (threads_of st (got, false)) objs m rs) =
    receive 2 ep (Config (threads_of st (got, false)) objs m rs)) as Hn
    by (destruct got as [|[|]]; [done|done|lia]).
  unfold receive in Hn. cbn in Hn. rewrite Hq in Hn.
  destruct q as [|t q]; cbn in Hn.
  - assert (ids telling st = []) as Hnone.
    { destruct Hids as [<-|Hids]; [done|]. destruct (ids telling st) as [|x y]; [done|].
      rewrite reverse_cons in Hids. by destruct (reverse y). }
    exists st, (got, true), h, (<[ep := Endpoint [] [2%nat]]> objs), m, rs. split; [|split].
    + rewrite Hn. prim. by erewrite (on_parent _ (got, true)).
    + unfold weight, parent_weight. cbn. lia.
    + destruct Hst as [A B C D F]. constructor; [done| |done|done|done].
      pose proof (addr_ne Producer) as (_ & _ & _ & Hle & _ & Heb). destruct B as [B1 B2 B3 B4].
      constructor; [by rewrite lookup_insert_ne| | |by rewrite lookup_insert_ne].
      * intros s. rewrite lookup_insert_ne by apply addr_ne. apply B2.
      * rewrite lookup_insert_eq, Hnone. by exists []; split; [|left].
  - assert (∃ s, tid s = t ∧ telling (st s).2 = true ∧
      (q = ids telling (upd st s ((st s).1, Ending)) ∨ q = reverse (ids telling (upd st s ((st s).1, Ending)))))
      as (s & <- & Hs & Hids').
    { unfold ids in *. destruct (telling (st Producer).2) eqn:HP, (telling (st Consumer).2) eqn:HC;
        cbn in Hids; destruct Hids as [Hids|Hids]; simplify_eq;
        (exists Producer; split_and!; [done|done|]; cbn; rewrite ?HC; auto; fail) ||
        (exists Consumer; split_and!; [done|done|]; cbn; rewrite ?HP; auto). }
    destruct (st s) as [i x] eqn:E. destruct x; try done. cbn in Hids'.
    pose proof (coherent_at _ _ _ _ _ _ _ _ _ Hst E) as Hc.
    exists (upd st s (i, Ending)), (S got, false), h, (<[ep := Endpoint q []]> objs), m, rs.
    split; [|split].
    + rewrite Hn. cbn. rewrite threads_lookup, E. cbn. prim.
      erewrite on_parent by (by apply parent_wakes). cbn. on_side_of E.
    + rewrite !(weight_side s), upd_same, upd_other, E. unfold side_weight, parent_weight.
      cbn -[runs lap Nat.mul]. lia.
    + constructor; [by apply coherent_upd; coherence| | | |done].
      * apply (objs_report s (i, Ending) q false st (S got, false)); [by rewrite E..|done|done|].
        destruct (objects_ok _ _ _ _ _ _ Hst) as [A B C D]. by constructor.
      * apply data_move; [by rewrite E|done|apply Hst].
      * apply reported; [by rewrite E|done|]. apply (reports_ok _ _ _ _ _ _ Hst).
Qed.

(** ** Runs *)

(** Every ready thread can make its step, which keeps the invariant. *)
Lemma ready_steps t th v st r h objs m rs :
  state_ok st r h objs m rs → threads_of st r !! t = Some th → ready th = true →
  steps t v st r objs m rs.
Proof.
  intros Hst Ht Hr. destruct (decide (t = 2%nat)) as [->|H2].
  - injection Ht as <-. destruct r as [got [|]]; [done|].
    eapply step_parent; [exact Hst|]. destruct got as [|[|]]; [lia|lia|done].
  - assert (∃ s, t = tid s) as [s ->].
    { destruct t as [|[|[|]]]; [by exists Producer|by exists Consumer|done|done]. }
    rewrite threads_lookup in Ht. injection Ht as <-. destruct (st s) as [i x] eqn:E.
    destruct x; try done.
    + destruct (holding (st (other s)).2) eqn:Hh; [by eapply step_queue|by eapply step_acquire].
    + by eapply step_check.
    + by eapply step_leave.
    + by eapply step_turn0.
    + by eapply step_turn1.
    + by eapply step_turn2.
    + by eapply step_turn3.
    + by eapply step_turn4.
    + by eapply step_turn5.
    + by eapply step_signal6.
    + by eapply step_signal.
    + by eapply step_post.
    + by eapply step_telling.
    + by eapply step_ending.
Qed.

Arguments turns : simpl never.
Arguments on_turn : simpl never.
Arguments runs : simpl never.

(** Not both sides are blocked before both have reported. *)
Lemma some_runs st r h objs m rs :
  state_ok st r h objs m rs → (r.1 < 2)%nat → r.2 = true → ∃ s, stops (st s).2 = false.
Proof.
  intros Hst Hgot Hr. destruct (parent_ok _ _ _ _ _ _ Hst Hr) as [_ Htell].
  pose proof (reports_ok _ _ _ _ _ _ Hst) as Hrep.
  pose proof (coherent_ok _ _ _ _ _ _ Hst Producer) as (Hp & Hc & _ & Hqp & Hqc).
  destruct (stops (st Producer).2) eqn:SP; [|by exists Producer].
  destruct (stops (st Consumer).2) eqn:SC; [|by exists Consumer]. exfalso.
  pose proof (turns_close Producer (length h)) as T1. pose proof (turns_close Consumer (length h)) as T2.
  pose proof (turns_balance Producer (length h)) as T3. pose proof (turns_balance Consumer (length h)) as T4.
  pose proof (on_turn_other Producer (length h)) as T5. cbn [other] in *. unfold ids in Htell.
  destruct (st Producer) as [i x], (st Consumer) as [j y].
  destruct x, y; cbn in Hp, Hc, Hqp, Hqc, SP, SC, Htell, Hrep; try discriminate; try lia;
    try (by specialize (Hqp eq_refl)); try (by specialize (Hqc eq_refl)); intuition (lia || congruence).
Qed.

Lemma side_ready s x y n : stage_ok s x y n → stops x.2 = false → ready (thread_of s x) = true.
Proof.
  destruct x as [i x]. intros Hx Hs.
  assert (∃ X (e : sys X) k, code_at s (i, x) = Op e k) as (X & e & k & Ek).
  { destruct x; try (by do 3 eexists); try done.
    - destruct f; [destruct Hx as (_ & _ & ? & _); lia|].
      destruct (checking_load s i f) as (k & Ek & _). by do 3 eexists.
    - destruct (turn3_load s i) as (k & Ek & _). by do 3 eexists. }
  unfold ready, thread_of. cbn [blocked code]. by rewrite Ek, Hs.
Qed.

(** The invariant is kept, and leads to the parent's return. *)
Definition parent_done (c : config) : Prop :=
  ∃ st r h objs m rs, c = Config (threads_of st r) objs m rs ∧ (2 <= r.1)%nat ∧ state_ok st r h objs m rs.

Lemma inv_step n c c' : inv n c → step c c' → ∃ n', (n' < n)%nat ∧ inv n' c'.
Proof.
  intros (st & r & h & objs & m & rs & -> & -> & Hst) [t v (th & Ht & Hr & _) Hv Hn].
  destruct (ready_steps t th v _ _ _ _ _ _ Hst Ht Hr) as (st' & r' & h' & objs' & m' & rs' & Hn' & Hw & Hst').
  rewrite Hn in Hn'. injection Hn' as ->. exists (weight st' r'). split; [done|].
  by exists st', r', h', objs', m', rs'.
Qed.

Lemma inv_progress n c : inv n c → parent_done c ∨ ∃ c', step c c'.
Proof.
  intros (st & r & h & objs & m & rs & -> & -> & Hst).
  destruct (decide (2 <= r.1)%nat) as [Hge|Hlt]; [left; by exists st, r, h, objs, m, rs|right].
  assert (∃ t th, threads_of st r !! t = Some th ∧ ready th = true) as (t & th & Ht & Hr).
  { destruct (r.2) eqn:Hb.
    - destruct (some_runs st r h objs m rs Hst ltac:(lia) Hb) as [s Hs].
      exists (tid s), (thread_of s (st s)). split; [apply threads_lookup|].
      eapply side_ready; [apply (coherent_ok _ _ _ _ _ _ Hst s)|done].
    - exists 2%nat, (parent_of r). split; [done|]. destruct r as [[|[|]] b]; cbn in *; [by subst..|lia]. }
  destruct (eligible_exists (Config (threads_of st r) objs m rs) t th Ht Hr) as (u & Hel).
  destruct Hel as (thu & Hu & Hru & Hmax).
  destruct (ready_steps u thu 0 _ _ _ _ _ _ Hst Hu Hru) as (st' & r' & h' & objs' & m' & rs' & Hn & _).
  eexists. apply (step_run _ _ u 0); [|apply in_word_0, ccnt_bits_nonneg|exact Hn]. by exists thu.
Qed.

Lemma inv_ends n c : inv n c → eventually parent_done c.
Proof.
  intros Hi. apply (eventually_measure inv parent_done) with (n := n); [|done]. clear n c Hi.
  intros n c Hi. destruct (inv_progress n c Hi) as [Hd|Hs]; [by left|right].
  split; [done|]. intros c' Hc'. by eapply inv_step.
Qed.

(** The beginning: both threads at their first turn, the queue empty. *)
Definition initially (fuel0 : nat) (objs : gmap Z object) (m : heap) : config :=
  Config
    [Thread (pr Producer) (fe Producer) false None
       (producer_func0 fuel0 (producer_args ep blk lock pcv ccv (Ptr hb 0) (Ptr pb 0) (Ptr cb 0) (Ptr rb poff)));
     Thread (pr Consumer) (fe Consumer) false None
       (consumer_func0 fuel0 (consumer_args ep blk lock pcv ccv (Ptr hb 0) (Ptr pb 0) (Ptr cb 0) (Ptr rb coff)));
     Thread pp pf false None (wait_children ep 2)] objs m [].

Definition fresh_objects (objs : gmap Z object) : Prop :=
  objs !! lock = Some (BinSem true []) ∧ objs !! pcv = Some (CondVar []) ∧
  objs !! ccv = Some (CondVar []) ∧ objs !! ep = Some (Endpoint [] []) ∧ objs !! blk = Some (Endpoint [] []).

Lemma inv_initially x objs m :
  fresh_objects objs → holds m hb [0] → holds m pb [g] → holds m cb [x] → holds m rb l →
  ∃ n, inv n (initially fuel objs m).
Proof.
  intros (Hlock & Hpcv & Hccv & Hep & Hblk) Hh Hp Hc Hr. eexists.
  exists (λ _, (0%nat, Locking fuel)), (0%nat, false), [], objs, m, []. split; [|split; [reflexivity|]].
  - unfold initially, threads_of, thread_of.
    rewrite <-!iter_locking by (by apply Nat.ltb_lt). done.
  - constructor.
    + assert (∀ s, stage_ok s (0%nat, Locking fuel) (0%nat, Locking fuel) 0) as Hok.
      { intros []; split_and!; [done|by apply Nat.ltb_lt|lia|by right|done|by apply Nat.ltb_lt|lia|by right]. }
      intros s. by split_and!.
    + constructor; [done| |by exists []; split; [|left]|by eexists]. intros [|]; done.
    + exists Producer. split; [done|]. constructor; [done|by exists g, x|done|done|].
      exists l. split_and!; [done|done|by intros [|j] d|done].
    + done.
    + done.
Qed.

Lemma slot_even k : slot (2 * k) = (Z.to_nat poff + k)%nat.
Proof. unfold slot. rewrite decide_True by lia. lia. Qed.
Lemma slot_odd k : slot (2 * k + 1) = (Z.to_nat coff + k)%nat.
Proof. unfold slot. rewrite decide_False by lia. lia. Qed.

(** When both sides have reported, every turn is over. *)
Lemma parent_done_turns st r h objs m rs :
  state_ok st r h objs m rs → (2 <= r.1)%nat →
  length h = (2 * runs)%nat ∧ data_ok Producer (st Producer).2 (st Consumer).2 h m rs ∧
  told (st Producer).2 = true ∧ told (st Consumer).2 = true.
Proof.
  intros Hst Hr. pose proof (reports_ok _ _ _ _ _ _ Hst) as Hrep. rewrite Hrep in Hr.
  assert (told (st Producer).2 = true ∧ told (st Consumer).2 = true) as [HP HC].
  { destruct (told (st Producer).2), (told (st Consumer).2); [done|lia..]. }
  destruct (coherent_ok _ _ _ _ _ _ Hst Producer) as (Hp & Hc & _). cbn [other] in *.
  destruct (st Producer) as [i x] eqn:EP, (st Consumer) as [j y] eqn:EC. cbn [snd] in *.
  assert (turns Producer (length h) = runs) as TP by (by destruct x).
  assert (turns Consumer (length h) = runs) as TC by (by destruct y).
  assert (on_turn Producer (length h) ∧ length h = (2 * runs)%nat) as [Ht Hn].
  { unfold turns, on_turn in *. cbn [tid] in *. lia. }
  split; [done|]. split; [|done].
  pose proof (turn_data _ _ _ _ _ _ _ _ _ Hst EP Ht) as Hd. cbn [other] in Hd. by rewrite EC in Hd.
Qed.

(** C30.  The producer-consumer benchmark ends, for every kernel, at any
    priorities and under every schedule, with [N_RUNS] items handed over: both
    threads report, the parent's two waits return and the queue is empty.  The
    counter was read in [2 * N_RUNS] turns, the producer's and the consumer's
    alternating, each with a reading at its start and one at its signal, never
    interleaved.  The [k]-th result of each side is the time from the signal of
    the turn before to the start of its own; the first of the producer is
    measured from whatever its start variable held.  Nothing else in the
    results has changed.  Two checks of the condition are enough: a woken
    thread always finds the queue as it needs it. *)
Theorem producer_consumer_measured x objs m :
  fresh_objects objs → holds m hb [0] → holds m pb [g] → holds m cb [x] → holds m rb l →
  eventually (λ c, returned 2 c ∧ holds (mem c) hb [0] ∧ ∃ h lr,
    length h = (2 * runs)%nat ∧ readings c = turn_log Producer h ∧
    holds (mem c) rb lr ∧ length lr = length l ∧
    (∀ k, (k < runs)%nat →
       lr !! (Z.to_nat poff + k)%nat = waits ccnt_bits g h !! (2 * k)%nat ∧
       lr !! (Z.to_nat coff + k)%nat = waits ccnt_bits g h !! (2 * k + 1)%nat) ∧
    (∀ j, (∀ k, (k < runs)%nat → j ≠ (Z.to_nat poff + k)%nat ∧ j ≠ (Z.to_nat coff + k)%nat) →
       lr !! j = l !! j)) (initially fuel objs m).
Proof.
  intros Ho Hh Hp Hc Hr. destruct (inv_initially x objs m Ho Hh Hp Hc Hr) as [n Hi].
  apply (eventually_mono parent_done); [|by eapply inv_ends].
  intros c (st & r & h & objs' & m' & rs & -> & Hge & Hst).
  destruct (parent_done_turns _ _ _ _ _ _ Hst Hge) as (Hn & [Hh' _ _ Hl (lr & Hlr & Hlen & Hw & Hf)] & HP & HC).
  split; [eexists; split; [reflexivity|]; destruct r as [[|[|]] b]; [cbn in Hge; lia..|done]|].
  assert (pending (st Producer).2 = None ∧ stored (st Producer).2 = None ∧
    head_value Producer (st Producer).2 = 0) as (P1 & P2 & P3) by (by destruct (st Producer).2).
  rewrite P3 in Hh'. rewrite P1, app_nil_r in Hl. rewrite P2, app_nil_r in Hw.
  split; [done|]. exists h, lr. split_and!; try done.
  - intros k Hk. assert (∀ j, (j < length h)%nat → lr !! slot j = waits ccnt_bits g h !! j) as Hj.
    { intros j Hj. destruct (lookup_lt_is_Some_2 (waits ccnt_bits g h) j) as [d Hd]; [by rewrite length_waits|].
      by rewrite Hd, (Hw j d). }
    rewrite <-slot_even, <-slot_odd. split; apply Hj; lia.
  - intros j Hj. apply Hf. intros k Hk. destruct (Nat.even k) eqn:Ek.
    + apply Nat.even_spec in Ek as [k' ->]. rewrite slot_even. apply Hj. lia.
    + assert (∃ k', k = (2 * k' + 1)%nat) as [k' ->].
      { apply Nat.odd_spec. by rewrite <-Nat.negb_even, Ek. }
      rewrite slot_odd. apply Hj. lia.
Qed.

Lemma reachable_inv n c c' : inv n c → reachable c c' → ∃ n', inv n' c'.
Proof.
  intros Hi. apply (reachable_invariant (λ c, ∃ n, inv n c)); [by exists n|].
  intros c1 c2 [n1 Hi1] Hs. destruct (inv_step _ _ _ Hi1 Hs) as (n2 & _ & Hi2). by exists n2.
Qed.

(** C31.  In every configuration a run of the benchmark can come to, the queue
    holds between 0 and [FIFO_SIZE] items; the counter has been read in whole
    turns, the producer's and the consumer's alternating, and at most one turn
    is under way, by the side whose turn it is: the lock excludes the two from
    each other, and no signal is lost; and no thread that may run is stuck:
    every access it makes is defined, and every call has a documented
    outcome. *)
Theorem producer_consumer_invariant x objs m c :
  fresh_objects objs → holds m hb [0] → holds m pb [g] → holds m cb [x] → holds m rb l →
  reachable (initially fuel objs m) c →
  (∃ n, holds (mem c) hb [n] ∧ 0 <= n <= FIFO_SIZE) ∧
  (∃ h p, readings c = turn_log Producer h ++ p ∧
     (p = [] ∨ ∃ s e, on_turn s (length h) ∧ p = [(tid s, e)])) ∧
  (∀ t th v, threads c !! t = Some th → ready th = true → ∃ c', next t v c = Some c').
Proof.
  intros Ho Hh Hp Hc Hr Hreach. destruct (inv_initially x objs m Ho Hh Hp Hc Hr) as [n Hi].
  destruct (reachable_inv _ _ _ Hi Hreach) as (n' & st & r & h & objs' & m' & rs & -> & _ & Hst).
  split; [|split].
  - destruct (memory_ok _ _ _ _ _ _ Hst) as (s & _ & [Hhead _ _ _ _]).
    eexists. split; [exact Hhead|]. unfold head_value, limit, FIFO_SIZE. destruct s, (st _).2; cbn; lia.
  - destruct (memory_ok _ _ _ _ _ _ Hst) as (s & Hs & [_ _ _ Hl _]).
    exists h. eexists. split; [exact Hl|]. destruct (pending (st s).2) as [e|]; [right|by left].
    by exists s, e.
  - intros t th v Ht Hrt. destruct (ready_steps t th v _ _ _ _ _ _ Hst Ht Hrt)
      as (st' & r' & h' & objs1 & m1 & rs1 & Hn & _). by eexists.
Qed.
End run.

(** On x86_64: the lock at 30, the condition variables at 31 and 32, endpoints
    12 and 13; the producer has the higher priority. *)
Definition example_sync_objects : gmap Z object :=
  {[30 := BinSem true []; 31 := CondVar []; 32 := CondVar []; 12 := Endpoint [] []; 13 := Endpoint [] []]}.
Definition example_sync_heap : heap :=
  Heap {[1%positive := [0]; 2%positive := [77]; 3%positive := [5]; 4%positive := replicate 1546 9]} 0.
Definition example_sync_config : config :=
  @initially x86_64 (λ s, match s with Producer => 200 | Consumer => 100 end) (λ _, 0) 255 0
    30 31 32 12 13 1 2 3 4 1485 1430 2 example_sync_objects example_sync_heap.

Lemma example_addresses : NoDup [30; 31; 32; 12; 13].
Proof. repeat (apply list.NoDup_cons; split; [set_solver|]). constructor. Qed.
Lemma example_blocks : NoDup [1; 2; 3; 4]%positive.
Proof. repeat (apply list.NoDup_cons; split; [set_solver|]). constructor. Qed.

Lemma producer_consumer_measured_witness :
  @eventually x86_64 example_abi (example_kernel x86_64) (λ c, returned 2 c ∧ holds (mem c) 1 [0] ∧ ∃ h lr,
    length h = (2 * runs)%nat ∧ readings c = turn_log Producer h ∧
    holds (mem c) 4 lr ∧ length lr = length (replicate 1546 9) ∧
    (∀ k, (k < runs)%nat →
       lr !! (Z.to_nat 1485 + k)%nat = waits 64 77 h !! (2 * k)%nat ∧
       lr !! (Z.to_nat 1430 + k)%nat = waits 64 77 h !! (2 * k + 1)%nat) ∧
    (∀ j, (∀ k, (k < runs)%nat → j ≠ (Z.to_nat 1485 + k)%nat ∧ j ≠ (Z.to_nat 1430 + k)%nat) →
       lr !! j = replicate 1546 9 !! j)) example_sync_config.
Proof.
  apply (@producer_consumer_measured x86_64 example_abi (example_kernel x86_64) 2 ltac:(lia)
    (λ s, match s with Producer => 200 | Consumer => 100 end) (λ _, 0) 255 0 30 31 32 12 13 example_addresses 1 2 3 4
    example_blocks 1485 1430 ltac:(done) ltac:(done) ltac:(by right)
    77 (replicate 1546 9) ltac:(done) ltac:(done) 5); by vm_compute.
Defined.

Lemma producer_consumer_invariant_witness :
  @reachable x86_64 example_abi (example_kernel x86_64) example_sync_config example_sync_config ∧
  (∃ n, holds (mem example_sync_config) 1 [n] ∧ 0 <= n <= FIFO_SIZE) ∧
  (∃ h p, readings example_sync_config = turn_log Producer h ++ p ∧
     (p = [] ∨ ∃ s e, on_turn s (length h) ∧ p = [(tid s, e)])) ∧
  (∀ t th v, threads example_sync_config !! t = Some th → ready th = true →
     ∃ c', @next x86_64 example_abi t v example_sync_config = Some c').
Proof.
  split; [apply rtc_refl|].
  apply (@producer_consumer_invariant x86_64 example_abi (example_kernel x86_64) 2 ltac:(lia)
    (λ s, match s with Producer => 200 | Consumer => 100 end) (λ _, 0) 255 0 30 31 32 12 13
    example_addresses 1 2 3 4 example_blocks 1485 1430 ltac:(done) ltac:(done) ltac:(by right)
    77 (replicate 1546 9) ltac:(done) ltac:(done) 5 example_sync_objects example_sync_heap);
    [by vm_compute..|apply rtc_refl].
Defined.
