(* ===== verification/IpcApp.v ===== *)
(** * IpcApp: the IPC benchmark

    [apps/ipc/src/main.c]: the client and server functions that time one
    direction of an IPC, the overhead loops with their retries, and the runs
    over the table of IpcParams.  The configuration options that choose the
    counter and the cache operation are a parameter.  The functions read their
    capabilities with [atoi]; a slot number fits an [int], and the narrowing is
    left out. *)

From S2P Require Import Prelude Platform Memory Program Collect Support Threads Measuring IpcParams.

(** ** Configuration *)

Inductive cache_config :=
  | CLEAN_L1 (caches : Z)
  | DIRTY_L1_DCACHE (pollute_array : ptr) (lines ints_per_line : Z)
  | NO_CACHE_FUNC.

Class IpcConfig := {
  CONFIG_CYCLE_COUNT : bool;
  CONFIG_GENERIC_COUNTER : option Z;
  CONFIG_PLATFORM_COUNTER : option Z;
  CACHE : cache_config;
  SEL4UTILS_REPLY_SLOT : Z;
  seL4_TCBFlag_NoFlag : Z;
  seL4_TCBFlag_fpuDisabled : Z;
}.

Section app.
Context `{Platform} `{IpcConfig}.

Definition NUM_ARGS : Z := 3.
Definition WARMUPS : Z := RUNS.
Definition OVERHEAD_RETRIES : nat := 4.
Definition GENERIC_COUNTER_MASK : Z := 1.
Definition POLLUTE_RUNS : Z := 5.

(** [struct ipc_results], in [ccnt_t]. *)
Definition ipc_layout : layout :=
  [("overhead_benchmarks", NUM_OVERHEAD_BENCHMARKS * RUNS);
   ("benchmarks", NUM_BENCHMARKS * RUNS)]%string.

Definition abort (env : Env.env_t) : proc unit := finished env 1.

(** [READ_COUNTER_BEFORE], [READ_COUNTER_AFTER] *)
Definition READ_COUNTER : proc Z :=
  if CONFIG_CYCLE_COUNT then SEL4BENCH_READ_CCNT
  else sys_call "sel4bench_get_counters" [Vint GENERIC_COUNTER_MASK].

Definition count_event (event : Z) : proc unit :=
  sys_do "sel4bench_set_count_event" [Vint 0; Vint event];;
  sys_do "sel4bench_reset_counters" [];;
  sys_do "sel4bench_start_counters" [Vint GENERIC_COUNTER_MASK].

Definition timing_init : proc unit :=
  sys_do "sel4bench_init" [];;
  match CONFIG_GENERIC_COUNTER with Some event => count_event event | None => mret tt end;;
  match CONFIG_PLATFORM_COUNTER with Some event => count_event event | None => mret tt end.

Definition timing_destroy : proc unit :=
  match CONFIG_GENERIC_COUNTER with
  | Some _ => sys_do "sel4bench_stop_counters" [Vint GENERIC_COUNTER_MASK];;
              sys_do "sel4bench_destroy" []
  | None => mret tt
  end.

Definition dummy_cache_func : proc unit := mret tt.
Definition CACHE_FUNC : proc unit :=
  match CACHE with
  | CLEAN_L1 caches => sys_do "seL4_BenchmarkFlushL1Caches" [Vint caches]
  | DIRTY_L1_DCACHE pollute_array lines ints_per_line =>
      for_to POLLUTE_RUNS (λ _, for_to ints_per_line (λ j, for_to lines (λ k,
        x ← load_from pollute_array (k * ints_per_line + j);
        store_to pollute_array (k * ints_per_line + j) (x + 1))))
  | NO_CACHE_FUNC => dummy_cache_func
  end.

(** A message of [length] registers, the contents of which nobody reads. *)
Definition tag (length : Z) : message := Msg 0 (replicate (Z.to_nat length) 0).

(** *** Stubs *)
Definition DO_CALL (ep : Z) (m : message) (swi : instruction) : proc unit :=
  match swi with svc => _ ← perform (Call ep m); mret tt | nop => perform Nop end.
Definition DO_CALL_10 (ep : Z) (m : message) (swi : instruction) : proc unit :=
  match swi with svc => _ ← perform (Call ep m); mret tt | nop => perform Nop end.
Definition DO_SEND (ep : Z) (m : message) (swi : instruction) : proc unit :=
  match swi with svc => perform (Send ep m) | nop => perform Nop end.
Definition DO_REPLY_RECV (ep : Z) (m : message) (swi : instruction) : proc unit :=
  match swi with svc => _ ← perform (ReplyRecv ep m); mret tt | nop => perform Nop end.
Definition DO_REPLY_RECV_10 (ep : Z) (m : message) (swi : instruction) : proc unit :=
  match swi with svc => _ ← perform (ReplyRecv ep m); mret tt | nop => perform Nop end.
Definition DO_RECV (ep : Z) (swi : instruction) : proc unit :=
  match swi with svc => _ ← perform (Recv ep); mret tt | nop => perform Nop end.

Definition seL4_Call (ep : Z) (m : message) : proc unit := _ ← perform (Call ep m); mret tt.
Definition dummy_seL4_Send (ep : Z) (m : message) : proc unit := mret tt.
Definition dummy_seL4_Call (ep : Z) (m : message) : proc unit := mret tt.
Definition dummy_seL4_Reply (m : message) : proc unit := mret tt.
Definition api_reply (m : message) : proc unit := perform (Reply m).
Definition api_recv (ep : Z) : proc unit := _ ← perform (Recv ep); mret tt.

(** ** The client and the server

    The last readings of a loop that takes [WARMUPS] of them. *)
Definition warm_up (cache_func bench : proc unit) : proc (Z * Z) :=
  loop_acc (seqZ 0 WARMUPS) (0, 0) (λ _ _,
    cache_func;;
    start ← READ_COUNTER;
    bench;;
    end_ ← READ_COUNTER;
    mret (start, end_)).

(** [send_start_end] picks one of the two. *)
Definition start_ : Z * Z → Z := fst.
Definition end_ : Z * Z → Z := snd.

Definition IPC_CALL_FUNC (bench_func send_func call_func : Z → message → proc unit)
    (send_start_end : Z * Z → Z) (length : Z) (cache_func : proc unit) (argv : list val) : proc Z :=
  ep ← word_arg argv 0;
  result_ep ← word_arg argv 1;
  let m := tag length in
  call_func ep m;;
  times ← warm_up cache_func (bench_func ep m);
  send_result result_ep (send_start_end times);;
  send_func ep m;;
  seL4_Wait ep;;
  mret 0.

Definition DO_REAL_CALL ep m := DO_CALL ep m svc.
Definition DO_REAL_CALL_10 ep m := DO_CALL_10 ep m svc.
Definition DO_REAL_REPLY_RECV ep m := DO_REPLY_RECV ep m svc.
Definition DO_REAL_REPLY_RECV_10 ep m := DO_REPLY_RECV_10 ep m svc.
Definition DO_REAL_SEND ep m := DO_SEND ep m svc.
Definition DO_REAL_RECV ep := DO_RECV ep svc.

(** [seL4_Send] with a message. *)
Definition send_message (ep : Z) (m : message) : proc unit := perform (Send ep m).

Definition ipc_call_func : list val → proc Z :=
  IPC_CALL_FUNC DO_REAL_CALL send_message dummy_seL4_Call end_ 0 dummy_cache_func.
Definition ipc_call_func2 : list val → proc Z :=
  IPC_CALL_FUNC DO_REAL_CALL dummy_seL4_Send seL4_Call start_ 0 CACHE_FUNC.
Definition ipc_call_10_func : list val → proc Z :=
  IPC_CALL_FUNC DO_REAL_CALL_10 send_message dummy_seL4_Call end_ 10 dummy_cache_func.
Definition ipc_call_10_func2 : list val → proc Z :=
  IPC_CALL_FUNC DO_REAL_CALL_10 dummy_seL4_Send seL4_Call start_ 10 CACHE_FUNC.

Definition IPC_REPLY_RECV_FUNC (bench_func : Z → message → proc unit) (reply_func : message → proc unit)
    (recv_func : Z → proc unit) (send_start_end : Z * Z → Z) (length : Z) (cache_func : proc unit)
    (argv : list val) : proc Z :=
  let m := tag length in
  ep ← word_arg argv 0;
  result_ep ← word_arg argv 1;
  reply ← word_arg argv 2;
  (if CONFIG_KERNEL_MCS then _ ← perform (NBSendRecv ep m ep); mret tt else recv_func ep);;
  times ← warm_up cache_func (bench_func ep m);
  reply_func m;;
  send_result result_ep (send_start_end times);;
  seL4_Wait ep;;
  mret 0.

Definition ipc_replyrecv_func2 : list val → proc Z :=
  IPC_REPLY_RECV_FUNC DO_REAL_REPLY_RECV api_reply api_recv end_ 0 dummy_cache_func.
Definition ipc_replyrecv_func : list val → proc Z :=
  IPC_REPLY_RECV_FUNC DO_REAL_REPLY_RECV dummy_seL4_Reply api_recv start_ 0 CACHE_FUNC.
Definition ipc_replyrecv_10_func2 : list val → proc Z :=
  IPC_REPLY_RECV_FUNC DO_REAL_REPLY_RECV_10 api_reply api_recv end_ 10 dummy_cache_func.
Definition ipc_replyrecv_10_func : list val → proc Z :=
  IPC_REPLY_RECV_FUNC DO_REAL_REPLY_RECV_10 dummy_seL4_Reply api_recv start_ 10 CACHE_FUNC.

Definition ipc_recv_func (argv : list val) : proc Z :=
  ep ← word_arg argv 0;
  result_ep ← word_arg argv 1;
  reply ← word_arg argv 2;
  times ← warm_up (mret tt) (DO_REAL_RECV ep);
  DO_REAL_RECV ep;;
  send_result result_ep (end_ times);;
  mret 0.

Definition ipc_send_func (argv : list val) : proc Z :=
  ep ← word_arg argv 0;
  result_ep ← word_arg argv 1;
  let m := tag 0 in
  times ← warm_up (mret tt) (DO_REAL_SEND ep m);
  send_result result_ep (start_ times);;
  DO_REAL_SEND ep m;;
  mret 0.

(** [bench_funcs[]]: what a thread given that entry point runs. *)
Definition bench_funcs (f : helper_func_id_t) : list val → proc Z :=
  match f with
  | IpcParams.IPC_CALL_FUNC => ipc_call_func
  | IPC_CALL_FUNC2 => ipc_call_func2
  | IPC_CALL_10_FUNC => ipc_call_10_func
  | IPC_CALL_10_FUNC2 => ipc_call_10_func2
  | IPC_REPLYRECV_FUNC2 => ipc_replyrecv_func2
  | IPC_REPLYRECV_FUNC => ipc_replyrecv_func
  | IPC_REPLYRECV_10_FUNC2 => ipc_replyrecv_10_func2
  | IPC_REPLYRECV_10_FUNC => ipc_replyrecv_10_func
  | IPC_SEND_FUNC => ipc_send_func
  | IPC_RECV_FUNC => ipc_recv_func
  end.
(** The function's address. *)
Definition bench_func_name (f : helper_func_id_t) : string :=
  match f with
  | IpcParams.IPC_CALL_FUNC => "ipc_call_func"
  | IPC_CALL_FUNC2 => "ipc_call_func2"
  | IPC_CALL_10_FUNC => "ipc_call_10_func"
  | IPC_CALL_10_FUNC2 => "ipc_call_10_func2"
  | IPC_REPLYRECV_FUNC2 => "ipc_replyrecv_func2"
  | IPC_REPLYRECV_FUNC => "ipc_replyrecv_func"
  | IPC_REPLYRECV_10_FUNC2 => "ipc_replyrecv_10_func2"
  | IPC_REPLYRECV_10_FUNC => "ipc_replyrecv_10_func"
  | IPC_SEND_FUNC => "ipc_send_func"
  | IPC_RECV_FUNC => "ipc_recv_func"
  end%string.

(** ** Overheads *)

(** One pass over [dest]: its [j]-th element is the last of [WARMUPS]
    differences. *)
Definition overhead_pass (op : proc unit) (dest : ptr) : proc unit :=
  for_to RUNS (λ j,
    times ← warm_up (mret tt) op;
    store_to dest j (end_ times ⊟[ccnt_bits] start_ times)).

Definition row_stable (dest : ptr) : proc bool :=
  l ← read_array dest RUNS;
  match Stable.results_stable l RUNS with
  | Ok b => mret b
  | Fatal => Stop Abort
  | Undef => Stop Undefined
  end.

(** Passes until one is stable, [n] at most. *)
Fixpoint overhead_retries (n : nat) (op : proc unit) (dest : ptr) : proc unit :=
  match n with
  | O => mret tt
  | S n =>
      overhead_pass op dest;;
      stable ← row_stable dest;
      if (stable : bool) then mret tt else overhead_retries n op dest
  end.

Definition MEASURE_OVERHEAD (op : proc unit) (dest : ptr) : proc unit :=
  timing_init;;
  overhead_retries OVERHEAD_RETRIES op dest;;
  timing_destroy.

Definition overhead_row (results : ptr) (o : overheads) : ptr :=
  ptr_add (field ipc_layout results "overhead_benchmarks") (overhead_index o * RUNS).

Definition measure_overhead (results : ptr) : proc unit :=
  MEASURE_OVERHEAD (DO_CALL 0 (tag 0) nop) (overhead_row results CALL_OVERHEAD);;
  MEASURE_OVERHEAD (DO_REPLY_RECV 0 (tag 0) nop) (overhead_row results REPLY_RECV_OVERHEAD);;
  MEASURE_OVERHEAD (DO_SEND 0 (tag 0) nop) (overhead_row results SEND_OVERHEAD);;
  MEASURE_OVERHEAD (DO_RECV 0 nop) (overhead_row results RECV_OVERHEAD);;
  MEASURE_OVERHEAD (DO_CALL_10 0 (tag 10) nop) (overhead_row results CALL_10_OVERHEAD);;
  MEASURE_OVERHEAD (DO_REPLY_RECV_10 0 (tag 10) nop) (overhead_row results REPLY_RECV_10_OVERHEAD).

(** ** Running the table *)

(** [helper_thread_t], with the scheduling context of its process. *)
Record helper_thread_t := HelperThread {
  process : Process.process_t;
  sched_context : Z;
  argv : list val;
}.
Definition with_process (h : helper_thread_t) (p : Process.process_t) : helper_thread_t :=
  HelperThread p (sched_context h) (argv h).

Definition is_recv (f : helper_func_id_t) : bool := bool_decide (f = IPC_RECV_FUNC).

(** The two results, in the order they arrive; spawning updates the process. *)
Definition run_bench (result_ep ep : Z) (params : benchmark_params_t) (client server : helper_thread_t)
  : proc ((Z * Z) * (helper_thread_t * helper_thread_t)) :=
  timing_init;;
  '(error, p) ← spawn (process server) (argv server) true;
  fatal_if (negb (error =? 0));;
  let server := with_process server p in
  (if CONFIG_KERNEL_MCS && negb (is_recv (server_fn params)) then
     seL4_Wait ep;;
     if passive params then
       error ← sys_call "api_sc_unbind_object" [Vint (sched_context server); Vint (Process.tcb (process server))];
       fatal_if (negb (error =? 0))
     else mret tt
   else mret tt);;
  '(error, p) ← spawn (process client) (argv client) true;
  fatal_if (negb (error =? 0));;
  let client := with_process client p in
  ret1 ← get_result result_ep;
  (if CONFIG_KERNEL_MCS && negb (is_recv (server_fn params)) && passive params then
     error ← sys_call "api_sc_bind" [Vint (sched_context server); Vint (Process.tcb (process server))];
     fatal_if (negb (error =? 0))
   else mret tt);;
  ret2 ← get_result result_ep;
  _ ← TCB_Suspend (Process.tcb (process client));
  _ ← TCB_Suspend (Process.tcb (process server));
  timing_destroy;;
  mret ((ret1, ret2), (client, server)).

(** The stored time: the results arrive in either order. *)
Definition distance (end_ start : Z) : Z :=
  if start <? end_ then end_ ⊟[ccnt_bits] start else start ⊟[ccnt_bits] end_.

Definition set_entry_point (p : Process.process_t) (f : helper_func_id_t) : proc unit :=
  sys_do "entry_point" [Vint (Process.process_id p); Vfn (bench_func_name f)].
Definition set_fpu (tcb : Z) (fpu_on : bool) : proc unit :=
  from_support (Process.configure_fpu seL4_TCBFlag_NoFlag seL4_TCBFlag_fpuDisabled tcb fpu_on).

Record helpers := Helpers {
  client : helper_thread_t; server_thread : helper_thread_t; server_process : helper_thread_t }.

(** The server of a row, set up for it. *)
Definition set_up_server (auth : Z) (params : benchmark_params_t) (server : helper_thread_t) : proc unit :=
  let tcb := Process.tcb (process server) in
  set_fpu tcb (server_fpu params);;
  error ← TCB_SetPriority tcb auth (server_prio params);
  assert_that (error =? 0);;
  set_entry_point (process server) (server_fn params).

(** Row [j] of the table in iteration [i]. *)
Definition run_row (auth result_ep ep : Z) (results : ptr) (i j : Z) (params : benchmark_params_t)
    (h : helpers) : proc helpers :=
  let client_tcb := Process.tcb (process (client h)) in
  set_fpu client_tcb true;;
  error ← TCB_SetPriority client_tcb auth (client_prio params);
  fatal_if (negb (error =? 0));;
  set_entry_point (process (client h)) (client_fn params);;
  let server := if same_vspace params then server_thread h else server_process h in
  set_up_server auth params server;;
  '((end_, start), (c, s)) ← run_bench result_ep ep params (client h) server;
  store_to (ptr_add (field ipc_layout results "benchmarks") (j * RUNS)) i (distance end_ start);;
  mret (if same_vspace params then Helpers c s (server_process h) else Helpers c (server_thread h) s).

Definition copy_path (p : Process.process_t) (path : Z) : proc Z :=
  sys_call "sel4utils_copy_path_to_process" [Vint (Process.process_id p); Vint path].

(** The clones get entry point 0 and the table's later; [h0] are the locals
    before their arguments are set, [cspace], [vspace] and [pd] those of the
    client's process. *)
Definition main (rt : runtime) (h0 : helpers) (cspace vspace pd : Z) (results : ptr) (argc : Z) : proc unit :=
  env ← get_env rt argc (sizeof ipc_layout) 0;
  ep ← sys_alloc "vka_alloc_endpoint" [];
  ep_path ← sys_call "vka_cspace_make_path" [Vint ep];
  result_ep ← sys_alloc "vka_alloc_endpoint" [];
  result_ep_path ← sys_call "vka_cspace_make_path" [Vint result_ep];
  measure_overhead results;;
  from_support (Process.benchmark_shallow_clone_process
    (Process.process_id (process (client h0))) seL4_MinPrio (Vint 0));;
  from_support (Process.benchmark_shallow_clone_process
    (Process.process_id (process (server_process h0))) seL4_MinPrio (Vint 0));;
  from_support (Process.benchmark_configure_thread_in_process
    (Process.process_id (process (client h0))) cspace vspace pd
    (Process.process_id (process (server_thread h0))) seL4_MinPrio (Vint 0));;
  client_ep ← copy_path (process (client h0)) ep_path;
  client_result_ep ← copy_path (process (client h0)) result_ep_path;
  server_ep ← copy_path (process (server_process h0)) ep_path;
  server_result_ep ← copy_path (process (server_process h0)) result_ep_path;
  let with_args h ep result_ep reply :=
    HelperThread (process h) (sched_context h) [Vint ep; Vint result_ep; Vint reply] in
  let h := Helpers (with_args (client h0) client_ep client_result_ep 0)
                   (with_args (server_thread h0) client_ep client_result_ep SEL4UTILS_REPLY_SLOT)
                   (with_args (server_process h0) server_ep server_result_ep SEL4UTILS_REPLY_SLOT) in
  auth ← simple_get_tcb;
  loop_acc (seqZ 0 RUNS) h (λ i h,
    loop_acc (zip (seqZ 0 NUM_BENCHMARKS) benchmark_params) h (λ jp h,
      run_row auth result_ep ep results i jp.1 jp.2 h));;
  finished env 0.

End app.
