(* ===== verification/IpcProofs.v ===== *)
(** * IpcProofs: overheads and a timed call

    [apps/ipc/src/main.c] under the scheduler of [Threads], on configurations
    that read the cycle counter: the overhead loops stop at the first stable
    pass, and a call from the client to the server is timed from the client's
    last reading before it to the server's reading after it. *)

From S2P Require Import Prelude Platform Memory Program Collect Support Threads Measuring IpcParams.
From S2P Require Import IpcApp.

(** ** Overheads *)
Section overhead.
Context `{Platform} `{IpcConfig} `{FaultAbi} `{!Kernel}.
Context (Hcycle : CONFIG_CYCLE_COUNT = true).
Context (op : proc unit) (Hop : quiet op) (pr fe : Z) (objs : gmap Z object).

Notation alone := (alone pr fe objs).

(** The samples of one element: the last of them counts. *)
Notation group := (list (Z * Z)).
Definition last_sample (g : group) : Z * Z := default (0, 0) (list.last g).
Definition group_readings (gs : list group) : list (nat * Z) := gs ≫= interleaved 0 0.
Definition row (gs : list group) : list Z := elapsed ccnt_bits (last_sample <$> gs).
Definition whole_pass (gs : list group) : Prop :=
  Z.of_nat (length gs) = RUNS ∧ Forall (λ g : group, Z.of_nat (length g) = WARMUPS) gs.

Lemma read_counter : READ_COUNTER = SEL4BENCH_READ_CCNT.
Proof using Hcycle. unfold READ_COUNTER. by rewrite Hcycle. Qed.

(** The place of a subprogram in the program of a thread: its operations are
    the program's next ones. *)
Definition in_place {A} (C : proc A → proc unit) : Prop :=
  ∀ X (e : sys X) k, C (Op e k) = Op e (λ x, C (k x)).

Lemma warm_up_from (Q : config → Prop) (C : proc (Z * Z) → proc unit) m rs n g :
  in_place C →
  (∀ g' : group, length g' = (length g + n)%nat →
     eventually Q (alone (C (mret (last_sample g'))) m (rs ++ interleaved 0 0 g'))) →
  eventually Q (alone (C (loop_acc (seqZ (Z.of_nat (length g)) (Z.of_nat n)) (last_sample g)
    (λ _ _, mret tt;; start ← SEL4BENCH_READ_CCNT; op;; end_ ← SEL4BENCH_READ_CCNT; mret (start, end_))))
    m (rs ++ interleaved 0 0 g)).
Proof using Hop.
  intros HC. revert g. induction n as [|n IH]; intros g HQ; [apply HQ; lia|].
  rewrite seqZ_succ_l by lia. cbn [loop_acc].
  assert (∀ s e, eventually Q (alone (C (loop_acc (seqZ (Z.of_nat (length g) + 1) (Z.of_nat (S n) - 1)) (s, e)
    (λ _ _, mret tt;; start ← SEL4BENCH_READ_CCNT; op;; end_ ← SEL4BENCH_READ_CCNT; mret (start, end_))))
    m ((rs ++ interleaved 0 0 g) ++ [(0%nat, s); (0%nat, e)]))) as Hrest.
  { intros s e. assert ((s, e) = last_sample (g ++ [(s, e)])) as E
      by (unfold last_sample; by rewrite list.last_snoc).
    next_sample s e. pose proof (IH (g ++ [(s, e)])) as IH'. rewrite <-E in IH'.
    apply IH'. intros g' Hg'. apply HQ. rewrite Hg'. count_samples. }
  set (L := λ se, loop_acc _ se _) in *. unfold Measuring.alone in *.
  destruct Hop as [-> |[-> | ->]]; unfold SEL4BENCH_READ_CCNT, perform; cbn -[seqZ]; rewrite HC.
  all: run_as 0%nat s Hs; rewrite HC; try (run 0%nat; rewrite HC); run_as 0%nat e He;
    rewrite <-app_assoc; apply Hrest.
Qed.

Lemma warm_up_runs (Q : config → Prop) (C : proc (Z * Z) → proc unit) m rs :
  in_place C →
  (∀ g : group, Z.of_nat (length g) = WARMUPS →
     eventually Q (alone (C (mret (last_sample g))) m (rs ++ interleaved 0 0 g))) →
  eventually Q (alone (C (warm_up (mret tt) op)) m rs).
Proof using Hcycle Hop.
  intros HC HQ. unfold warm_up. rewrite read_counter. rewrite <-(app_nil_r rs).
  apply (warm_up_from Q C m rs (Z.to_nat WARMUPS) []); [done|]. intros g Hg. by apply HQ; rewrite Hg.
Qed.

Lemma row_snoc gs g : row (gs ++ [g]) = row gs ++ [(last_sample g).2 ⊟[ccnt_bits] (last_sample g).1].
Proof. unfold row. rewrite fmap_app. cbn. by rewrite elapsed_app. Qed.

Lemma length_row gs : length (row gs) = length gs.
Proof. unfold row. by rewrite length_elapsed, length_fmap. Qed.

(** Writing the same places again. *)
Lemma list_inserts_again {A} (n : nat) (k1 k2 l : list A) :
  length k1 = length k2 → list_inserts n k2 (list_inserts n k1 l) = list_inserts n k2 l.
Proof.
  intros Hk. apply list_eq. intros i.
  destruct (decide (n <= i < n + length k2)%nat) as [Hi|Hi].
  - destruct (decide (i < length l)%nat) as [Hl|Hl].
    + rewrite !list_lookup_inserts by (rewrite ?length_inserts; lia). done.
    + rewrite !lookup_ge_None_2 by (rewrite ?length_inserts; lia). done.
  - destruct (decide (i < n)%nat) as [Hn|Hn].
    + by rewrite !list_lookup_inserts_lt by lia.
    + by rewrite !list_lookup_inserts_ge by lia.
Qed.

Lemma group_readings_snoc gs g : group_readings (gs ++ [g]) = group_readings gs ++ interleaved 0 0 g.
Proof. unfold group_readings. rewrite bind_app. cbn. by rewrite app_nil_r. Qed.

(** One pass, after the groups it has stored. *)
Lemma pass_from (Q : config → Prop) rb off l (k : proc unit) rs n gs m :
  0 <= off → off + Z.of_nat (length gs + n) <= Z.of_nat (length l) →
  Forall (λ g : group, Z.of_nat (length g) = WARMUPS) gs →
  holds m rb (list_inserts (Z.to_nat off) (row gs) l) →
  (∀ m' gs', length gs' = (length gs + n)%nat →
     Forall (λ g : group, Z.of_nat (length g) = WARMUPS) gs' →
     holds m' rb (list_inserts (Z.to_nat off) (row gs') l) →
     eventually Q (alone k m' (rs ++ group_readings gs'))) →
  eventually Q (alone (loop (seqZ (Z.of_nat (length gs)) (Z.of_nat n)) (λ j,
    times ← warm_up (mret tt) op;
    store_to (Ptr rb off) j (end_ times ⊟[ccnt_bits] start_ times));; k) m (rs ++ group_readings gs)).
Proof using Hcycle Hop.
  intros Hoff. revert gs m. induction n as [|n IH]; intros gs m Hlen Hall Hr HQ; [apply HQ; [lia|done..]|].
  rewrite seqZ_succ_l by lia. cbn [loop].
  set (L := loop _ _). 
  apply (warm_up_runs Q (λ p, ((p ≫= λ times, store_to (Ptr rb off) (Z.of_nat (length gs))
    (end_ times ⊟[ccnt_bits] start_ times));; L);; k)); [done|]. intros g Hg.
  destruct (store_frame m rb _ off (Z.of_nat (length gs))
    ((last_sample g).2 ⊟[ccnt_bits] (last_sample g).1) Hr) as (m2 & E2 & Hr2 & Hf2).
  { rewrite length_inserts. lia. }
  unfold Measuring.alone, end_, start_ in *. run 0%nat.
  replace (Z.to_nat (off + Z.of_nat (length gs))) with (Z.to_nat off + length (row gs))%nat in Hr2
    by (rewrite length_row; lia).
  rewrite list_inserts_snoc, <-row_snoc in Hr2. rewrite <-app_assoc, <-group_readings_snoc.
  unfold L. rewrite (next_index gs g).
  replace (Z.of_nat (S n) - 1) with (Z.of_nat n) by lia.
  apply IH; [count_samples|apply Forall_app; by split; [|constructor]|done|].
  intros m' gs' Hgs'. apply HQ. rewrite Hgs'. count_samples.
Qed.

Lemma pass_runs (Q : config → Prop) rb off l (k : proc unit) rs m :
  0 <= off → off + RUNS <= Z.of_nat (length l) → holds m rb l →
  (∀ m' gs, whole_pass gs → holds m' rb (list_inserts (Z.to_nat off) (row gs) l) →
     eventually Q (alone k m' (rs ++ group_readings gs))) →
  eventually Q (alone (overhead_pass op (Ptr rb off);; k) m rs).
Proof using Hcycle Hop.
  intros Hoff Hlen Hr HQ. rewrite <-(app_nil_r rs).
  apply (pass_from Q rb off l k rs (Z.to_nat RUNS) [] m Hoff); [cbn [length]; rewrite Nat.add_0_l, Z2Nat.id by done; lia|done|done|].
  intros m' gs Hgs Hall. apply HQ. split; [by rewrite Hgs|done].
Qed.

(** Reading an array back. *)
Lemma read_array_from (Q : config → Prop) (C : proc (list Z) → proc unit) rb off m rs l n acc :
  in_place C → 0 <= off → holds m rb l → off + Z.of_nat (length acc + n) <= Z.of_nat (length l) →
  acc = take (length acc) (drop (Z.to_nat off) l) →
  eventually Q (alone (C (mret (take (length acc + n) (drop (Z.to_nat off) l)))) m rs) →
  eventually Q (alone (C (loop_acc (seqZ (Z.of_nat (length acc)) (Z.of_nat n)) acc
    (λ i l, x ← load_from (Ptr rb off) i; mret (l ++ [x])))) m rs).
Proof.
  intros HC Hoff Hr. revert acc. induction n as [|n IH]; intros acc Hlen Hacc HQ.
  { rewrite Nat.add_0_r, <-Hacc in HQ. exact HQ. }
  rewrite seqZ_succ_l by lia. cbn [loop_acc].
  destruct (lookup_lt_is_Some_2 l (Z.to_nat off + length acc)) as [x Hx]; [lia|].
  assert (load (Ptr rb off) (Z.of_nat (length acc)) m = Ok x) as Hload.
  { apply (load_holds _ _ l); [done|lia|]. rewrite <-Hx. f_equal. lia. }
  assert (eventually Q (alone (C (loop_acc (seqZ (Z.of_nat (length acc) + 1) (Z.of_nat (S n) - 1)) (acc ++ [x])
    (λ i l, x ← load_from (Ptr rb off) i; mret (l ++ [x])))) m rs)) as Hrest.
  { rewrite (next_index acc x). replace (Z.of_nat (S n) - 1) with (Z.of_nat n) by lia.
    apply IH; rewrite length_app; simpl; [lia| |].
    - replace (length acc + 1)%nat with (S (length acc)) by lia.
      rewrite (take_S_r _ _ x) by (by rewrite lookup_drop). by rewrite <-Hacc.
    - by replace (length acc + 1 + n)%nat with (length acc + S n)%nat by lia. }
  set (L := λ a, loop_acc _ a _) in *. unfold Measuring.alone, load_from, perform in *. cbn -[seqZ].
  rewrite HC. run 0%nat. exact Hrest.
Qed.

Definition stable (r : list Z) : Prop := ∀ x y, x ∈ r → y ∈ r → x = y.

(** The test of a pass, on the row it has stored. *)
Lemma row_stable_runs (Q : config → Prop) (k : bool → proc unit) rb off m rs l r :
  0 <= off → holds m rb (list_inserts (Z.to_nat off) r l) → Z.of_nat (length r) = RUNS →
  off + RUNS <= Z.of_nat (length l) →
  (∀ b, b = true ↔ stable r → eventually Q (alone (k b) m rs)) →
  eventually Q (alone (row_stable (Ptr rb off) ≫= k) m rs).
Proof.
  intros Hoff Hr Hlr Hlen HQ.
  assert (take (Z.to_nat RUNS) (drop (Z.to_nat off) (list_inserts (Z.to_nat off) r l)) = r) as Hrow.
  { apply list_eq. intros i. destruct (decide (i < length r)%nat) as [Hi|Hi].
    - rewrite lookup_take_lt, lookup_drop, list_lookup_inserts by lia. f_equal. lia.
    - rewrite !lookup_ge_None_2; [done|lia|rewrite length_take; lia]. }
  apply (read_array_from Q (λ p, (p ≫= λ l, match Stable.results_stable l RUNS with
      | Ok b => mret b | Fatal => Stop Abort | Undef => Stop Undefined end) ≫= k)
    rb off m rs (list_inserts (Z.to_nat off) r l) (Z.to_nat RUNS) []); [done|done|exact Hr| |done|].
  { rewrite length_inserts. cbn [length]. rewrite Nat.add_0_l, Z2Nat.id by done. lia. }
  cbn [length]. rewrite Nat.add_0_l, Hrow. cbn.
  destruct (Stable.results_stable_spec r) as (b & Hb & Hstable). rewrite <-Hlr, Hb. by apply HQ.
Qed.

(** What the retries come to: the passes before the last one were not stable,
    and the last is, unless there are as many as there may be. *)
Definition settled (n : nat) (ps : list (list group)) (p : list group) : Prop :=
  Forall whole_pass ps ∧ whole_pass p ∧ Forall (λ q, ¬ stable (row q)) ps ∧
  (length ps < n)%nat ∧ (stable (row p) ∨ S (length ps) = n).

Lemma retries_run (Q : config → Prop) rb off l n rs m :
  0 <= off → off + RUNS <= Z.of_nat (length l) → holds m rb l → (0 < n)%nat →
  (∀ c ps p, settled n ps p → returned 0 c →
     holds (mem c) rb (list_inserts (Z.to_nat off) (row p) l) →
     readings c = rs ++ (ps ≫= group_readings) ++ group_readings p → Q c) →
  eventually Q (alone (overhead_retries n op (Ptr rb off)) m rs).
Proof using Hcycle Hop.
  intros Hoff Hlen. revert rs m l Hlen. induction n as [|n IH]; intros rs m l Hlen Hr Hn HQ; [lia|].
  cbn [overhead_retries]. apply (pass_runs Q rb off l); [done..|]. intros m1 p Hp Hr1.
  assert (Z.of_nat (length (row p)) = RUNS) as Hlp by (rewrite length_row; apply Hp).
  apply (row_stable_runs Q _ rb off m1 _ l (row p)); [done..|]. intros b Hb.
  destruct (decide (b = true ∨ n = O)) as [Hend|Hgo].
  - assert ((if b then mret tt else overhead_retries n op (Ptr rb off)) = mret tt) as ->
      by (by destruct Hend as [-> | ->]; [|destruct b]).
    apply eventually_now, (HQ _ [] p); [|by eexists|done|done].
    split_and!; [done|done|done|simpl; lia|]. destruct Hend as [Hbt | ->]; [left; by apply Hb|by right].
  - destruct b; [naive_solver|]. assert (n ≠ O) as Hn0 by naive_solver.
    apply (IH _ _ (list_inserts (Z.to_nat off) (row p) l)); [by rewrite length_inserts|done|lia|].
    intros c ps q (Hps & Hq & Hun & Hlt & Hst) Hret Hr2 Hrs.
    apply (HQ c (p :: ps) q); [|done| |].
    + split_and!; [by constructor|done| |simpl; lia|simpl; destruct Hst; [by left|right; lia]].
      constructor; [|done]. intros Hsp. by apply Hb in Hsp.
    + rewrite list_inserts_again in Hr2; [done|]. rewrite !length_row.
      destruct Hp as [Hp _], Hq as [Hq _]. lia.
    + rewrite Hrs. cbn. by rewrite <-!app_assoc.
Qed.

(** C33.  The overhead loop of an operation ends after at most
    [OVERHEAD_RETRIES] passes, for every kernel and all counter values: each
    pass makes [RUNS] groups of [WARMUPS] samples and stores the last of each,
    every pass but the last has left unequal results, and the last has left
    equal ones unless the retries are used up.  The row of the shared structure
    then holds what the last pass stored, and nothing else of it has changed. *)
Theorem overhead_measured rb o l m :
  holds m rb l → Z.of_nat (length l) = struct_size ipc_layout →
  eventually
    (λ c, returned 0 c ∧ ∃ ps p, settled OVERHEAD_RETRIES ps p ∧
       readings c = (ps ≫= group_readings) ++ group_readings p ∧
       holds (mem c) rb
         (list_inserts (Z.to_nat (p_off (overhead_row (Ptr rb 0) o))) (row p) l))
    (alone (overhead_retries OVERHEAD_RETRIES op (overhead_row (Ptr rb 0) o)) m []).
Proof using Hcycle Hop.
  intros Hr Hlen.
  assert (overhead_row (Ptr rb 0) o = Ptr rb (overhead_index o * RUNS)) as -> by (by destruct o).
  assert (0 <= overhead_index o * RUNS ∧ overhead_index o * RUNS + RUNS <= Z.of_nat (length l)) as [Ho1 Ho2].
  { rewrite Hlen. change (struct_size ipc_layout) with 240. unfold RUNS. destruct o; simpl; lia. }
  apply (retries_run _ rb _ l OVERHEAD_RETRIES [] m); [done|done|done|unfold OVERHEAD_RETRIES; lia|].
  intros c ps p Hps Hret Hr2 Hrs. split; [done|]. by exists ps, p.
Qed.
End overhead.

(** On x86_64, for the overhead of a receive. *)
Definition example_ipc : IpcConfig :=
  {| CONFIG_CYCLE_COUNT := true; CONFIG_GENERIC_COUNTER := None; CONFIG_PLATFORM_COUNTER := None;
     CACHE := NO_CACHE_FUNC; SEL4UTILS_REPLY_SLOT := 8; seL4_TCBFlag_NoFlag := 0;
     seL4_TCBFlag_fpuDisabled := 1 |}.

Lemma overhead_measured_witness :
  @eventually x86_64 example_abi (example_kernel x86_64)
    (λ c, returned 0 c ∧ ∃ ps p, @settled x86_64 OVERHEAD_RETRIES ps p ∧
       readings c = (ps ≫= group_readings) ++ group_readings p ∧
       holds (mem c) 1 (list_inserts 48 (@row x86_64 p) (replicate 240 0)))
    (alone 255 0 ∅ (@overhead_retries x86_64 example_ipc OVERHEAD_RETRIES (DO_RECV 0 nop)
       (@overhead_row x86_64 (Ptr 1 0) RECV_OVERHEAD)) (Heap {[1%positive := replicate 240 0]} 0) []).
Proof.
  apply (@overhead_measured x86_64 example_ipc example_abi (example_kernel x86_64) eq_refl
    (DO_RECV 0 nop) ltac:(by left) 255 0 ∅ 1 RECV_OVERHEAD (replicate 240 0)); by vm_compute.
Defined.

(** ** A timed call *)
Section call.
Context `{Platform} `{IpcConfig} `{FaultAbi} `{!Kernel}.
Context (Hcycle : CONFIG_CYCLE_COUNT = true) (Hmcs : CONFIG_KERNEL_MCS = false).
Context (Hcache : CACHE = NO_CACHE_FUNC).
(** The client and the server have one priority, below the parent's. *)
Context (ep rep reply : Z) (Hne : ep ≠ rep) (ph pp f0 f1 f2 : Z) (Hpp : ph < pp).
Context (rb : positive) (off : Z).

Notation msg := (Msg 0 []).

(** What the parent does with the two results. *)
Definition result_of (m : message) : proc Z :=
  match Transfer.get_result (msg_words m) (Z.of_nat (length (msg_words m))) with
  | Ok result => mret result
  | Fatal => Stop Abort
  | Undef => Stop Undefined
  end.
Definition second_result (end_ : Z) (m : message) : proc unit :=
  start ← result_of m; store_to (Ptr rb off) 0 (distance end_ start).
Definition first_result (m : message) : proc unit :=
  end_ ← result_of m; start ← get_result rep; store_to (Ptr rb off) 0 (distance end_ start).
Definition parent_fn : proc unit :=
  end_ ← get_result rep; start ← get_result rep; store_to (Ptr rb off) 0 (distance end_ start).

Lemma sent result : send_result rep result = perform (Send rep (Msg 0 (Transfer.result_words result))).
Proof. apply send_result_perform. Qed.

Lemma received result :
  in_word ccnt_bits result →
  Transfer.get_result (Transfer.result_words result) (Z.of_nat (length (Transfer.result_words result))) =
    Ok result.
Proof.
  intros Hr. rewrite Transfer.length_result_words.
  rewrite <-(app_nil_r (Transfer.result_words result)). by apply Transfer.get_result_words.
Qed.

Lemma first_result_sent result :
  in_word ccnt_bits result →
  first_result (Msg 0 (Transfer.result_words result)) = Op (Recv rep) (second_result result).
Proof. intros Hr. unfold first_result, result_of. cbn [msg_words]. by rewrite received. Qed.
Lemma second_result_sent end_ result :
  in_word ccnt_bits result →
  second_result end_ (Msg 0 (Transfer.result_words result)) = store_to (Ptr rb off) 0 (distance end_ result).
Proof. intros Hr. unfold second_result, result_of. cbn [msg_words]. by rewrite received. Qed.

Lemma distance_comm x y : distance x y = distance y x.
Proof.
  unfold distance. destruct (Z.ltb_spec y x), (Z.ltb_spec x y); [lia|done|done|].
  by replace x with y by lia.
Qed.

(** The functions, with [n] rounds to go. *)
Definition client_end (times : Z * Z) : proc unit :=
  _ ← (send_result rep (start_ times);; seL4_Wait ep;; mret 0); mret tt.
Definition server_end (times : Z * Z) : proc unit :=
  perform (Reply msg);; _ ← (send_result rep (end_ times);; seL4_Wait ep;; mret 0); mret tt.
Fixpoint client_from (n : nat) (times : Z * Z) : proc unit :=
  match n with
  | O => client_end times
  | S n => s ← SEL4BENCH_READ_CCNT; _ ← perform (Call ep msg);
           e ← SEL4BENCH_READ_CCNT; client_from n (s, e)
  end.
Fixpoint server_from (n : nat) (times : Z * Z) : proc unit :=
  match n with
  | O => server_end times
  | S n => s ← SEL4BENCH_READ_CCNT; _ ← perform (ReplyRecv ep msg);
           e ← SEL4BENCH_READ_CCNT; server_from n (s, e)
  end.

Definition client_fn : proc unit := _ ← ipc_call_func2 [Vint ep; Vint rep; Vint 0]; mret tt.
Definition server_fn : proc unit := _ ← ipc_replyrecv_func2 [Vint ep; Vint rep; Vint reply]; mret tt.

Lemma client_steps : client_fn = (_ ← perform (Call ep msg); client_from 16 (0, 0)).
Proof using Hcycle Hcache.
  unfold client_fn, ipc_call_func2, CACHE_FUNC. rewrite Hcache.
  unfold IPC_CALL_FUNC, warm_up. by rewrite (read_counter Hcycle).
Qed.
Lemma server_steps : server_fn = (_ ← perform (Recv ep); server_from 16 (0, 0)).
Proof using Hcycle Hmcs.
  unfold server_fn, ipc_replyrecv_func2, IPC_REPLY_RECV_FUNC, warm_up. rewrite Hmcs.
  by rewrite (read_counter Hcycle).
Qed.

Lemma client_end_steps times :
  client_end times = Op (Send rep (Msg 0 (Transfer.result_words (start_ times))))
    (λ _, Op (Wait ep) (λ _, Ret tt)).
Proof. unfold client_end. by rewrite sent. Qed.
Lemma server_end_steps times :
  server_end times = Op (Reply msg) (λ _, Op (Send rep (Msg 0 (Transfer.result_words (end_ times))))
    (λ _, Op (Wait ep) (λ _, Ret tt))).
Proof. unfold server_end. by rewrite sent. Qed.

(** The client blocked in its call, the server about to answer it. *)
Definition called_config (cc : proc unit) (sc : proc unit) (parent : proc unit)
    (objs : gmap Z object) (m : heap) (rs : list (nat * Z)) : config :=
  Config [Thread ph f0 true None (Op (Call ep msg) (λ _, cc)); Thread ph f1 false (Some 0%nat) sc;
          Thread pp f2 true None parent] objs m rs.
Definition called (objs : gmap Z object) : Prop :=
  objs !! ep = Some (Endpoint [] []) ∧ objs !! rep = Some (Endpoint [] [2%nat]).

Definition waiting_parent : proc unit := Op (Recv rep) first_result.

(** A round, after one: both have their readings of it. *)
Lemma next_round (Q : config → Prop) n s' times' objs m rs :
  called objs →
  (∀ objs s0 e0 s e, in_word ccnt_bits s → in_word ccnt_bits e → called objs →
     eventually Q (called_config (e' ← SEL4BENCH_READ_CCNT; client_from n (s, e')) (server_from n (s0, e))
       waiting_parent objs m ((rs ++ [(1%nat, s0); (0%nat, e0)]) ++ [(0%nat, s); (1%nat, e)]))) →
  eventually Q (called_config (e' ← SEL4BENCH_READ_CCNT; client_from (S n) (s', e'))
    (server_from (S n) times') waiting_parent objs m rs).
Proof using Hne Hpp.
  intros (He & Hr) HQ. unfold called_config in *. cbn [client_from server_from] in *.
  run_as 1%nat s0 Hs0. run 1%nat. run_as 0%nat e0 He0. run_as 0%nat s Hs. run 0%nat. run_as 1%nat e Hee.
  specialize (HQ (<[ep:=Endpoint [] []]> (<[ep:=Endpoint [] [1%nat]]> objs)) s0 e0 s e Hs Hee).
  rewrite <-!app_assoc in *. cbn [app] in *. apply HQ. unfold called. by lookups.
Qed.

Lemma rounds (Q : config → Prop) n s' times' pre s1 e1 objs m :
  in_word ccnt_bits s1 → in_word ccnt_bits e1 → s' = s1 → times'.2 = e1 →
  called objs →
  (∀ objs s0 pre s e, in_word ccnt_bits s → in_word ccnt_bits e → called objs →
     eventually Q (called_config (e' ← SEL4BENCH_READ_CCNT; client_from 0 (s, e')) (server_from 0 (s0, e))
       waiting_parent objs m (pre ++ [(0%nat, s); (1%nat, e)]))) →
  eventually Q (called_config (e' ← SEL4BENCH_READ_CCNT; client_from n (s', e'))
    (server_from n times') waiting_parent objs m (pre ++ [(0%nat, s1); (1%nat, e1)])).
Proof using Hne Hpp.
  revert s' times' pre s1 e1 objs. induction n as [|n IH]; intros s' [s0 e'] pre s1 e1 objs Hs He -> <- Hc HQ.
  { by apply HQ. }
  apply next_round; [done|]. intros objs1 s2 e2 s3 e3 Hs3 He3 Hc1. by apply IH.
Qed.

(** The first call and the first receive, in either order. *)
Lemma meet (Q : config → Prop) cc sc objs m :
  objs !! ep = Some (Endpoint [] []) → objs !! rep = Some (Endpoint [] []) →
  (∀ objs, called objs → eventually Q (called_config cc sc waiting_parent objs m [])) →
  eventually Q (Config [Thread ph f0 false None (_ ← perform (Call ep msg); cc);
                        Thread ph f1 false None (_ ← perform (Recv ep); sc);
                        Thread pp f2 false None waiting_parent] objs m []).
Proof using Hne Hpp.
  intros He Hr HQ. unfold called_config, waiting_parent in *. run 2%nat. run_either 0%nat 1%nat.
  - run 1%nat. apply HQ. unfold called. by lookups.
  - run 0%nat. apply HQ. unfold called. by lookups.
Qed.

Lemma first_round (Q : config → Prop) n times times' objs m :
  called objs →
  (∀ objs s0 pre s e, in_word ccnt_bits s → in_word ccnt_bits e → called objs →
     eventually Q (called_config (e' ← SEL4BENCH_READ_CCNT; client_from n (s, e')) (server_from n (s0, e))
       waiting_parent objs m (pre ++ [(0%nat, s); (1%nat, e)]))) →
  eventually Q (called_config (client_from (S n) times) (server_from (S n) times') waiting_parent
    objs m []).
Proof using Hne Hpp.
  intros (He & Hr) HQ. unfold called_config in *. cbn [client_from server_from].
  run_as 1%nat s0 Hs0. run 1%nat. run_as 0%nat s Hs. run 0%nat. run_as 1%nat e Hee.
  apply (HQ _ s0 [(1%nat, s0)] s e Hs Hee). unfold called. by lookups.
Qed.

(** The end: both send their reading, in either order. *)
Section last.
Context (Q : config → Prop) (l : list Z) (Hoff : 0 <= off < Z.of_nat (length l)) (m : heap).
Context (Hr : holds m rb l) (s e : Z) (Hs : in_word ccnt_bits s) (He : in_word ccnt_bits e).
Context (rs : list (nat * Z)).
Context (HQ : ∀ c, returned 2 c → holds (mem c) rb (<[Z.to_nat off := distance e s]> l) →
  readings c = rs → Q c).

Lemma parent_stores x y th0 th1 objs :
  prio th0 < pp → prio th1 < pp → distance x y = distance e s →
  eventually Q (Config [th0; th1; Thread pp f2 false None (store_to (Ptr rb off) 0 (distance x y))]
    objs m rs).
Proof using Hr Hoff HQ.
  intros H0' H1' ->. destruct (store_frame m rb l off 0 (distance e s) Hr) as (m2 & E2 & Hr2 & _); [lia|].
  rewrite Z.add_0_r in Hr2.
  eapply (eventually_run _ _ 2); [reflexivity|reflexivity| |].
  - intros [|[|[|u]]] thu Hu Ht Hru; simplify_eq/=; try done; lia.
  - intros v Hv. eexists. split; [unfold next; thread_simpl; reflexivity|thread_simpl].
    apply eventually_now, HQ; [by eexists|done|done].
Qed.

Notation told := (Op (Wait ep) (λ _ : unit, Ret tt)).
Notation telling x := (Op (Send rep (Msg 0 (Transfer.result_words x))) (λ _ : unit, told)).

(** One result is in; the other side may still stop or report. *)
Lemma server_told objs :
  objs !! rep = Some (Endpoint [] [2%nat]) → objs !! ep = Some (Endpoint [] []) →
  eventually Q (Config [Thread ph f0 false None (telling s); Thread ph f1 false None told;
    Thread pp f2 true None (Op (Recv rep) (second_result e))] objs m rs).
Proof using All.
  intros Hrep Hep. run_either 0%nat 1%nat.
  - rewrite second_result_sent by done. by apply parent_stores.
  - run 0%nat. rewrite second_result_sent by done. by apply parent_stores.
Qed.
Lemma client_told objs :
  objs !! rep = Some (Endpoint [] [2%nat]) → objs !! ep = Some (Endpoint [] []) →
  eventually Q (Config [Thread ph f0 false None told; Thread ph f1 false None (telling e);
    Thread pp f2 true None (Op (Recv rep) (second_result s))] objs m rs).
Proof using All.
  intros Hrep Hep. run_either 0%nat 1%nat.
  - run 1%nat. rewrite second_result_sent by done. apply parent_stores; [done..|apply distance_comm].
  - rewrite second_result_sent by done. apply parent_stores; [done..|apply distance_comm].
Qed.

(** Both have their result ready. *)
Lemma both_tell objs :
  objs !! rep = Some (Endpoint [] [2%nat]) → objs !! ep = Some (Endpoint [] []) →
  eventually Q (Config [Thread ph f0 false None (telling s); Thread ph f1 false None (telling e);
    Thread pp f2 true None waiting_parent] objs m rs).
Proof using All.
  intros Hrep Hep. unfold waiting_parent. run_either 0%nat 1%nat.
  - rewrite first_result_sent by done. run 2%nat. apply client_told; by lookups.
  - rewrite first_result_sent by done. run 2%nat. apply server_told; by lookups.
Qed.
End last.

Lemma call_finishes (Q : config → Prop) l s0 s e objs m rs :
  0 <= off < Z.of_nat (length l) → holds m rb l → in_word ccnt_bits s → in_word ccnt_bits e →
  called objs →
  (∀ c e0, returned 2 c → holds (mem c) rb (<[Z.to_nat off := distance e s]> l) →
     readings c = rs ++ [(0%nat, e0)] → Q c) →
  eventually Q (called_config (e' ← SEL4BENCH_READ_CCNT; client_from 0 (s, e')) (server_from 0 (s0, e))
    waiting_parent objs m rs).
Proof using All.
  intros Hoff Hr Hs He (Hep & Hrep) HQ. unfold called_config, waiting_parent. cbn [client_from server_from].
  rewrite server_end_steps. cbn [end_ snd].
  run 1%nat. run_either 0%nat 1%nat.
  - rewrite client_end_steps. cbn [start_ fst]. apply (both_tell Q l Hoff m Hr s e Hs He); [|by lookups..].
    intros c Hret Hc Hrs. by eapply HQ.
  - rewrite first_result_sent by done. run 2%nat. run_either 0%nat 1%nat.
    + rewrite client_end_steps. cbn [start_ fst]. apply (server_told Q l Hoff m Hr s e Hs He); [|by lookups..].
      intros c Hret Hc Hrs. by eapply HQ.
    + run_as 0%nat e0 He0. rewrite client_end_steps. cbn [start_ fst]. run 0%nat.
      rewrite second_result_sent by done.
      apply (parent_stores Q l Hoff m Hr s e (rs ++ [(0%nat, e0)])); [|done..].
      intros c Hret Hc Hrs. by eapply HQ.
Qed.

(** The three threads of a run, as [run_bench] starts them. *)
Definition call_config (objs : gmap Z object) (m : heap) : config :=
  Config [Thread ph f0 false None client_fn; Thread ph f1 false None server_fn;
          Thread pp f2 false None parent_fn] objs m [].

(** C32.  A call from the client to the server is timed right, for every kernel
    without MCS and every schedule of the two threads, which share a priority:
    the run ends, and the parent's result is the distance between the last
    reading the client made before its last call and the reading the server
    made on receiving it, whichever of the two sends its reading first; only
    the client's reading after that call comes later. *)
Theorem call_measured l objs m :
  0 <= off < Z.of_nat (length l) → holds m rb l →
  objs !! ep = Some (Endpoint [] []) → objs !! rep = Some (Endpoint [] []) →
  eventually (λ c, returned 2 c ∧ ∃ pre s e e0,
    readings c = pre ++ [(0%nat, s); (1%nat, e); (0%nat, e0)] ∧
    holds (mem c) rb (<[Z.to_nat off := if s <? e then e ⊟[ccnt_bits] s else s ⊟[ccnt_bits] e]> l))
    (call_config objs m).
Proof using All.
  intros Hoff Hr Hep Hrep. unfold call_config. rewrite client_steps, server_steps.
  apply (meet _ _ _ objs m Hep Hrep). intros objs1 Hc1.
  apply (first_round _ 15 (0, 0) (0, 0) objs1 m Hc1). intros objs2 s0 pre s e Hs He Hc2.
  apply (rounds _ 15 s (s0, e) pre s e objs2 m Hs He eq_refl eq_refl Hc2).
  intros objs3 s1 pre1 s2 e2 Hs2 He2 Hc3.
  apply (call_finishes _ l s1 s2 e2 objs3 m _ Hoff Hr Hs2 He2 Hc3).
  intros c e0 Hret Hc Hrs. split; [done|]. exists pre1, s2, e2, e0.
  by rewrite Hrs, <-app_assoc.
Qed.
End call.

Lemma call_measured_witness :
  @eventually x86_64 example_abi (example_kernel x86_64) (λ c, returned 2 c ∧ ∃ pre s e e0,
    readings c = pre ++ [(0%nat, s); (1%nat, e); (0%nat, e0)] ∧
    holds (mem c) 2 (<[Z.to_nat 96 := if s <? e then e ⊟[64] s else s ⊟[64] e]> (replicate 600 7)))
    (@call_config x86_64 example_ipc 12 13 8 254 255 0 0 0 2 96 example_objects example_heap).
Proof.
  apply (@call_measured x86_64 example_ipc example_abi (example_kernel x86_64) eq_refl eq_refl eq_refl
    12 13 8 ltac:(done) 254 255 0 0 0 ltac:(done) 2 96 (replicate 600 7)); by vm_compute.
Defined.
