(* ===== verification/PageMappingApp.v ===== *)
(** * PageMappingApp: the page mapping benchmark

    [apps/page_mapping/src/main.c]: a child process that makes page tables and
    pages from an untyped, maps, protects and unprotects the pages, and sends
    the time of each of these phases; the parent runs it for each row of the
    table of AppParams.  The constants of libsel4 and sel4utils are a
    parameter; what the macros of the file choose from them is not.  The child
    reads its two capabilities with [atoi]; a slot number fits an [int], and the
    narrowing is left out. *)

From S2P Require Import Prelude Platform Memory Program Collect Support Threads Measuring AppParams.

Import PageMappingParams.

(** ** Configuration *)

(** The targets the file distinguishes: AArch64 with or without a hypervisor
    kernel of 40 address bits, RISC-V with its number of levels. *)
Inductive target := CONFIG_ARCH_AARCH64 (hyp_40 : bool) | CONFIG_ARCH_X86_64
  | CONFIG_ARCH_RISCV (CONFIG_PT_LEVELS : Z) | other_target.

Class PageMappingConfig := {
  arch : target;
  seL4_PageTableBits : Z;
  seL4_WordSizeBits : Z;
  seL4_PDPTBits : Z;
  seL4_PageDirBits : Z;
  seL4_ARM_PageTableObject : Z;
  seL4_X86_PDPTObject : Z;
  seL4_X86_PageDirectoryObject : Z;
  seL4_RISCV_PageTableObject : Z;
  seL4_ARCH_PageTableObject : Z;
  seL4_ARCH_4KPage : Z;
  SEL4UTILS_CNODE_SLOT : Z;
  seL4_ARCH_Default_VMAttributes : Z;
  seL4_AllRights : Z;
  seL4_CanRead : Z;
  seL4_DeleteFirst : Z;
  DIV_ROUND_UP : Z → Z → Z;
}.

Section app.
Context `{Platform} `{PageMappingConfig}.

Definition START_ADDR : Z :=
  match arch with CONFIG_ARCH_AARCH64 _ => 0x8000000000 | _ => 0x60000000 end.
Definition NUM_ARGS : Z := 3.
Definition PAGE_SIZE_4K : Z := 2 ^ 12.
Definition PAGE_PER_TABLE : Z := 2 ^ (seL4_PageTableBits - seL4_WordSizeBits).
Definition NUM_PAGE_TABLE (npage : Z) : Z := DIV_ROUND_UP npage PAGE_PER_TABLE.

Definition untyped_retype_root (a b c e : Z) : proc Z :=
  sys_call "seL4_Untyped_Retype"
    [Vint a; Vint b; Vint c; Vint SEL4UTILS_CNODE_SLOT; Vint SEL4UTILS_CNODE_SLOT;
     Vint seL4_WordBits; Vint e; Vint 1].

Definition NUM_PT_LEVELS : Z :=
  match arch with
  | CONFIG_ARCH_AARCH64 hyp_40 => if hyp_40 then 3 else 4
  | CONFIG_ARCH_X86_64 => 4
  | CONFIG_ARCH_RISCV levels => levels
  | other_target => 2
  end.

(** The levels counted from the bottom; the last line is never used, with two
    levels. *)
Definition PT_L2_Map : string :=
  match arch with
  | CONFIG_ARCH_AARCH64 _ => "seL4_ARM_PageTable_Map"
  | CONFIG_ARCH_X86_64 => "seL4_X86_PDPT_Map"
  | CONFIG_ARCH_RISCV _ => "seL4_RISCV_PageTable_Map"
  | other_target => ""
  end.
Definition PT_L2_BITS : Z :=
  match arch with CONFIG_ARCH_X86_64 => seL4_PDPTBits | _ => seL4_PageTableBits end.
Definition PT_L2_OBJ : Z :=
  match arch with
  | CONFIG_ARCH_X86_64 => seL4_X86_PDPTObject
  | CONFIG_ARCH_RISCV _ => seL4_RISCV_PageTableObject
  | _ => seL4_ARM_PageTableObject
  end.
Definition PT_L1_Map : string :=
  match arch with
  | CONFIG_ARCH_AARCH64 _ => "seL4_ARM_PageTable_Map"
  | CONFIG_ARCH_X86_64 => "seL4_X86_PageDirectory_Map"
  | CONFIG_ARCH_RISCV _ => "seL4_RISCV_PageTable_Map"
  | other_target => ""
  end.
Definition PT_L1_BITS : Z :=
  match arch with CONFIG_ARCH_X86_64 => seL4_PageDirBits | _ => seL4_PageTableBits end.
Definition PT_L1_OBJ : Z :=
  match arch with
  | CONFIG_ARCH_X86_64 => seL4_X86_PageDirectoryObject
  | CONFIG_ARCH_RISCV _ => seL4_RISCV_PageTableObject
  | _ => seL4_ARM_PageTableObject
  end.

(** A table is mapped by its capability into the page directory. *)
Definition map_table (fn : string) (cap addr : Z) : proc Z :=
  sys_call fn [Vint cap; Vint SEL4UTILS_PD_SLOT; Vint addr; Vint seL4_ARCH_Default_VMAttributes].
Definition seL4_ARCH_Page_Map (cap addr rights : Z) : proc Z :=
  sys_call "seL4_ARCH_Page_Map"
    [Vint cap; Vint SEL4UTILS_PD_SLOT; Vint addr; Vint rights; Vint seL4_ARCH_Default_VMAttributes].

(** ** The child process *)

(** The two upper levels: the next free slot. *)
Definition prepare_L2 (addr untyped pt_cslot : Z) : proc Z :=
  err ← untyped_retype_root untyped PT_L2_OBJ PT_L2_BITS pt_cslot;
  assert_that (err =? 0);;
  err ← map_table PT_L2_Map pt_cslot addr;
  assert_that ((err =? 0) || (err =? seL4_DeleteFirst));;
  mret (pt_cslot ⊞[seL4_WordBits] 1).
Definition prepare_L1 (addr untyped pt_cslot : Z) : proc Z :=
  err ← untyped_retype_root untyped PT_L1_OBJ PT_L1_BITS pt_cslot;
  assert_that (err =? 0);;
  err ← map_table PT_L1_Map pt_cslot addr;
  assert_that (err =? 0);;
  mret (pt_cslot ⊞[seL4_WordBits] 1).

(** One page table of the loop: the next free slot and address. *)
Definition prepare_L0 (untyped : Z) (s : Z * Z) : proc (Z * Z) :=
  let '(pt_cslot, addr) := s in
  err ← untyped_retype_root untyped seL4_ARCH_PageTableObject seL4_PageTableBits pt_cslot;
  assert_that (err =? 0);;
  err ← map_table "seL4_ARCH_PageTable_Map" pt_cslot addr;
  assert_that (err =? 0);;
  mret (pt_cslot ⊞[seL4_WordBits] 1, addr ⊞[seL4_WordBits] (PAGE_SIZE_4K * PAGE_PER_TABLE)).

Definition prepare_page_table (addr npage untyped free_slot : Z) : proc Z :=
  let pt_cslot := free_slot in
  pt_cslot ← (if NUM_PT_LEVELS =? 4 then prepare_L2 addr untyped pt_cslot else mret pt_cslot);
  pt_cslot ← (if 3 <=? NUM_PT_LEVELS then prepare_L1 addr untyped pt_cslot else mret pt_cslot);
  '(pt_cslot, _) ← loop_acc (seqZ 0 (NUM_PAGE_TABLE npage)) (pt_cslot, addr) (λ _, prepare_L0 untyped);
  mret pt_cslot.

Definition prepare_pages (npage untyped free_slot : Z) : proc Z :=
  loop_acc (seqZ 0 npage) free_slot (λ _ free_slot,
    err ← untyped_retype_root untyped seL4_ARCH_4KPage seL4_PageBits free_slot;
    assert_that (err =? 0);;
    mret (free_slot ⊞[seL4_WordBits] 1)).

(** One call of the mapping loops: the next address and capability. *)
Definition map_page (rights : Z) (s : Z * Z) : proc (Z * Z) :=
  let '(addr, page_cap) := s in
  err ← seL4_ARCH_Page_Map page_cap addr rights;
  assert_that (err =? 0);;
  mret (addr ⊞[seL4_WordBits] PAGE_SIZE_4K, page_cap ⊞[seL4_WordBits] 1).

Definition map_pages (addr page_cap npage : Z) : proc unit :=
  _ ← loop_acc (seqZ 0 npage) (addr, page_cap) (λ _, map_page seL4_AllRights); mret tt.

Definition PROT_UNPROT_NPAGE (right addr page_cap npage : Z) : proc unit :=
  _ ← loop_acc (seqZ 0 npage) (addr, page_cap) (λ _, map_page right); mret tt.
Definition prot_pages : Z → Z → Z → proc unit := PROT_UNPROT_NPAGE seL4_CanRead.
Definition unprot_pages : Z → Z → Z → proc unit := PROT_UNPROT_NPAGE seL4_AllRights.

(** A phase between two readings, and the message of its time. *)
Definition phase {A} (result_ep : Z) (body : proc A) : proc A :=
  start ← SEL4BENCH_READ_CCNT;
  x ← body;
  end_ ← SEL4BENCH_READ_CCNT;
  send_result result_ep (end_ ⊟[ccnt_bits] start);;
  mret x.

Definition bench_proc (argv : list val) : proc unit :=
  result_ep ← word_arg argv 0;
  untyped ← word_arg argv 1;
  npage ← word_arg argv 2;
  let free_slot := untyped ⊞[seL4_WordBits] 1 in
  let addr := START_ADDR in
  sys_do "sel4bench_init" [];;
  free_slot ← phase result_ep (prepare_page_table addr npage untyped free_slot);
  let page_ptr_start := free_slot in
  _ ← phase result_ep (prepare_pages npage untyped free_slot);
  phase result_ep (map_pages addr page_ptr_start npage);;
  phase result_ep (prot_pages addr page_ptr_start npage);;
  phase result_ep (unprot_pages addr page_ptr_start npage);;
  sys_do "sel4bench_destroy" [];;
  seL4_Wait result_ep.

(** ** The parent *)

(** [page_mapping_results_t], in [ccnt_t]. *)
Definition page_mapping_layout : layout :=
  [("overhead_benchmarks", RUNS); ("benchmarks_result", TESTS * NPHASE * RUNS)]%string.

(** The times of the phases, in the order they arrive, and the process. *)
Definition run_bench_child_proc (result_ep : Z) (proc_ : Process.process_t) (argv : list val)
  : proc (list Z * Process.process_t) :=
  '(error, proc_) ← spawn proc_ argv true;
  fatal_if (negb (error =? 0));;
  result ← loop_acc (seqZ 0 NPHASE) [] (λ _ result, x ← get_result result_ep; mret (result ++ [x]));
  mret (result, proc_).

Definition measure_overhead (results : ptr) : proc unit :=
  sys_do "sel4bench_init" [];;
  for_to RUNS (λ i,
    start ← SEL4BENCH_READ_CCNT;
    end_ ← SEL4BENCH_READ_CCNT;
    store_to (field page_mapping_layout results "overhead_benchmarks") i (end_ ⊟[ccnt_bits] start));;
  sys_do "sel4bench_destroy" [].

(** Row [j] of the table in iteration [i]; decrementing [cspace_next_free]
    lets the next copy of the untyped take the same slot. *)
Definition run_test (results : ptr) (result_ep proc_result_ep untyped_path i : Z)
    (jp : Z * benchmark_params_t) (proc_ : Process.process_t) : proc Process.process_t :=
  untyped ← sys_call "sel4utils_copy_path_to_process" [Vint (Process.process_id proc_); Vint untyped_path];
  let argv := [Vint proc_result_ep; Vint untyped; Vint (npage jp.2)] in
  '(ret_time, proc_) ← run_bench_child_proc result_ep proc_ argv;
  loop (zip (seqZ 0 NPHASE) ret_time) (λ kt,
    store_to (field page_mapping_layout results "benchmarks_result")
      ((jp.1 * NPHASE + kt.1) * RUNS + i) kt.2);;
  sys_do "vka_cnode_revoke" [Vint untyped_path];;
  sys_do "cspace_next_free--" [Vint (Process.process_id proc_)];;
  _ ← TCB_Suspend (Process.tcb proc_);
  mret proc_.

Definition main (rt : runtime) (proc_ : Process.process_t) (results : ptr) (argc : Z) : proc unit :=
  env ← get_env rt argc (sizeof page_mapping_layout) 0;
  result_ep ← sys_alloc "vka_alloc_endpoint" [];
  result_ep_path ← sys_call "vka_cspace_make_path" [Vint result_ep];
  untyped ← sys_alloc "vka_alloc_untyped" [Vint (seL4_PageBits + 12)];
  untyped_path ← sys_call "vka_cspace_make_path" [Vint untyped];
  shallow_clone proc_ seL4_MaxPrio "bench_proc";;
  proc_result_ep ← sys_call "sel4utils_copy_path_to_process"
    [Vint (Process.process_id proc_); Vint result_ep_path];
  measure_overhead results;;
  _ ← loop_acc (seqZ 0 RUNS) proc_ (λ i proc_,
    loop_acc (zip (seqZ 0 TESTS) page_mapping_benchmark_params) proc_
      (run_test results result_ep proc_result_ep untyped_path i));
  sys_do "vka_free_object" [Vint untyped];;
  finished env 0.

End app.
