(* ===== verification/PageMappingProofs.v ===== *)
(** * PageMappingProofs: the child of the page mapping benchmark

    What the kernel asks of the calls of [bench_proc], as a state of the
    child's capabilities and address space, and the proof that against a kernel
    that grants what is asked correctly the child makes only such calls, maps
    every page and sends the times of its five phases. *)

From S2P Require Import Prelude Platform Memory Program Collect Support Threads Measuring AppParams.
From S2P Require Import PageMappingApp.

Section kernel.
Context `{Platform} `{PageMappingConfig}.

(** ** The kernel's side *)

(** The calls of the child that change its objects. *)
Inductive kcall :=
  | Retype (untyped type bits slot : Z)
  | MapTable (fn : string) (cap addr : Z)
  | MapPage (cap addr rights : Z).

Definition parse_call (fn : string) (args : list val) : option kcall :=
  match args with
  | [Vint a; Vint b; Vint c; Vint root; Vint index; Vint depth; Vint e; Vint n] =>
      if decide (fn = "seL4_Untyped_Retype" ∧ root = SEL4UTILS_CNODE_SLOT ∧
                 index = SEL4UTILS_CNODE_SLOT ∧ depth = seL4_WordBits ∧ n = 1)
      then Some (Retype a b c e) else None
  | [Vint cap; Vint pd; Vint addr; Vint attrs] =>
      if decide (fn ∈ [PT_L2_Map; PT_L1_Map; "seL4_ARCH_PageTable_Map"%string] ∧
                 pd = SEL4UTILS_PD_SLOT ∧ attrs = seL4_ARCH_Default_VMAttributes)
      then Some (MapTable fn cap addr) else None
  | [Vint cap; Vint pd; Vint addr; Vint rights; Vint attrs] =>
      if decide (fn = "seL4_ARCH_Page_Map"%string ∧
                 pd = SEL4UTILS_PD_SLOT ∧ attrs = seL4_ARCH_Default_VMAttributes)
      then Some (MapPage cap addr rights) else None
  | _ => None
  end.
Definition kcall_of {X} (e : sys X) : option kcall :=
  match e with lib_call fn args => parse_call fn args | _ => None end.

(** The objects made so far by slot, the bytes of the untyped in use, the
    tables by level and region, the capabilities they were mapped with, and
    the pages by address, each with its capability and rights. *)
Record vspace := VSpace {
  caps : gmap Z Z;
  used : Z;
  tables : gset (Z * Z);
  table_caps : gset Z;
  pages : gmap Z (Z * Z);
}.

(** The bytes a table of a level covers. *)
Definition covers (l : Z) : Z :=
  if l =? 0 then PAGE_SIZE_4K * PAGE_PER_TABLE
  else if l =? 1 then PAGE_SIZE_4K * PAGE_PER_TABLE * 2 ^ (PT_L1_BITS - seL4_WordSizeBits)
  else PAGE_SIZE_4K * PAGE_PER_TABLE * 2 ^ (PT_L1_BITS - seL4_WordSizeBits) *
       2 ^ (PT_L2_BITS - seL4_WordSizeBits).
Definition region (l addr : Z) : Z * Z := (l, addr `div` covers l).

Definition type_of_level (l : Z) : Z :=
  if l =? 0 then seL4_ARCH_PageTableObject else if l =? 1 then PT_L1_OBJ else PT_L2_OBJ.

(** The level at which a table is mapped: on x86_64 the call says, elsewhere it
    is the highest one that is missing. *)
Definition level_of (v : vspace) (fn : string) (addr : Z) : option Z :=
  match arch with
  | CONFIG_ARCH_X86_64 =>
      Some (if decide (fn = PT_L2_Map) then 2 else if decide (fn = PT_L1_Map) then 1 else 0)
  | _ => snd <$> list_find (λ l, region l addr ∉ tables v) (reverse (seqZ 0 (NUM_PT_LEVELS - 1)))
  end.

(** The untyped and its size. *)
Context (untyped untyped_bits : Z).

Definition round_up (n bits : Z) : Z := (n + 2 ^ bits - 1) `div` 2 ^ bits * 2 ^ bits.

(** What the kernel asks of a call: an object goes into an empty slot of the
    capability space and into the rest of the untyped, at its alignment; a
    table is of its level's type, not mapped yet, and below a table; a page has
    a table, and is mapped either nowhere or at this very address. *)
Definition legal (v : vspace) (c : kcall) : Prop :=
  match c with
  | Retype u _ bits slot =>
      u = untyped ∧ caps v !! slot = None ∧ 0 <= slot < 2 ^ CONFIG_SEL4UTILS_CSPACE_SIZE_BITS ∧
      slot ≠ untyped ∧ round_up (used v) bits + 2 ^ bits <= 2 ^ untyped_bits
  | MapTable fn cap addr =>
      match level_of v fn addr with
      | Some l => caps v !! cap = Some (type_of_level l) ∧ cap ∉ table_caps v ∧
                  (l + 1 = NUM_PT_LEVELS - 1 ∨ region (l + 1) addr ∈ tables v)
      | None => False
      end
  | MapPage cap addr _ =>
      caps v !! cap = Some seL4_ARCH_4KPage ∧ addr `mod` PAGE_SIZE_4K = 0 ∧
      region 0 addr ∈ tables v ∧
      (pages v !! addr = None ∧ map_Forall (λ _ p, p.1 ≠ cap) (pages v) ∨ fst <$> pages v !! addr = Some cap)
  end.
#[export] Instance legal_dec v c : Decision (legal v c).
Proof. destruct c; simpl; [| destruct (level_of _ _ _) |]; apply _. Defined.

(** Its answer, and what it does. *)
Definition answer_of (v : vspace) (c : kcall) : Z :=
  match c with
  | MapTable fn _ addr =>
      match level_of v fn addr with
      | Some l => if decide (region l addr ∈ tables v) then seL4_DeleteFirst else 0
      | None => 0
      end
  | _ => 0
  end.
Definition grant (v : vspace) (c : kcall) : vspace :=
  match c with
  | Retype _ type bits slot =>
      VSpace (<[slot := type]> (caps v)) (round_up (used v) bits + 2 ^ bits) (tables v) (table_caps v) (pages v)
  | MapTable fn cap addr =>
      match level_of v fn addr with
      | Some l => if decide (region l addr ∈ tables v) then v
                  else VSpace (caps v) (used v) ({[region l addr]} ∪ tables v) ({[cap]} ∪ table_caps v) (pages v)
      | None => v
      end
  | MapPage cap addr rights => VSpace (caps v) (used v) (tables v) (table_caps v) (<[addr := (cap, rights)]> (pages v))
  end.

(** The state after the calls of a trace, if all of them were legal. *)
Definition kernel_step (v : vspace) (ev : event sys) : option vspace :=
  match ev with
  | Ev e _ => match kcall_of e with
              | Some c => if decide (legal v c) then Some (grant v c) else None
              | None => Some v
              end
  end.
Fixpoint after (v : vspace) (tr : list (event sys)) : option vspace :=
  match tr with [] => Some v | ev :: tr => v ← kernel_step v ev; after v tr end.

(** A kernel that answers a legal call as documented; what it answers to any
    other is left open. *)
Definition documented (v0 : vspace) (env : environment sys) : Prop :=
  ∀ tr v fn args c, after v0 tr = Some v → parse_call fn args = Some c → legal v c →
    env tr Z (lib_call fn args) = answer_of v c.

(** The calls of a trace, with the readings of the counter and the messages. *)
Inductive mark := Did (c : kcall) | Reading (v : Z) | Sent (ep : Z) (m : message).
Definition mark_of (ev : event sys) : option mark :=
  match ev with
  | @Ev _ X e x =>
      match e in sys X return X → option mark with
      | ReadCcnt => λ x, Some (Reading x)
      | Send ep m => λ _, Some (Sent ep m)
      | lib_call fn args => λ _, Did <$> parse_call fn args
      | _ => λ _, None
      end x
  end.
Definition marks (tr : list (event sys)) : list mark := omap mark_of tr.

(** The mapping of [k] consecutive pages, by capabilities from [cap] on. *)
Fixpoint mapped (cap rights : Z) (k : nat) : gmap Z (Z * Z) :=
  match k with
  | O => ∅
  | S k => <[START_ADDR + Z.of_nat k * PAGE_SIZE_4K := (cap + Z.of_nat k, rights)]> (mapped cap rights k)
  end.

End kernel.

(** ** The calls of the file *)
Section calls.
Context `{Platform} `{PageMappingConfig}.

Lemma parse_retype u type bits slot :
  parse_call "seL4_Untyped_Retype"
    [Vint u; Vint type; Vint bits; Vint SEL4UTILS_CNODE_SLOT; Vint SEL4UTILS_CNODE_SLOT;
     Vint seL4_WordBits; Vint slot; Vint 1] = Some (Retype u type bits slot).
Proof. cbn [parse_call]. by rewrite decide_True. Qed.

Lemma parse_map_page cap addr rights :
  parse_call "seL4_ARCH_Page_Map"
    [Vint cap; Vint SEL4UTILS_PD_SLOT; Vint addr; Vint rights; Vint seL4_ARCH_Default_VMAttributes] =
  Some (MapPage cap addr rights).
Proof. cbn [parse_call]. by rewrite decide_True. Qed.

(** The call that maps a table of a level, and its size. *)
Definition fn_of_level (l : Z) : string :=
  if l =? 0 then "seL4_ARCH_PageTable_Map" else if l =? 1 then PT_L1_Map else PT_L2_Map.

Lemma parse_map_table l cap addr :
  parse_call (fn_of_level l)
    [Vint cap; Vint SEL4UTILS_PD_SLOT; Vint addr; Vint seL4_ARCH_Default_VMAttributes] =
  Some (MapTable (fn_of_level l) cap addr).
Proof.
  cbn [parse_call]. apply decide_True. split; [|done].
  unfold fn_of_level. repeat case_match; set_solver.
Qed.

End calls.

(** ** The child *)
Section child.
Context `{Platform} `{PageMappingConfig}.
Context (env : environment sys) (ep untyped untyped_bits npage : Z) (v0 : vspace).
Context (Henv : documented untyped untyped_bits v0 env).

(** The number of page tables and of the tables above them. *)
Definition bottom_tables : Z := (npage + PAGE_PER_TABLE - 1) `div` PAGE_PER_TABLE.
Definition upper_tables : Z := NUM_PT_LEVELS - 2.
Definition all_objects : Z := upper_tables + bottom_tables + npage.

(** The configuration: the levels the file knows, tables of words that are at
    most a page, and the library's division. *)
Record configured := Configured {
  cfg_levels : 2 <= NUM_PT_LEVELS <= 4;
  cfg_word : 0 <= seL4_WordSizeBits <= seL4_PageTableBits;
  cfg_tables : seL4_PageTableBits <= seL4_PageBits ∧ seL4_WordSizeBits <= PT_L1_BITS <= seL4_PageBits ∧
               seL4_WordSizeBits <= PT_L2_BITS <= seL4_PageBits;
  cfg_div : DIV_ROUND_UP npage PAGE_PER_TABLE = (npage + PAGE_PER_TABLE - 1) `div` PAGE_PER_TABLE;
}.

(** The resources: the untyped, the slots after it and the addresses from
    [START_ADDR] on, which lie below one table of the second level, are enough. *)
Record enough := Enough {
  en_npage : 0 <= npage;
  en_untyped : all_objects * 2 ^ seL4_PageBits <= 2 ^ untyped_bits;
  en_slots : 0 <= untyped ∧ untyped + all_objects + 1 < 2 ^ CONFIG_SEL4UTILS_CSPACE_SIZE_BITS;
  en_cspace : 0 <= CONFIG_SEL4UTILS_CSPACE_SIZE_BITS <= seL4_WordBits;
  en_addresses : START_ADDR + bottom_tables * covers 0 < 2 ^ seL4_WordBits;
  en_aligned : START_ADDR `mod` covers 0 = 0;
  en_one_region : 3 <= NUM_PT_LEVELS → ∀ i, 0 <= i < bottom_tables →
    region 1 (START_ADDR + i * covers 0) = region 1 START_ADDR;
}.

(** The child starts with nothing made or mapped there; on x86_64 the table of
    the highest level may exist. *)
Record fresh := Fresh {
  fr_caps : caps v0 = ∅;
  fr_used : used v0 = 0;
  fr_table_caps : table_caps v0 = ∅;
  fr_pages : pages v0 = ∅;
  fr_tables : ∀ l i, 0 <= l < NUM_PT_LEVELS - 1 → 0 <= i <= bottom_tables →
    region l (START_ADDR + i * covers 0) ∈ tables v0 → l = 2 ∧ arch = CONFIG_ARCH_X86_64;
}.

Context (Hcfg : configured) (Hen : enough) (Hfr : fresh).

Definition state_is (tr : list (event sys)) (v : vspace) (t : list mark) : Prop :=
  after untyped untyped_bits v0 tr = Some v ∧ marks tr = t.

Lemma after_app v tr1 tr2 :
  after untyped untyped_bits v (tr1 ++ tr2) =
    (v' ← after untyped untyped_bits v tr1; after untyped untyped_bits v' tr2).
Proof.
  revert v. induction tr1 as [|ev tr1 IH]; intros v; [done|]. cbn [app after].
  destruct (kernel_step _ _ v ev); [apply IH|done].
Qed.

Lemma state_is_snoc tr v t ev v' :
  state_is tr v t → kernel_step untyped untyped_bits v ev = Some v' →
  state_is (tr ++ [ev]) v' (t ++ from_option (λ m, [m]) [] (mark_of ev)).
Proof.
  intros [Ha Hm] Hs. split.
  - rewrite after_app, Ha. cbn. by rewrite Hs.
  - unfold marks. rewrite omap_app. unfold marks in Hm. rewrite Hm. cbn. by destruct (mark_of ev).
Qed.

(** A legal call is answered; a call of another kind changes nothing. *)
Lemma kcall_runs {A} fn args c v t (k : Z → proc A) Q tr :
  parse_call fn args = Some c → state_is tr v t → legal untyped untyped_bits v c →
  (∀ tr', state_is tr' (grant v c) (t ++ [Did c]) → always env (k (answer_of v c)) Q tr') →
  always env (sys_call fn args ≫= k) Q tr.
Proof using Henv.
  intros Hp Hst Hl HQ. apply always_bind. unfold sys_call. apply always_perform.
  rewrite (Henv tr v fn args c) by (done || apply Hst). apply HQ.
  replace [Did c] with (from_option (λ m, [m]) [] (mark_of (Ev (lib_call fn args) (answer_of v c))))
    by (cbn; by rewrite Hp).
  apply (state_is_snoc tr v t); [done|]. cbn. by rewrite Hp, decide_True.
Qed.

Lemma other_runs {X A} (e : sys X) v t (k : X → proc A) Q tr :
  kcall_of e = None → state_is tr v t →
  (∀ x tr', state_is tr' v (t ++ from_option (λ m, [m]) [] (mark_of (Ev e x))) → always env (k x) Q tr') →
  always env (perform e ≫= k) Q tr.
Proof.
  intros Hp Hst HQ. apply always_bind, always_perform. apply HQ.
  apply state_is_snoc with (v := v); [done|]. cbn. by rewrite Hp.
Qed.

Lemma level_of_missing v l addr :
  0 <= l < NUM_PT_LEVELS - 1 →
  (∀ m, l < m < NUM_PT_LEVELS - 1 → region m addr ∈ tables v) → region l addr ∉ tables v →
  level_of v (fn_of_level l) addr = Some l.
Proof using Hcfg.
  intros Hl Habove Hnot. destruct (cfg_levels Hcfg) as [Hge Hle]. unfold level_of.
  assert (arch = CONFIG_ARCH_X86_64 ∨ arch ≠ CONFIG_ARCH_X86_64) as [E|E]
    by (destruct arch; naive_solver).
  - rewrite E. unfold NUM_PT_LEVELS in Hl. rewrite E in Hl. f_equal.
    assert (l = 0 ∨ l = 1 ∨ l = 2) as [-> | [-> | ->]] by lia;
      unfold fn_of_level, PT_L1_Map, PT_L2_Map; rewrite E; by vm_compute.
  - assert (snd <$> list_find (λ l, region l addr ∉ tables v) (reverse (seqZ 0 (NUM_PT_LEVELS - 1))) = Some l)
      as Hfind; [|by destruct arch].
    erewrite (proj2 (list_find_Some _ _ (Z.to_nat (NUM_PT_LEVELS - 2 - l)) l)); [done|].
    assert (∀ j y, reverse (seqZ 0 (NUM_PT_LEVELS - 1)) !! j = Some y ↔
              y = NUM_PT_LEVELS - 2 - Z.of_nat j ∧ 0 <= y) as Hrev.
    { intros j y. rewrite reverse_lookup_Some, lookup_seqZ, length_seqZ. lia. }
    split_and!; [apply Hrev; lia|done|]. intros j y [-> Hy]%Hrev Hj Hny. apply Hny, Habove. lia.
Qed.

(** *** Making objects *)

(** The slot of the [c]-th object. *)
Definition slot (c : Z) : Z := untyped + 1 + c.

(** [c] objects are made, in the first slots and the first bytes. *)
Record made (v : vspace) (c : Z) := Made {
  made_caps : ∀ s, is_Some (caps v !! s) → untyped < s <= untyped + c;
  made_used : 0 <= used v <= c * 2 ^ seL4_PageBits;
  made_tables : ∀ s, s ∈ table_caps v → untyped < s <= untyped + c;
}.

Lemma round_up_le n bits c :
  0 <= bits <= seL4_PageBits → 0 <= n <= c * 2 ^ seL4_PageBits →
  0 <= round_up n bits <= c * 2 ^ seL4_PageBits.
Proof.
  intros Hb Hn. unfold round_up. pose proof (Z.pow_pos_nonneg 2 bits).
  assert (2 ^ seL4_PageBits = 2 ^ (seL4_PageBits - bits) * 2 ^ bits) as E
    by (rewrite <-Z.pow_add_r by lia; f_equal; lia).
  set (d := 2 ^ bits) in *. set (k := 2 ^ (seL4_PageBits - bits)) in *.
  split; [apply Z.mul_nonneg_nonneg; [apply Z.div_pos|]; lia|].
  assert ((n + d - 1) `div` d < c * k + 1) as Hdiv by (apply Z.div_lt_upper_bound; nia). nia.
Qed.

Lemma next_slot c : 0 <= c < all_objects → slot c ⊞[seL4_WordBits] 1 = slot (c + 1) ∧
  0 <= slot c < 2 ^ CONFIG_SEL4UTILS_CSPACE_SIZE_BITS.
Proof using Hen.
  intros Hc. destruct (en_slots Hen) as [? ?].
  pose proof (Z.pow_le_mono_r 2 CONFIG_SEL4UTILS_CSPACE_SIZE_BITS seL4_WordBits).
  destruct (en_cspace Hen). unfold slot. rewrite wrap_small; [lia|]. split; lia.
Qed.

Lemma retype_runs {A} type bits c v t (k : Z → proc A) Q tr :
  made v c → 0 <= c < all_objects → 0 <= bits <= seL4_PageBits → state_is tr v t →
  (∀ tr', let v' := grant v (Retype untyped type bits (slot c)) in
     made v' (c + 1) → state_is tr' v' (t ++ [Did (Retype untyped type bits (slot c))]) →
     always env (k 0) Q tr') →
  always env (untyped_retype_root untyped type bits (slot c) ≫= k) Q tr.
Proof using Henv Hen.
  intros [Hcaps Hused Htc] Hc Hb Hst HQ. destruct (next_slot c) as [_ Hslot]; [lia|].
  pose proof (round_up_le (used v) bits c Hb Hused) as Hround.
  assert (2 ^ bits <= 2 ^ seL4_PageBits) by (apply Z.pow_le_mono_r; lia).
  pose proof (Z.pow_nonneg 2 bits).
  eapply kcall_runs; [apply parse_retype|exact Hst| |].
  - split_and!; [done| |apply Hslot..|unfold slot; lia|].
    + destruct (caps v !! slot c) eqn:E; [|done]. specialize (Hcaps (slot c) ltac:(by rewrite E)).
      unfold slot in *. lia.
    + pose proof (en_untyped Hen). nia.
  - intros tr' Hst'. apply HQ; [|done]. split; cbn [caps used table_caps grant].
    + intros s. rewrite lookup_insert_is_Some'. unfold slot. intros [<-|Hs%Hcaps]; lia.
    + lia.
    + intros s Hs%Htc. lia.
Qed.

(** *** Tables *)

(** The calls for a table of a level. *)
Definition new_table (l bits c addr : Z) : list kcall :=
  [Retype untyped (type_of_level l) bits (slot c); MapTable (fn_of_level l) (slot c) addr].

Lemma new_table_runs {A} l bits c addr v t (f : Z → proc A) Q tr :
  made v c → 0 <= c < all_objects → 0 <= bits <= seL4_PageBits → state_is tr v t →
  0 <= l < NUM_PT_LEVELS - 1 →
  (∀ m, l < m < NUM_PT_LEVELS - 1 → region m addr ∈ tables v) → region l addr ∉ tables v →
  (∀ v' tr', made v' (c + 1) → tables v' = {[region l addr]} ∪ tables v → pages v' = pages v →
     state_is tr' v' (t ++ (Did <$> new_table l bits c addr)) → always env (f 0) Q tr') →
  always env (err ← untyped_retype_root untyped (type_of_level l) bits (slot c);
              assert_that (err =? 0);;
              err ← map_table (fn_of_level l) (slot c) addr; f err) Q tr.
Proof using Henv Hcfg Hen.
  intros Hm Hc Hb Hst Hl Habove Hnot HQ. apply (retype_runs _ _ c v t); [done..|].
  intros tr1 v1 Hm1 Hst1. change (assert_that (0 =? 0)) with (mret tt : proc unit).
  cbn [mbind prog_mbind prog_bind mret prog_mret].
  assert (level_of v1 (fn_of_level l) addr = Some l) as Hlev by (by apply level_of_missing).
  eapply kcall_runs; [apply parse_map_table|exact Hst1| |].
  - cbn [legal]. rewrite Hlev. split_and!.
    + unfold v1. cbn. by rewrite lookup_insert_eq.
    + intros Hin%(made_tables _ _ Hm). unfold slot in Hin. lia.
    + destruct (decide (l + 1 = NUM_PT_LEVELS - 1)); [by left|]. right. apply Habove. lia.
  - intros tr2. cbn [grant answer_of]. rewrite Hlev, !decide_False by done. intros Hst2. rewrite <-app_assoc in Hst2.
    eapply HQ; [| | |exact Hst2]; [|done..]. destruct Hm1 as [? ? Htc]. split; [done..|].
    intros s. cbn [table_caps]. unfold slot. rewrite elem_of_union, elem_of_singleton.
    intros [-> |Hs%Htc]; lia.
Qed.

(** The table that may be there already. *)
Lemma old_table_runs {A} bits c addr v t (f : Z → proc A) Q tr :
  arch = CONFIG_ARCH_X86_64 →
  made v c → 0 <= c < all_objects → 0 <= bits <= seL4_PageBits → state_is tr v t →
  region 2 addr ∈ tables v →
  (∀ v' tr', made v' (c + 1) → tables v' = tables v → pages v' = pages v →
     state_is tr' v' (t ++ (Did <$> new_table 2 bits c addr)) → always env (f seL4_DeleteFirst) Q tr') →
  always env (err ← untyped_retype_root untyped PT_L2_OBJ bits (slot c);
              assert_that (err =? 0);;
              err ← map_table PT_L2_Map (slot c) addr; f err) Q tr.
Proof using Henv Hcfg Hen.
  intros Harch Hm Hc Hb Hst Hin HQ. apply (retype_runs _ _ c v t); [done..|].
  intros tr1 v1 Hm1 Hst1. change (assert_that (0 =? 0)) with (mret tt : proc unit).
  cbn [mbind prog_mbind prog_bind mret prog_mret].
  assert (level_of v1 PT_L2_Map addr = Some 2) as Hlev.
  { unfold level_of, PT_L2_Map. by rewrite Harch. }
  eapply kcall_runs; [apply (parse_map_table 2)|exact Hst1| |]; change (fn_of_level 2) with PT_L2_Map.
  - cbn [legal]. rewrite Hlev. split_and!.
    + unfold v1. cbn. by rewrite lookup_insert_eq.
    + intros Hin'%(made_tables _ _ Hm). unfold slot in Hin'. lia.
    + left. unfold NUM_PT_LEVELS. by rewrite Harch.
  - intros tr2. cbn [grant answer_of]. rewrite Hlev, !decide_True by done. intros Hst2. rewrite <-app_assoc in Hst2.
    by eapply HQ; [| | |exact Hst2].
Qed.

(** *** Regions *)

Lemma page_per_table_pos : 0 < PAGE_PER_TABLE.
Proof using Hcfg. destruct (cfg_word Hcfg). unfold PAGE_PER_TABLE. apply Z.pow_pos_nonneg; lia. Qed.
Lemma covers_0 : covers 0 = PAGE_SIZE_4K * PAGE_PER_TABLE.
Proof. done. Qed.
Lemma covers_pos : 0 < covers 0.
Proof using Hcfg. pose proof page_per_table_pos. rewrite covers_0. unfold PAGE_SIZE_4K. lia. Qed.
Lemma bottom_tables_nonneg : 0 <= bottom_tables.
Proof using Hcfg Hen.
  pose proof page_per_table_pos. pose proof (en_npage Hen). apply Z.div_pos; lia.
Qed.

(** The address of the [i]-th page table, and of the [i]-th page. *)
Definition table_addr (i : Z) : Z := START_ADDR + i * covers 0.
Definition page_addr (i : Z) : Z := START_ADDR + i * PAGE_SIZE_4K.

Lemma table_region i : region 0 (table_addr i) = (0, START_ADDR `div` covers 0 + i).
Proof using Hcfg. pose proof covers_pos. unfold region, table_addr. by rewrite Z.div_add by lia. Qed.

(** The page table a page lies below. *)
Lemma page_region i :
  0 <= i < npage → ∃ j, 0 <= j < bottom_tables ∧ region 0 (page_addr i) = region 0 (table_addr j).
Proof using Hcfg Hen.
  intros Hi. pose proof page_per_table_pos as Hp. exists (i `div` PAGE_PER_TABLE).
  assert (PAGE_PER_TABLE ≠ 0) as Hp' by lia.
  pose proof (Z.div_mod i PAGE_PER_TABLE Hp') as Hdm. pose proof (Z.mod_pos_bound i _ Hp) as Hmod.
  set (q := i `div` PAGE_PER_TABLE) in *. set (r := i `mod` PAGE_PER_TABLE) in *.
  assert (0 <= q) by (apply Z.div_pos; lia). split.
  - split; [done|]. apply Z.lt_le_trans with (q + 1); [lia|]. apply Z.div_le_lower_bound; lia.
  - rewrite table_region. unfold region, page_addr. f_equal.
    replace (START_ADDR + i * PAGE_SIZE_4K) with (START_ADDR + r * PAGE_SIZE_4K + q * covers 0)
      by (rewrite covers_0, Hdm; ring).
    pose proof covers_pos. rewrite Z.div_add by lia. f_equal.
    rewrite (Z.div_mod START_ADDR (covers 0)) at 1 by lia. rewrite (en_aligned Hen), Z.add_0_r.
    rewrite Z.mul_comm, Z.div_add_l by lia. rewrite (Z.div_small (r * PAGE_SIZE_4K)); [lia|].
    rewrite covers_0. unfold PAGE_SIZE_4K. lia.
Qed.

(** All the page tables lie below the same upper tables. *)
Lemma upper_region m i :
  0 < m < NUM_PT_LEVELS - 1 → 0 <= i < bottom_tables → region m (table_addr i) = region m START_ADDR.
Proof using Hcfg Hen.
  intros Hm Hi. pose proof (en_one_region Hen ltac:(lia) i Hi) as E1. unfold table_addr.
  destruct (decide (m = 1)) as [-> |Hm1]; [done|].
  assert (m = 2) as -> by (pose proof (cfg_levels Hcfg); lia).
  unfold region in *. injection E1 as E1. f_equal.
  change (covers 2) with (covers 1 * 2 ^ (PT_L2_BITS - seL4_WordSizeBits)).
  destruct (cfg_word Hcfg), (cfg_tables Hcfg) as (_ & ? & ?). pose proof page_per_table_pos.
  assert (0 < covers 1) as Hc1.
  { unfold covers. cbn [Z.eqb]. unfold PAGE_SIZE_4K.
    apply Z.mul_pos_pos; [lia|]. apply Z.pow_pos_nonneg; lia. }
  assert (0 < 2 ^ (PT_L2_BITS - seL4_WordSizeBits)) by (apply Z.pow_pos_nonneg; lia).
  rewrite <-!Z.div_div by lia. by rewrite E1.
Qed.

(** *** The page tables *)

(** The tables above the page tables are there; of the page tables, the first
    [k]; nothing is mapped, and [c] objects are made. *)
Record tabled (v : vspace) (k c : Z) := Tabled {
  tb_made : made v c;
  tb_upper : ∀ m, 0 < m < NUM_PT_LEVELS - 1 → region m START_ADDR ∈ tables v;
  tb_bottom : ∀ i, 0 <= i < bottom_tables → region 0 (table_addr i) ∈ tables v ↔ i < k;
  tb_pages : pages v = ∅;
}.
(** Before that: no table of a level below [l], nor the one of level 2 or an
    existing one. *)
Record untabled (v : vspace) (l c : Z) := Untabled {
  ut_made : made v c;
  ut_missing : ∀ m i, 0 <= m < l → 0 <= i <= bottom_tables → region m (table_addr i) ∉ tables v;
  ut_pages : pages v = ∅;
}.

Lemma objects_bounds : 0 <= upper_tables ∧ 0 <= bottom_tables ∧ 0 <= npage ∧
  all_objects = upper_tables + bottom_tables + npage.
Proof using Hcfg Hen.
  pose proof bottom_tables_nonneg. pose proof (en_npage Hen). pose proof (cfg_levels Hcfg).
  unfold all_objects, upper_tables. lia.
Qed.

Lemma table_addr_0 : table_addr 0 = START_ADDR.
Proof. apply Z.add_0_r. Qed.

Lemma different_levels l m a b : l ≠ m → region l a ≠ region m b.
Proof. unfold region. congruence. Qed.

(** The calls of the loop, and those of the phase. *)
Definition bottom_calls (i : Z) : list kcall :=
  new_table 0 seL4_PageTableBits (upper_tables + i) (table_addr i).
Definition page_table_calls : list kcall :=
  (if NUM_PT_LEVELS =? 4 then new_table 2 PT_L2_BITS 0 START_ADDR else []) ++
  (if 3 <=? NUM_PT_LEVELS then new_table 1 PT_L1_BITS (upper_tables - 1) START_ADDR else []) ++
  (seqZ 0 bottom_tables ≫= bottom_calls).

Lemma prepare_L0_runs k v t Q tr :
  tabled v k (upper_tables + k) → 0 <= k < bottom_tables → state_is tr v t →
  (∀ v' tr', tabled v' (k + 1) (upper_tables + (k + 1)) →
     state_is tr' v' (t ++ (Did <$> bottom_calls k)) →
     Q (slot (upper_tables + (k + 1)), table_addr (k + 1)) tr') →
  always env (prepare_L0 untyped (slot (upper_tables + k), table_addr k)) Q tr.
Proof using Henv Hcfg Hen.
  intros [Hm Hup Hbot Hpg] Hk Hst HQ. pose proof objects_bounds. pose proof (cfg_levels Hcfg).
  destruct (cfg_word Hcfg), (cfg_tables Hcfg) as (? & _). pose proof covers_pos.
  eapply (new_table_runs 0 seL4_PageTableBits _ (table_addr k) v t); [done|lia|lia|done|lia| | |].
  - intros m Hlm. rewrite upper_region by lia. apply Hup. lia.
  - rewrite Hbot by done. lia.
  - intros v' tr' Hm' Htab Hpages Hst'. change (assert_that (0 =? 0)) with (mret tt : proc unit).
    cbn [mbind prog_mbind prog_bind mret prog_mret]. apply always_ret.
    destruct (next_slot (upper_tables + k)) as [-> _]; [lia|].
    replace (table_addr k ⊞[seL4_WordBits] (PAGE_SIZE_4K * PAGE_PER_TABLE)) with (table_addr (k + 1)).
    { rewrite <-Z.add_assoc in *. eapply HQ; [|exact Hst']. split; [done| | |by rewrite Hpages].
      - intros m Hlm. rewrite Htab, elem_of_union. right. by apply Hup.
      - intros i Hi. rewrite Htab, elem_of_union, elem_of_singleton, Hbot, !table_region by done.
        split; [intros [[=]|?]; lia|]. intros. destruct (decide (i = k)) as [-> |]; [by left|right; lia]. }
    rewrite <-covers_0. unfold table_addr. rewrite wrap_small; [lia|].
    pose proof (en_addresses Hen). assert (0 <= START_ADDR) by (unfold START_ADDR; by destruct arch).
    split; [lia|]. nia.
Qed.

Lemma prepare_L1_runs v t Q tr c :
  untabled v 2 c → 3 <= NUM_PT_LEVELS → c = upper_tables - 1 →
  (NUM_PT_LEVELS = 4 → region 2 START_ADDR ∈ tables v) → state_is tr v t →
  (∀ v' tr', tabled v' 0 upper_tables →
     state_is tr' v' (t ++ (Did <$> new_table 1 PT_L1_BITS (upper_tables - 1) START_ADDR)) →
     Q (slot upper_tables) tr') →
  always env (prepare_L1 START_ADDR untyped (slot c)) Q tr.
Proof using Henv Hcfg Hen.
  intros [Hm Hmiss Hpg] Hl3 -> Hl2 Hst HQ. pose proof objects_bounds. pose proof (cfg_levels Hcfg).
  destruct (cfg_word Hcfg), (cfg_tables Hcfg) as (_ & ? & _).
  assert (upper_tables = NUM_PT_LEVELS - 2) as Hu by done.
  eapply (new_table_runs 1 PT_L1_BITS _ START_ADDR v t); [done|lia|lia|done|lia| | |].
  - intros m Hlm. assert (m = 2) as -> by lia. apply Hl2. lia.
  - rewrite <-table_addr_0. apply Hmiss; lia.
  - intros v' tr' Hm' Htab Hpages Hst'. change (assert_that (0 =? 0)) with (mret tt : proc unit).
    cbn [mbind prog_mbind prog_bind mret prog_mret]. apply always_ret.
    destruct (next_slot (upper_tables - 1)) as [-> _]; [lia|]. rewrite Z.sub_add in *.
    eapply HQ; [|exact Hst']. split; [done| | |by rewrite Hpages].
    + intros m Hlm. rewrite Htab, elem_of_union, elem_of_singleton.
      destruct (decide (m = 1)) as [-> |]; [by left|right]. assert (m = 2) as -> by lia. apply Hl2. lia.
    + intros i Hi. rewrite Htab, elem_of_union, elem_of_singleton.
      split; [|lia]. intros [E|Hin]; [by apply different_levels in E|]. exfalso. by apply (Hmiss 0 i); [lia..|].
Qed.

Lemma prepare_L2_runs t Q tr :
  NUM_PT_LEVELS = 4 → untabled v0 2 0 → state_is tr v0 t →
  (∀ v' tr', untabled v' 2 1 → region 2 START_ADDR ∈ tables v' →
     state_is tr' v' (t ++ (Did <$> new_table 2 PT_L2_BITS 0 START_ADDR)) → Q (slot 1) tr') →
  always env (prepare_L2 START_ADDR untyped (slot 0)) Q tr.
Proof using Henv Hcfg Hen Hfr.
  intros Hl4 [Hm Hmiss Hpg] Hst HQ. pose proof objects_bounds.
  destruct (cfg_word Hcfg), (cfg_tables Hcfg) as (_ & _ & ?).
  assert (upper_tables = 2) as Hu by (unfold upper_tables; lia).
  destruct (next_slot 0) as [Hslot _]; [lia|]. unfold prepare_L2.
  destruct (decide (region 2 START_ADDR ∈ tables v0)) as [Hin|Hnot].
  - destruct (fr_tables Hfr 2 0) as [_ Harch]; [lia|lia|by rewrite Z.mul_0_l, Z.add_0_r|].
    eapply (old_table_runs PT_L2_BITS 0 START_ADDR v0 t); [done..|lia|lia|done|done|].
    intros v' tr' Hm' Htab Hpages Hst'. rewrite Z.eqb_refl, orb_true_r.
    change (assert_that true) with (mret tt : proc unit).
    cbn [mbind prog_mbind prog_bind mret prog_mret]. apply always_ret. rewrite Hslot.
    eapply HQ; [| |exact Hst']; [|by rewrite Htab]. split; [done|by rewrite Htab|by rewrite Hpages].
  - eapply (new_table_runs 2 PT_L2_BITS 0 START_ADDR v0 t); [done|lia|lia|done|lia| |done|].
    { intros m Hlm. lia. }
    intros v' tr' Hm' Htab Hpages Hst'. cbn [Z.eqb orb].
    change (assert_that true) with (mret tt : proc unit).
    cbn [mbind prog_mbind prog_bind mret prog_mret]. apply always_ret. rewrite Hslot.
    eapply HQ; [| |exact Hst']; [|rewrite Htab; set_solver +]. split; [done| |by rewrite Hpages].
    intros m i Hlm Hi. rewrite Htab, elem_of_union, elem_of_singleton. intros [E|Hin].
    + apply different_levels in E; [done|lia].
    + by apply (Hmiss m i).
Qed.

Lemma bottom_runs v t Q tr :
  tabled v 0 upper_tables → state_is tr v t →
  (∀ v' tr', tabled v' bottom_tables (upper_tables + bottom_tables) →
     state_is tr' v' (t ++ (Did <$> (seqZ 0 bottom_tables ≫= bottom_calls))) →
     Q (slot (upper_tables + bottom_tables)) tr') →
  always env ('(pt_cslot, _) ← loop_acc (seqZ 0 (NUM_PAGE_TABLE npage)) (slot upper_tables, START_ADDR)
                (λ _, prepare_L0 untyped); mret pt_cslot) Q tr.
Proof using Henv Hcfg Hen.
  intros Htb Hst HQ. pose proof objects_bounds. unfold NUM_PAGE_TABLE. rewrite (cfg_div Hcfg).
  fold bottom_tables. apply always_bind.
  apply always_loop_acc with (I := λ k s tr, ∃ v', tabled v' (Z.of_nat k) (upper_tables + Z.of_nat k) ∧
    state_is tr v' (t ++ (Did <$> (seqZ 0 (Z.of_nat k) ≫= bottom_calls))) ∧
    s = (slot (upper_tables + Z.of_nat k), table_addr (Z.of_nat k))).
  - exists v. change (Z.of_nat 0) with 0. rewrite Z.add_0_r, table_addr_0, app_nil_r. by split_and!.
  - intros k x s tr1 [_ Hk]%lookup_seqZ (v1 & Htb1 & Hst1 & ->).
    eapply prepare_L0_runs; [exact Htb1|lia|exact Hst1|].
    intros v2 tr2 Htb2 Hst2. exists v2. rewrite Nat2Z.inj_succ, <-Z.add_1_r.
    split_and!; [done| |done]. rewrite seqZ_snoc, bind_app, fmap_app, app_assoc by lia.
    cbn [mbind list_bind]. by rewrite app_nil_r, Z.add_0_l.
  - intros s tr1 (v1 & Htb1 & Hst1 & ->). rewrite length_seqZ, Z2Nat.id in * by lia.
    apply always_ret. by eapply HQ.
Qed.

Lemma upper_runs v t Q tr c :
  untabled v 2 c → 3 <= NUM_PT_LEVELS → c = upper_tables - 1 →
  (NUM_PT_LEVELS = 4 → region 2 START_ADDR ∈ tables v) → state_is tr v t →
  (∀ v' tr', tabled v' bottom_tables (upper_tables + bottom_tables) →
     state_is tr' v' (t ++ (Did <$> new_table 1 PT_L1_BITS (upper_tables - 1) START_ADDR ++
                              (seqZ 0 bottom_tables ≫= bottom_calls))) →
     Q (slot (upper_tables + bottom_tables)) tr') →
  always env (pt_cslot ← prepare_L1 START_ADDR untyped (slot c);
              '(pt_cslot, _) ← loop_acc (seqZ 0 (NUM_PAGE_TABLE npage)) (pt_cslot, START_ADDR)
                (λ _, prepare_L0 untyped); mret pt_cslot) Q tr.
Proof using Henv Hcfg Hen.
  intros Hut Hl3 Hc Hl2 Hst HQ. apply always_bind. apply (prepare_L1_runs v t _ tr c); [done..|].
  intros v1 tr1 Htb Hst1. eapply bottom_runs; [exact Htb|exact Hst1|].
  intros v2 tr2 Htb2 Hst2. rewrite <-app_assoc, <-fmap_app in Hst2. by eapply HQ.
Qed.

Lemma fresh_untabled l : l <= NUM_PT_LEVELS - 1 → l <= 2 → untabled v0 l 0.
Proof using Hfr.
  intros Hl Hl2. destruct Hfr as [E1 E2 E3 E4 E5]. split; [split| |done].
  - intros s. rewrite E1, lookup_empty. by intros [? ?].
  - lia.
  - intros s. rewrite E3. set_solver +.
  - intros m j Hmj Hj Hin. apply E5 in Hin; lia.
Qed.

Lemma prepare_page_table_runs t Q tr :
  state_is tr v0 t →
  (∀ v' tr', tabled v' bottom_tables (upper_tables + bottom_tables) →
     state_is tr' v' (t ++ (Did <$> page_table_calls)) →
     Q (slot (upper_tables + bottom_tables)) tr') →
  always env (prepare_page_table START_ADDR npage untyped (slot 0)) Q tr.
Proof using Henv Hcfg Hen Hfr.
  intros Hst. unfold prepare_page_table, page_table_calls.
  pose proof (cfg_levels Hcfg). assert (upper_tables = NUM_PT_LEVELS - 2) as Hu by done.
  assert (NUM_PT_LEVELS = 2 ∨ NUM_PT_LEVELS = 3 ∨ NUM_PT_LEVELS = 4) as [E | [E | E]] by lia;
    rewrite !E; cbn [Z.eqb Z.leb Z.compare Pos.compare Pos.compare_cont Pos.eqb app];
    rewrite E in Hu; intros HQ.
  - destruct (fresh_untabled 1) as [Hm Hmiss Hpg]; [lia..|].
    cbn [mbind prog_mbind prog_bind mret prog_mret].
    replace (slot 0) with (slot upper_tables) by (by rewrite Hu).
    apply (bottom_runs v0 t); [|done|done].
    rewrite Hu. split; [done|intros m; lia| |done].
    intros j Hj. split; [|lia]. intros Hin. exfalso. by apply (Hmiss 0 j); [lia..|].
  - apply (upper_runs v0 t); [apply fresh_untabled; lia|lia|lia|lia|done|done].
  - apply always_bind, prepare_L2_runs with (t := t); [done|apply fresh_untabled; lia|done|].
    intros v1 tr1 Hut Hin Hst1. eapply upper_runs; [exact Hut|lia|lia|done|exact Hst1|].
    intros v2 tr2 Htb Hst2. rewrite <-app_assoc, <-fmap_app in Hst2. by eapply HQ.
Qed.

(** *** The pages *)

(** The tables and the first [k] pages are made; what is mapped is [old]. *)
Record paged (v : vspace) (k : Z) := Paged {
  pg_made : made v (upper_tables + bottom_tables + k);
  pg_tables : ∀ i, 0 <= i < npage → region 0 (page_addr i) ∈ tables v;
  pg_caps : ∀ i, 0 <= i < k → caps v !! slot (upper_tables + bottom_tables + i) = Some seL4_ARCH_4KPage;
}.

Definition first_page : Z := slot (upper_tables + bottom_tables).
Definition page_calls : list kcall :=
  (λ i, Retype untyped seL4_ARCH_4KPage seL4_PageBits (first_page + i)) <$> seqZ 0 npage.
Definition map_calls (rights : Z) : list kcall :=
  (λ i, MapPage (first_page + i) (page_addr i) rights) <$> seqZ 0 npage.

Lemma page_slot i : slot (upper_tables + bottom_tables + i) = first_page + i.
Proof. unfold first_page, slot. lia. Qed.

Lemma next_page i : 0 <= i < npage → (first_page + i) ⊞[seL4_WordBits] 1 = first_page + (i + 1).
Proof using Hcfg Hen.
  intros Hi. pose proof objects_bounds. rewrite <-!page_slot.
  destruct (next_slot (upper_tables + bottom_tables + i)) as [-> _]; [lia|]. f_equal. lia.
Qed.

Lemma prepare_pages_runs v t Q tr :
  tabled v bottom_tables (upper_tables + bottom_tables) → state_is tr v t →
  (∀ v' tr', paged v' npage → pages v' = ∅ → state_is tr' v' (t ++ (Did <$> page_calls)) →
     Q (first_page + npage) tr') →
  always env (prepare_pages npage untyped first_page) Q tr.
Proof using Henv Hcfg Hen.
  intros [Hm Hup Hbot Hpg] Hst HQ. pose proof objects_bounds. destruct page_bits_law.
  apply always_loop_acc with (I := λ k s tr, ∃ v', paged v' (Z.of_nat k) ∧ pages v' = ∅ ∧
    state_is tr v' (t ++ (Did <$> ((λ i, Retype untyped seL4_ARCH_4KPage seL4_PageBits (first_page + i))
                                     <$> seqZ 0 (Z.of_nat k)))) ∧
    s = first_page + Z.of_nat k).
  - exists v. change (Z.of_nat 0) with 0. rewrite !Z.add_0_r. cbn [seqZ]. rewrite app_nil_r.
    split_and!; try done. split; [by rewrite Z.add_0_r| |lia].
    intros i Hi. destruct (page_region i Hi) as (j & Hj & ->). apply Hbot; lia.
  - intros k x s tr1 [_ Hk]%lookup_seqZ (v1 & [Hm1 Ht1 Hc1] & Hpg1 & Hst1 & ->).
    rewrite <-page_slot.
    eapply retype_runs; [exact Hm1|lia|lia|exact Hst1|]. intros tr2 v2 Hm2 Hst2.
    change (assert_that (0 =? 0)) with (mret tt : proc unit).
    cbn [mbind prog_mbind prog_bind mret prog_mret]. apply always_ret.
    rewrite page_slot, next_page, Nat2Z.inj_succ, <-Z.add_1_r by lia. exists v2. split_and!; try done.
    + split; [by rewrite Z.add_assoc|done|]. intros i Hi. cbn.
      destruct (decide (i = Z.of_nat k)) as [-> |Hne]; [by rewrite lookup_insert_eq|].
      rewrite lookup_insert_ne by (unfold slot; lia). apply Hc1. lia.
    + rewrite seqZ_snoc, !fmap_app, app_assoc by lia. cbn [fmap list_fmap].
      by rewrite Z.add_0_l, <-page_slot.
  - intros s tr1 (v1 & Hpg1 & Hm1 & Hst1 & ->). rewrite length_seqZ, Z2Nat.id in * by lia.
    by eapply HQ.
Qed.

(** *** The mappings *)

Lemma page_addr_inj i j : page_addr i = page_addr j → i = j.
Proof. unfold page_addr, PAGE_SIZE_4K. lia. Qed.

Lemma lookup_mapped cap rights k a p :
  mapped cap rights k !! a = Some p ↔
  ∃ i, 0 <= i < Z.of_nat k ∧ a = page_addr i ∧ p = (cap + i, rights).
Proof.
  induction k as [|k IH]; cbn [mapped].
  { rewrite lookup_empty. split; [done|]. intros (i & ? & _). lia. }
  change (START_ADDR + Z.of_nat k * PAGE_SIZE_4K) with (page_addr (Z.of_nat k)).
  rewrite lookup_insert_Some, IH. split.
  - intros [[<- <-]|(_ & i & Hi & Ha & Hp)]; [exists (Z.of_nat k)|exists i]; split_and!; (lia || done).
  - intros (i & Hi & -> & ->). destruct (decide (i = Z.of_nat k)) as [-> |Hne]; [by left|right].
    split; [by intros E%page_addr_inj|]. exists i. split_and!; (lia || done).
Qed.

Lemma mapped_other_page cap rights k i : Z.of_nat k <= i → mapped cap rights k !! page_addr i = None.
Proof.
  intros Hi. destruct (mapped cap rights k !! page_addr i) eqn:E; [|done].
  apply lookup_mapped in E as (j & Hj & E%page_addr_inj & _). lia.
Qed.

(** Mapping all the pages again replaces the mapping. *)
Lemma mapped_again cap rights rights' k : mapped cap rights k ∪ mapped cap rights' k = mapped cap rights k.
Proof.
  apply map_eq. intros a. destruct (mapped cap rights k !! a) as [p|] eqn:E.
  { by rewrite (lookup_union_Some_l _ _ _ p). }
  rewrite lookup_union_r by done. destruct (mapped cap rights' k !! a) as [q|] eqn:E'; [|done].
  apply lookup_mapped in E' as (i & Hi & -> & ->).
  assert (mapped cap rights k !! page_addr i = Some (cap + i, rights)) as E'.
  { apply lookup_mapped. by exists i. }
  congruence.
Qed.

(** Nothing is mapped, or all the pages are. *)
Definition mapped_before (old : gmap Z (Z * Z)) : Prop :=
  old = ∅ ∨ ∃ rights, old = mapped first_page rights (Z.to_nat npage).

Lemma map_page_legal v old rights k :
  paged v npage → mapped_before old → 0 <= Z.of_nat k < npage →
  pages v = mapped first_page rights k ∪ old →
  legal untyped untyped_bits v (MapPage (first_page + Z.of_nat k) (page_addr (Z.of_nat k)) rights).
Proof using.
  intros [_ Ht Hc] Hold Hk Hpg. cbn [legal]. split_and!.
  - rewrite <-page_slot. by apply Hc.
  - unfold page_addr. rewrite Z.mod_add by done. unfold START_ADDR. by destruct arch.
  - by apply Ht.
  - rewrite Hpg. destruct Hold as [-> |[r' ->]]; [left|right].
    + rewrite map_union_empty. split; [by apply mapped_other_page|].
      intros a p (i & Hi & -> & ->)%lookup_mapped. cbn. lia.
    + rewrite lookup_union_r by (by apply mapped_other_page).
      rewrite (proj2 (lookup_mapped _ r' _ _ (first_page + Z.of_nat k, r'))); [done|].
      exists (Z.of_nat k). split_and!; [lia|lia|done|done].
Qed.

Lemma next_page_addr i : 0 <= i < npage → page_addr i ⊞[seL4_WordBits] PAGE_SIZE_4K = page_addr (i + 1).
Proof using Hcfg Hen.
  intros Hi. pose proof (en_addresses Hen) as Ha. rewrite covers_0 in Ha.
  assert (0 <= START_ADDR) by (unfold START_ADDR; by destruct arch).
  assert (npage <= bottom_tables * PAGE_PER_TABLE) as Hb.
  { pose proof page_per_table_pos as Hp. unfold bottom_tables.
    pose proof (Z.mul_succ_div_gt (npage + PAGE_PER_TABLE - 1) PAGE_PER_TABLE Hp). lia. }
  unfold page_addr. rewrite wrap_small; [unfold PAGE_SIZE_4K; lia|].
  unfold in_word, PAGE_SIZE_4K in *. nia.
Qed.

Lemma map_loop_runs v old rights t (Q : unit → list (event sys) → Prop) tr :
  paged v npage → mapped_before old → pages v = old → state_is tr v t →
  (∀ v' tr', paged v' npage → pages v' = mapped first_page rights (Z.to_nat npage) →
     state_is tr' v' (t ++ (Did <$> map_calls rights)) → Q tt tr') →
  always env (_ ← loop_acc (seqZ 0 npage) (START_ADDR, first_page) (λ _, map_page rights); mret tt) Q tr.
Proof using Henv Hcfg Hen.
  intros Hpg Hold Hv Hst HQ. pose proof objects_bounds. apply always_bind.
  apply always_loop_acc with (I := λ k s tr, ∃ v', paged v' npage ∧
    pages v' = mapped first_page rights k ∪ old ∧
    state_is tr v' (t ++ (Did <$> ((λ i, MapPage (first_page + i) (page_addr i) rights)
                                     <$> seqZ 0 (Z.of_nat k)))) ∧
    s = (page_addr (Z.of_nat k), first_page + Z.of_nat k)).
  - exists v. cbn [seqZ]. rewrite app_nil_r. cbn [mapped]. rewrite map_empty_union.
    split_and!; [done..|]. unfold page_addr. f_equal; lia.
  - intros k x s tr1 [_ Hk]%lookup_seqZ (v1 & Hpg1 & Hv1 & Hst1 & ->).
    eapply kcall_runs; [apply parse_map_page|exact Hst1|by eapply map_page_legal; [..|lia|]|].
    intros tr2 Hst2. cbn [answer_of]. change (assert_that (0 =? 0)) with (mret tt : proc unit).
    cbn [mbind prog_mbind prog_bind mret prog_mret]. apply always_ret.
    rewrite next_page, next_page_addr, Nat2Z.inj_succ, <-Z.add_1_r by lia.
    eexists. split_and!; [| |rewrite seqZ_snoc, !fmap_app, app_assoc by lia; exact Hst2|done].
    + destruct Hpg1 as [[? ? ?] ? ?]. by split.
    + cbn [grant pages]. rewrite Hv1. cbn [mapped]. by rewrite insert_union_l.
  - intros s tr1 (v1 & Hpg1 & Hv1 & Hst1 & ->). rewrite length_seqZ in *. apply always_ret.
    rewrite Z2Nat.id in * by lia. eapply HQ; [exact Hpg1| |exact Hst1]. rewrite Hv1.
    destruct Hold as [-> |[r' ->]]; [apply map_union_empty|apply mapped_again].
Qed.

(** *** The phases *)

(** A phase: a reading, its calls, a reading, and the message of the time
    between the two. *)
Definition phase_marks (calls : list kcall) (se : Z * Z) : list mark :=
  [Reading se.1] ++ (Did <$> calls) ++
  [Reading se.2; Sent ep (Msg 0 (Transfer.result_words (se.2 ⊟[ccnt_bits] se.1)))].

Lemma phase_runs {A B} (body : proc A) calls v t (P : A → vspace → Prop) (k : A → proc B) Q tr :
  state_is tr v t →
  (∀ t tr (R : A → list (event sys) → Prop), state_is tr v t →
     (∀ x v' tr', P x v' → state_is tr' v' (t ++ (Did <$> calls)) → R x tr') → always env body R tr) →
  (∀ x v' se tr', P x v' → state_is tr' v' (t ++ phase_marks calls se) → always env (k x) Q tr') →
  always env (phase ep body ≫= k) Q tr.
Proof using Henv.
  intros Hst Hbody HQ. apply always_bind. unfold phase.
  eapply other_runs; [done|exact Hst|]. intros s tr1 Hst1. apply always_bind.
  eapply Hbody; [exact Hst1|]. intros x v' tr2 HP Hst2.
  eapply other_runs; [done|exact Hst2|]. intros e tr3 Hst3. rewrite send_result_perform.
  eapply other_runs; [done|exact Hst3|]. intros [] tr4 Hst4. apply always_ret.
  apply (HQ x v' (s, e)); [done|]. unfold phase_marks. cbn in Hst4.
  by rewrite <-!app_assoc in Hst4.
Qed.

(** The five phases. *)
Definition child_phases : list (list kcall) :=
  [page_table_calls; page_calls; map_calls seL4_AllRights; map_calls seL4_CanRead;
   map_calls seL4_AllRights].

Lemma do_runs {A} fn v t (k : proc A) Q tr :
  state_is tr v t → (∀ tr', state_is tr' v t → always env k Q tr') →
  always env (sys_do fn [];; k) Q tr.
Proof.
  intros Hst HQ. unfold sys_do, sys_call.
  change (always env (perform (lib_call fn []) ≫= λ _ : Z, k) Q tr).
  eapply other_runs; [done|exact Hst|]. intros x tr' Hst'. apply HQ. by rewrite app_nil_r in Hst'.
Qed.

Lemma phase_map_runs {B} v old rights t (k : unit → proc B) Q tr (body : proc unit) :
  body = (_ ← loop_acc (seqZ 0 npage) (START_ADDR, first_page) (λ _, map_page rights); mret tt) →
  paged v npage → mapped_before old → pages v = old → state_is tr v t →
  (∀ v' se tr', paged v' npage → pages v' = mapped first_page rights (Z.to_nat npage) →
     state_is tr' v' (t ++ phase_marks (map_calls rights) se) → always env (k tt) Q tr') →
  always env (phase ep body ≫= k) Q tr.
Proof using Henv Hcfg Hen.
  intros -> Hpg Hold Hv Hst HQ.
  apply phase_runs with (v := v) (t := t) (calls := map_calls rights)
    (P := λ _ v', paged v' npage ∧ pages v' = mapped first_page rights (Z.to_nat npage)); [done| |].
  - intros t1 tr1 R Hst1 HR. eapply map_loop_runs; [done..|exact Hst1|]. intros. by eapply HR.
  - intros [] v1 se tr1 [? ?] Hst1. by eapply HQ.
Qed.

(** C34.  Against a kernel that grants the calls it documents, the child of the
    page mapping benchmark runs to its end on every target, whatever the
    counter shows.  All the calls it makes are ones the kernel grants: every
    object goes into an empty slot and into what is left of the untyped, every
    table below its upper table, every page below its page table.  Each of
    its five phases does exactly its work between its two readings (the tables
    of all levels, the pages, and mapping, protecting and unprotecting them in
    order) and sends the difference of the two.  In the end the pages are
    mapped one after the other from [START_ADDR] with all rights, and nothing
    else is. *)
Theorem bench_proc_correct :
  always env (bench_proc [Vint ep; Vint untyped; Vint npage])
    (λ _ tr, ∃ v times,
       after untyped untyped_bits v0 tr = Some v ∧
       pages v = mapped first_page seL4_AllRights (Z.to_nat npage) ∧
       length times = length child_phases ∧
       marks tr = mjoin (zip_with phase_marks child_phases times)) [].
Proof using Henv Hcfg Hen Hfr.
  pose proof objects_bounds. unfold bench_proc. cbn [word_arg lookup list_lookup mbind prog_mbind prog_bind mret prog_mret].
  apply (do_runs _ v0 []); [done|]. intros tr0 Hst0.
  assert (untyped ⊞[seL4_WordBits] 1 = slot 0) as ->.
  { destruct (en_slots Hen), (en_cspace Hen).
    pose proof (Z.pow_le_mono_r 2 CONFIG_SEL4UTILS_CSPACE_SIZE_BITS seL4_WordBits).
    unfold slot. rewrite wrap_small; [lia|]. split; lia. }
  apply phase_runs with (v := v0) (t := []) (calls := page_table_calls)
    (P := λ x v, x = first_page ∧ tabled v bottom_tables (upper_tables + bottom_tables)); [done| |].
  { intros t1 tr1 R Hst1 HR. eapply prepare_page_table_runs; [exact Hst1|]. intros. by eapply HR. }
  intros x v1 se1 tr1 [-> Htb] Hst1.
  apply phase_runs with (v := v1) (t := phase_marks page_table_calls se1) (calls := page_calls)
    (P := λ _ v, paged v npage ∧ pages v = ∅); [done| |].
  { intros t2 tr2 R Hst2 HR. eapply prepare_pages_runs; [exact Htb|exact Hst2|]. intros. by eapply HR. }
  intros y v2 se2 tr2 [Hpg2 Hv2] Hst2.
  eapply (phase_map_runs v2 ∅ seL4_AllRights); [done|done|by left|done|exact Hst2|].
  intros v3 se3 tr3 Hpg3 Hv3 Hst3.
  eapply (phase_map_runs v3 (mapped first_page seL4_AllRights (Z.to_nat npage)) seL4_CanRead);
    [done|done|right; by eexists|exact Hv3|exact Hst3|].
  intros v4 se4 tr4 Hpg4 Hv4 Hst4.
  eapply (phase_map_runs v4 (mapped first_page seL4_CanRead (Z.to_nat npage)) seL4_AllRights);
    [done|done|right; by eexists|exact Hv4|exact Hst4|].
  intros v5 se5 tr5 Hpg5 Hv5 Hst5.
  eapply do_runs; [exact Hst5|]. intros tr6 Hst6.
  unfold seL4_Wait. apply always_perform.
  destruct (state_is_snoc tr6 v5 _ (Ev (Wait ep) (env tr6 _ (Wait ep))) v5 Hst6 eq_refl) as [Ha Hm].
  exists v5, [se1; se2; se3; se4; se5]. split_and!; [done|done|done|]. rewrite Hm.
  cbn [child_phases zip_with mjoin list_join]. cbn [mark_of from_option]. by rewrite !app_nil_r, <-!app_assoc.
Qed.
End child.

(** On x86_64, for the row of 2048 pages, with the table of the highest level
    in place; the constants are those of libsel4 and sel4utils. *)
Definition example_mapping : PageMappingConfig :=
  {| arch := CONFIG_ARCH_X86_64; seL4_PageTableBits := 12; seL4_WordSizeBits := 3; seL4_PDPTBits := 12;
     seL4_PageDirBits := 12; seL4_ARM_PageTableObject := 0; seL4_X86_PDPTObject := 5;
     seL4_X86_PageDirectoryObject := 11; seL4_RISCV_PageTableObject := 0; seL4_ARCH_PageTableObject := 10;
     seL4_ARCH_4KPage := 8; SEL4UTILS_CNODE_SLOT := 1; seL4_ARCH_Default_VMAttributes := 0;
     seL4_AllRights := 7; seL4_CanRead := 2; seL4_DeleteFirst := 8;
     DIV_ROUND_UP := λ n d, n `div` d + (if n `mod` d =? 0 then 0 else 1) |}.
#[local] Existing Instances x86_64 example_mapping.

Definition example_vspace : vspace := VSpace ∅ 0 {[(2, 0)]} ∅ ∅.

(** A kernel that grants the legal calls, with a counter that goes on. *)
Definition granting_kernel : environment sys := λ tr X e,
  match e in sys X return X with
  | ReadCcnt => Z.of_nat (length tr)
  | Recv _ | Call _ _ | ReplyRecv _ _ | NBSendRecv _ _ _ => Msg 0 []
  | lib_call fn args =>
      match after 7 24 example_vspace tr, parse_call fn args with
      | Some v, Some c => answer_of v c
      | _, _ => 0
      end
  | support e => Support.answer e
  | lib_ptr _ _ => None
  | lib_alloc _ _ => (0, 0)
  | Load _ _ => 0
  | _ => tt
  end.

Lemma granting_documented : documented 7 24 example_vspace granting_kernel.
Proof. intros tr v fn args c Ha Hp _. cbn [granting_kernel]. by rewrite Ha, Hp. Qed.

Lemma example_configured : configured 2048.
Proof. by split. Qed.
Lemma example_enough : enough 7 24 2048.
Proof.
  split; try done. intros _ i Hi. change (bottom_tables 2048) with 4 in Hi.
  assert (i = 0 ∨ i = 1 ∨ i = 2 ∨ i = 3) as [-> | [-> | [-> | ->]]] by lia; done.
Qed.
Lemma example_fresh : fresh 2048 example_vspace.
Proof.
  split; [done..|]. intros l i Hl Hi. unfold region, example_vspace. cbn [tables].
  rewrite elem_of_singleton. by intros [= -> _].
Qed.

Lemma bench_proc_correct_witness :
  always granting_kernel (bench_proc [Vint 5; Vint 7; Vint 2048])
    (λ _ tr, ∃ v times,
       after 7 24 example_vspace tr = Some v ∧ pages v = mapped (first_page 7 2048) seL4_AllRights 2048 ∧
       length times = length (child_phases 7 2048) ∧
       marks tr = mjoin (zip_with (phase_marks 5) (child_phases 7 2048) times)) [].
Proof.
  apply (bench_proc_correct granting_kernel 5 7 24 2048 example_vspace).
  - apply granting_documented.
  - apply example_configured.
  - apply example_enough.
  - apply example_fresh.
Defined.
