(* ===== verification/IrquserApp.v ===== *)
(** * IrquserApp: the user-level interrupt benchmark

    [apps/irquser/src/main.c]: a spinner that keeps writing the cycle counter
    to a page, and a ticker of higher priority that waits for the periodic
    timer interrupt and compares the counter with what the spinner wrote last.
    The interrupt comes from the timer, so the wait for it is a call whose
    answer is the badge. *)

From S2P Require Import Prelude Platform Memory Program Collect Support Threads Measuring.

(** The flags of libsel4, whether there is a timer, and its periodic mode. *)
Class IrquserConfig := {
  seL4_TCBFlag_NoFlag : Z;
  seL4_TCBFlag_fpuDisabled : Z;
  CONFIG_LIB_PLAT_SUPPORT_HAVE_TIMER : bool;
  TIMEOUT_PERIODIC : Z;
}.

Section app.
Context `{Platform} `{IrquserConfig} `{TimeUnits}.
Import EarlyProc.

(** [irq.h] *)
Definition N_IGNORED : Z := 10.
Definition N_RUNS : Z := 100 + N_IGNORED.

(** [irquser_results_t], in [ccnt_t]. *)
Definition irquser_layout : layout :=
  [("overheads", N_RUNS); ("thread_results", N_RUNS); ("process_results", N_RUNS);
   ("overhead_min", 1);
   ("thread_results_ep_sum", 1); ("thread_results_ep_sum2", 1); ("thread_results_ep_num", 1);
   ("process_results_ep_sum", 1); ("process_results_ep_sum2", 1); ("process_results_ep_num", 1)]%string.

Definition INTERRUPT_PERIOD_NS : Z := 10 * NS_IN_MS.

Definition abort (env : Env.env_t) : proc unit := finished env 1.

(** The variables the threads share: [done_ep], [timer_signal], [ticker_tcb],
    [irq_ops], [timer_ntfn_id]. *)
Record globals := Globals {
  done_ep : Z; timer_signal : Z; ticker_tcb : Z; irq_ops : Z; timer_ntfn_id : Z }.

Definition set_fpu (tcb : Z) (fpu_on : bool) : proc unit :=
  from_support (Process.configure_fpu seL4_TCBFlag_NoFlag seL4_TCBFlag_fpuDisabled tcb fpu_on).

(** The timer's notification: the wait, and the handling of the badge. *)
Definition wait_irq (g : globals) : proc Z := sys_call "seL4_Wait" [Vint (timer_signal g)].
Definition irq_handle (g : globals) (badge : Z) : proc unit :=
  sys_do "sel4platsupport_irq_handle" [Vint (irq_ops g); Vint (timer_ntfn_id g); Vint badge].

(** The spinner never returns: [fuel] bounds the turns it is given before it is
    suspended. *)
Definition spinner_fn (fuel : nat) (argc : Z) (argv : list val) : proc unit :=
  sys_do "sel4bench_init" [];;
  assert_that (argc =? 1);;
  current_time ← ptr_arg argv 0;
  while_do fuel (mret true) (
    now ← SEL4BENCH_READ_CCNT;
    store_to current_time 0 now).

Definition ticker_body (g : globals) (results current_time : ptr) (i : Z) : proc unit :=
  set_fpu (ticker_tcb g) false;;
  badge ← wait_irq g;
  end_ ← SEL4BENCH_READ_CCNT;
  set_fpu (ticker_tcb g) true;;
  irq_handle g badge;;
  let end_low := wrap seL4_WordBits end_ in
  now ← load_from current_time 0;
  let start := wrap seL4_WordBits now in
  store_to results i (end_low ⊟[seL4_WordBits] start).

Definition ticker_fn (g : globals) (results current_time : ptr) : proc unit :=
  for_to N_RUNS (ticker_body g results current_time);;
  seL4_Send (done_ep g).

Definition ticker_body_ep (g : globals) (overhead : Z) (current_time : ptr) (i : Z) (p : sums) : proc sums :=
  badge ← wait_irq g;
  end_ ← SEL4BENCH_READ_CCNT;
  irq_handle g badge;;
  let end_low := wrap seL4_WordBits end_ in
  now ← load_from current_time 0;
  let start := wrap seL4_WordBits now in
  mret (DATACOLLECT_GET_SUMS seL4_WordBits i N_IGNORED start end_low overhead p).

Definition ticker_fn_ep (g : globals) (argc : Z) (argv : list val) : proc unit :=
  assert_that (argc =? 5);;
  overhead ← word_arg argv 0;
  results_sum ← ptr_arg argv 1;
  results_sum2 ← ptr_arg argv 2;
  results_num ← ptr_arg argv 3;
  current_time ← ptr_arg argv 4;
  sums ← loop_acc (seqZ 0 N_RUNS) (mkSums 0 0) (ticker_body_ep g overhead current_time);
  store_to results_sum 0 (par_sum sums);;
  store_to results_sum2 0 (par_sum2 sums);;
  store_to results_num 0 (N_RUNS - N_IGNORED);;
  seL4_Send (done_ep g).

(** ** The set-up *)

Definition at_ (results : ptr) (name : string) : ptr := field irquser_layout results name.

(** [ticker_fn] takes the two pointers where the other functions take [argc]
    and [argv]. *)
Definition start_ticker (ticker : helper) (results current_time : ptr) : proc Z :=
  sys_call "sel4utils_start_thread"
    [Vint (handle ticker); Vfn "ticker_fn"; Vptr results; Vptr current_time; Vint 1].
Definition start_ticker_ep (ticker : helper) (overhead_min : Z) (results : ptr) (prefix : string)
    (current_time : ptr) : proc Z :=
  start_thread ticker "ticker_fn_ep" 5
    [Vint overhead_min; Vptr (at_ results (prefix +:+ "_results_ep_sum"));
     Vptr (at_ results (prefix +:+ "_results_ep_sum2")); Vptr (at_ results (prefix +:+ "_results_ep_num"));
     Vptr current_time] true.

Definition suspended (tcb : Z) : proc unit :=
  error ← TCB_Suspend tcb; assert_that (error =? 0).

(** A run with the spinner thread. *)
Definition with_spinner (ep : Z) (ticker spinner : helper) (start_the_ticker : proc Z)
    (current_time : ptr) : proc unit :=
  error ← start_the_ticker;
  fatal_if (negb (error =? 0));;
  error ← start_thread spinner "spinner_fn" 1 [Vptr current_time] true;
  assert_that (error =? 0);;
  wait_children ep 1;;
  suspended (tcb_cptr spinner);;
  suspended (tcb_cptr ticker).

(** The start of the spinner process, with its page. *)
Definition spawn_spinner (ep : Z) (spinner_process : Process.process_t) (current_time_remote : ptr)
  : proc Process.process_t :=
  '(error, p) ← spawn spinner_process [Vptr current_time_remote] true;
  fatal_if (negb (error =? 0));;
  wait_children ep 1;;
  mret p.

Definition measure_overheads (results : ptr) : proc unit :=
  for_to N_RUNS (λ i,
    start ← SEL4BENCH_READ_CCNT;
    end_ ← SEL4BENCH_READ_CCNT;
    store_to (at_ results "overheads") i (end_ ⊟[ccnt_bits] start)).

(** The threads and the process are locals; [results] is [env->results]. *)
Definition main (rt : runtime) (ticker spinner : helper) (spinner_process : Process.process_t)
    (results : ptr) (argc : Z) : proc unit :=
  env ← get_env rt argc (sizeof irquser_layout) 0;
  env ← from_support (Env.benchmark_init_timer CONFIG_LIB_PLAT_SUPPORT_HAVE_TIMER env);
  endpoint ← sys_alloc "vka_alloc_endpoint" [];
  sys_checked "ltimer_reset" [];;
  sys_checked "ltimer_set_timeout" [Vint INTERRUPT_PERIOD_NS; Vint TIMEOUT_PERIODIC];;
  sys_do "sel4bench_init" [];;
  measure_overheads results;;
  min ← min_overhead (at_ results "overheads") N_RUNS;
  set_field irquser_layout results "overhead_min" min;;
  local_current_time ← sys_ptr "vspace_new_pages" [Vint 1; Vint seL4_PageBits];
  configure_thread endpoint (seL4_MaxPrio - 1) ticker;;
  configure_thread endpoint (seL4_MaxPrio - 2) spinner;;
  set_fpu (tcb_cptr spinner) true;;
  with_spinner endpoint ticker spinner
    (start_ticker ticker (at_ results "thread_results") local_current_time) local_current_time;;
  overhead_min ← get_field irquser_layout results "overhead_min";
  with_spinner endpoint ticker spinner
    (start_ticker_ep ticker overhead_min results "thread" local_current_time) local_current_time;;
  error ← start_ticker ticker (at_ results "process_results") local_current_time;
  assert_that (error =? 0);;
  shallow_clone spinner_process (seL4_MaxPrio - 2) "spinner_fn";;
  current_time_remote ← sys_ptr "vspace_share_mem"
    [Vint (Process.process_id spinner_process); Vptr local_current_time; Vint 1; Vint seL4_PageBits];
  spinner_process ← spawn_spinner endpoint spinner_process current_time_remote;
  suspended (Process.tcb spinner_process);;
  suspended (tcb_cptr ticker);;
  overhead_min ← get_field irquser_layout results "overhead_min";
  error ← start_ticker_ep ticker overhead_min results "process" local_current_time;
  assert_that (error =? 0);;
  _ ← spawn_spinner endpoint spinner_process current_time_remote;
  finished env 0.

(** The shared variables [main] sets, from its endpoint, its ticker and the
    fields of [env] that the timer's set-up fills. *)
Definition main_globals (endpoint env_ntfn io_irq_ops env_ntfn_id : Z) (ticker : helper) : globals :=
  Globals endpoint env_ntfn (tcb_cptr ticker) io_irq_ops env_ntfn_id.

End app.
