(* ===== verification/Ziggurat.v ===== *)
(** * Ziggurat: the random number generator of the multicore benchmark

    [apps/smp/src/rnorrexp.h]: the shift-register generator, the tables of the
    ziggurat method that [zigset] fills, and the exponential variates drawn
    from them.  [exp] and [log] of the mathematical library are a parameter;
    the arithmetic is that of [float] and [double]. *)

From S2P Require Import Prelude Platform Floats.

Class Libm := { libm_exp : spec_float → spec_float; libm_log : spec_float → spec_float }.

(** An element of [rs]. *)
Record rs_t := Rs {
  jz : Z; jsr : Z; iz : Z;
  kn : list Z; ke : list Z;
  wn : list spec_float; fn : list spec_float;
  we : list spec_float; fe : list spec_float;
}.

Definition with_jsr (z s : Z) (r : rs_t) : rs_t :=
  Rs z s (iz r) (kn r) (ke r) (wn r) (fn r) (we r) (fe r).
Definition with_iz (i : Z) (r : rs_t) : rs_t :=
  Rs (jz r) (jsr r) i (kn r) (ke r) (wn r) (fn r) (we r) (fe r).

(** The new shift register. *)
Definition shift_register (x : Z) : Z :=
  let x := Z.lxor x (wrap 32 (Z.shiftl x 13)) in
  let x := Z.lxor x (Z.shiftr x 17) in
  Z.lxor x (wrap 32 (Z.shiftl x 5)).

Definition SHR3 (r : rs_t) : Z * rs_t :=
  let jsr' := shift_register (jsr r) in
  (jsr r ⊞[32] jsr', with_jsr (jsr r) jsr' r).

Section floats.
Context `{Libm}.

(** A decimal literal of [double]: [n / 10 ^ k]. *)
Definition literal (n k : Z) : spec_float := fdiv double (of_Z double n) (of_Z double (10 ^ k)).

Definition UNI (r : rs_t) : spec_float * rs_t :=
  let '(x, r) := SHR3 r in
  (fadd double (literal 5 1) (fmul double (of_Z double (swrap 32 x)) (literal 2328306 16)), r).

(** [rs[id].jz * rs[id].we[rs[id].iz]], in [float]. *)
Definition scaled (r : rs_t) : outcome spec_float :=
  w ← defined (aget (we r) (iz r)); Ok (fmul single (of_Z single (jz r)) w).

(** A new draw: [jz = SHR3; iz = jz & 255], and whether it falls in its strip. *)
Definition draw (r : rs_t) : rs_t :=
  let '(x, r) := SHR3 r in with_iz (Z.land x 255) (with_jsr x (jsr r) r).
Definition in_strip (r : rs_t) : outcome bool :=
  k ← defined (aget (ke r) (iz r)); Ok (jz r <? k).

(** With at most [fuel] rounds. *)
Fixpoint efix (fuel : nat) (r : rs_t) : outcome (spec_float * rs_t) :=
  match fuel with
  | O => Undef
  | S fuel =>
      if iz r =? 0 then
        let '(u, r) := UNI r in
        Ok (convert single (fsub double (literal 769711 5) (libm_log u)), r)
      else
        x ← scaled r;
        f ← defined (aget (fe r) (iz r));
        let '(u, r) := UNI r in
        f1 ← defined (aget (fe r) (iz r - 1));
        let y := fadd double (convert double f) (fmul double u (convert double (fsub single f1 f))) in
        if SFltb y (libm_exp (SFopp (convert double x))) then Ok (x, r)
        else
          let r := draw r in
          b ← in_strip r;
          if (b : bool) then x ← scaled r; Ok (x, r) else efix fuel r
  end.

Definition REXP (fuel : nat) (r : rs_t) : outcome (spec_float * rs_t) :=
  let r := draw r in
  b ← in_strip r;
  if (b : bool) then x ← scaled r; Ok (x, r) else efix fuel r.

(** ** The tables *)

Definition m1 : spec_float := of_Z double 2147483648.
Definition m2 : spec_float := of_Z double 4294967296.

(** [exp(-0.5 * d * d)] *)
Definition gauss (d : spec_float) : spec_float :=
  libm_exp (fmul double (fmul double (literal (-5) 1) d) d).

(** [(a / b) * m] as a [uint32_t], and an entry of a table of [float]s. *)
Definition ratio (a b m : spec_float) : outcome Z := to_unsigned 32 (fmul double (fdiv double a b) m).
Definition set_float (l : list spec_float) (i : Z) (x : spec_float) : outcome (list spec_float) :=
  defined (aset l i (convert single x)).

(** The normal tables, from the top strip down; [tn] is the last [dn]. *)
Record tables := Tables { strips : list Z; weights : list spec_float; values : list spec_float; last_ : spec_float }.

Definition normal_step (vn : spec_float) (t : tables) (i : Z) : outcome tables :=
  let tn := last_ t in
  let dn := fsqrt double (fmul double (of_Z double (-2))
              (libm_log (fadd double (fdiv double vn tn) (gauss tn)))) in
  k ← ratio dn tn m1;
  kn ← defined (aset (strips t) (i + 1) k);
  fn ← set_float (values t) i (gauss dn);
  wn ← set_float (weights t) i (fdiv double dn m1);
  Ok (Tables kn wn fn dn).

Definition exponential_step (ve : spec_float) (t : tables) (i : Z) : outcome tables :=
  let te := last_ t in
  let de := SFopp (libm_log (fadd double (fdiv double ve te) (libm_exp (SFopp te)))) in
  k ← ratio de te m2;
  ke ← defined (aset (strips t) (i + 1) k);
  fe ← set_float (values t) i (libm_exp (SFopp de));
  we ← set_float (weights t) i (fdiv double de m2);
  Ok (Tables ke we fe de).

(** The first and the last entries, and then the others. *)
Definition fill (d q m value : spec_float) (top : Z) (step : tables → Z → outcome tables) (t : tables)
  : outcome tables :=
  k ← ratio d q m;
  strips ← defined (aset (strips t) 0 k);
  strips ← defined (aset strips 1 0);
  weights ← set_float (weights t) 0 (fdiv double q m);
  weights ← set_float weights top (fdiv double d m);
  values ← set_float (values t) 0 (of_Z double 1);
  values ← set_float values top value;
  fold_outcome step (reverse (seqZ 1 (top - 1))) (Tables strips weights values d).

Definition zigset (jsrseed : Z) (r : rs_t) : outcome rs_t :=
  let dn := literal 3442619855899 12 in
  let vn := literal 991256303526217 17 in
  let de := literal 7697117470131487 15 in
  let ve := literal 3949659822581572 18 in
  let jsr := Z.lxor 123456789 jsrseed in
  n ← fill dn (fdiv double vn (gauss dn)) m1 (gauss dn) 127 (normal_step vn) (Tables (kn r) (wn r) (fn r) dn);
  e ← fill de (fdiv double ve (libm_exp (SFopp de))) m2 (libm_exp (SFopp de)) 255 (exponential_step ve)
        (Tables (ke r) (we r) (fe r) de);
  Ok (Rs (jz r) jsr (iz r) (strips n) (strips e) (weights n) (values n) (weights e) (values e)).

End floats.
