(* ===== verification/SmpApp.v ===== *)
(** * SmpApp: the multicore IPC benchmark

    [apps/smp/src/main.c]: on every core a ping thread calls a pong thread over
    and over, with a delay between the calls, and counts them; the parent reads
    the counters at the ends of a period of the timer.  The threads never
    return, so a run of one is bounded by the turns it is given. *)

From S2P Require Import Prelude Platform Memory Floats Program Collect Support Threads Measuring AppParams.
From S2P Require Import Ziggurat.

Import SmpParams.

(** [CONFIG_LIB_PLAT_SUPPORT_HAVE_TIMER], and the mode of the timer. *)
Class SmpConfig := {
  CONFIG_LIB_PLAT_SUPPORT_HAVE_TIMER : bool;
  TIMEOUT_PERIODIC : Z;
}.

Section app.
Context `{Platform} `{SmpConfig} `{TimeUnits} `{Libm}.

Definition SAMPLE_TIME : Z := 100 * NS_IN_MS.
Definition N_ARGS : Z := 5.
Definition ZIGSEED : Z := 12345678.

(** [struct _pp_threads], without its strings; the counters [pp_ipcs] are
    shared memory, below. *)
Record pp_threads_t := PpThreads {
  ep : Z;
  ping : helper; pong : helper;
  ping_sched_context : Z; pong_sched_context : Z;
  ping_reply : Z;
  ping_cp : Z; pong_cp : Z;
  ping_sync_ntfn : Z; pong_sync_ntfn : Z;
}.

(** The variables the threads share: [pp_threads[i].pp_ipcs.calls_completed] is
    element [i] of the first; the second is [current_delay_cycle] as the
    [ccnt_t] it is converted to wherever it is read. *)
Record shared := Shared { calls_completed : ptr; current_delay_cycle : ptr }.

Definition smp_benchmark_ping (ep : Z) : proc unit :=
  _ ← perform (Call ep (Msg 0 [])); mret tt.
Definition smp_benchmark_pong (ep reply : Z) : proc unit :=
  _ ← perform (ReplyRecv ep (Msg 0 [])); mret tt.

(** [env->ntfn] is the timer's notification. *)
Record timer := Timer { env_ntfn : Z; irq_ops : Z; ntfn_id : Z }.

Definition wait_for_benchmark (env : timer) : proc unit :=
  badge ← sys_call "seL4_Wait" [Vint (env_ntfn env)];
  sys_do "sel4platsupport_irq_handle" [Vint (irq_ops env); Vint (ntfn_id env); Vint badge].

(** [do { now = ...; } while (now - start < delay)] *)
Fixpoint delay_loop (fuel : nat) (start delay : Z) : proc unit :=
  match fuel with
  | O => Stop Undefined
  | S fuel =>
      now ← SEL4BENCH_READ_CCNT;
      if now ⊟[ccnt_bits] start <? delay then delay_loop fuel start delay else mret tt
  end.

Definition ipc_normal_delay (fuel : nat) (s : shared) : proc unit :=
  delay ← load_from (current_delay_cycle s) 0;
  start ← SEL4BENCH_READ_CCNT;
  delay_loop fuel start delay.

Definition ping_fn (turns fuel : nat) (s : shared) (argc : Z) (argv : list val) : proc unit :=
  assert_that (argc =? N_ARGS);;
  ep ← word_arg argv 0;
  thread_id ← word_arg argv 1;
  ntfn ← word_arg argv 3;
  sys_do "sel4bench_init" [];;
  seL4_Wait ntfn;;
  while_do turns (mret true) (
    ipc_normal_delay fuel s;;
    smp_benchmark_ping ep;;
    x ← load_from (calls_completed s) thread_id;
    store_to (calls_completed s) thread_id (x ⊞[32] 1)).

Definition pong_fn (turns fuel : nat) (s : shared) (argc : Z) (argv : list val) : proc unit :=
  assert_that (argc =? N_ARGS);;
  ep ← word_arg argv 0;
  thread_id ← word_arg argv 1;
  reply ← word_arg argv 2;
  ntfn ← word_arg argv 4;
  sys_do "sel4bench_init" [];;
  seL4_Wait ntfn;;
  while_do turns (mret true) (
    smp_benchmark_pong ep reply;;
    ipc_normal_delay fuel s).

(** ** The parent *)

(** A call that must not fail. *)
Definition succeeds (fn : string) (args : list Z) : proc unit := sys_checked fn (Vint <$> args).

(** The [i]-th threads of the array. *)
Definition pp_at (pp : list pp_threads_t) (i : Z) : proc pp_threads_t :=
  match aget pp i with Some t => mret t | None => Stop Undefined end.

Definition reset_core (s : shared) (pp : list pp_threads_t) (i : Z) : proc unit :=
  t ← pp_at pp i;
  _ ← TCB_Suspend (tcb_cptr (ping t));
  _ ← TCB_Suspend (tcb_cptr (pong t));
  store_to (calls_completed s) i 0;;
  (if CONFIG_KERNEL_MCS then
     succeeds "api_sc_unbind" [ping_sched_context t];;
     succeeds "api_sc_bind" [ping_sched_context t; tcb_cptr (ping t)];;
     succeeds "api_sc_unbind" [pong_sched_context t];;
     succeeds "api_sc_bind" [pong_sched_context t; tcb_cptr (pong t)]
   else mret tt);;
  sys_do "sel4utils_checkpoint_restore" [Vint (pong_cp t); Vint 1; Vint 0];;
  sys_do "sel4utils_checkpoint_restore" [Vint (ping_cp t); Vint 1; Vint 0].

Definition benchmark_multicore_reset_test (s : shared) (pp : list pp_threads_t) (nr_cores : Z) : proc unit :=
  for_to nr_cores (reset_core s pp).

(** The loops of the sample: the counters of the cores, and the sum of their
    advances. *)
Definition read_counters (s : shared) (nr_cores : Z) : proc (list Z) :=
  loop_acc (seqZ 0 nr_cores) [] (λ i l, x ← load_from (calls_completed s) i; mret (l ++ [x])).
Definition total_calls (start end_ : list Z) : Z :=
  foldl (λ total se, total ⊞[ccnt_bits] (se.2 ⊟[32] se.1)) 0 (zip start end_).
Definition throughput (total : Z) : Z :=
  wrap ccnt_bits ((total ⊠[64] NS_IN_S) `div` SAMPLE_TIME).

Definition benchmark_multicore_do_ping_pong (env : timer) (s : shared) (nr_cores : Z) : proc Z :=
  start ← read_counters s nr_cores;
  wait_for_benchmark env;;
  end_ ← read_counters s nr_cores;
  mret (throughput (total_calls start end_)).

(** Both priorities of a core. *)
Definition set_priorities (t : pp_threads_t) (prio : Z) : proc unit :=
  auth ← simple_get_tcb;
  error ← TCB_SetPriority (tcb_cptr (ping t)) auth prio;
  fatal_if (negb (error =? 0));;
  auth ← simple_get_tcb;
  error ← TCB_SetPriority (tcb_cptr (pong t)) auth prio;
  fatal_if (negb (error =? 0)).

(** The start of a core in a test, and its samples. *)
Definition run_core (env : timer) (s : shared) (results : ptr) (pp : list pp_threads_t)
    (nr_test core_idx : Z) : proc unit :=
  t ← pp_at pp core_idx;
  (if nr_test =? 0 then set_priorities t seL4_MaxPrio else mret tt);;
  sys_do "seL4_TCB_Resume" [Vint (tcb_cptr (ping t))];;
  sys_do "seL4_TCB_Resume" [Vint (tcb_cptr (pong t))];;
  (if nr_test =? 0 then for_to 2 (λ _, seL4_Yield);; set_priorities t seL4_MinPrio else mret tt);;
  (if CONFIG_KERNEL_MCS then
     succeeds "api_sc_unbind" [pong_sched_context t];;
     succeeds "api_sc_bind" [pong_sched_context t; pong_sync_ntfn t]
   else mret tt);;
  sys_do "sel4utils_checkpoint_thread" [Vint (handle (ping t)); Vint (ping_cp t); Vint 0];;
  sys_do "sel4utils_checkpoint_thread" [Vint (handle (pong t)); Vint (pong_cp t); Vint 0];;
  perform (Signal (ping_sync_ntfn t));;
  perform (Signal (pong_sync_ntfn t));;
  wait_for_benchmark env;;
  for_to RUNS (λ it,
    x ← benchmark_multicore_do_ping_pong env s (core_idx + 1);
    store_to (benchmarks_result results nr_test core_idx) it x).

Definition benchmark_multicore_ipc_throughput (env : timer) (s : shared) (results : ptr)
    (pp : list pp_threads_t) : proc unit :=
  nr_cores ← sys_call "simple_get_core_count" [];
  wait_for_benchmark env;;
  loop (zip (seqZ 0 TESTS) smp_benchmark_params) (λ test,
    delay ← from_outcome (to_unsigned ccnt_bits (delay test.2));
    store_to (current_delay_cycle s) 0 delay;;
    for_to nr_cores (run_core env s results pp test.1);;
    benchmark_multicore_reset_test s pp nr_cores).

(** [smp_results_t], in [ccnt_t]. *)
Definition smp_layout : layout :=
  [("benchmarks_result", TESTS * CONFIG_MAX_NUM_NODES * RUNS)]%string.

(** The threads of core [i]: [t] has what [benchmark_configure_thread] makes. *)
Definition set_up_core (t : pp_threads_t) (i : Z) : proc pp_threads_t :=
  configure_thread 0 seL4_MinPrio (ping t);;
  configure_thread 0 seL4_MinPrio (pong t);;
  ep ← sys_alloc "vka_alloc_endpoint" [];
  ping_sync_ntfn ← sys_alloc "vka_alloc_notification" [];
  pong_sync_ntfn ← sys_alloc "vka_alloc_notification" [];
  let thread_argv := [Vint ep; Vint i; Vint (ping_reply t); Vint ping_sync_ntfn; Vint pong_sync_ntfn] in
  error ← start_thread (ping t) "ping_fn" N_ARGS thread_argv false;
  assert_that (error =? 0);;
  error ← start_thread (pong t) "pong_fn" N_ARGS thread_argv false;
  assert_that (error =? 0);;
  params ← (if CONFIG_KERNEL_MCS then sys_call "sched_params_round_robin" [Vint i] else mret i);
  sys_checked "sel4utils_set_sched_affinity" [Vint (handle (ping t)); Vint params];;
  sys_checked "sel4utils_set_sched_affinity" [Vint (handle (pong t)); Vint params];;
  mret (PpThreads ep (ping t) (pong t) (ping_sched_context t) (pong_sched_context t) (ping_reply t)
          (ping_cp t) (pong_cp t) ping_sync_ntfn pong_sync_ntfn).

(** The generators of the cores, [rs]; nothing here draws from them. *)
Definition seed (rs : list rs_t) (i : Z) : outcome (list rs_t) :=
  r ← defined (aget rs i); r ← zigset (ZIGSEED + i) r; defined (aset rs i r).

Definition main (rt : runtime) (env_timer : timer) (s : shared) (results : ptr)
    (pp : list pp_threads_t) (rs : list rs_t) (argc : Z) : proc unit :=
  env ← get_env rt argc (sizeof smp_layout) 0;
  env ← from_support (Env.benchmark_init_timer CONFIG_LIB_PLAT_SUPPORT_HAVE_TIMER env);
  nr_cores ← sys_call "simple_get_core_count" [];
  _ ← from_outcome (fold_outcome seed (seqZ 0 nr_cores) rs);
  sys_checked "ltimer_reset" [];;
  sys_checked "ltimer_set_timeout" [Vint SAMPLE_TIME; Vint TIMEOUT_PERIODIC];;
  pp ← loop_acc (seqZ 0 nr_cores) pp (λ i pp,
    t ← pp_at pp i;
    t ← set_up_core t i;
    match aset pp i t with Some pp => mret pp | None => Stop Undefined end);
  benchmark_multicore_ipc_throughput env_timer s results pp;;
  sys_checked "ltimer_reset" [];;
  finished env 0.

End app.
