(* ===== verification/SmpProofs.v ===== *)
(** * SmpProofs: a sample of the multicore benchmark

    [benchmark_multicore_do_ping_pong] against any environment: it reads the
    counters of the cores, waits for one period of the timer and reads them
    again, and what it returns are the calls of all cores in that period, per
    second. *)

From S2P Require Import Prelude Platform Memory Floats Program Collect Support Threads Measuring AppParams.
From S2P Require Import Ziggurat SmpApp.

Section sample.
Context `{Platform} `{TimeUnits}.
Context (env : environment sys) (t : timer) (s : shared).

(** The calls of core [i] counted by a 32-bit counter: [n] of them take it from
    the first value to the second. *)
Definition counted (before after n : Z) : Prop := 0 <= n < 2 ^ 32 ∧ after = before ⊞[32] n.

Lemma counted_difference before after n : counted before after n → after ⊟[32] before = n.
Proof.
  intros [Hn ->]. apply wrap_eq; [done|]. drop_wraps 32. by replace (before + n - before) with n by ring.
Qed.

Lemma total_calls_from acc befores afters ns :
  Forall3 counted befores afters ns → 0 <= acc → acc + sumZ ns < 2 ^ ccnt_bits →
  foldl (λ total se, total ⊞[ccnt_bits] (se.2 ⊟[32] se.1)) acc (zip befores afters) = acc + sumZ ns.
Proof.
  intros Hall. revert acc. induction Hall as [|b a n bs as_ ns Hc Hall IH]; intros acc Hacc Hsum.
  { cbn. lia. }
  assert (0 <= sumZ ns) as Hns.
  { clear -Hall. induction Hall as [|? ? ? ? ? ? [? _] _ ?]; cbn; lia. }
  cbn [zip zip_with foldl fst snd]. rewrite (counted_difference _ _ _ Hc). destruct Hc as [Hn _].
  cbn in *. rewrite wrap_small by (split; lia). rewrite IH by lia. lia.
Qed.

Lemma throughput_exact total :
  0 <= total → total * NS_IN_S < 2 ^ 64 → 10 * total < 2 ^ ccnt_bits → throughput total = 10 * total.
Proof.
  intros Ht Hs Hc. destruct time_units_law as [Hms Hns]. unfold throughput, SAMPLE_TIME.
  rewrite (wrap_small 64) by (split; [rewrite Hns|]; nia).
  replace (total * NS_IN_S) with (10 * total * (100 * NS_IN_MS)) by (rewrite Hns; ring).
  rewrite Z.div_mul by lia. apply wrap_small. split; lia.
Qed.

(** What a pass over the counters leaves: its loads, in order. *)
Definition loads (values : list Z) : list (event sys) :=
  imap (λ i v, Ev (Load (calls_completed s) (Z.of_nat i)) v) values.

Lemma loads_snoc values v :
  loads (values ++ [v]) = loads values ++ [Ev (Load (calls_completed s) (Z.of_nat (length values))) v].
Proof. unfold loads. rewrite imap_app. cbn. by rewrite Nat.add_0_r. Qed.

Lemma read_counters_runs n Q tr :
  0 <= n →
  (∀ values, Z.of_nat (length values) = n → Q values (tr ++ loads values)) →
  always env (read_counters s n) Q tr.
Proof.
  intros Hn HQ. unfold read_counters.
  apply always_loop_acc with (I := λ k values tr', length values = k ∧ tr' = tr ++ loads values).
  - by rewrite app_nil_r.
  - intros k x values tr' [-> Hk]%lookup_seqZ [Hlen ->]. apply always_bind. unfold load_from.
    apply always_perform, always_ret. rewrite length_app, Hlen. cbn [length]. split; [lia|].
    by rewrite loads_snoc, <-app_assoc, Hlen.
  - intros values tr' [Hlen ->]. apply HQ. rewrite Hlen, length_seqZ. lia.
Qed.

(** The wait for the period: the timer's interrupt, and its handling. *)
Definition period (badge x : Z) : list (event sys) :=
  [Ev (lib_call "seL4_Wait" [Vint (env_ntfn t)]) badge;
   Ev (lib_call "sel4platsupport_irq_handle" [Vint (irq_ops t); Vint (ntfn_id t); Vint badge]) x].

(** C35.  A sample of the multicore benchmark is the number of calls per second
    that the cores completed in one period of the timer.  For every
    environment: the counters of the cores are read in order, once before and
    once after one timer interrupt, which is handled; and whenever the second
    readings are the first ones advanced by [ns] calls, across a wrap-around of
    the 32-bit counters or not, the result is exactly ten times their sum, for
    the ten sample times of a second, as long as the sum in nanoseconds fits
    64 bits and the result the counter type. *)
Theorem do_ping_pong_correct nr_cores tr :
  0 <= nr_cores →
  always env (benchmark_multicore_do_ping_pong t s nr_cores) (λ result tr', ∃ befores afters badge x,
    Z.of_nat (length befores) = nr_cores ∧ Z.of_nat (length afters) = nr_cores ∧
    tr' = tr ++ loads befores ++ period badge x ++ loads afters ∧
    ∀ ns, Forall3 counted befores afters ns →
      sumZ ns * NS_IN_S < 2 ^ 64 → 10 * sumZ ns < 2 ^ ccnt_bits → result = 10 * sumZ ns) tr.
Proof using Type*.
  intros Hn. unfold benchmark_multicore_do_ping_pong.
  apply always_bind, read_counters_runs; [done|]. intros befores Hb. apply always_bind.
  unfold wait_for_benchmark, sys_do, sys_call. always_step.
  apply read_counters_runs; [done|]. intros afters Ha.
  eexists befores, afters, _, _. split_and!; [done|done|by rewrite <-!app_assoc|].
  intros ns Hns Hs Hc.
  assert (0 <= sumZ ns).
  { clear -Hns. induction Hns as [|? ? ? ? ? ? [? _] _ ?]; cbn; lia. }
  unfold total_calls. rewrite (total_calls_from 0 befores afters ns) by (done || lia).
  by apply throughput_exact.
Qed.
End sample.

(** Two cores, the counter of one of which wraps around in the period. *)
Definition example_units : TimeUnits := {| NS_IN_MS := 1000000; NS_IN_S := 1000000000;
  time_units_law := conj eq_refl eq_refl |}.
Definition example_shared : shared := Shared (Ptr 1 0) (Ptr 2 0).
Definition counting_kernel : environment sys := λ tr X e,
  match e in sys X return X with
  | ReadCcnt => Z.of_nat (length tr)
  | Recv _ | Call _ _ | ReplyRecv _ _ | NBSendRecv _ _ _ => Msg 0 []
  | lib_call _ _ => 1
  | support e => Support.answer e
  | lib_ptr _ _ => None
  | lib_alloc _ _ => (0, 0)
  | Load _ i => (if decide (length tr < 2)%nat then [7; 4294967290] else [1207; 994]) !!! Z.to_nat i
  | _ => tt
  end.

Lemma do_ping_pong_correct_witness :
  always counting_kernel (@benchmark_multicore_do_ping_pong x86_64 example_units (Timer 5 6 0) example_shared 2)
    (λ result tr', ∃ befores afters badge x,
      Z.of_nat (length befores) = 2 ∧ Z.of_nat (length afters) = 2 ∧
      tr' = [] ++ loads example_shared befores ++ period (Timer 5 6 0) badge x ++ loads example_shared afters ∧
      ∀ ns, Forall3 counted befores afters ns →
        sumZ ns * 1000000000 < 2 ^ 64 → 10 * sumZ ns < 2 ^ 64 → result = 10 * sumZ ns) [] ∧
  (exec counting_kernel (@benchmark_multicore_do_ping_pong x86_64 example_units (Timer 5 6 0) example_shared 2) []).1
    = Ok 22000.
Proof.
  split; [|by vm_compute].
  apply (@do_ping_pong_correct x86_64 example_units counting_kernel (Timer 5 6 0) example_shared 2 []). done.
Defined.
