(* ===== verification/VcpuGuest.v ===== *)
(** * VcpuGuest: the guest of the virtualisation benchmark

    [apps/vcpu/src/guest.c]: the code that runs in a virtual CPU beside the
    monitor of VcpuVmm, with its traps into the kernel, its calls to the
    monitor, and the five measurements it makes and reports.  What an
    instruction does is its environment's; the record of a measurement is the
    static [guest_results]. *)

From S2P Require Import Prelude Platform Memory Program AppParams.

Import VcpuParams.

(** ** The operations of the guest *)

(** A message tag: its label and its length. *)
Record tag := Tag { label : Z; len : Z }.

(** The maintenance instructions and the barriers. *)
Inductive cache_op := dc_cvac | dc_cvau | dc_ivac | ic_ivau | tlbi_alle1 | release | acquire.

Inductive gop : Type → Type :=
  | ReadCcnt : gop Z
  | Hvc (scno dest : Z) (info : tag) (mrs : Z * Z * Z * Z) : gop (Z * tag * (Z * Z * Z * Z))
  | HvcNull (scno : Z) : gop unit
  | GetMR (i : Z) : gop Z
  | SetMR (i v : Z) : gop unit
  | Cache (op : cache_op) (va : Z) : gop unit
  | Mrs (register : string) : gop Z
  | Msr (register : string) (v : Z) : gop unit
  | Vsnprintf (format : string) (args : list Z) : gop Z
  | WriteBuffer (s : string) : gop unit
  | LogEntry (index : Z) : gop (Z * Z).

(** The numbers of libsel4 and the configuration. *)
Class VcpuConfig := {
  seL4_SysCall : Z; seL4_SysYield : Z; seL4_SysDebugPutChar : Z; seL4_SysDebugCapIdentify : Z;
  seL4_SysBenchmarkResetLog : Z; seL4_SysBenchmarkFinalizeLog : Z; seL4_SysBenchmarkNullSyscall : Z;
  ARMPageInvalidate_Data : Z; ARMPageClean_Data : Z;
  seL4_LargePageBits : Z;
  CONFIG_PRINTING : bool; CONFIG_DEBUG_BUILD : bool;
  CONFIG_ARCH_AARCH64 : bool;
  sizeof_guest_t : Z;
  sizeof_shared_globals : Z;
}.

(** [guest_t], as far as the guest reads it, and the shared globals [sg]. *)
Record guest_t := Guest {
  self : Z; magic : Z; id : Z; badged_fault_ep : Z; badged_fault_ep_ipc_copy : Z }.
Record shared_globals := SharedGlobals { sg : Z; log_buffer_frame : Z; sel4_log_buffer : Z }.

Section guest.
Context `{Platform} `{VcpuConfig}.
Context (guests_1 : guest_t) (globals : shared_globals) (aarch64_el1_vector_table : Z).

Definition GUEST_BM_LOG_BUFFER_INDEX : Z := 1.
Definition VCPU_BENCH_CACHE_LINE_SZ : Z := 64.
Definition VCPU_BENCH_GUEST_STACK_SIZE : Z := 2 ^ seL4_PageBits * 2.
Definition VCPU_BENCH_GUEST_PRINTF_BUFFER_SIZE : Z := VCPU_BENCH_GUEST_STACK_SIZE.

(** *** Caches *)

(** [va & ~(VCPU_BENCH_CACHE_LINE_SZ - 1)] *)
Definition line_of (va : Z) : Z := Z.land va (∼[seL4_WordBits] (VCPU_BENCH_CACHE_LINE_SZ - 1)).

Definition cleanDCacheByVa (va : Z) (PoC : bool) : prog gop unit :=
  perform (Cache (if PoC then dc_cvac else dc_cvau) (line_of va)).
Definition invalidateDCacheByVa (va : Z) : prog gop unit := perform (Cache dc_ivac (line_of va)).
Definition invalidateICacheByVa (va : Z) : prog gop unit := perform (Cache ic_ivau (line_of va)).

(** [for (va = line of start; va < end; va += line size)]: the lines of an
    object that does not reach the end of the address space. *)
Definition lines (start end_ : Z) : list Z :=
  (λ k, line_of start + k * VCPU_BENCH_CACHE_LINE_SZ) <$>
    seqZ 0 ((end_ - line_of start + VCPU_BENCH_CACHE_LINE_SZ - 1) `div` VCPU_BENCH_CACHE_LINE_SZ).

Definition cleanGuestContextToDCache (g : guest_t) (PoC : bool) : prog gop unit :=
  loop (lines (self g) (self g + sizeof_guest_t)) (λ va, cleanDCacheByVa va PoC).
Definition cleanSharedGlobalsToDCache (PoC : bool) : prog gop unit :=
  loop (lines (sg globals) (sg globals + sizeof_shared_globals)) (λ va, cleanDCacheByVa va PoC).
Definition invalidateLogBufferFromDCache : prog gop unit :=
  loop (lines (sel4_log_buffer globals) (sel4_log_buffer globals + 2 ^ seL4_PageBits)) invalidateDCacheByVa.
Definition invalidateTlbAll : prog gop unit := perform (Cache tlbi_alle1 0).
Definition THREAD_MEMORY_RELEASE : prog gop unit := perform (Cache release 0).
Definition THREAD_MEMORY_ACQUIRE : prog gop unit := perform (Cache acquire 0).

(** *** Traps *)

Definition arm_hyp_sys_null (scno : Z) : prog gop unit := perform (HvcNull scno).
Definition arm_hyp_sys_send_recv (scno dest : Z) (info : tag) (mrs : Z * Z * Z * Z)
  : prog gop (Z * tag * (Z * Z * Z * Z)) := perform (Hvc scno dest info mrs).

(** The system calls without a message. *)
Definition plain_call (scno dest : Z) : prog gop Z :=
  '(badge, _, _) ← arm_hyp_sys_send_recv scno dest (Tag 0 0) (0, 0, 0, 0); mret badge.

Definition seL4_HypCall (dest : Z) (msgInfo : tag) : prog gop tag :=
  msg0 ← perform (GetMR 0);
  msg1 ← perform (GetMR 1);
  msg2 ← perform (GetMR 2);
  msg3 ← perform (GetMR 3);
  '(_, info, (m0, m1, m2, m3)) ← arm_hyp_sys_send_recv seL4_SysCall dest msgInfo (msg0, msg1, msg2, msg3);
  perform (SetMR 0 m0);;
  perform (SetMR 1 m1);;
  perform (SetMR 2 m2);;
  perform (SetMR 3 m3);;
  mret info.

(** An invocation of a page with an interval: the label of the answer. *)
Definition page_invocation (service label_ start_offset end_offset : Z) : prog gop Z :=
  perform (SetMR 0 start_offset);;
  perform (SetMR 1 end_offset);;
  output_tag ← seL4_HypCall service (Tag label_ 2);
  mret (label output_tag).
Definition seL4_ARMHyp_Page_Invalidate_Data (service : Z) : Z → Z → prog gop Z :=
  page_invocation service ARMPageInvalidate_Data.
Definition seL4_ARMHyp_Page_Clean_Data (service : Z) : Z → Z → prog gop Z :=
  page_invocation service ARMPageClean_Data.

Definition seL4_HypYield : prog gop unit := arm_hyp_sys_null seL4_SysYield.
Definition seL4_HypDebugPutChar (c : Z) : prog gop unit :=
  _ ← plain_call seL4_SysDebugPutChar c; mret tt.
Definition seL4_HypDebugCapIdentify (cap : Z) : prog gop Z :=
  if CONFIG_DEBUG_BUILD then
    cap ← plain_call seL4_SysDebugCapIdentify cap; mret (wrap 32 cap)
  else mret (-1).
Definition seL4_HypBenchmarkResetLog : prog gop Z := plain_call seL4_SysBenchmarkResetLog 0.
Definition seL4_HypBenchmarkFinalizeLog : prog gop Z := plain_call seL4_SysBenchmarkFinalizeLog 0.

Definition _sel4_dbg_puts (str : list Z) : prog gop Z :=
  loop str seL4_HypDebugPutChar;; mret (Z.of_nat (length str)).

(** *** Calls to the monitor *)

(** The calls that send their arguments in message registers, and those that
    return a stamp in one. *)
Definition sends_arguments (c : hypcalls) : bool :=
  match c with
  | HYPCALL_SYS_PUTC | HYPCALL_SYS_PUTS | HYPCALL_SYS_EXIT_THREAD | HYPCALL_SYS_EL1_FAULT
  | HYPCALL_SYS_BM_REPORT_DEEP_RESULTS | HYPCALL_SYS_BM_REPORT_END_RESULTS => true
  | _ => false
  end.
Definition returns_stamp (c : hypcalls) : bool :=
  match c with
  | HYPCALL_SYS_GET_SEL4_CALL_END_STAMP | HYPCALL_SYS_GET_SEL4_REPLY_START_STAMP => true
  | _ => false
  end.

(** [vmm_call(g, hypcallno, argc, ...)]: what is stored to [*out_stamp], when
    the argument is that pointer. *)
Definition vmm_call (g : guest_t) (hypcallno : hypcalls) (argc : Z) (args : list Z) : prog gop (option Z) :=
  (if sends_arguments hypcallno then
     loop (seqZ 0 argc) (λ i, a ← from_outcome (defined (aget args i)); perform (SetMR i a));;
     THREAD_MEMORY_RELEASE
   else mret tt);;
  _ ← seL4_HypCall (badged_fault_ep_ipc_copy g) (Tag (hypcall_value hypcallno) argc);
  if returns_stamp hypcallno then stamp ← perform (GetMR 0); mret (Some stamp) else mret None.

Definition vmm_call_putc (g : guest_t) (c : Z) : prog gop unit :=
  _ ← vmm_call g HYPCALL_SYS_PUTC 1 [c]; mret tt.
Definition vmm_call_puts (g : guest_t) (str : string) : prog gop Z :=
  let len := Z.min (Z.of_nat (String.length str)) VCPU_BENCH_GUEST_PRINTF_BUFFER_SIZE in
  let len := if len =? VCPU_BENCH_GUEST_PRINTF_BUFFER_SIZE then len - 1 else len in
  perform (WriteBuffer str);;
  cleanGuestContextToDCache g false;;
  THREAD_MEMORY_RELEASE;;
  _ ← vmm_call g HYPCALL_SYS_PUTS 1 [len];
  mret len.
(** The monitor does not return from it. *)
Definition vmm_call_exit_thread {A} (g : guest_t) (was_el1_fault : bool) (exitstatus misc : Z) : prog gop A :=
  cleanGuestContextToDCache g false;;
  _ ← vmm_call g HYPCALL_SYS_EXIT_THREAD 3 [if was_el1_fault then 1 else 0; wrap 32 exitstatus; misc];
  Stop Undefined.

(** The pointer argument is written by the call. *)
Definition stamp_call (g : guest_t) (c : hypcalls) : prog gop Z :=
  stamp ← vmm_call g c 1 [];
  match stamp with Some stamp => mret stamp | None => Stop Undefined end.
Definition vmm_call_get_sel4reply_start_stamp (g : guest_t) : prog gop Z :=
  stamp_call g HYPCALL_SYS_GET_SEL4_REPLY_START_STAMP.
Definition vmm_call_get_sel4call_end_stamp (g : guest_t) : prog gop Z :=
  stamp_call g HYPCALL_SYS_GET_SEL4_CALL_END_STAMP.

Definition vmm_call_report_end_results (g : guest_t) (bm : vcpu_benchmarks)
    (min max clipped_avg complete_avg clipped_total complete_total n_anomalies : Z) : prog gop unit :=
  _ ← vmm_call g HYPCALL_SYS_BM_REPORT_END_RESULTS 8
        [benchmark_index bm; min; max; clipped_avg; complete_avg; clipped_total; complete_total; n_anomalies];
  mret tt.
Definition vmm_call_report_deep_results (g : guest_t) (bm : vcpu_benchmarks) (iteration start end_ : Z)
  : prog gop unit :=
  _ ← vmm_call g HYPCALL_SYS_BM_REPORT_DEEP_RESULTS 4 [benchmark_index bm; iteration; start; end_];
  mret tt.

Definition kcall_invoke_null_kcall (sel4_syscall_num : Z) : prog gop unit :=
  perform (HvcNull sel4_syscall_num).

Definition vmm_printf (g : guest_t) (fmt : string) (args : list Z) : prog gop Z :=
  ret ← perform (Vsnprintf fmt args);
  if ret <? 0 then mret ret
  else _ ← vmm_call g HYPCALL_SYS_PUTS 1 [ret]; mret ret.
Definition _sel4_dbg_printf (text : list Z) (g : guest_t) (fmt : string) (args : list Z) : prog gop Z :=
  len ← perform (Vsnprintf fmt args);
  if len <? 0 then mret len else _sel4_dbg_puts text.

(** *** Registers *)

Definition get_elr_el1 : prog gop Z := perform (Mrs "elr_el1").
Definition get_esr_el1 : prog gop Z := perform (Mrs "esr_el1").
Definition get_vbar_el1 : prog gop Z := perform (Mrs "vbar_el1").
Definition guest_install_vector_table : prog gop unit := perform (Msr "vbar_el1" aarch64_el1_vector_table).
Definition get_currentel : prog gop Z :=
  pstate ← perform (Mrs "currentEL"); mret (Z.land (Z.shiftr pstate 2) 0x3).
Definition is_el1 (pstate : Z) : bool :=
  if CONFIG_ARCH_AARCH64 then pstate =? 1
  else (0 <? pstate) && negb (pstate =? 0x6) && negb (pstate =? 0xA).

(** An exception of the guest ends it; the vector and the fields of the
    syndrome are not used. *)
Definition guest_vector_common (vectornum : Z) : prog gop unit :=
  _ ← get_esr_el1;
  esr_el1 ← get_esr_el1;
  _ ← vmm_printf guests_1 "One of the guest kernels has encountered a kernel exception, entered on vector %d" [vectornum];
  vmm_call_exit_thread guests_1 true (-1) esr_el1.

(** ** The measurements *)

(** [vcpu_benchmark_results_t] *)
Record vcpu_benchmark_results_t := Results {
  name : string;
  min : Z; max : Z;
  clipped_avg : Z; complete_avg : Z;
  clipped_total : Z; complete_total : Z;
  n_anomalies : Z;
  deep_start : list Z; deep_end : list Z; deep_elapsed : list Z;
}.

(** [memset(r, 0, sizeof( *r))] *)
Definition zero_results : vcpu_benchmark_results_t :=
  let zeros := replicate (Z.to_nat VCPU_BENCH_N_ITERATIONS) 0 in
  Results "" 0 0 0 0 0 0 0 zeros zeros zeros.

Definition guest_bm_calc_clipped_average (r : vcpu_benchmark_results_t) : outcome Z :=
  let n := VCPU_BENCH_N_ITERATIONS - n_anomalies r in
  if n =? 0 then Undef else Ok (clipped_total r `div` wrap 64 n).
Definition guest_bm_calc_complete_average (r : vcpu_benchmark_results_t) : Z :=
  complete_total r `div` VCPU_BENCH_N_ITERATIONS.

Definition guest_bm_cycle_counter_anomaly_detected (curr_iteration curr_measurement_elapsed_time : Z)
    (r : vcpu_benchmark_results_t) : outcome bool :=
  prev_end ← defined (aget (deep_end r) (curr_iteration - 1));
  prev_start ← defined (aget (deep_start r) (curr_iteration - 1));
  let prev_measurement_elapsed_time := prev_end ⊟[64] prev_start in
  let measurement_diff :=
    if prev_measurement_elapsed_time <? curr_measurement_elapsed_time
    then curr_measurement_elapsed_time ⊟[64] prev_measurement_elapsed_time else 0 in
  Ok (VCPU_BENCH_CYCLE_COUNTER_ANOMALY_THRESHOLD <=? measurement_diff).

(** A function that takes the two stamps, with the name it gives. *)
Definition guest_bm_stamp_getter_fn : Type := guest_t → prog gop (string * (Z * Z)).

(** The kernel cleans its view of the log, and the guest drops its own. *)
Definition read_log : prog gop (Z * Z) :=
  _ ← seL4_ARMHyp_Page_Clean_Data (log_buffer_frame globals) 0 (2 ^ seL4_LargePageBits - 1);
  invalidateLogBufferFromDCache;;
  THREAD_MEMORY_ACQUIRE;;
  perform (LogEntry GUEST_BM_LOG_BUFFER_INDEX).

Definition guest_run_bm_hvc_priv_escalate : guest_bm_stamp_getter_fn := λ g,
  seL4_HypYield;;
  _ ← seL4_HypBenchmarkResetLog;
  start ← perform ReadCcnt;
  kcall_invoke_null_kcall seL4_SysBenchmarkNullSyscall;;
  '(start_time, _) ← read_log;
  mret ("HVC Priv Escalation"%string, (start, start_time)).

Definition guest_run_bm_eret_priv_deescalate : guest_bm_stamp_getter_fn := λ g,
  seL4_HypYield;;
  _ ← seL4_HypBenchmarkResetLog;
  kcall_invoke_null_kcall seL4_SysBenchmarkNullSyscall;;
  end_ ← perform ReadCcnt;
  '(start_time, duration) ← read_log;
  mret ("HVC Priv DE-Escalation"%string, (start_time ⊞[64] duration, end_)).

Definition guest_run_bm_hvc_null_syscall : guest_bm_stamp_getter_fn := λ g,
  start ← perform ReadCcnt;
  kcall_invoke_null_kcall seL4_SysBenchmarkNullSyscall;;
  end_ ← perform ReadCcnt;
  mret ("seL4 NULL syscall"%string, (start, end_)).

Definition guest_run_bm_call_syscall : guest_bm_stamp_getter_fn := λ g,
  start ← perform ReadCcnt;
  end_ ← vmm_call_get_sel4call_end_stamp g;
  mret ("seL4_Call full invocation"%string, (start, end_)).

Definition guest_run_bm_reply_syscall : guest_bm_stamp_getter_fn := λ g,
  start ← vmm_call_get_sel4reply_start_stamp g;
  end_ ← perform ReadCcnt;
  mret ("seL4_Reply full invocation"%string, (start, end_)).

(** The record of one iteration. *)
Definition record_sample (i : Z) (sample : string * (Z * Z)) (r : vcpu_benchmark_results_t)
  : outcome vcpu_benchmark_results_t :=
  let '(name, (start, end_)) := sample in
  let elapsed := end_ ⊟[64] start in
  starts ← defined (aset (deep_start r) i start);
  ends ← defined (aset (deep_end r) i end_);
  elapseds ← defined (aset (deep_elapsed r) i elapsed);
  let r := Results name (min r) (max r) (clipped_avg r) (complete_avg r) (clipped_total r)
             (complete_total r) (n_anomalies r) starts ends elapseds in
  is_anomaly ← (if i =? 0 then Ok false else guest_bm_cycle_counter_anomaly_detected i elapsed r);
  Ok (Results name (Z.min (min r) elapsed) (Z.max (max r) elapsed) (clipped_avg r) (complete_avg r)
        (if (is_anomaly : bool) then clipped_total r else clipped_total r ⊞[64] elapsed)
        (complete_total r ⊞[64] elapsed)
        (if (is_anomaly : bool) then n_anomalies r + 1 else n_anomalies r) starts ends elapseds).

Definition averages (r : vcpu_benchmark_results_t) : outcome vcpu_benchmark_results_t :=
  clipped ← guest_bm_calc_clipped_average r;
  Ok (Results (name r) (min r) (max r) clipped (guest_bm_calc_complete_average r) (clipped_total r)
        (complete_total r) (n_anomalies r) (deep_start r) (deep_end r) (deep_elapsed r)).

Definition guest_run_bm (g : guest_t) (stamp_getter_fn : guest_bm_stamp_getter_fn)
  : prog gop vcpu_benchmark_results_t :=
  r ← loop_acc (seqZ 0 VCPU_BENCH_N_ITERATIONS) zero_results (λ i r,
    sample ← stamp_getter_fn g; from_outcome (record_sample i sample r));
  from_outcome (averages r).

Definition guest_report_bm_results (g : guest_t) (bm : vcpu_benchmarks) (r : vcpu_benchmark_results_t)
  : prog gop unit :=
  vmm_call_report_end_results g bm (min r) (max r) (clipped_avg r) (complete_avg r)
    (clipped_total r) (complete_total r) (n_anomalies r);;
  loop (seqZ 0 VCPU_BENCH_N_ITERATIONS) (λ i,
    start ← from_outcome (defined (aget (deep_start r) i));
    end_ ← from_outcome (defined (aget (deep_end r) i));
    vmm_call_report_deep_results g bm i start end_).

(** The benchmarks in order. *)
Definition guest_benchmarks : list (guest_bm_stamp_getter_fn * vcpu_benchmarks) :=
  [(guest_run_bm_hvc_priv_escalate, VCPU_BENCHMARK_HVC_PRIV_ESCALATE);
   (guest_run_bm_eret_priv_deescalate, VCPU_BENCHMARK_ERET_PRIV_DESCALATE);
   (guest_run_bm_hvc_null_syscall, VCPU_BENCHMARK_HVC_NULL_SYSCALL);
   (guest_run_bm_call_syscall, VCPU_BENCHMARK_CALL_SYSCALL);
   (guest_run_bm_reply_syscall, VCPU_BENCHMARK_REPLY_SYSCALL)].

Definition guest_run_benchmarks (g : guest_t) : prog gop Z :=
  loop guest_benchmarks (λ b, r ← guest_run_bm g b.1; guest_report_bm_results g b.2 r);;
  mret 0.

(** [text] is what the debug output formats. *)
Definition guest_main (text : list Z) (g : guest_t) : prog gop Z :=
  cleanGuestContextToDCache g false;;
  cleanSharedGlobalsToDCache false;;
  guest_install_vector_table;;
  currentel ← get_currentel;
  _ ← vmm_printf g "Guest%d: shdata @%p, magic %x, CurrentEL: %lx, IPC buffer @%p\n"
        [id g; self g; magic guests_1; currentel];
  if negb (magic g =? VCPU_BENCH_SHDATA_MAGIC) then
    (if CONFIG_PRINTING then
       _ ← _sel4_dbg_printf text g "Guest%d: Magic %x is invalid!\n" [id g; magic g]; mret tt
     else mret tt);;
    mret 0
  else
    _ ← seL4_HypDebugCapIdentify (badged_fault_ep g);
    _ ← seL4_HypDebugCapIdentify (badged_fault_ep_ipc_copy g);
    (if CONFIG_PRINTING then
       a ← seL4_HypDebugCapIdentify (badged_fault_ep g);
       b ← seL4_HypDebugCapIdentify (badged_fault_ep_ipc_copy g);
       _ ← _sel4_dbg_printf text g
             "GUEST%d: badged ep cap %d identified as %d, and ipc cap %d identified as %d.\n"
             [id g; badged_fault_ep g; a; badged_fault_ep_ipc_copy g; b];
       mret tt
     else mret tt);;
    if negb (is_el1 currentel) then
      _ ← vmm_printf g "Guest%d is not in EL1 as required!\n" [id g];
      vmm_call_exit_thread g false (-1) 0
    else
      _ ← guest_run_benchmarks g;
      vmm_call_exit_thread g false 0 0.

End guest.
