(* ===== verification/VcpuRecord.v ===== *)
(** * VcpuRecord: what the guest keeps of its samples

    The record that [guest_run_bm] builds: every sample with its difference,
    the extremes, and the two averages, one of which leaves out the samples
    that jump above the one before. *)

From S2P Require Import Prelude Platform Memory Program AppParams VcpuGuest.

Import VcpuParams.

(** The difference of a sample, as the counter's width gives it. *)
Definition delta (s : Z * Z) : Z := s.2 ⊟[64] s.1.

(** The differences that are not anomalies, the last sample first. *)
Fixpoint normal (l : list Z) : list Z :=
  match l with
  | [] => []
  | x :: l =>
      match l with
      | y :: _ => if VCPU_BENCH_CYCLE_COUNTER_ANOMALY_THRESHOLD <=? x - y then normal l else x :: normal l
      | [] => [x]
      end
  end.

(** The record [r] of the samples [ss]. *)
Record recorded (ss : list (Z * Z)) (r : vcpu_benchmark_results_t) : Prop := Recorded {
  rec_lengths : length (deep_start r) = Z.to_nat VCPU_BENCH_N_ITERATIONS ∧
                length (deep_end r) = Z.to_nat VCPU_BENCH_N_ITERATIONS ∧
                length (deep_elapsed r) = Z.to_nat VCPU_BENCH_N_ITERATIONS;
  rec_samples : ∀ i s, ss !! i = Some s →
    deep_start r !! i = Some s.1 ∧ deep_end r !! i = Some s.2 ∧ deep_elapsed r !! i = Some (delta s);
  rec_min : min r = 0;
  rec_max : max r = foldr Z.max 0 (delta <$> reverse ss);
  rec_complete : complete_total r = wrap 64 (sumZ (delta <$> reverse ss));
  rec_clipped : clipped_total r = wrap 64 (sumZ (normal (delta <$> reverse ss)));
  rec_anomalies :
    n_anomalies r = Z.of_nat (length ss) - Z.of_nat (length (normal (delta <$> reverse ss)));
}.

Lemma elapsed_word s : 0 <= delta s < 2 ^ 64.
Proof. by apply Z.mod_pos_bound. Qed.

Lemma normal_length l : (length (normal l) <= length l)%nat ∧ (l ≠ [] → normal l ≠ []).
Proof.
  induction l as [|x [|y l] [IH1 IH2]]; [done|done|]. simpl in *.
  destruct (_ <=? _); simpl; (split; [lia|intros _]); [by apply IH2|done].
Qed.

Lemma zero_recorded : recorded [] zero_results.
Proof. split; [done|intros i s; by rewrite lookup_nil|done..]. Qed.

(** Whether a sample is an anomaly after those before. *)
Lemma anomaly_detected ss s prev r i :
  list.last ss = Some prev → recorded ss r → i = Z.of_nat (length ss) → i < VCPU_BENCH_N_ITERATIONS →
  ∀ r', deep_start r' = <[Z.to_nat i := s.1]> (deep_start r) →
    deep_end r' = <[Z.to_nat i := s.2]> (deep_end r) →
    guest_bm_cycle_counter_anomaly_detected i (delta s) r' =
      Ok (VCPU_BENCH_CYCLE_COUNTER_ANOMALY_THRESHOLD <=? delta s - delta prev).
Proof.
  intros Hlast Hr -> Hi r' Es Ee. rewrite list.last_lookup in Hlast.
  pose proof (lookup_lt_Some _ _ _ Hlast) as Hlen.
  destruct (rec_samples _ _ Hr _ _ Hlast) as (Ps & Pe & _).
  unfold guest_bm_cycle_counter_anomaly_detected. rewrite Es, Ee, !aget_pos by lia.
  replace (Z.to_nat (Z.of_nat (length ss) - 1)) with (pred (length ss)) by lia.
  rewrite !list_lookup_insert_ne by lia. rewrite Ps, Pe. simpl.
  change (prev.2 ⊟[64] prev.1) with (delta prev). f_equal.
  pose proof (elapsed_word s). pose proof (elapsed_word prev).
  unfold VCPU_BENCH_CYCLE_COUNTER_ANOMALY_THRESHOLD.
  destruct (Z.ltb_spec (delta prev) (delta s)).
  - rewrite wrap_small; [done|]. unfold in_word. lia.
  - destruct (Z.leb_spec 800 0), (Z.leb_spec 800 (delta s - delta prev)); lia.
Qed.

(** One more sample. *)
Lemma record_step ss r nm s :
  recorded ss r → Z.of_nat (length ss) < VCPU_BENCH_N_ITERATIONS →
  ∃ r', record_sample (Z.of_nat (length ss)) (nm, s) r = Ok r' ∧ recorded (ss ++ [s]) r' ∧ name r' = nm.
Proof.
  intros Hr Hi. destruct (rec_lengths _ _ Hr) as (L1 & L2 & L3). destruct s as [start end_].
  unfold record_sample. change (end_ ⊟[64] start) with (delta (start, end_)).
  rewrite !aset_Some by lia. simpl.
  set (r0 := Results _ _ _ _ _ _ _ _ _ _ _).
  set (jump := match list.last ss with
               | Some prev => VCPU_BENCH_CYCLE_COUNTER_ANOMALY_THRESHOLD <=? delta (start, end_) - delta prev
               | None => false end).
  assert ((if Z.of_nat (length ss) =? 0 then Ok false
           else guest_bm_cycle_counter_anomaly_detected (Z.of_nat (length ss)) (delta (start, end_)) r0) =
          Ok jump) as ->.
  { subst jump. destruct (list.last ss) as [prev|] eqn:Hlast.
    - assert (length ss ≠ 0%nat) by (intros ?%nil_length_inv; by subst).
      destruct (Z.eqb_spec (Z.of_nat (length ss)) 0); [lia|].
      by eapply (anomaly_detected ss (start, end_)).
    - apply list.last_None in Hlast as ->. done. }
  assert (normal (delta <$> reverse (ss ++ [(start, end_)])) =
          if jump then normal (delta <$> reverse ss)
          else delta (start, end_) :: normal (delta <$> reverse ss)) as Hn.
  { subst jump. rewrite reverse_snoc. destruct ss as [|prev ss _] using rev_ind; [done|].
    by rewrite reverse_snoc, list.last_snoc. }
  eexists. split; [done|]. split; [|done]. split; cbn -[delta].
  - by rewrite !length_insert.
  - intros i s [Hs|[? Hs]]%lookup_app_Some.
    + pose proof (lookup_lt_Some _ _ _ Hs). rewrite !list_lookup_insert_ne by lia. by apply (rec_samples _ _ Hr).
    + apply list_lookup_singleton_Some in Hs as [Hs <-].
      replace i with (length ss) by lia. rewrite Nat2Z.id. by rewrite !list_lookup_insert_eq by lia.
  - rewrite (rec_min _ _ Hr). pose proof (elapsed_word (start, end_)). lia.
  - rewrite (rec_max _ _ Hr), reverse_snoc. cbn -[delta]. lia.
  - rewrite (rec_complete _ _ Hr), reverse_snoc. cbn -[delta]. word_eq.
  - rewrite (rec_clipped _ _ Hr), Hn. destruct jump; [done|]. cbn -[delta]. word_eq.
  - rewrite (rec_anomalies _ _ Hr), Hn, length_app. cbn. destruct jump; cbn [length]; lia.
Qed.

(** Some sample is never left out, so the average is defined. *)
Lemma averages_defined ss r :
  recorded ss r → Z.of_nat (length ss) = VCPU_BENCH_N_ITERATIONS →
  ∃ r', averages r = Ok r' ∧ recorded ss r' ∧ name r' = name r ∧
    clipped_avg r' = clipped_total r `div` Z.of_nat (length (normal (delta <$> reverse ss))) ∧
    complete_avg r' = complete_total r `div` VCPU_BENCH_N_ITERATIONS.
Proof.
  intros Hr Hss. pose proof (normal_length (delta <$> reverse ss)) as [Hle Hne].
  rewrite length_fmap, length_reverse in Hle.
  assert (length (normal (delta <$> reverse ss)) ≠ 0%nat) as Hpos.
  { intros E%length_zero_iff_nil. revert E. apply Hne. by destruct ss using rev_ind; [|rewrite reverse_snoc]. }
  unfold averages, guest_bm_calc_clipped_average. rewrite (rec_anomalies _ _ Hr), Hss.
  set (n := length (normal _)) in *.
  replace (VCPU_BENCH_N_ITERATIONS - (VCPU_BENCH_N_ITERATIONS - Z.of_nat n)) with (Z.of_nat n) by lia.
  destruct (Z.eqb_spec (Z.of_nat n) 0); [lia|]. eexists. split; [done|].
  split_and!; [|done| |done].
  - destruct Hr. split; try done. cbn -[n]. lia.
  - cbn -[delta n]. rewrite wrap_small; [done|]. unfold in_word.
    change VCPU_BENCH_N_ITERATIONS with 110 in Hss. lia.
Qed.

(** ** The measurement, in any environment *)
Section run.
Context `{Platform} `{VcpuConfig} (env : environment gop) (g : guest_t).
Context (stamp_getter_fn : guest_bm_stamp_getter_fn) (nm : string).

(** The samples that calls of the function take, one after the other. *)
Inductive takes (tr : list (event gop)) : list (Z * Z) → list (event gop) → Prop :=
  | takes_none : takes tr [] tr
  | takes_one ss tr1 s tr2 :
      takes tr ss tr1 → exec env (stamp_getter_fn g) tr1 = (Ok (nm, s), tr2) → takes tr (ss ++ [s]) tr2.

Context (Hgetter : ∀ tr, ∃ s tr', exec env (stamp_getter_fn g) tr = (Ok (nm, s), tr')).

(** C37. For any function that takes samples, [guest_run_bm] terminates without
    a division by zero and its record holds the 110 samples it took, in order,
    each with its difference modulo 2^64; the greatest difference; the average
    of all of them, and the average of those that do not lie 800 cycles or more
    above the one before, with the number of the others.  The least difference
    it holds is always zero. *)
Theorem guest_run_bm_correct tr :
  always env (guest_run_bm g stamp_getter_fn) (λ r tr', ∃ ss,
    takes tr ss tr' ∧ Z.of_nat (length ss) = VCPU_BENCH_N_ITERATIONS ∧ name r = nm ∧ recorded ss r ∧
    clipped_avg r = wrap 64 (sumZ (normal (delta <$> reverse ss)))
      `div` Z.of_nat (length (normal (delta <$> reverse ss))) ∧
    complete_avg r = wrap 64 (sumZ (delta <$> reverse ss)) `div` VCPU_BENCH_N_ITERATIONS ∧
    min r = 0) tr.
Proof using Hgetter.
  unfold guest_run_bm. apply always_bind.
  apply (always_loop_acc env (λ k r tr', ∃ ss, takes tr ss tr' ∧ length ss = k ∧ recorded ss r ∧
                               (k ≠ 0%nat → name r = nm))).
  - exists []. split_and!; [constructor|done|apply zero_recorded|done].
  - intros k x r tr1 Hx (ss & Ht & <- & Hr & _). apply lookup_seqZ in Hx as [-> Hk].
    rewrite Z.add_0_l. apply always_bind. destruct (Hgetter tr1) as (s & tr2 & Hs).
    apply always_exec. exists (nm, s), tr2. split; [done|].
    destruct (record_step ss r nm s Hr) as (r' & -> & Hr' & Hn); [lia|].
    apply always_ret. exists (ss ++ [s]). split_and!; [by econstructor| |done|done].
    rewrite length_app. simpl. lia.
  - intros r tr' (ss & Ht & Hss & Hr & Hn). rewrite length_seqZ in Hss, Hn.
    destruct (averages_defined ss r Hr) as (r' & -> & Hr' & Hn' & Hc & Ha); [by rewrite Hss|].
    apply always_ret. exists ss. rewrite Hc, Ha, (rec_clipped _ _ Hr), (rec_complete _ _ Hr), Hn', Hn by done.
    split_and!; try done; [by rewrite Hss|by apply (rec_min _ _ Hr')].
Qed.
End run.

(** A configuration of a 64-bit board. *)
Definition example_vcpu : VcpuConfig :=
  {| seL4_SysCall := -1; seL4_SysYield := -7; seL4_SysDebugPutChar := -9; seL4_SysDebugCapIdentify := -12;
     seL4_SysBenchmarkResetLog := -15; seL4_SysBenchmarkFinalizeLog := -16; seL4_SysBenchmarkNullSyscall := -18;
     ARMPageInvalidate_Data := 30; ARMPageClean_Data := 29; seL4_LargePageBits := 21;
     CONFIG_PRINTING := true; CONFIG_DEBUG_BUILD := true; CONFIG_ARCH_AARCH64 := true;
     sizeof_guest_t := 16640; sizeof_shared_globals := 48 |}.

(** A processor whose counter goes up by ten at each operation. *)
Definition counting : environment gop := λ tr X e,
  match e in gop X return X with
  | ReadCcnt => 10 * Z.of_nat (length tr)
  | Hvc _ _ _ mrs => (0, Tag 0 0, mrs)
  | GetMR _ | Mrs _ | Vsnprintf _ _ => 0
  | LogEntry _ => (0, 0)
  | HvcNull _ | SetMR _ _ | Cache _ _ | Msr _ _ | WriteBuffer _ => tt
  end.

Lemma guest_run_bm_correct_witness :
  let g := Guest 0 VCPU_BENCH_SHDATA_MAGIC 1 2 3 in
  always counting (@guest_run_bm g (@guest_run_bm_hvc_null_syscall example_vcpu)) (λ r tr', ∃ ss,
    takes counting g (@guest_run_bm_hvc_null_syscall example_vcpu) "seL4 NULL syscall" [] ss tr' ∧
    Z.of_nat (length ss) = VCPU_BENCH_N_ITERATIONS ∧
    name r = "seL4 NULL syscall"%string ∧ recorded ss r ∧
    clipped_avg r = wrap 64 (sumZ (normal (delta <$> reverse ss)))
      `div` Z.of_nat (length (normal (delta <$> reverse ss))) ∧
    complete_avg r = wrap 64 (sumZ (delta <$> reverse ss)) `div` VCPU_BENCH_N_ITERATIONS ∧
    min r = 0) [].
Proof.
  apply guest_run_bm_correct. intros tr. by eexists _, _.
Defined.
