(* ===== verification/VcpuVmm.v ===== *)
(** * VcpuVmm: the monitor of the virtualisation benchmark

    [apps/vcpu/src/main.c]: it sets up the virtual CPUs and their threads, then
    answers the calls of the guests until all of them have exited, and stores
    what they report in the shared results.  Logging is not modelled. *)

From S2P Require Import Prelude Platform Memory Program Collect Support Threads Measuring AppParams.
From S2P Require Import VcpuGuest.

Import VcpuParams.

(** The numbers of libsel4 that the monitor uses. *)
Class VmmConfig := {
  seL4_VCPUReg_SP_EL1 : Z; seL4_VCPUReg_SCTLR : Z; seL4_VCPUReg_CPACR : Z;
  seL4_MsgFastRegisters : Z;
  seL4_AllRights : Z;
  SEL4UTILS_CNODE_SLOT : Z;
  user_context_words : Z;
  api_make_guard_skip_word : Z → Z;
}.

Section vmm.
Context `{Platform} `{VcpuConfig} `{VmmConfig}.

Definition VCPU_BENCH_ARMV8A_PMCCFILTR_NONSECURE_PL2_CCNT_EN : Z := 2 ^ 27.

(** [vcpu_benchmark_results_t] and [vcpu_benchmark_overall_results_t], in
    [ccnt_t] of 64 bits, which it is on AArch64, the one target that builds
    the benchmark: the name takes six, the count of the anomalies one with its
    padding. *)
Definition vcpu_result_layout : layout :=
  [("name", 6); ("min", 1); ("max", 1); ("clipped_avg", 1); ("complete_avg", 1);
   ("clipped_total", 1); ("complete_total", 1); ("n_anomalies", 1);
   ("start", VCPU_BENCH_N_ITERATIONS); ("end", VCPU_BENCH_N_ITERATIONS);
   ("elapsed", VCPU_BENCH_N_ITERATIONS)]%string.
Definition vcpu_layout : layout :=
  [("ccnt_read_overhead", 1);
   ("results", VCPU_BENCHMARK_N_BENCHMARKS * struct_size vcpu_result_layout)]%string.
Definition result_row (results : ptr) (bm : Z) : ptr :=
  ptr_add (field vcpu_layout results "results") (bm * struct_size vcpu_result_layout).

(** The monitor's part of [guest_t]; the exit statuses are memory. *)
Record vm := Vm {
  address : Z; magic : Z; id : Z;
  tcb : Z; vcpu : Z; thread_handle : Z; ipc_buffer_frame : Z;
  badged_fault_ep : Z; badged_fault_ep_ipc_copy : Z;
}.

(** [guest__start], the address of the stack's top in a guest, and the
    numbers [regs] are passed with. *)
Definition guest_exec (guest__start stack_top : Z) (g : vm) : proc unit :=
  sys_checked "seL4_ARM_VCPU_WriteRegs" [Vint (vcpu g); Vint seL4_VCPUReg_SP_EL1; Vint (address g + stack_top)];;
  (* pc, sp, x29, spsr, x0, x1 *)
  sys_checked "seL4_TCB_WriteRegisters"
    [Vint (tcb g); Vint 1; Vint 0; Vint user_context_words;
     Vint guest__start; Vint (address g + stack_top); Vint (address g + stack_top); Vint 0x5;
     Vint (address g); Vint sizeof_guest_t];;
  assert_that (magic g =? VCPU_BENCH_SHDATA_MAGIC).

(** The guest at [addr] with the thread [h]; [exitstatus] is the array of the
    guests' statuses. *)
Definition guest_init (exitstatus : ptr) (all_guests_fault_ep addr : Z) (h : helper) (frame id : Z) : proc vm :=
  assert_that (negb (addr =? 0));;
  store_to exitstatus id 0;;
  parent_vspace_cap ← sys_call "simple_get_pd" [];
  assert_that (parent_vspace_cap =? SEL4UTILS_PD_SLOT);;
  parent_cspace_cap ← sys_call "simple_get_cnode" [];
  assert_that (parent_cspace_cap =? SEL4UTILS_CNODE_SLOT);;
  fault_ep ← sys_alloc "vka_mint_object"
    [Vint all_guests_fault_ep; Vint seL4_AllRights; Vint (Z.lor VCPU_BENCH_MSG_IS_FAULT_BIT id)];
  ipc_copy ← sys_alloc "vka_mint_object" [Vint all_guests_fault_ep; Vint seL4_AllRights; Vint id];
  vcpu ← sys_alloc "vka_alloc_vcpu" [];
  let cspace_root_data := api_make_guard_skip_word (seL4_WordBits - CONFIG_SEL4UTILS_CSPACE_SIZE_BITS) in
  sys_checked "sel4utils_configure_thread"
    [Vint fault_ep; Vint parent_cspace_cap; Vint cspace_root_data; Vint (handle h)];;
  auth ← simple_get_tcb;
  error ← TCB_SetPriority (tcb_cptr h) auth (seL4_MaxPrio `div` 2);
  assert_that (error =? 0);;
  sys_checked "seL4_ARM_VCPU_SetTCB" [Vint vcpu; Vint (tcb_cptr h)];;
  sctlr ← sys_alloc "seL4_ARM_VCPU_ReadRegs" [Vint vcpu; Vint seL4_VCPUReg_SCTLR];
  sys_checked "seL4_ARM_VCPU_WriteRegs" [Vint vcpu; Vint seL4_VCPUReg_SCTLR; Vint sctlr];;
  cpacr ← sys_alloc "seL4_ARM_VCPU_ReadRegs" [Vint vcpu; Vint seL4_VCPUReg_CPACR];
  sys_do "seL4_ARM_VCPU_WriteRegs"
    [Vint vcpu; Vint seL4_VCPUReg_CPACR; Vint (Z.lor (Z.lor cpacr (Z.shiftl 0x3 20)) (Z.shiftl 0x3 16))];;
  mret (Vm addr VCPU_BENCH_SHDATA_MAGIC id (tcb_cptr h) vcpu (handle h) frame fault_ep ipc_copy).

(** *** Cycle counting in PL2 *)

Definition set_pmccfiltr_el0 (val : Z) : proc unit := sys_do "msr pmccfiltr_el0" [Vint val].
Definition get_pmccfilter_el0 : proc Z := sys_call "mrs pmccfiltr_el0" [].

Definition vcpu_bm_toggle_cycle_counting_in_pl2 (onoff : bool) : proc unit :=
  pmccfiltr ← get_pmccfilter_el0;
  let bit := VCPU_BENCH_ARMV8A_PMCCFILTR_NONSECURE_PL2_CCNT_EN in
  if onoff then
    set_pmccfiltr_el0 (Z.land pmccfiltr (∼[32] bit));;
    now ← get_pmccfilter_el0;
    assert_that (Z.land now bit =? 0)
  else
    set_pmccfiltr_el0 (Z.lor pmccfiltr bit);;
    now ← get_pmccfilter_el0;
    assert_that (negb (Z.land now bit =? 0)).

(** *** The calls of the guests *)

Definition hypcall_of (label : Z) : option hypcalls :=
  head (filter (λ c, hypcall_value c = label) all_hypcalls).

Definition GetMR (i : Z) : proc Z := sys_call "seL4_GetMR" [Vint i].
Definition SetMR (i v : Z) : proc unit := sys_do "seL4_SetMR" [Vint i; Vint v].

(** The number of a benchmark that a guest reports on. *)
Definition reported_benchmark : proc Z :=
  assert_that (4 <=? seL4_MsgFastRegisters);;
  mr ← GetMR 0;
  let bm := wrap 32 mr in
  assert_that (bm <? VCPU_BENCHMARK_N_BENCHMARKS);; mret bm.

(** [guests[badge]] *)
Definition guest_at (guests : list vm) (badge : Z) : proc vm :=
  from_outcome (defined (aget guests badge)).

(** The tag of the answer. *)
Definition vmm_handle_hypcall (guests : list vm) (exitstatus results : ptr) (badge : Z) (t : tag) : proc tag :=
  assert_that (negb (badge =? 0));;
  ret ← (match hypcall_of (label t) with
  | Some HYPCALL_SYS_PUTC =>
      c ← GetMR 0; sys_do "putc" [Vint (wrap 8 c)];; mret 0
  | Some HYPCALL_SYS_PUTS =>
      _ ← GetMR 0; mret 0
  | Some HYPCALL_SYS_EXIT_THREAD =>
      assert_that (4 <=? seL4_MsgFastRegisters);;
      was_el1_fault ← GetMR 0;
      status ← GetMR 1;
      miscdata ← GetMR 2;
      g ← guest_at guests badge;
      store_to exitstatus badge (swrap 32 status);;
      sys_do "sel4utils_clean_up_thread" [Vint (thread_handle g)];; mret 0
  | Some HYPCALL_SYS_GET_SEL4_REPLY_START_STAMP | Some HYPCALL_SYS_GET_SEL4_CALL_END_STAMP =>
      stamp ← SEL4BENCH_READ_CCNT;
      SetMR 0 stamp;; mret 1
  | Some HYPCALL_SYS_BM_REPORT_END_RESULTS =>
      g ← guest_at guests badge;
      sys_do "seL4_ARM_Page_Invalidate_Data"
        [Vint (ipc_buffer_frame g); Vint 0; Vint (2 ^ seL4_PageBits - 1)];;
      _ ← reported_benchmark;
      for_to 7 (λ i, _ ← GetMR (i + 1); mret tt);; mret 0
  | Some HYPCALL_SYS_BM_REPORT_DEEP_RESULTS =>
      bm ← reported_benchmark;
      mr ← GetMR 1;
      let idx := swrap 32 mr in
      start ← GetMR 2;
      end_ ← GetMR 3;
      let row := result_row results bm in
      store_to (field vcpu_result_layout row "start") idx start;;
      store_to (field vcpu_result_layout row "end") idx end_;;
      store_to (field vcpu_result_layout row "elapsed") idx (end_ ⊟[64] start);; mret 0
  | _ => mret 0
  end);
  mret (Tag (label t) ret).

(** A fault of a guest is reported, and answered. *)
Definition vmm_handle_sel4_fault (badge : Z) (t : tag) : proc tag := mret (Tag 1 0).

(** One turn of the loop, with the message [m] that was received: the badge and
    the label; [again] is the next turn, with the number of guests that have
    exited. *)
Definition vmm_message (guests : list vm) (exitstatus results : ptr) (reply_cap n_guests_exited : Z)
    (again : Z → proc bool) (m : Z * Z) : proc bool :=
  let '(badge, label) := m in
  err ← sys_call "seL4_CNode_SaveCaller" [Vint reply_cap];
  if negb (err =? 0) then mret false
  else if negb (Z.land badge VCPU_BENCH_MSG_IS_FAULT_BIT =? 0) then
    replytag ← vmm_handle_sel4_fault badge (Tag label 0);
    sys_do "seL4_Send" [Vint reply_cap; Vint (VcpuGuest.label replytag); Vint (len replytag)];;
    again n_guests_exited
  else
    replytag ← vmm_handle_hypcall guests exitstatus results badge (Tag label 0);
    if label =? hypcall_value HYPCALL_SYS_EXIT_THREAD then
      sys_do "seL4_CNode_Delete" [Vint reply_cap];;
      let n_guests_exited := n_guests_exited + 1 in
      if n_guests_exited =? VCPU_BENCH_N_GUESTS then mret true else again n_guests_exited
    else
      sys_do "seL4_Send" [Vint reply_cap; Vint (VcpuGuest.label replytag); Vint (len replytag)];;
      again n_guests_exited.

(** The loop: [true] when all the guests have exited, [false] when the reply
    could not be saved; [fuel] bounds the messages. *)
Fixpoint vmm_loop (guests : list vm) (exitstatus results : ptr) (ep reply_cap : Z) (fuel : nat)
    (n_guests_exited : Z) : proc bool :=
  match fuel with
  | O => Stop Undefined
  | S fuel =>
      m ← perform (lib_alloc "seL4_Recv" [Vint ep]);
      vmm_message guests exitstatus results reply_cap n_guests_exited
        (vmm_loop guests exitstatus results ep reply_cap fuel) m
  end.

(** *** The set-up *)

(** The log buffer: its frame and its address, or an error. *)
Definition vcpu_bench_setup_log_buffer_frame : proc (Z * (Z * ptr)) :=
  frame ← sys_alloc "vka_alloc_frame" [Vint seL4_LargePageBits];
  err ← sys_call "kernel_logging_set_log_buffer" [Vint frame];
  if negb (err =? 0) then mret (err, (frame, Ptr 1 0))
  else
    p ← perform (lib_ptr "vspace_map_pages" [Vint frame; Vint seL4_LargePageBits]);
    match p with
    | None => mret (-1, (frame, Ptr 1 0))
    | Some p => sys_do "memset" [Vptr p; Vint 0; Vint (2 ^ seL4_LargePageBits)];; mret (0, (frame, p))
    end.

(** The variables of the loop: the last stamp, the total, the least and the
    greatest overhead. *)
Definition overhead_step (s : Z * Z * Z * Z) : proc (Z * Z * Z * Z) :=
  let '(prev_stamp, total, min, max) := s in
  curr_stamp ← SEL4BENCH_READ_CCNT;
  let curr_overhead := curr_stamp ⊟[ccnt_bits] prev_stamp in
  mret (curr_stamp, total ⊞[ccnt_bits] curr_overhead, Z.min min curr_overhead, Z.max max curr_overhead).

Definition N_ITERATIONS : Z := 10.
Definition get_ccnt_read_overhead_avg : proc Z :=
  prev_stamp ← SEL4BENCH_READ_CCNT;
  '(_, total, _, _) ← loop_acc (seqZ 0 N_ITERATIONS) (prev_stamp, 0, 100000, 0) (λ _, overhead_step);
  mret (total `div` N_ITERATIONS).

(** The exit status of the first guest that failed. *)
Fixpoint finish_guests (env : Env.env_t) (exitstatus : ptr) (ids : list Z) : proc unit :=
  match ids with
  | [] => finished env 0
  | i :: ids =>
      status ← load_from exitstatus i;
      if negb (status =? 0) then finished env status else finish_guests env exitstatus ids
  end.

(** [guests0] are the addresses, threads and IPC buffers of the guests, the
    first of which is not used. *)
Definition main (rt : runtime) (guests0 : list (Z * helper * Z)) (exitstatus results : ptr)
    (guest__start stack_top : Z) (fuel : nat) (argc : Z) : proc unit :=
  env ← get_env rt argc (sizeof vcpu_layout) 0;
  sys_do "sel4bench_init" [];;
  all_guests_fault_ep ← sys_alloc "vka_alloc_endpoint" [];
  if VCPU_BENCH_MAX_N_GUESTS <? VCPU_BENCH_N_GUESTS then mret tt
  else
    overhead ← get_ccnt_read_overhead_avg;
    set_field vcpu_layout results "ccnt_read_overhead" overhead;;
    vcpu_bm_toggle_cycle_counting_in_pl2 true;;
    '(err, _) ← vcpu_bench_setup_log_buffer_frame;
    if negb (err =? 0) then mret tt
    else
      guests ← loop_acc (seqZ 1 VCPU_BENCH_N_GUESTS) [Vm 0 0 0 0 0 0 0 0 0] (λ i guests,
        '(addr, h, frame) ← from_outcome (defined (aget guests0 i));
        g ← guest_init exitstatus all_guests_fault_ep addr h frame i;
        mret (guests ++ [g]));
      loop (seqZ 1 VCPU_BENCH_N_GUESTS) (λ i,
        g ← guest_at guests i; guest_exec guest__start stack_top g);;
      '(err, reply_cap) ← perform (lib_alloc "vka_cspace_alloc_path" []);
      if negb (err =? 0) then mret tt
      else
        exited ← vmm_loop guests exitstatus results all_guests_fault_ep reply_cap fuel 0;
        if (exited : bool) then
          vcpu_bm_toggle_cycle_counting_in_pl2 false;;
          finish_guests env exitstatus (seqZ 1 VCPU_BENCH_N_GUESTS)
        else mret tt.

End vmm.
