(* ===== verification/VcpuProofs.v ===== *)
(** * VcpuProofs: the guest and the monitor of the virtualisation benchmark together

    The kernel between them passes the message of a call to the monitor and
    the answer back; it passes every message register, of which the receiver
    reads those that the length of the tag counts.  With any counter and any kernel log, all the samples that
    the guest takes in its five benchmarks reach the shared results. *)

From S2P Require Import Prelude Platform Memory Program Collect Support Threads Measuring AppParams.
From S2P Require Import VcpuGuest VcpuVmm VcpuRecord.

Import VcpuParams.

Section machine.
Context `{Platform} `{VcpuConfig} `{VmmConfig}.
(** The readings of the cycle counter, the entries of the kernel's log, the
    other registers, the lengths of formatted texts, and what the libraries
    answer. *)
Context (clock : nat → Z) (log : nat → Z * Z) (registers : string → Z) (formatted : string → Z)
  (answers : string → list val → Z).

(** ** The machine *)

(** The readings and the log entries taken so far, the memory of the monitor,
    the message registers of both sides, and the answer being sent. *)
Record world := World {
  ticks : nat;
  logs : nat;
  memory : heap;
  guest_mrs : gmap Z Z;
  vmm_mrs : gmap Z Z;
  reply : option tag;
}.
Definition mr (mrs : gmap Z Z) (i : Z) : Z := default 0 (mrs !! i).

Definition tick (w : world) : world :=
  World (S (ticks w)) (logs w) (memory w) (guest_mrs w) (vmm_mrs w) (reply w).
Definition next_log (w : world) : world :=
  World (ticks w) (S (logs w)) (memory w) (guest_mrs w) (vmm_mrs w) (reply w).
Definition with_memory (h : heap) (w : world) : world :=
  World (ticks w) (logs w) h (guest_mrs w) (vmm_mrs w) (reply w).
Definition with_guest_mrs (m : gmap Z Z) (w : world) : world :=
  World (ticks w) (logs w) (memory w) m (vmm_mrs w) (reply w).
Definition with_vmm_mrs (m : gmap Z Z) (w : world) : world :=
  World (ticks w) (logs w) (memory w) (guest_mrs w) m (reply w).
Definition with_reply (t : option tag) (w : world) : world :=
  World (ticks w) (logs w) (memory w) (guest_mrs w) (vmm_mrs w) t.

(** The library calls of the monitor: its message registers, and the answer to
    the call it has saved. *)
Definition vmm_lib (fn : string) (args : list val) (w : world) : Z * world :=
  match args with
  | [Vint i] => if decide (fn = "seL4_GetMR"%string) then (mr (vmm_mrs w) i, w) else (answers fn args, w)
  | [Vint i; Vint v] =>
      if decide (fn = "seL4_SetMR"%string) then (0, with_vmm_mrs (<[i := v]> (vmm_mrs w)) w)
      else (answers fn args, w)
  | [Vint _; Vint label; Vint len] =>
      if decide (fn = "seL4_Send"%string) then (0, with_reply (Some (Tag label len)) w)
      else (answers fn args, w)
  | _ => (answers fn args, w)
  end.

(** The monitor waits for a message, its badge and its label, or is done. *)
Inductive monitor (B : Type) : Type :=
  | Waiting (k : Z * Z → proc B)
  | Done (b : B).
Arguments Waiting {B} k.
Arguments Done {B} b.

(** The monitor runs until it waits. *)
Fixpoint run_monitor {B} (p : proc B) (w : world) : outcome (monitor B * world) :=
  match p with
  | Ret b => Ok (Done b, w)
  | Stop s => stopped s
  | Op e k =>
      match e in sys X return
        (X → world → outcome (monitor B * world)) → (X → proc B) → outcome (monitor B * world) with
      | Threads.ReadCcnt => λ r _, r (clock (ticks w)) (tick w)
      | Store p i v => λ r _, h ← store p i v (memory w); r tt (with_memory h w)
      | lib_alloc fn args => λ r k,
          if decide (fn = "seL4_Recv"%string) then Ok (Waiting k, w) else r (0, answers fn args) w
      | lib_call fn args => λ r _, let '(x, w) := vmm_lib fn args w in r x w
      | _ => λ _ _, Undef
      end (λ x w, run_monitor (k x) w) k
  end.

(** The registers of a message: the first four are the ones of the call. *)
Definition sent_mrs (m0 m1 m2 m3 : Z) (w : world) : gmap Z Z :=
  <[0 := m0]> (<[1 := m1]> (<[2 := m2]> (<[3 := m3]> (guest_mrs w)))).
(** [n] message registers of the monitor over those of the guest. *)
Fixpoint received (n : nat) (from to : gmap Z Z) : gmap Z Z :=
  match n with O => to | S n => <[Z.of_nat n := mr from (Z.of_nat n)]> (received n from to) end.

(** A guest with its number and its cap to the monitor; it stops when the
    monitor does not answer it. *)
Context (g : guest_t).
Fixpoint run_guest {A B} (p : prog gop A) (v : monitor B) (w : world)
  : outcome (option A * monitor B * world) :=
  match p with
  | Ret a => Ok (Some a, v, w)
  | Stop s => stopped s
  | Op e k =>
      match e in gop X return
        (X → monitor B → world → outcome (option A * monitor B * world)) →
        outcome (option A * monitor B * world) with
      | ReadCcnt => λ r, r (clock (ticks w)) v (tick w)
      | LogEntry _ => λ r, r (log (logs w)) v (next_log w)
      | VcpuGuest.GetMR i => λ r, r (mr (guest_mrs w) i) v w
      | VcpuGuest.SetMR i x => λ r, r tt v (with_guest_mrs (<[i := x]> (guest_mrs w)) w)
      | Hvc scno dest info (m0, m1, m2, m3) => λ r,
          if decide (scno = seL4_SysCall ∧ dest = VcpuGuest.badged_fault_ep_ipc_copy g) then
            match v with
            | Waiting deliver =>
                '(v, w) ← run_monitor (deliver (VcpuGuest.id g, label info))
                            (with_reply None (with_vmm_mrs (sent_mrs m0 m1 m2 m3 w) w));
                match v, reply w with
                | Waiting _, Some t =>
                    let mrs := received (Z.to_nat (len t)) (vmm_mrs w) (sent_mrs m0 m1 m2 m3 w) in
                    r (0, t, (mr mrs 0, mr mrs 1, mr mrs 2, mr mrs 3)) v w
                | _, _ => Ok (None, v, w)
                end
            | Done _ => Undef
            end
          else r (0, Tag 0 0, (m0, m1, m2, m3)) v w
      | HvcNull _ | Cache _ _ | Msr _ _ | WriteBuffer _ => λ r, r tt v w
      | Mrs register => λ r, r (registers register) v w
      | Vsnprintf format _ => λ r, r (formatted format) v w
      end (λ x v w, run_guest (k x) v w)
  end.

(** ** The answers of the monitor *)
Context (globals : shared_globals) (guests_1 : guest_t) (vector_table : Z) (text : list Z).
Context (vms : list vm) (vm1 : vm) (eb rb : positive) (ep reply_cap : Z).

(** The guest and the monitor as they are set up: the guest is number 1, its
    cap to the monitor is not the one of the log, and the kernel's calls are
    not the call to the monitor. *)
Record linked := Linked {
  li_id : VcpuGuest.id g = 1;
  li_vm : aget vms 1 = Some vm1;
  li_blocks : eb ≠ rb;
  li_log : log_buffer_frame globals ≠ VcpuGuest.badged_fault_ep_ipc_copy g;
  li_calls : seL4_SysBenchmarkResetLog ≠ seL4_SysCall ∧ seL4_SysDebugPutChar ≠ seL4_SysCall ∧
             seL4_SysDebugCapIdentify ≠ seL4_SysCall;
  li_saved : ∀ args, answers "seL4_CNode_SaveCaller" args = 0;
  li_registers : 4 <= seL4_MsgFastRegisters;
}.
Context (Hli : linked).

Notation loop_ := (vmm_loop vms (Ptr eb 0) (Ptr rb 0) ep reply_cap).

(** The monitor that waits, with [fuel] more messages after the next. *)
Definition after_recv (fuel : nat) : Z * Z → proc bool :=
  vmm_message vms (Ptr eb 0) (Ptr rb 0) reply_cap 0 (loop_ fuel).

Lemma loop_waits fuel w : run_monitor (loop_ (S fuel) 0) w = Ok (Waiting (after_recv fuel), w).
Proof. done. Qed.

Lemma hypcall_of_value c : hypcall_of (hypcall_value c) = Some c.
Proof. by destruct c. Qed.

(** The steps of a handler. *)
Lemma step_getmr {B} i (k : Z → proc B) w :
  run_monitor (Op (lib_call "seL4_GetMR" [Vint i]) k) w = run_monitor (k (mr (vmm_mrs w) i)) w.
Proof. done. Qed.
Lemma step_other {B} fn args (k : Z → proc B) w :
  fn ∉ ["seL4_GetMR"; "seL4_SetMR"; "seL4_Send"]%string →
  run_monitor (Op (lib_call fn args) k) w = run_monitor (k (answers fn args)) w.
Proof.
  rewrite !not_elem_of_cons. intros (Hg & Hs & Hd & _). cbn. unfold vmm_lib.
  repeat case_match; first [done | congruence].
Qed.
Lemma step_store {B} p i x (k : unit → proc B) w h :
  store p i x (memory w) = Ok h → run_monitor (Op (Store p i x) k) w = run_monitor (k tt) (with_memory h w).
Proof. intros E. cbn. by rewrite E. Qed.

#[local] Ltac monitor_step :=
  cbn [assert_that fatal_if negb Z.eqb mbind prog_mbind prog_bind mret prog_mret VcpuVmm.GetMR sys_call
       sys_do perform store_to defined from_outcome].

(** A message that is neither a fault nor an exit: the handler, and the answer. *)
Lemma monitor_answers fuel c w :
  c ≠ HYPCALL_SYS_EXIT_THREAD →
  run_monitor (after_recv fuel (1, hypcall_value c)) w =
    run_monitor (t ← vmm_handle_hypcall vms (Ptr eb 0) (Ptr rb 0) 1 (Tag (hypcall_value c) 0);
                 sys_do "seL4_Send" [Vint reply_cap; Vint (VcpuGuest.label t); Vint (len t)];;
                 loop_ fuel 0) w.
Proof using Hli.
  intros Hc. unfold after_recv, vmm_message. 
  cbn [mbind prog_mbind prog_bind perform sys_call run_monitor vmm_lib].
  rewrite decide_False by done. rewrite (li_saved Hli). cbn [Z.eqb negb].
  assert (hypcall_value c =? hypcall_value HYPCALL_SYS_EXIT_THREAD = false) as -> by (by destruct c).
  done.
Qed.

(** What matters of a world: the message registers and the answer are read only
    where they have just been written. *)
Record point := Point { p_fuel : nat; p_ticks : nat; p_logs : nat; p_memory : heap }.
Definition sees (w : world) (p : point) : Prop :=
  match p with Point _ t l h => ticks w = t ∧ logs w = l ∧ memory w = h end.

(** A call with its arguments in the monitor's registers is answered, with or
    without a stamp. *)
Definition answers_call (c : hypcalls) (args : list Z) (p p' : point) (stamp : option Z) : Prop :=
  ∀ w, sees w p → (∀ i a, aget args i = Some a → mr (vmm_mrs w) i = a) →
    ∃ w' v, run_monitor (after_recv (p_fuel p) (1, hypcall_value c)) w =
              Ok (Waiting (after_recv (p_fuel p')), w') ∧ sees w' p' ∧
      match stamp with
      | None => reply w' = Some (Tag v 0)
      | Some s => reply w' = Some (Tag v 1) ∧ mr (vmm_mrs w') 0 = s
      end.

Lemma mr_insert mrs i x : mr (<[i := x]> mrs) i = x.
Proof. unfold mr. by rewrite lookup_insert_eq. Qed.
Lemma mr_insert_ne mrs i j x : i ≠ j → mr (<[i := x]> mrs) j = mr mrs j.
Proof. intros Hne. unfold mr. by rewrite lookup_insert_ne. Qed.

Lemma stamp_answered c f t l h :
  returns_stamp c = true →
  answers_call c [] (Point (S f) t l h) (Point f (S t) l h) (Some (clock t)).
Proof using Hli.
  intros Hc w (<- & <- & <-) _. eexists _, _. split.
  - cbn [p_fuel]. rewrite monitor_answers by (by destruct c). unfold vmm_handle_hypcall. cbn [label].
    rewrite hypcall_of_value. destruct c; try discriminate Hc; reflexivity.
  - split; [done|]. split; [done|]. apply mr_insert.
Qed.

Lemma puts_answered n f t l h :
  answers_call HYPCALL_SYS_PUTS [n] (Point (S f) t l h) (Point f t l h) None.
Proof using Hli.
  intros w (<- & <- & <-) _. eexists _, _. split.
  - cbn [p_fuel]. rewrite monitor_answers by done. unfold vmm_handle_hypcall. cbn [label].
    rewrite hypcall_of_value. reflexivity.
  - by split.
Qed.

(** Where a stamp of iteration [i] of benchmark [b] lies in the results: the
    columns of the starts, the ends and the differences. *)
Definition cell (column b i : Z) : nat := Z.to_nat (1 + b * struct_size vcpu_result_layout + column + i).
Definition starts : Z := 13.
Definition ends : Z := starts + VCPU_BENCH_N_ITERATIONS.
Definition elapseds : Z := ends + VCPU_BENCH_N_ITERATIONS.

(** The stores of a sample. *)
Definition put (b i : Z) (se : Z * Z) (l : list Z) : list Z :=
  <[cell elapseds b i := se.2 ⊟[64] se.1]> (<[cell ends b i := se.2]> (<[cell starts b i := se.1]> l)).

Lemma result_field b :
  field vcpu_result_layout (result_row (Ptr rb 0) b) "start" = Ptr rb (1 + b * struct_size vcpu_result_layout + starts) ∧
  field vcpu_result_layout (result_row (Ptr rb 0) b) "end" = Ptr rb (1 + b * struct_size vcpu_result_layout + ends) ∧
  field vcpu_result_layout (result_row (Ptr rb 0) b) "elapsed" = Ptr rb (1 + b * struct_size vcpu_result_layout + elapseds).
Proof. by split_and!. Qed.

Lemma cell_bound column b i (l : list Z) :
  0 <= b < VCPU_BENCHMARK_N_BENCHMARKS → 0 <= i < VCPU_BENCH_N_ITERATIONS → starts <= column <= elapseds →
  Z.of_nat (length l) = struct_size vcpu_layout →
  0 <= 1 + b * struct_size vcpu_result_layout + column + i < Z.of_nat (length l).
Proof.
  intros Hb Hi Hc ->. change (struct_size vcpu_layout) with 1716. change (struct_size vcpu_result_layout) with 343.
  unfold elapseds, ends, starts, VCPU_BENCH_N_ITERATIONS, VCPU_BENCH_N_ITERATIONS_IGNORED,
    VCPU_BENCHMARK_N_BENCHMARKS in *. lia.
Qed.

Lemma deep_answered b i s e f t lg h l :
  0 <= b < VCPU_BENCHMARK_N_BENCHMARKS → 0 <= i < VCPU_BENCH_N_ITERATIONS →
  holds h rb l → Z.of_nat (length l) = struct_size vcpu_layout →
  ∃ h', holds h' rb (put b i (s, e) l) ∧ (∀ b' l', b' ≠ rb → holds h b' l' → holds h' b' l') ∧
    answers_call HYPCALL_SYS_BM_REPORT_DEEP_RESULTS [b; i; s; e] (Point (S f) t lg h) (Point f t lg h') None.
Proof using Hli.
  intros Hb Hi Hh Hl. destruct (result_field b) as (Es & Ee & Ed).
  destruct (store_frame h rb l _ i s Hh (cell_bound starts b i l Hb Hi ltac:(done) Hl)) as (h1 & S1 & Hh1 & F1).
  destruct (store_frame h1 rb _ (1 + b * struct_size vcpu_result_layout + ends) i e Hh1) as (h2 & S2 & Hh2 & F2).
  { rewrite length_insert. by apply cell_bound. }
  destruct (store_frame h2 rb _ (1 + b * struct_size vcpu_result_layout + elapseds) i (e ⊟[64] s) Hh2)
    as (h3 & S3 & Hh3 & F3).
  { rewrite !length_insert. by apply cell_bound. }
  exists h3. split; [exact Hh3|]. split; [intros b' l' Hne Hh'; by apply F3, F2, F1|].
  intros w (<- & <- & <-) Hargs. eexists _, _. split.
  - cbn [p_fuel]. rewrite monitor_answers by done. unfold vmm_handle_hypcall. cbn [label].
    rewrite hypcall_of_value. unfold reported_benchmark.
    assert (4 <=? seL4_MsgFastRegisters = true) as -> by (apply Z.leb_le, (li_registers Hli)).
    assert (mr (vmm_mrs w) 0 = b) as E0 by (by apply Hargs).
    assert (mr (vmm_mrs w) 1 = i) as E1 by (by apply Hargs).
    assert (mr (vmm_mrs w) 2 = s) as E2 by (by apply Hargs).
    assert (mr (vmm_mrs w) 3 = e) as E3 by (by apply Hargs).
    assert (wrap 32 b = b) as Wb by (apply wrap_small; unfold in_word, VCPU_BENCHMARK_N_BENCHMARKS in *; lia).
    assert (swrap 32 i = i) as Wi.
    { apply swrap_small; [done|]. unfold VCPU_BENCH_N_ITERATIONS, VCPU_BENCH_N_ITERATIONS_IGNORED in *. lia. }
    assert (b <? VCPU_BENCHMARK_N_BENCHMARKS = true) as Lb by (apply Z.ltb_lt; lia).
    monitor_step. rewrite step_getmr, E0, Wb, Lb. monitor_step.
    rewrite step_getmr, E1. monitor_step. rewrite step_getmr, E2. monitor_step. rewrite step_getmr, E3, Wi, Es.
    monitor_step. rewrite (step_store _ _ _ _ _ h1), Ee by exact S1.
    monitor_step. rewrite (step_store _ _ _ _ _ h2), Ed by exact S2.
    monitor_step. rewrite (step_store _ _ _ _ _ h3) by exact S3. reflexivity.
  - by split.
Qed.

Lemma end_answered b args f t lg h :
  0 <= b < VCPU_BENCHMARK_N_BENCHMARKS →
  answers_call HYPCALL_SYS_BM_REPORT_END_RESULTS (b :: args) (Point (S f) t lg h) (Point f t lg h) None.
Proof using Hli.
  intros Hb w (<- & <- & <-) Hargs. eexists _, _. split.
  - cbn [p_fuel]. rewrite monitor_answers by done. unfold vmm_handle_hypcall. cbn [label].
    rewrite hypcall_of_value. unfold reported_benchmark, guest_at.
    assert (4 <=? seL4_MsgFastRegisters = true) as -> by (apply Z.leb_le, (li_registers Hli)).
    assert (mr (vmm_mrs w) 0 = b) as E0 by (by apply Hargs).
    assert (wrap 32 b = b) as Wb by (apply wrap_small; unfold in_word, VCPU_BENCHMARK_N_BENCHMARKS in *; lia).
    assert (b <? VCPU_BENCHMARK_N_BENCHMARKS = true) as Lb by (apply Z.ltb_lt; lia).
    rewrite (li_vm Hli). monitor_step.
    rewrite step_other by (by apply not_among). monitor_step. rewrite step_getmr, E0, Wb, Lb. reflexivity.
  - by split.
Qed.

(** The guest's exit ends the loop. *)
Lemma exit_ends x status misc f t lg h le w :
  sees w (Point f t lg h) → holds h eb le → 1 < Z.of_nat (length le) →
  (∀ i a, aget [x; status; misc] i = Some a → mr (vmm_mrs w) i = a) →
  ∃ w' h', run_monitor (after_recv f (1, hypcall_value HYPCALL_SYS_EXIT_THREAD)) w = Ok (Done true, w') ∧
    sees w' (Point f t lg h') ∧ holds h' eb (<[1%nat := swrap 32 status]> le) ∧
    (∀ b' l', b' ≠ eb → holds h b' l' → holds h' b' l').
Proof using Hli.
  intros (<- & <- & <-) Hh Hle Hargs.
  destruct (store_frame (memory w) eb le 0 1 (swrap 32 status) Hh) as (h' & S1 & Hh1 & F1); [lia|].
  eexists _, h'. split; [|split_and!; [|exact Hh1|exact F1]].
  - unfold after_recv, vmm_message, vmm_handle_hypcall. cbn [label]. rewrite hypcall_of_value.
    unfold guest_at. rewrite (li_vm Hli).
    assert (4 <=? seL4_MsgFastRegisters = true) as -> by (apply Z.leb_le, (li_registers Hli)).
    monitor_step. rewrite step_other, (li_saved Hli) by (by apply not_among).
    change (Z.land 1 VCPU_BENCH_MSG_IS_FAULT_BIT =? 0) with true. monitor_step. rewrite step_getmr. monitor_step.
    rewrite step_getmr. monitor_step. rewrite step_getmr. monitor_step.
    assert (mr (vmm_mrs w) 1 = status) as -> by (by apply Hargs).
    rewrite (step_store _ _ _ _ _ h') by exact S1. reflexivity.
  - by split.
Qed.

(** ** The steps of the guest *)

Lemma run_guest_next {A B X} (e : gop X) (k1 k2 : X → prog gop A) (v : monitor B) w :
  (∀ x (v : monitor B) w, run_guest (k1 x) v w = run_guest (k2 x) v w) →
  run_guest (Op e k1) v w = run_guest (Op e k2) v w.
Proof.
  intros Hk. destruct e as [|scno dest info [[[m0 m1] m2] m3]| | | | | | | | |]; cbn; try apply Hk.
  case_decide; [|apply Hk]. destruct v as [deliver|]; [|done].
  destruct (run_monitor _ _) as [[[?|] w']| |]; cbn; [|done..]. destruct (reply w'); [apply Hk|done].
Qed.

Lemma run_guest_assoc {A B C D} (p : prog gop A) (f : A → prog gop B) (k : B → prog gop C) (v : monitor D) w :
  run_guest ((p ≫= f) ≫= k) v w = run_guest (p ≫= λ x, f x ≫= k) v w.
Proof.
  revert v w. induction p as [a|X e p IH|s]; intros v w; [done| |done].
  cbn [mbind prog_mbind prog_bind]. apply run_guest_next. intros x v' w'. apply IH.
Qed.

(** From the point [P] the program [p] goes on to a point and with a value that
    satisfy [Q], whatever follows it. *)
Definition goes {A} (p : prog gop A) (P : point) (Q : A → point → Prop) : Prop :=
  ∀ w, sees w P → ∃ x P' w', Q x P' ∧ sees w' P' ∧
    ∀ C (k : A → prog gop C),
      run_guest (p ≫= k) (Waiting (after_recv (p_fuel P))) w =
      run_guest (k x) (Waiting (after_recv (p_fuel P'))) w'.

Lemma goes_ret {A} (a : A) P (Q : A → point → Prop) : Q a P → goes (mret a) P Q.
Proof. intros HQ w Hw. by exists a, P, w. Qed.

Lemma goes_bind {A B} (p : prog gop A) (f : A → prog gop B) P Q R :
  goes p P Q → (∀ x P', Q x P' → goes (f x) P' R) → goes (p ≫= f) P R.
Proof.
  intros Hp Hf w Hw. destruct (Hp w Hw) as (x & P1 & w1 & HQ & Hw1 & E1).
  destruct (Hf x P1 HQ w1 Hw1) as (y & P2 & w2 & HR & Hw2 & E2).
  exists y, P2, w2. split_and!; [done|done|]. intros C k. by rewrite run_guest_assoc, E1, E2.
Qed.

Lemma goes_mono {A} (p : prog gop A) P (Q R : A → point → Prop) :
  goes p P Q → (∀ x P', Q x P' → R x P') → goes p P R.
Proof. intros Hp HQR w Hw. destruct (Hp w Hw) as (x & P' & w' & HQ & ?). exists x, P', w'. auto. Qed.

Lemma goes_outcome {A} (o : outcome A) a P (Q : A → point → Prop) :
  o = Ok a → Q a P → goes (from_outcome o) P Q.
Proof. intros -> HQ. by apply goes_ret. Qed.

Lemma goes_loop {A} (I : nat → point → Prop) (l : list A) body P (Q : unit → point → Prop) :
  I 0%nat P → (∀ j x P', l !! j = Some x → I j P' → goes (body x) P' (λ _, I (S j))) →
  (∀ P', I (length l) P' → Q tt P') → goes (loop l body) P Q.
Proof.
  revert I P. induction l as [|x l IH]; intros I P HI0 Hstep HQ; cbn [loop].
  - by apply goes_ret, HQ.
  - eapply goes_bind; [by apply (Hstep 0%nat)|]. intros [] P' HI.
    apply (IH (λ j, I (S j))); [done| |done]. intros j y P'' Hj. by apply (Hstep (S j)).
Qed.

Lemma goes_loop_acc {A S'} (I : nat → S' → point → Prop) (l : list A) (s : S') body P
    (Q : S' → point → Prop) :
  I 0%nat s P → (∀ j x s P', l !! j = Some x → I j s P' → goes (body x s) P' (I (S j))) →
  (∀ s P', I (length l) s P' → Q s P') → goes (loop_acc l s body) P Q.
Proof.
  revert I s P. induction l as [|x l IH]; intros I s P HI0 Hstep HQ; cbn [loop_acc].
  - by apply goes_ret, HQ.
  - eapply goes_bind; [by apply (Hstep 0%nat)|]. intros s' P' HI.
    apply (IH (λ j, I (S j))); [done| |done]. intros j y s'' P'' Hj. by apply (Hstep (S j)).
Qed.

(** *** The operations *)

Lemma goes_read f t l h (Q : Z → point → Prop) :
  Q (clock t) (Point f (S t) l h) → goes (perform ReadCcnt) (Point f t l h) Q.
Proof. intros HQ w (<- & <- & <-). eexists _, _, (tick w). by split_and!. Qed.

Lemma goes_log i f t l h (Q : Z * Z → point → Prop) :
  Q (log l) (Point f t (S l) h) → goes (perform (LogEntry i)) (Point f t l h) Q.
Proof. intros HQ w (<- & <- & <-). eexists _, _, (next_log w). by split_and!. Qed.

(** The operations that the monitor and the counters do not see, and their
    answers where they matter. *)
Lemma goes_quiet {X} (e : gop X) x P (Q : X → point → Prop) :
  (∀ C (k : X → prog gop C) (v : monitor bool) w, run_guest (Op e k) v w = run_guest (k x) v w) →
  Q x P → goes (perform e) P Q.
Proof. intros He HQ w Hw. exists x, P, w. split_and!; [done|done|]. intros C k. apply He. Qed.

Lemma goes_cache op va P (Q : unit → point → Prop) : Q tt P → goes (perform (Cache op va)) P Q.
Proof. by apply goes_quiet. Qed.
Lemma goes_null scno P (Q : unit → point → Prop) : Q tt P → goes (perform (HvcNull scno)) P Q.
Proof. by apply goes_quiet. Qed.
Lemma goes_msr r x P (Q : unit → point → Prop) : Q tt P → goes (perform (Msr r x)) P Q.
Proof. by apply goes_quiet. Qed.
Lemma goes_mrs r P (Q : Z → point → Prop) : Q (registers r) P → goes (perform (Mrs r)) P Q.
Proof. by apply (goes_quiet _ (registers r)). Qed.
Lemma goes_vsnprintf f args P (Q : Z → point → Prop) :
  Q (formatted f) P → goes (perform (Vsnprintf f args)) P Q.
Proof. by apply (goes_quiet _ (formatted f)). Qed.

(** A trap that is not the call of the monitor. *)
Lemma goes_hvc scno dest info m0 m1 m2 m3 P Q :
  scno ≠ seL4_SysCall ∨ dest ≠ VcpuGuest.badged_fault_ep_ipc_copy g →
  Q (0, Tag 0 0, (m0, m1, m2, m3)) P → goes (perform (Hvc scno dest info (m0, m1, m2, m3))) P Q.
Proof. intros Hne. apply (goes_quiet _ (0, Tag 0 0, (m0, m1, m2, m3))). intros C k v w. cbn. rewrite decide_False; [done|]. intros []. by destruct Hne. Qed.

(** Programs that leave the point where it is. *)
Definition stays {A} (p : prog gop A) : Prop := ∀ P, goes p P (λ _ P', P' = P).

Lemma goes_skip {A B} (p : prog gop A) (f : A → prog gop B) P Q :
  stays p → (∀ x, goes (f x) P Q) → goes (p ≫= f) P Q.
Proof. intros Hp Hf. eapply goes_bind; [apply Hp|]. by intros x P' ->. Qed.

Lemma stays_ret {A} (a : A) : stays (mret a).
Proof. intros P. by apply goes_ret. Qed.
Lemma stays_bind {A B} (p : prog gop A) (f : A → prog gop B) :
  stays p → (∀ x, stays (f x)) → stays (p ≫= f).
Proof. intros Hp Hf P. apply goes_skip; [done|]. intros x. apply Hf. Qed.
Lemma stays_loop {A} (l : list A) (body : A → prog gop unit) :
  (∀ x, stays (body x)) → stays (loop l body).
Proof. intros Hb. induction l as [|x l IH]; [apply stays_ret|]. by apply stays_bind. Qed.

Lemma stays_getmr i : stays (perform (VcpuGuest.GetMR i)).
Proof. intros P w Hw. by exists (mr (guest_mrs w) i), P, w. Qed.
Lemma stays_setmr i x : stays (perform (VcpuGuest.SetMR i x)).
Proof. intros P w Hw. exists tt, P, (with_guest_mrs (<[i := x]> (guest_mrs w)) w). by destruct P. Qed.
Lemma stays_cache op va : stays (perform (Cache op va)).
Proof. intros P. by apply goes_quiet with (x := tt). Qed.
Lemma stays_null scno : stays (perform (HvcNull scno)).
Proof. intros P. by apply goes_quiet with (x := tt). Qed.
Lemma stays_msr r x : stays (perform (Msr r x)).
Proof. intros P. by apply goes_quiet with (x := tt). Qed.
Lemma stays_hvc scno dest info mrs :
  scno ≠ seL4_SysCall ∨ dest ≠ VcpuGuest.badged_fault_ep_ipc_copy g →
  stays (perform (Hvc scno dest info mrs)).
Proof. intros Hne P. destruct mrs as [[[m0 m1] m2] m3]. by apply goes_hvc. Qed.

Lemma stays_if {A} (b : bool) (p q : prog gop A) : stays p → stays q → stays (if b then p else q).
Proof. by destruct b. Qed.

#[local] Ltac stay :=
  solve [repeat first
    [ apply stays_ret | apply stays_getmr | apply stays_setmr | apply stays_cache | apply stays_null
    | apply stays_msr | apply stays_bind | apply stays_loop | apply stays_if | progress intros
    | progress unfold cleanDCacheByVa, invalidateDCacheByVa, cleanGuestContextToDCache,
        cleanSharedGlobalsToDCache, invalidateLogBufferFromDCache, THREAD_MEMORY_ACQUIRE,
        THREAD_MEMORY_RELEASE, seL4_HypYield, arm_hyp_sys_null, kcall_invoke_null_kcall,
        guest_install_vector_table ]].

(** *** Traps that are not for the monitor *)

Lemma stays_hypcall dest info :
  dest ≠ VcpuGuest.badged_fault_ep_ipc_copy g → stays (seL4_HypCall dest info).
Proof.
  intros Hne. unfold seL4_HypCall. do 4 (apply stays_bind; [apply stays_getmr|intros ?]).
  apply stays_bind; [apply stays_hvc; by right|]. intros [[? ?] [[[? ?] ?] ?]]. stay.
Qed.

Lemma stays_plain scno dest :
  scno ≠ seL4_SysCall → stays (plain_call scno dest).
Proof.
  intros Hne. unfold plain_call. apply stays_bind; [apply stays_hvc; by left|].
  intros [[? ?] ?]. apply stays_ret.
Qed.

Lemma stays_clean_page start_offset end_offset :
  stays (seL4_ARMHyp_Page_Clean_Data (log_buffer_frame globals) start_offset end_offset).
Proof using Hli.
  unfold seL4_ARMHyp_Page_Clean_Data, page_invocation.
  do 2 (apply stays_bind; [apply stays_setmr|intros ?]).
  apply stays_bind; [apply stays_hypcall, (li_log Hli)|]. intros ?. apply stays_ret.
Qed.

Lemma stays_identify cap : stays (seL4_HypDebugCapIdentify cap).
Proof using Hli.
  unfold seL4_HypDebugCapIdentify. apply stays_if; [|apply stays_ret].
  apply stays_bind; [apply stays_plain, Hli|]. intros ?. apply stays_ret.
Qed.

Lemma stays_putchar c : stays (seL4_HypDebugPutChar c).
Proof using Hli. apply stays_bind; [apply stays_plain, Hli|]. intros ?. apply stays_ret. Qed.

Lemma stays_dbg_printf fmt args : stays (_sel4_dbg_printf text g fmt args).
Proof using Hli.
  unfold _sel4_dbg_printf, _sel4_dbg_puts. apply stays_bind; [intros P; by apply goes_vsnprintf|].
  intros len. apply stays_if; [apply stays_ret|].
  apply stays_bind; [apply stays_loop, stays_putchar|]. intros ?. apply stays_ret.
Qed.

(** *** Calls of the monitor *)

Lemma set_arguments args n j w (v : monitor bool) : 0 <= j →
  j + Z.of_nat n = Z.of_nat (length args) →
  ∃ m, (∀ i a, j <= i → aget args i = Some a → mr m i = a) ∧
    (∀ i, i < j → mr m i = mr (guest_mrs w) i) ∧
    ∀ C (k : unit → prog gop C),
      run_guest (loop (seqZ j (Z.of_nat n)) (λ i, a ← from_outcome (defined (aget args i));
                                                  perform (VcpuGuest.SetMR i a)) ≫= k) v w =
      run_guest (k tt) v (with_guest_mrs m w).
Proof.
  revert j w. induction n as [|n IH]; intros j w Hj0 Hj.
  - exists (guest_mrs w). split_and!; [|done|intros C k; by destruct w].
    intros i a Hi Ha. rewrite aget_None in Ha; [done|lia].
  - destruct (aget_Some args j) as (a & Ha & _); [lia|].
    destruct (IH (j + 1) (with_guest_mrs (<[j := a]> (guest_mrs w)) w)) as (m & Hm & Hm' & E); [lia..|].
    exists m. split_and!.
    + intros i b Hi Hb. destruct (decide (i = j)) as [->|]; [|apply Hm; [lia|done]].
      rewrite Hm' by lia. cbn. rewrite mr_insert. congruence.
    + intros i Hi. rewrite Hm' by lia. cbn. apply mr_insert_ne. lia.
    + intros C k. rewrite seqZ_succ_l by lia. replace (Z.of_nat (S n) - 1) with (Z.of_nat n) by lia.
      cbn [loop]. rewrite run_guest_assoc, Ha. apply E.
Qed.

(** The registers of a call as they are in memory. *)
Lemma sent_mrs_same i w :
  mr (sent_mrs (mr (guest_mrs w) 0) (mr (guest_mrs w) 1) (mr (guest_mrs w) 2) (mr (guest_mrs w) 3) w) i =
  mr (guest_mrs w) i.
Proof.
  unfold sent_mrs. destruct (decide (i = 0)) as [->|]; [apply mr_insert|]. rewrite mr_insert_ne by done.
  destruct (decide (i = 1)) as [->|]; [apply mr_insert|]. rewrite mr_insert_ne by done.
  destruct (decide (i = 2)) as [->|]; [apply mr_insert|]. rewrite mr_insert_ne by done.
  destruct (decide (i = 3)) as [->|]; [apply mr_insert|]. by rewrite mr_insert_ne.
Qed.

(** The call itself, with the arguments in the guest's registers. *)
Lemma hypcall_answered c args P P' stamp argc w :
  answers_call c args P P' stamp → sees w P →
  (∀ i a, aget args i = Some a → mr (guest_mrs w) i = a) →
  ∃ info w', sees w' P' ∧ (∀ s, stamp = Some s → mr (guest_mrs w') 0 = s) ∧
    ∀ C (k : tag → prog gop C),
      run_guest (seL4_HypCall (VcpuGuest.badged_fault_ep_ipc_copy g) (Tag (hypcall_value c) argc) ≫= k)
        (Waiting (after_recv (p_fuel P))) w =
      run_guest (k info) (Waiting (after_recv (p_fuel P'))) w'.
Proof using Hli.
  intros Hc Hw Hargs.
  set (mrs := sent_mrs (mr (guest_mrs w) 0) (mr (guest_mrs w) 1) (mr (guest_mrs w) 2) (mr (guest_mrs w) 3) w).
  destruct (Hc (with_reply None (with_vmm_mrs mrs w))) as (w1 & n & E & Hw1 & Hr).
  { by destruct P. }
  { intros i a Ha. cbn. unfold mrs. rewrite sent_mrs_same. by apply Hargs. }
  assert (∃ len, reply w1 = Some (Tag n len)) as [len Hrep].
  { destruct stamp as [s|]; [destruct Hr as [Hr _]|]; eauto. }
  set (got := received (Z.to_nat len) (vmm_mrs w1) (sent_mrs (mr (guest_mrs w) 0) (mr (guest_mrs w) 1)
    (mr (guest_mrs w) 2) (mr (guest_mrs w) 3) w1)).
  exists (Tag n len), (with_guest_mrs
    (<[3 := mr got 3]> (<[2 := mr got 2]> (<[1 := mr got 1]> (<[0 := mr got 0]> (guest_mrs w1))))) w1).
  split_and!.
  - by destruct P'.
  - intros s ->. cbn. rewrite !mr_insert_ne by done. rewrite mr_insert. destruct Hr as [Hr <-].
    rewrite Hrep in Hr. injection Hr as ->. apply (mr_insert _ 0).
  - intros C k. unfold seL4_HypCall. cbn [mbind prog_mbind prog_bind perform arm_hyp_sys_send_recv run_guest].
    rewrite decide_True by done. cbn [label]. rewrite (li_id Hli). fold mrs. rewrite E. cbn [outcome_bind].
    change (mbind ?f (Ok ?x)) with (f x). cbn beta iota. rewrite Hrep. reflexivity.
Qed.

Lemma goes_vmm_call_sends c args P P' (Q : option Z → point → Prop) :
  sends_arguments c = true → returns_stamp c = false → answers_call c args P P' None →
  Q None P' → goes (vmm_call g c (Z.of_nat (length args)) args) P Q.
Proof using Hli.
  intros Hs Hr Hc HQ w Hw. unfold vmm_call. rewrite Hs, Hr.
  destruct (set_arguments args (length args) 0 w (Waiting (after_recv (p_fuel P)))) as (m & Hm & _ & E); [lia..|].
  destruct (hypcall_answered c args P P' None (Z.of_nat (length args)) (with_guest_mrs m w))
    as (info & w' & Hw' & _ & E'); [done|by destruct P| |].
  { intros i a Ha. apply Hm; [|done]. unfold aget in Ha. by destruct (Z.leb_spec 0 i). }
  exists None, P', w'. split_and!; [done|done|]. intros C k.
  rewrite !run_guest_assoc, E. cbn [mbind prog_mbind prog_bind THREAD_MEMORY_RELEASE perform].
  etrans; [apply run_guest_assoc|]. apply E'.
Qed.

Lemma goes_stamp_call c P P' s (Q : Z → point → Prop) :
  returns_stamp c = true → answers_call c [] P P' (Some s) → Q s P' → goes (stamp_call g c) P Q.
Proof using Hli.
  intros Hr Hc HQ w Hw. unfold stamp_call, vmm_call. rewrite Hr.
  assert (sends_arguments c = false) as -> by (by destruct c).
  destruct (hypcall_answered c [] P P' (Some s) 1 w Hc Hw) as (info & w' & Hw' & Hmr & E').
  { intros i a Ha. by rewrite aget_None in Ha by (simpl; lia). }
  exists s, P', w'. split_and!; [done|done|]. intros C k.
  cbn [mbind prog_mbind prog_bind mret prog_mret].
  etrans; [apply run_guest_assoc|]. etrans; [apply run_guest_assoc|].
  etrans; [apply E'|]. cbn. by rewrite (Hmr s).
Qed.

(** ** The samples *)

Lemma goes_read_log P (Q : Z * Z → point → Prop) f t lg h :
  P = Point f t lg h → Q (log lg) (Point f t (S lg) h) → goes (read_log globals) P Q.
Proof using Hli.
  intros -> HQ. unfold read_log. apply goes_skip; [apply stays_clean_page|intros _].
  apply goes_skip; [stay|intros _]. apply goes_skip; [stay|intros _]. by apply goes_log.
Qed.

Lemma stays_reset : stays seL4_HypBenchmarkResetLog.
Proof using Hli. apply stays_plain, Hli. Qed.

Lemma goes_priv_escalate f t lg h :
  goes (guest_run_bm_hvc_priv_escalate globals g) (Point f t lg h)
    (λ x P', x.2 = (clock t, (log lg).1) ∧ P' = Point f (S t) (S lg) h).
Proof using Hli.
  unfold guest_run_bm_hvc_priv_escalate. apply goes_skip; [stay|intros _].
  apply goes_skip; [apply stays_reset|intros _]. eapply goes_bind; [by apply (goes_read _ _ _ _ (λ x P', x = clock t ∧ P' = Point f (S t) lg h))|].
  intros ? ? [-> ->]. apply goes_skip; [stay|intros _].
  eapply goes_bind; [by apply (goes_read_log _ (λ x P', x = log lg ∧ P' = Point f (S t) (S lg) h) f (S t) lg h)|].
  intros ? ? [-> ->]. destruct (log lg). by apply goes_ret.
Qed.

Lemma goes_priv_deescalate f t lg h :
  goes (guest_run_bm_eret_priv_deescalate globals g) (Point f t lg h)
    (λ x P', x.2 = ((log lg).1 ⊞[64] (log lg).2, clock t) ∧ P' = Point f (S t) (S lg) h).
Proof using Hli.
  unfold guest_run_bm_eret_priv_deescalate. apply goes_skip; [stay|intros _].
  apply goes_skip; [apply stays_reset|intros _]. apply goes_skip; [stay|intros _].
  eapply goes_bind; [by apply (goes_read _ _ _ _ (λ x P', x = clock t ∧ P' = Point f (S t) lg h))|].
  intros ? ? [-> ->].
  eapply goes_bind; [by apply (goes_read_log _ (λ x P', x = log lg ∧ P' = Point f (S t) (S lg) h) f (S t) lg h)|].
  intros ? ? [-> ->]. destruct (log lg). by apply goes_ret.
Qed.

Lemma goes_null_syscall f t lg h :
  goes (guest_run_bm_hvc_null_syscall g) (Point f t lg h)
    (λ x P', x.2 = (clock t, clock (S t)) ∧ P' = Point f (S (S t)) lg h).
Proof.
  unfold guest_run_bm_hvc_null_syscall.
  eapply goes_bind; [by apply (goes_read _ _ _ _ (λ x P', x = clock t ∧ P' = Point f (S t) lg h))|].
  intros ? ? [-> ->]. apply goes_skip; [stay|intros _].
  eapply goes_bind; [by apply (goes_read _ _ _ _ (λ x P', x = clock (S t) ∧ P' = Point f (S (S t)) lg h))|].
  intros ? ? [-> ->]. by apply goes_ret.
Qed.

Lemma goes_call_syscall f t lg h :
  goes (guest_run_bm_call_syscall g) (Point (S f) t lg h)
    (λ x P', x.2 = (clock t, clock (S t)) ∧ P' = Point f (S (S t)) lg h).
Proof using Hli.
  unfold guest_run_bm_call_syscall.
  eapply goes_bind; [by apply (goes_read _ _ _ _ (λ x P', x = clock t ∧ P' = Point (S f) (S t) lg h))|].
  intros ? ? [-> ->].
  eapply goes_bind; [by eapply (goes_stamp_call _ _ _ _ (λ x P', x = clock (S t) ∧ P' = Point f (S (S t)) lg h)); [|by apply stamp_answered|]|].
  intros ? ? [-> ->]. by apply goes_ret.
Qed.

Lemma goes_reply_syscall f t lg h :
  goes (guest_run_bm_reply_syscall g) (Point (S f) t lg h)
    (λ x P', x.2 = (clock t, clock (S t)) ∧ P' = Point f (S (S t)) lg h).
Proof using Hli.
  unfold guest_run_bm_reply_syscall.
  eapply goes_bind; [by eapply (goes_stamp_call _ _ _ _ (λ x P', x = clock t ∧ P' = Point f (S t) lg h)); [|by apply stamp_answered|]|].
  intros ? ? [-> ->].
  eapply goes_bind; [by apply (goes_read _ _ _ _ (λ x P', x = clock (S t) ∧ P' = Point f (S (S t)) lg h))|].
  intros ? ? [-> ->]. by apply goes_ret.
Qed.

(** A measurement whose iterations use [df] messages, [dt] readings and [dl]
    entries of the log each. *)
Lemma goes_run_bm fn (σ : nat → Z * Z) (df dt dl : nat) f t lg h :
  (∀ i f, goes (fn g) (Point (df + f) (t + dt * i) (lg + dl * i) h)
     (λ x P', x.2 = σ i ∧ P' = Point f (dt + (t + dt * i)) (dl + (lg + dl * i)) h)) →
  goes (guest_run_bm g fn) (Point (df * 110 + f) t lg h)
    (λ r P', recorded (σ <$> seq 0 110) r ∧ P' = Point f (t + dt * 110) (lg + dl * 110) h).
Proof.
  intros Hfn. unfold guest_run_bm. eapply goes_bind.
  - apply (goes_loop_acc (λ j r P', recorded (σ <$> seq 0 j) r ∧
             P' = Point (df * (110 - j) + f) (t + dt * j) (lg + dl * j) h)).
    + split; [apply zero_recorded|]. f_equal; lia.
    + intros j x r P' [-> Hj]%lookup_seqZ [Hr ->]. change VCPU_BENCH_N_ITERATIONS with 110 in Hj.
      replace (df * (110 - j) + f)%nat with (df + (df * (110 - S j) + f))%nat
        by (replace (110 - j)%nat with (S (110 - S j)) by lia; lia).
      eapply goes_bind; [apply Hfn|]. intros [nm s] P' [Es ->]. cbn in Es. subst s.
      destruct (record_step _ _ nm (σ j) Hr) as (r' & E & Hr' & _).
      { rewrite length_fmap, length_seq. change VCPU_BENCH_N_ITERATIONS with 110. lia. }
      rewrite length_fmap, length_seq in E. rewrite Z.add_0_l. apply (goes_outcome _ r'); [done|].
      split; [by rewrite seq_S, fmap_app|]. f_equal; lia.
    + intros r P' HP. exact HP.
  - change (length (seqZ 0 VCPU_BENCH_N_ITERATIONS)) with 110%nat. intros r P' [Hr ->].
    destruct (averages_defined _ r Hr) as (r' & E & Hr' & _); [done|].
    apply (goes_outcome _ r'); [done|]. split; [done|]. f_equal; lia.
Qed.

(** ** The reports *)

(** The stores of a list of samples, each with its benchmark and its iteration. *)
Definition put_all (samples : list (Z * Z * (Z * Z))) (l : list Z) : list Z :=
  foldl (λ l x, put x.1.1 x.1.2 x.2 l) l samples.
Definition samples_of (b : Z) (ss : list (Z * Z)) : list (Z * Z * (Z * Z)) :=
  imap (λ i s, (b, Z.of_nat i, s)) ss.

Lemma put_all_length samples l : length (put_all samples l) = length l.
Proof.
  revert l. induction samples as [|x samples IH]; intros l; [done|].
  etrans; [apply IH|]. unfold put. by rewrite !length_insert.
Qed.

(** The memory of the monitor from [h0], when the results held [l] and [samples]
    have been reported. *)
Definition reported (h0 : heap) (l : list Z) (samples : list (Z * Z * (Z * Z))) (h : heap) : Prop :=
  holds h rb (put_all samples l) ∧ ∀ b' l', b' ≠ rb → holds h0 b' l' → holds h b' l'.

Lemma goes_report_end bm a b c d e k n f t lg h :
  goes (vmm_call_report_end_results g bm a b c d e k n) (Point (S f) t lg h) (λ _ P', P' = Point f t lg h).
Proof using Hli.
  unfold vmm_call_report_end_results. eapply goes_bind with (Q := λ _ P', P' = Point f t lg h).
  - eapply (goes_vmm_call_sends _ [_; _; _; _; _; _; _; _]); [done..| |done]. apply end_answered. by destruct bm.
  - intros _ P' ->. by apply goes_ret.
Qed.

Lemma goes_report_deep bm i s f t lg h0 l samples h :
  0 <= i < VCPU_BENCH_N_ITERATIONS → Z.of_nat (length l) = struct_size vcpu_layout →
  reported h0 l samples h →
  goes (vmm_call_report_deep_results g bm i s.1 s.2) (Point (S f) t lg h) (λ _ P', ∃ h',
    P' = Point f t lg h' ∧ reported h0 l (samples ++ [(benchmark_index bm, i, s)]) h').
Proof using Hli.
  intros Hi Hl [Hh Hf].
  destruct (deep_answered (benchmark_index bm) i s.1 s.2 f t lg h (put_all samples l))
    as (h' & Hh' & Hf' & Ha); [by destruct bm|done|done|by rewrite put_all_length|].
  unfold vmm_call_report_deep_results. eapply goes_bind with (Q := λ _ P', P' = Point f t lg h').
  - eapply (goes_vmm_call_sends _ [_; _; _; _]); done.
  - intros _ P' ->. apply goes_ret. exists h'. split; [done|]. split; [|by auto].
    unfold put_all. rewrite foldl_app. by destruct s.
Qed.

Lemma goes_report bm ss r f t lg h0 l samples h :
  recorded ss r → length ss = 110%nat → Z.of_nat (length l) = struct_size vcpu_layout →
  reported h0 l samples h →
  goes (guest_report_bm_results g bm r) (Point (111 + f) t lg h)
    (λ _ P', ∃ h', P' = Point f t lg h' ∧ reported h0 l (samples ++ samples_of (benchmark_index bm) ss) h').
Proof using Hli.
  intros Hr Hss Hl Hh.
  unfold guest_report_bm_results. eapply goes_bind; [apply (goes_report_end _ _ _ _ _ _ _ _ (110 + f))|].
  intros _ P' ->.
  apply (goes_loop (λ j P', ∃ h', P' = Point (110 - j + f) t lg h' ∧
           reported h0 l (samples ++ samples_of (benchmark_index bm) (take j ss)) h')).
  - exists h. split; [done|]. by rewrite take_0, app_nil_r.
  - intros j x P' [-> Hj]%lookup_seqZ (h' & -> & Hh').
    change VCPU_BENCH_N_ITERATIONS with 110 in Hj.
    destruct (lookup_lt_is_Some_2 ss j) as [s Hs]; [lia|].
    destruct (rec_samples _ _ Hr _ _ Hs) as (Es & Ee & _).
    rewrite Z.add_0_l, !aget_nat, Es, Ee. cbn [defined from_outcome].
    replace (110 - j + f)%nat with (S (110 - S j + f)) by lia.
    eapply goes_mono; [apply (goes_report_deep bm (Z.of_nat j) s); [|done|done]|].
    { change VCPU_BENCH_N_ITERATIONS with 110. lia. }
    intros _ P' (h2 & -> & Hh2). exists h2. split; [done|].
    rewrite (take_S_r _ _ _ Hs). unfold samples_of at 1. rewrite imap_app. cbn [imap].
    rewrite length_take_le by lia. by rewrite Nat.add_0_r, <-app_assoc in *.
  - change (length (seqZ 0 VCPU_BENCH_N_ITERATIONS)) with 110%nat. intros P' (h' & -> & Hh').
    exists h'. split; [done|]. by rewrite take_ge in Hh' by lia.
Qed.

(** ** The five benchmarks *)

Lemma goes_benchmark fn bm (σ : nat → Z * Z) (df dt dl : nat) f F t lg h0 l samples h :
  (∀ i f, goes (fn g) (Point (df + f) (t + dt * i) (lg + dl * i) h)
     (λ x P', x.2 = σ i ∧ P' = Point f (dt + (t + dt * i)) (dl + (lg + dl * i)) h)) →
  Z.of_nat (length l) = struct_size vcpu_layout → reported h0 l samples h → F = (df * 110 + (111 + f))%nat →
  goes (r ← guest_run_bm g fn; guest_report_bm_results g bm r) (Point F t lg h) (λ _ P', ∃ h',
    P' = Point f (t + dt * 110) (lg + dl * 110) h' ∧
    reported h0 l (samples ++ samples_of (benchmark_index bm) (σ <$> seq 0 110)) h').
Proof using Hli.
  intros Hfn Hl Hh ->. eapply goes_bind; [by apply (goes_run_bm fn σ)|].
  intros r P' [Hr ->]. apply goes_report; [done|by rewrite length_fmap, length_seq|done|done].
Qed.

(** The samples of the five benchmarks, from the readings of the counter and
    the entries of the log that follow [t] and [lg]. *)
Definition ticks_from (t : nat) : list (Z * Z) :=
  (λ i, (clock (t + 2 * i), clock (S (t + 2 * i)))) <$> seq 0 110.
Definition samples_taken (t lg : nat) : list (Z * Z * (Z * Z)) :=
  samples_of 0 ((λ i, (clock (t + i), (log (lg + i)).1)) <$> seq 0 110) ++
  samples_of 1 ((λ i, ((log (lg + 110 + i)).1 ⊞[64] (log (lg + 110 + i)).2, clock (t + 110 + i))) <$> seq 0 110) ++
  samples_of 2 (ticks_from (t + 220)) ++ samples_of 3 (ticks_from (t + 440)) ++ samples_of 4 (ticks_from (t + 660)).

(** The two measurements by the log, and the three by the counter. *)
Lemma goes_benchmark_ticks fn bm (df : nat) f F t lg h0 l samples h :
  (∀ f t, goes (fn g) (Point (df + f) t lg h)
     (λ x P', x.2 = (clock t, clock (S t)) ∧ P' = Point f (S (S t)) lg h)) →
  Z.of_nat (length l) = struct_size vcpu_layout → reported h0 l samples h → F = (df * 110 + (111 + f))%nat →
  goes (r ← guest_run_bm g fn; guest_report_bm_results g bm r) (Point F t lg h) (λ _ P', ∃ h',
    P' = Point f (t + 220) lg h' ∧
    reported h0 l (samples ++ samples_of (benchmark_index bm) (ticks_from t)) h').
Proof using Hli.
  intros Hfn Hl Hh HF. eapply goes_mono.
  - eapply (goes_benchmark _ _ (λ i, (clock (t + 2 * i), clock (S (t + 2 * i)))) df 2 0); try done.
    intros i f'. rewrite Nat.mul_0_l, Nat.add_0_r. eapply goes_mono; [apply Hfn|]. by intros x P' [-> ->].
  - intros _ P' (h' & -> & Hh'). exists h'. split; [f_equal; lia|done].
Qed.

Lemma goes_benchmarks f t lg h l :
  Z.of_nat (length l) = struct_size vcpu_layout → holds h rb l →
  goes (guest_run_benchmarks globals g) (Point (775 + f) t lg h) (λ _ P', ∃ h',
    P' = Point f (t + 880) (lg + 220) h' ∧ reported h l (samples_taken t lg) h').
Proof using Hli.
  intros Hl Hh. unfold guest_run_benchmarks, guest_benchmarks. cbn [loop fst snd].
  assert (reported h l [] h) as Hr by done.
  eapply goes_bind with (Q := λ _ P', ∃ h',
    P' = Point f (t + 880) (lg + 220) h' ∧ reported h l (samples_taken t lg) h').
  - eapply goes_bind.
    { eapply (goes_benchmark _ _ (λ i, (clock (t + i), (log (lg + i)).1)) 0 1 1 (664 + f)); [|done|done|lia].
      intros i f'. rewrite !Nat.mul_1_l. eapply goes_mono; [apply goes_priv_escalate|]. by intros x P' [-> ->]. }
    intros _ P' (h1 & -> & Hr1). rewrite !Nat.mul_1_l.
    eapply goes_bind.
    { eapply (goes_benchmark _ _ (λ i, ((log (lg + 110 + i)).1 ⊞[64] (log (lg + 110 + i)).2, clock (t + 110 + i)))
        0 1 1 (553 + f)); [|done|exact Hr1|lia].
      intros i f'. rewrite !Nat.mul_1_l. eapply goes_mono; [apply goes_priv_deescalate|]. by intros x P' [-> ->]. }
    intros _ P' (h2 & -> & Hr2). rewrite !Nat.mul_1_l.
    eapply goes_bind.
    { eapply (goes_benchmark_ticks _ _ 0 (442 + f)); [|done|exact Hr2|lia]. intros f' t'. apply goes_null_syscall. }
    intros _ P' (h3 & -> & Hr3).
    eapply goes_bind.
    { eapply (goes_benchmark_ticks _ _ 1 (221 + f)); [|done|exact Hr3|lia]. intros f' t'. apply goes_call_syscall. }
    intros _ P' (h4 & -> & Hr4).
    eapply goes_bind.
    { eapply (goes_benchmark_ticks _ _ 1 f); [|done|exact Hr4|lia]. intros f' t'. apply goes_reply_syscall. }
    intros _ P' (h5 & -> & Hr5). apply goes_ret. exists h5. split; [f_equal; lia|].
    unfold samples_taken. replace (t + 660)%nat with (t + 110 + 110 + 220 + 220)%nat by lia.
    replace (t + 440)%nat with (t + 110 + 110 + 220)%nat by lia.
    replace (t + 220)%nat with (t + 110 + 110)%nat by lia. by rewrite <-!app_assoc in Hr5.
  - intros _ P' HP. by apply goes_ret.
Qed.

(** ** Where the samples lie *)

(** A benchmark, an iteration and a column of the results. *)
Definition in_results (column b i : Z) : Prop :=
  (column = starts ∨ column = ends ∨ column = elapseds) ∧
  0 <= b < VCPU_BENCHMARK_N_BENCHMARKS ∧ 0 <= i < VCPU_BENCH_N_ITERATIONS.
Definition in_column (column : Z) (s : Z * Z) : Z :=
  if column =? starts then s.1 else if column =? ends then s.2 else s.2 ⊟[64] s.1.

Lemma cell_injective c b i c' b' i' :
  in_results c b i → in_results c' b' i' → cell c b i = cell c' b' i' → c = c' ∧ b = b' ∧ i = i'.
Proof.
  unfold in_results, cell. change (struct_size vcpu_result_layout) with 343.
  unfold elapseds, ends, starts, VCPU_BENCH_N_ITERATIONS, VCPU_BENCH_N_ITERATIONS_IGNORED,
    VCPU_BENCHMARK_N_BENCHMARKS. lia.
Qed.

Lemma cell_in_bounds c b i (l : list Z) :
  in_results c b i → Z.of_nat (length l) = struct_size vcpu_layout → (cell c b i < length l)%nat.
Proof.
  intros (Hc & Hb & Hi) Hl. assert (starts <= c <= elapseds) as Hcol by (by destruct Hc as [->|[->| ->]]).
  pose proof (cell_bound c b i l Hb Hi Hcol Hl). unfold cell. lia.
Qed.

(** A store of a sample changes its three cells. *)
Lemma put_lookup b i s l :
  Z.of_nat (length l) = struct_size vcpu_layout →
  (∀ c, in_results c b i → put b i s l !! cell c b i = Some (in_column c s)) ∧
  ∀ j, (∀ c, in_results c b i → j ≠ cell c b i) → in_results starts b i → put b i s l !! j = l !! j.
Proof.
  intros Hl. split.
  - intros c Hc. assert (∀ c, in_results c b i → (cell c b i < length l)%nat) as Hlt.
    { intros c' Hc'. by apply cell_in_bounds. }
    assert (∀ c', in_results c' b i → c' ≠ c → cell c' b i ≠ cell c b i) as Hne.
    { intros c' Hc' Hn E. by destruct (cell_injective _ _ _ _ _ _ Hc' Hc E). }
    pose proof Hc as (Hcol & Hb & Hi). unfold put. destruct Hcol as [->|[->| ->]].
    + rewrite list_lookup_insert_ne by (apply Hne; [|done]; split; auto).
      rewrite list_lookup_insert_ne by (apply Hne; [|done]; split; auto).
      apply list_lookup_insert_eq. by apply Hlt.
    + rewrite list_lookup_insert_ne by (apply Hne; [|done]; split; auto).
      apply list_lookup_insert_eq. rewrite length_insert. by apply Hlt.
    + apply list_lookup_insert_eq. rewrite !length_insert. by apply Hlt.
  - intros j Hj (_ & Hb & Hi). unfold put.
    rewrite !list_lookup_insert_ne by (apply not_eq_sym, Hj; split; auto). done.
Qed.

(** The samples of one iteration agree, and are of the results. *)
Definition consistent (samples : list (Z * Z * (Z * Z))) : Prop :=
  ∀ b i s, (b, i, s) ∈ samples →
    in_results starts b i ∧ ∀ s', (b, i, s') ∈ samples → s' = s.

Lemma put_all_lookup samples l :
  consistent samples → Z.of_nat (length l) = struct_size vcpu_layout →
  (∀ b i s c, (b, i, s) ∈ samples → in_results c b i →
     put_all samples l !! cell c b i = Some (in_column c s)) ∧
  ∀ j, (∀ b i s c, (b, i, s) ∈ samples → in_results c b i → j ≠ cell c b i) →
    put_all samples l !! j = l !! j.
Proof.
  induction samples as [|[[b i] s] samples IH] using rev_ind; intros Hcon Hl; [split; [by intros ? ? ? ? ?%elem_of_nil|done]|].
  assert (consistent samples) as Hcon'.
  { intros b' i' s' Hx. destruct (Hcon b' i' s') as [? Hs]; [apply elem_of_app; by left|].
    split; [done|]. intros s2 Hx2. apply Hs, elem_of_app. by left. }
  destruct (IH Hcon' Hl) as [IH1 IH2].
  assert (put_all (samples ++ [(b, i, s)]) l = put b i s (put_all samples l)) as ->.
  { unfold put_all. by rewrite foldl_app. }
  assert ((b, i, s) ∈ samples ++ [(b, i, s)]) as Hin by (apply elem_of_app; right; by left).
  destruct (Hcon b i s Hin) as [Hb Hs].
  destruct (put_lookup b i s (put_all samples l)) as [P1 P2]; [by rewrite put_all_length|].
  split.
  - intros b' i' s' c Hx Hc. destruct (decide ((b', i') = (b, i))) as [[= -> ->]|Hne].
    + rewrite P1 by done. by rewrite (Hs s' Hx).
    + rewrite P2; [|intros c' Hc' E; by destruct (cell_injective _ _ _ _ _ _ Hc Hc' E) as (_ & -> & ->)|done].
      apply IH1; [|done]. apply elem_of_app in Hx as [?|[= -> -> ->]%list_elem_of_singleton]; done.
  - intros j Hj. rewrite P2; [|intros c Hc; by apply (Hj _ _ s)|done].
    apply IH2. intros b' i' s' c Hx. apply (Hj _ _ s'). apply elem_of_app. by left.
Qed.

(** Sample [k] of benchmark [b]. *)
Definition sample_at (t lg : nat) (b : Z) (k : nat) : Z * Z :=
  if b =? 0 then (clock (t + k), (log (lg + k)).1)
  else if b =? 1 then ((log (lg + 110 + k)).1 ⊞[64] (log (lg + 110 + k)).2, clock (t + 110 + k))
  else let t := (t + 220 * (Z.to_nat b - 1) + 2 * k)%nat in (clock t, clock (S t)).

Lemma elem_of_samples_of b (σ : nat → Z * Z) x :
  x ∈ samples_of b (σ <$> seq 0 110) ↔ ∃ k, (k < 110)%nat ∧ x = (b, Z.of_nat k, σ k).
Proof.
  unfold samples_of. rewrite elem_of_lookup_imap. setoid_rewrite list_lookup_fmap_Some.
  setoid_rewrite lookup_seq. split.
  - intros (k & s & -> & j & -> & -> & Hk). by exists k.
  - intros (k & Hk & ->). exists k, (σ k). split; [done|]. by exists k.
Qed.

Lemma elem_of_samples_taken t lg b i s :
  (b, i, s) ∈ samples_taken t lg ↔ in_results starts b i ∧ s = sample_at t lg b (Z.to_nat i).
Proof.
  unfold samples_taken, ticks_from, in_results, sample_at.
  change VCPU_BENCH_N_ITERATIONS with 110. change VCPU_BENCHMARK_N_BENCHMARKS with 5.
  rewrite !elem_of_app, !elem_of_samples_of. split.
  - intros [(k & Hk & [= -> -> ->])|[(k & Hk & [= -> -> ->])|[(k & Hk & [= -> -> ->])|
      [(k & Hk & [= -> -> ->])|(k & Hk & [= -> -> ->])]]]]; rewrite Nat2Z.id;
      (split; [split_and!; [by left|lia..]|done]).
  - intros [(_ & Hb & Hi) ->].
    assert (∀ b' (σ : nat → Z * Z) (x : Z * Z * (Z * Z)), x = (b', i, σ (Z.to_nat i)) →
              ∃ k, (k < 110)%nat ∧ x = (b', Z.of_nat k, σ k)) as Hk.
    { intros b' σ x ->. exists (Z.to_nat i). rewrite Z2Nat.id by lia. split; [lia|done]. }
    assert (b = 0 ∨ b = 1 ∨ b = 2 ∨ b = 3 ∨ b = 4) as [->|[->|[->|[->| ->]]]] by lia;
      [left|do 1 right; left|do 2 right; left|do 3 right; left|do 4 right]; by apply Hk.
Qed.

Lemma samples_taken_stored t lg l :
  Z.of_nat (length l) = struct_size vcpu_layout →
  (∀ c b i, in_results c b i →
     put_all (samples_taken t lg) l !! cell c b i = Some (in_column c (sample_at t lg b (Z.to_nat i)))) ∧
  ∀ j, (∀ c b i, in_results c b i → j ≠ cell c b i) → put_all (samples_taken t lg) l !! j = l !! j.
Proof.
  intros Hl. destruct (put_all_lookup (samples_taken t lg) l) as [P1 P2]; [|done|].
  - intros b i s [Hin ->]%elem_of_samples_taken. split; [done|].
    by intros s' [_ ->]%elem_of_samples_taken.
  - split.
    + intros c b i Hc. apply P1; [|done]. apply elem_of_samples_taken. split; [|done].
      destruct Hc as (_ & ? & ?). split; auto.
    + intros j Hj. apply P2. intros b i s c _. apply Hj.
Qed.
(** ** The end of the guest *)

(** From [P] the program ends with the monitor done, in a world that satisfies
    [R]. *)
Definition ends_with {A} (p : prog gop A) (P : point) (R : world → Prop) : Prop :=
  ∀ w, sees w P → ∃ w',
    run_guest p (Waiting (after_recv (p_fuel P))) w = Ok (None, Done true, w') ∧ R w'.

Lemma ends_after {A B} (p : prog gop A) (f : A → prog gop B) P Q R :
  goes p P Q → (∀ x P', Q x P' → ends_with (f x) P' R) → ends_with (p ≫= f) P R.
Proof.
  intros Hp Hf w Hw. destruct (Hp w Hw) as (x & P' & w' & HQ & Hw' & E).
  destruct (Hf x P' HQ w' Hw') as (w2 & E' & HR). exists w2. by rewrite E.
Qed.

Lemma guest_exits {A} x status misc f t lg h le (R : world → Prop) :
  holds h eb le → 1 < Z.of_nat (length le) →
  (∀ w h', sees w (Point f t lg h') → holds h' eb (<[1%nat := swrap 32 (wrap 32 status)]> le) →
     (∀ b' l', b' ≠ eb → holds h b' l' → holds h' b' l') → R w) →
  ends_with (vmm_call_exit_thread (A := A) g x status misc) (Point f t lg h) R.
Proof using Hli.
  intros Hh Hle HR. unfold vmm_call_exit_thread.
  eapply ends_after with (Q := λ _ P', P' = Point f t lg h); [|intros _ P' ->].
  { assert (stays (cleanGuestContextToDCache g false)) as Hst by stay. apply Hst. }
  intros w Hw. set (args := [if x then 1 else 0; wrap 32 status; misc]).
  destruct (set_arguments args 3 0 w (Waiting (after_recv f))) as (m & Hm & _ & E); [done..|].
  set (wm := with_guest_mrs m w).
  set (mrs := sent_mrs (mr m 0) (mr m 1) (mr m 2) (mr m 3) wm).
  destruct (exit_ends (if x then 1 else 0) (wrap 32 status) misc f t lg h le
              (with_reply None (with_vmm_mrs mrs wm))) as (w' & h' & E' & Hw' & Hh' & Hf); [done|done|done| |].
  { intros i a Ha. cbn. etrans; [apply (sent_mrs_same i wm)|]. apply Hm; [|done].
    unfold aget in Ha. by destruct (Z.leb_spec 0 i). }
  exists w'. split; [|by eapply HR].
  unfold vmm_call. cbn [sends_arguments returns_stamp].
  etrans; [apply run_guest_assoc|]. etrans; [apply run_guest_assoc|]. etrans; [apply E|].
  unfold seL4_HypCall. cbn [mbind prog_mbind prog_bind perform arm_hyp_sys_send_recv run_guest
    THREAD_MEMORY_RELEASE p_fuel].
  rewrite decide_True by done. cbn [label]. rewrite (li_id Hli).
  change (mr (guest_mrs (with_guest_mrs m w))) with (mr m). fold wm mrs. by rewrite E'.
Qed.

Lemma goes_printf fmt args f t lg h :
  goes (vmm_printf g fmt args) (Point (S f) t lg h)
    (λ _ P', ∃ f', (f <= f')%nat ∧ P' = Point f' t lg h).
Proof using Hli.
  unfold vmm_printf. eapply goes_bind with (Q := λ _ P', P' = Point (S f) t lg h); [by apply goes_vsnprintf|].
  intros n P' ->. destruct (n <? 0).
  - apply goes_ret. exists (S f). split; [lia|done].
  - eapply goes_bind with (Q := λ _ P', P' = Point f t lg h).
    + eapply (goes_vmm_call_sends _ [_]); [done..| |done]. apply puts_answered.
    + intros _ P' ->. apply goes_ret. by exists f.
Qed.

(** The guest at EL1, from a monitor that waits for it. *)
Lemma guest_main_ends f t lg h le l :
  is_el1 (Z.land (Z.shiftr (registers "currentEL") 2) 0x3) = true →
  VcpuGuest.magic g = VCPU_BENCH_SHDATA_MAGIC →
  holds h eb le → 1 < Z.of_nat (length le) → holds h rb l → Z.of_nat (length l) = struct_size vcpu_layout →
  ends_with (guest_main guests_1 globals vector_table text g) (Point (776 + f) t lg h) (λ w,
    ticks w = (t + 880)%nat ∧ logs w = (lg + 220)%nat ∧
    holds (memory w) eb (<[1%nat := 0]> le) ∧ holds (memory w) rb (put_all (samples_taken t lg) l) ∧
    ∀ b' l', b' ≠ eb → b' ≠ rb → holds h b' l' → holds (memory w) b' l').
Proof using Hli.
  intros Hel Hmagic Hh Hle Hhr Hl. unfold guest_main.
  assert (∀ A (p : prog gop A) P R (f : A → prog gop Z), stays p → (∀ x, ends_with (f x) P R) →
            ends_with (p ≫= f) P R) as skip.
  { intros A p P R f0 Hp Hf0. eapply ends_after; [apply Hp|]. by intros x P' ->. }
  do 3 (apply skip; [stay|intros _]).
  eapply ends_after with (Q := λ x P', x = Z.land (Z.shiftr (registers "currentEL") 2) 0x3 ∧
                                       P' = Point (776 + f) t lg h).
  { unfold get_currentel. eapply goes_bind with (Q := λ x P', x = registers "currentEL" ∧ P' = Point (776 + f) t lg h).
    - by apply goes_mrs.
    - intros ? P' [-> ->]. by apply goes_ret. }
  intros x P' [-> ->]. eapply ends_after; [apply (goes_printf _ _ (775 + f))|].
  intros _ P' (f' & Hf' & ->). rewrite Hmagic, Z.eqb_refl, Hel. cbn [negb].
  replace f' with (775 + (f' - 775))%nat by lia.
  do 2 (apply skip; [apply stays_identify|intros _]).
  apply skip; [|intros _].
  { apply stays_if; [|apply stays_ret]. do 2 (apply stays_bind; [apply stays_identify|intros ?]).
    apply stays_bind; [apply stays_dbg_printf|intros ?; apply stays_ret]. }
  eapply ends_after; [by apply (goes_benchmarks _ _ _ h l)|].
  intros _ P' (h1 & -> & Hr1 & Hf1). apply (guest_exits _ _ _ _ _ _ _ le); [apply Hf1; [apply Hli|done]|done|].
  intros w h2 (Ht & Hlg & <-) He Hf2. split_and!; [done|done|exact He|apply Hf2; [by apply not_eq_sym, Hli|done]|].
  intros b' l' Hb Hb' Hb2. by apply Hf2, Hf1.
Qed.

(** ** The two together *)

(** The monitor is ready, then the guest runs; [fuel] bounds the messages. *)
Definition run_linked (fuel : nat) (w : world) : outcome (option Z * monitor bool * world) :=
  '(v, w) ← run_monitor (loop_ fuel 0) w;
  run_guest (guest_main guests_1 globals vector_table text g) v w.

(** C36. With any counter, any kernel log and any content of the message
    registers, a guest that starts at EL1 and the monitor that answers it end
    together, after at most 777 messages: no assertion fails, no access is out
    of bounds and no call stays unanswered.  Every cell of the three columns of
    every benchmark then holds the start, the end or their difference modulo
    2^64 of the sample that the guest took there: the five benchmarks take
    their readings and log entries one after the other.  The exit status is
    zero, and nothing else of the monitor's memory has changed. *)
Theorem vcpu_measured f w h le l :
  memory w = h →
  is_el1 (Z.land (Z.shiftr (registers "currentEL") 2) 0x3) = true →
  VcpuGuest.magic g = VCPU_BENCH_SHDATA_MAGIC →
  holds h eb le → 1 < Z.of_nat (length le) → holds h rb l → Z.of_nat (length l) = struct_size vcpu_layout →
  ∃ w' l', run_linked (777 + f) w = Ok (None, Done true, w') ∧
    ticks w' = (ticks w + 880)%nat ∧ logs w' = (logs w + 220)%nat ∧
    holds (memory w') eb (<[1%nat := 0]> le) ∧ holds (memory w') rb l' ∧
    (∀ c b i, in_results c b i →
       l' !! cell c b i = Some (in_column c (sample_at (ticks w) (logs w) b (Z.to_nat i)))) ∧
    (∀ j, (∀ c b i, in_results c b i → j ≠ cell c b i) → l' !! j = l !! j) ∧
    ∀ b' x, b' ≠ eb → b' ≠ rb → holds h b' x → holds (memory w') b' x.
Proof using Hli.
  intros <- Hel Hm He Hle Hr Hl.
  destruct (guest_main_ends f (ticks w) (logs w) (memory w) le l Hel Hm He Hle Hr Hl w)
    as (w' & E & Ht & Hlg & He' & Hr' & Hf); [done|].
  destruct (samples_taken_stored (ticks w) (logs w) l Hl) as [Hin Hout].
  exists w', (put_all (samples_taken (ticks w) (logs w)) l). by split_and!.
Qed.
End machine.

(** A board whose counter goes up by ten and whose log times each entry. *)
Definition example_vmm : VmmConfig := Build_VmmConfig 5 0 1 4 3 1 36 (λ x, x).
Definition example_guest : guest_t := Guest 4096 VCPU_BENCH_SHDATA_MAGIC 1 20 21.
Definition example_vm : vm := Vm 4096 VCPU_BENCH_SHDATA_MAGIC 1 30 31 32 33 20 21.

Lemma vcpu_measured_witness :
  let P := aarch64 in let C := example_vcpu in let V := example_vmm in
  let clock n := 10 * Z.of_nat n in
  let log n := (10 * Z.of_nat n + 3, 4) in
  let h := Heap {[1%positive := replicate 1716 0; 2%positive := [0; 0]]} 0 in
  ∃ w' l',
    run_linked clock log (λ _, 4) (λ _, 12) (λ _ _, 0) example_guest (SharedGlobals 0 22 4096) example_guest 0 []
      [example_vm; example_vm] 2 1 40 41 777 (World 0 0 h ∅ ∅ None) = Ok (None, Done _ true, w') ∧
    ticks w' = 880%nat ∧ logs w' = 220%nat ∧ holds (memory w') 2 [0; 0] ∧ holds (memory w') 1 l' ∧
    (∀ c b i, in_results c b i →
       l' !! cell c b i = Some (in_column c (sample_at clock log 0 0 b (Z.to_nat i)))) ∧
    (∀ j, (∀ c b i, in_results c b i → j ≠ cell c b i) → l' !! j = replicate 1716 0 !! j) ∧
    ∀ b' x, b' ≠ 2%positive → b' ≠ 1%positive → holds h b' x → holds (memory w') b' x.
Proof.
  intros P C V clock log h.
  apply (vcpu_measured clock log (λ _, 4) (λ _, 12) (λ _ _, 0) example_guest (SharedGlobals 0 22 4096)
           example_guest 0 [] [example_vm; example_vm] example_vm 2 1 40 41
           ltac:(by split) 0 (World 0 0 h ∅ ∅ None) h [0; 0] (replicate 1716 0)); by vm_compute.
Defined.
