(* ===== verification/Registry.v ===== *)
(** * Registry: the table of benchmarks of sel4bench

    [apps/sel4bench/src/benchmark.h] and the [benchmark_t] of every benchmark:
    its name, whether it is built, the pages of its results, the function that
    processes them and the function that prepares a run.  A processing function
    gets the address of the results that the application wrote, and reads it as
    the structure that the application wrote it by: here the layouts of the
    applications meet the structures of Reports, and the table meets the driver. *)

From S2P Require Import Prelude Platform Memory Processing Json AppParams IpcParams Reports Typing Support Driver Measuring.
From S2P Require SchedulerApp HardwareApp SignalApp FaultApp SyncApp IpcApp PageMappingApp IrquserApp SmpApp VcpuVmm.

(** ** The build configuration *)
Class Applications := {
  CONFIG_APP_IPCBENCH : bool; CONFIG_APP_IRQUSERBENCH : bool; CONFIG_APP_SCHEDULERBENCH : bool;
  CONFIG_APP_SIGNALBENCH : bool; CONFIG_APP_FAULTBENCH : bool; CONFIG_APP_HARDWAREBENCH : bool;
  CONFIG_APP_SYNCBENCH : bool; CONFIG_APP_PAGEMAPPINGBENCH : bool; CONFIG_APP_SMPBENCH : bool;
  CONFIG_APP_VCPU_BENCH : bool;
}.

(** ** The structures behind [void *results] *)
Section casts.
Context `{Platform}.

(** [results->name], a scalar; a row of scalars. *)
Definition scalar (l : layout) (results : ptr) (name : string) : M heap Z := hload (field l results name) 0.
Definition row (l : layout) (results : ptr) (name : string) (n : Z) : M heap (list Z) :=
  hview (field l results name) n.

Definition hardware_results (p : ptr) : M heap Hardware.hardware_results_t :=
  let at_ := field HardwareApp.hardware_layout p in
  let get := scalar HardwareApp.hardware_layout p in
  overhead_min ← get "overhead_min";
  sum ← get "nullSyscall_ep_sum"; sum2 ← get "nullSyscall_ep_sum2"; num ← get "nullSyscall_ep_num";
  mret (Hardware.HardwareResults (at_ "nullSyscall_results") (at_ "nullSyscall_overhead") overhead_min sum sum2 num).

(** The four sums of an early-processing loop of the fault benchmark. *)
Definition fault_sums (p : ptr) (sum sum2 num min_overhead : string) : M heap Fault.ep_sums :=
  let get := scalar FaultApp.fault_layout p in
  s ← get sum; s2 ← get sum2; n ← get num; m ← get min_overhead;
  mret (Fault.EpSums s s2 n m).
Definition fault_results (p : ptr) : M heap Fault.fault_results_t :=
  let at_ := field FaultApp.fault_layout p in
  round_trip_ep ← fault_sums p "round_trip_ep_sum" "round_trip_ep_sum2" "round_trip_ep_num" "round_trip_ep_min_overhead";
  fault_ep ← fault_sums p "fault_ep_sum" "fault_ep_sum2" "fault_ep_num" "fault_ep_min_overhead";
  fault_reply_ep ← fault_sums p "fault_reply_ep_sum" "fault_reply_ep_sum2" "fault_reply_ep_num" "fault_reply_ep_min_overhead";
  mret (Fault.FaultResults (at_ "reply_recv_overhead") (at_ "ccnt_overhead") (at_ "round_trip") (at_ "fault")
          (at_ "fault_reply") round_trip_ep fault_ep fault_reply_ep).

Definition irquser_results (p : ptr) : M heap Irq.irquser_results_t :=
  let at_ := field IrquserApp.irquser_layout p in
  let get := scalar IrquserApp.irquser_layout p in
  overhead_min ← get "overhead_min";
  tsum ← get "thread_results_ep_sum"; tsum2 ← get "thread_results_ep_sum2"; tnum ← get "thread_results_ep_num";
  psum ← get "process_results_ep_sum"; psum2 ← get "process_results_ep_sum2"; pnum ← get "process_results_ep_num";
  mret (Irq.IrquserResults (at_ "overheads") (at_ "thread_results") (at_ "process_results") overhead_min
          tsum tsum2 tnum psum psum2 pnum).

Definition signal_results (p : ptr) : M heap Signal.signal_results_t :=
  let at_ := field SignalApp.signal_layout p in
  let get := scalar SignalApp.signal_layout p in
  sum ← get "lo_sum"; sum2 ← get "lo_sum2"; num ← get "lo_num";
  mret (Signal.SignalResults (at_ "lo_prio_results") (at_ "hi_prio_results") (at_ "hi_prio_average") (at_ "overhead")
          sum sum2 num).

(** The early-processing overhead of the scheduler benchmark is one field. *)
Definition yield_sums (p : ptr) (sum sum2 num : string) : M heap Fault.ep_sums :=
  let get := scalar SchedulerApp.scheduler_layout p in
  s ← get sum; s2 ← get sum2; n ← get num; m ← get "overhead_ccnt_min";
  mret (Fault.EpSums s s2 n m).
Definition scheduler_results (p : ptr) : M heap Scheduler.scheduler_results_t :=
  let at_ := field SchedulerApp.scheduler_layout p in
  let rows name := row SchedulerApp.scheduler_layout p name Scheduler.N_PRIOS in
  thread_yield_ep ← yield_sums p "thread_yield_ep_sum" "thread_yield_ep_sum2" "thread_yield_ep_num";
  process_yield_ep ← yield_sums p "process_yield_ep_sum" "process_yield_ep_sum2" "process_yield_ep_num";
  tsum ← rows "thread_results_ep_sum"; tsum2 ← rows "thread_results_ep_sum2"; tnum ← rows "thread_results_ep_num";
  psum ← rows "process_results_ep_sum"; psum2 ← rows "process_results_ep_sum2"; pnum ← rows "process_results_ep_num";
  mret (Scheduler.SchedulerResults (at_ "thread_results") (at_ "process_results") (at_ "overhead_signal")
          (at_ "set_prio_average") (at_ "thread_yield") (at_ "process_yield") (at_ "overhead_ccnt") (at_ "average_yield")
          thread_yield_ep process_yield_ep tsum tsum2 tnum psum psum2 pnum).

Definition sync_results (p : ptr) : M heap Sync.sync_results_t :=
  let at_ := field SyncApp.sync_layout p in
  let get := scalar SyncApp.sync_layout p in
  psum ← get "producer_to_consumer_ep_sum"; psum2 ← get "producer_to_consumer_ep_sum2";
  pnum ← get "producer_to_consumer_ep_num";
  csum ← get "consumer_to_producer_ep_sum"; csum2 ← get "consumer_to_producer_ep_sum2";
  cnum ← get "consumer_to_producer_ep_num";
  mret (Sync.SyncResults (at_ "broadcast_wait_time") (at_ "broadcast_broadcast_time") (at_ "producer_to_consumer")
          (at_ "consumer_to_producer") psum psum2 pnum csum csum2 cnum).

Definition page_mapping_results (p : ptr) : M heap PageMappingParams.page_mapping_results_t :=
  let at_ := field PageMappingApp.page_mapping_layout p in
  mret (PageMappingParams.PageMappingResults (at_ "overhead_benchmarks") (at_ "benchmarks_result")).

Definition smp_results (p : ptr) : M heap ptr := mret (field SmpApp.smp_layout p "benchmarks_result").

Definition ipc_results (p : ptr) : M heap Ipc.ipc_results_t :=
  let at_ := field IpcApp.ipc_layout p in
  mret (Ipc.IpcResults (at_ "overhead_benchmarks") (at_ "benchmarks")).

Definition vcpu_results (p : ptr) : M heap Vcpu.vcpu_benchmark_overall_results_t :=
  overhead ← scalar VcpuVmm.vcpu_layout p "ccnt_read_overhead";
  mret (Vcpu.VcpuResults overhead
    ((λ i, field VcpuVmm.vcpu_result_layout (VcpuVmm.result_row p i) "elapsed") <$>
     seqZ 0 VcpuParams.VCPU_BENCHMARK_N_BENCHMARKS)).
End casts.

(** ** [benchmark_t] *)

(** The static variable of smp.c is the first argument of a [process] and what
    an [init] returns: [init] gets the number of cores and the old value. *)
Record benchmark `{Jansson} := Bench {
  bm_name : string;
  bm_enabled : bool;
  bm_results_pages : Z;
  bm_process : option (Z → ptr → M world (option positive));
  bm_init : Z → Z → Z;
}.
Arguments Bench {_}.

Section registry.
Context `{Platform} `{Jansson} `{Applications} (BYTES_TO_SIZE_BITS_PAGES : Z → Z → Z).

Definition blank_init (cores static : Z) : Z := static.
Definition process_smp_results_init (cores static : Z) : Z := cores.

(** A [process] that does not look at the static variable. *)
Definition reading {R} (cast : ptr → M heap R) (process : R → M world (option positive)) (static : Z) (results : ptr)
  : M world (option positive) :=
  raw ← in_heap (cast results); process raw.

Definition pages_of (l : layout) : Z := BYTES_TO_SIZE_BITS_PAGES (sizeof l) seL4_PageBits.

Definition ipc_benchmark : benchmark :=
  Bench "ipc" CONFIG_APP_IPCBENCH (pages_of IpcApp.ipc_layout)
    (Some (reading ipc_results Ipc.process_ipc_results)) blank_init.
Definition irquser_benchmark : benchmark :=
  Bench "irquser" CONFIG_APP_IRQUSERBENCH (pages_of IrquserApp.irquser_layout)
    (Some (reading irquser_results Irq.irquser_process)) blank_init.
Definition sched_benchmark : benchmark :=
  Bench "scheduler" CONFIG_APP_SCHEDULERBENCH (pages_of SchedulerApp.scheduler_layout)
    (Some (reading scheduler_results Scheduler.scheduler_process)) blank_init.
Definition signal_benchmark : benchmark :=
  Bench "signal" CONFIG_APP_SIGNALBENCH (pages_of SignalApp.signal_layout)
    (Some (reading signal_results Signal.signal_process)) blank_init.
Definition fault_benchmark : benchmark :=
  Bench "fault" CONFIG_APP_FAULTBENCH (pages_of FaultApp.fault_layout)
    (Some (reading fault_results Fault.fault_process)) blank_init.
Definition hardware_benchmark : benchmark :=
  Bench "hardware" CONFIG_APP_HARDWAREBENCH (pages_of HardwareApp.hardware_layout)
    (Some (reading hardware_results Hardware.hardware_process)) blank_init.
Definition sync_benchmark : benchmark :=
  Bench "sync" CONFIG_APP_SYNCBENCH (pages_of SyncApp.sync_layout)
    (Some (reading sync_results Sync.sync_process)) blank_init.
Definition page_mapping_benchmark : benchmark :=
  Bench "page_mapping" CONFIG_APP_PAGEMAPPINGBENCH (pages_of PageMappingApp.page_mapping_layout)
    (Some (reading page_mapping_results PageMapping.process_mapping_results)) blank_init.
Definition smp_benchmark : benchmark :=
  Bench "smp" CONFIG_APP_SMPBENCH (pages_of SmpApp.smp_layout)
    (Some (λ cores_collective_results, reading smp_results (Smp.process_smp_results cores_collective_results)
             cores_collective_results))
    process_smp_results_init.

(** plat/tx2/vcpu.c when the benchmark is built, vcpu.c when it is not. *)
Definition vcpu_benchmark_tx2 : benchmark :=
  Bench "vcpu" CONFIG_APP_VCPU_BENCH (pages_of VcpuVmm.vcpu_layout)
    (Some (reading vcpu_results Vcpu.process_vcpu_results)) blank_init.
Definition vcpu_benchmark_none : benchmark := Bench "vcpu" CONFIG_APP_VCPU_BENCH 0 None blank_init.
Definition vcpu_benchmark_new : benchmark :=
  if CONFIG_APP_VCPU_BENCH then vcpu_benchmark_tx2 else vcpu_benchmark_none.

(** The array of [main_continued]. *)
Definition benchmarks : list benchmark :=
  [ipc_benchmark; irquser_benchmark; sched_benchmark; signal_benchmark; fault_benchmark; hardware_benchmark;
   sync_benchmark; page_mapping_benchmark; smp_benchmark; vcpu_benchmark_new].

(** The driver knows a benchmark by its place in the array. *)
Definition entry (i : nat) (b : benchmark) : Driver.benchmark_t :=
  Driver.Benchmark (Z.of_nat i) (bm_enabled b) (bm_results_pages b).
Definition table : list Driver.benchmark_t := imap entry benchmarks.

(** [benchmark->process(results)] after the [benchmark->init] of the run; a
    call through a null pointer is undefined. *)
Definition process_run (b : benchmark) (cores static : Z) (results : ptr) : M world (option positive) :=
  match bm_process b with
  | Some process => process (bm_init b cores static) results
  | None => lift Undef
  end.

(** ** Structures and pages *)

(** Every cell of every field lies in the pages. *)
Definition fits (l : layout) (pages : Z) : Prop :=
  ∀ f n o i, (f, n) ∈ l → field_offset l f = Some o → 0 <= i < n →
    0 <= o ∧ (ccnt_bits / 8) * (o + i + 1) <= pages * page_bytes.

Definition wf_layout (l : layout) : Prop := NoDup l.*1 ∧ Forall (λ x, 0 <= x.2) l.

Lemma struct_size_nonneg l : Forall (λ x, 0 <= x.2) l → 0 <= struct_size l.
Proof.
  unfold struct_size. induction 1 as [|[f n] l Hn _ IH]; cbn in *; lia.
Qed.

Lemma field_extent l f n o :
  wf_layout l → (f, n) ∈ l → field_offset l f = Some o → 0 <= o ∧ o + n <= struct_size l.
Proof.
  intros [Hnd Hpos]. revert o. induction Hpos as [|[g k] l Hk Hpos IH]; intros o Hin Ho; [by apply elem_of_nil in Hin|].
  apply list.NoDup_cons in Hnd as [Hg Hnd]. cbn [field_offset] in Ho. cbn in Hk, Hg.
  pose proof (struct_size_nonneg l Hpos) as Hl. unfold struct_size in *. cbn.
  apply elem_of_cons in Hin as [[= <- <-]|Hin].
  - rewrite decide_True in Ho by done. simplify_eq. lia.
  - rewrite decide_False in Ho.
    + destruct (field_offset l f) as [o'|]; [|done]. cbn in Ho. simplify_eq. destruct (IH Hnd o' Hin eq_refl). lia.
    + intros <-. apply Hg. apply list_elem_of_fmap. by eexists (_, n).
Qed.

Lemma layout_fits l pages : wf_layout l → sizeof l <= pages * page_bytes → fits l pages.
Proof.
  intros Hl Hs f n o i Hin Ho Hi. destruct (field_extent l f n o Hl Hin Ho) as [Ho' Hn]. split; [done|].
  etrans; [|exact Hs]. unfold sizeof. apply Z.mul_le_mono_nonneg_l; [|lia].
  apply Z.div_pos; [apply ccnt_bits_nonneg|lia].
Qed.

(** The structure that each application writes. *)
Definition structures : list (string * layout) :=
  [("ipc", IpcApp.ipc_layout); ("irquser", IrquserApp.irquser_layout); ("scheduler", SchedulerApp.scheduler_layout);
   ("signal", SignalApp.signal_layout); ("fault", FaultApp.fault_layout); ("hardware", HardwareApp.hardware_layout);
   ("sync", SyncApp.sync_layout); ("page_mapping", PageMappingApp.page_mapping_layout); ("smp", SmpApp.smp_layout);
   ("vcpu", VcpuVmm.vcpu_layout)]%string.

Lemma structures_wf : 0 <= seL4_MaxPrio → 0 <= CONFIG_MAX_NUM_NODES → Forall (wf_layout ∘ snd) structures.
Proof.
  intros Hprio Hnodes.
  assert (0 <= Scheduler.N_PRIOS) by (apply Z.div_pos; pose proof word_bits_pos; lia).
  assert (0 <= NUM_AVERAGE_EVENTS) by (unfold NUM_AVERAGE_EVENTS, SEL4BENCH_NUM_GENERIC_EVENTS; lia).
  repeat constructor; cbn; try (by apply (bool_decide_unpack _)); try lia.
  all: cbv -[Z.le Z.mul Z.add NUM_AVERAGE_EVENTS CONFIG_MAX_NUM_NODES Scheduler.N_PRIOS]; lia.
Qed.

(** ** The casts only read *)
Definition reads {A} (m : M heap A) : Prop := ∀ h a h', m h = Ok (a, h') → h' = h.

Lemma reads_ret {A} (a : A) : reads (mret a).
Proof. by intros h a' h' [= _ <-]. Qed.
Lemma reads_bind {A B} (m : M heap A) (f : A → M heap B) : reads m → (∀ a, reads (f a)) → reads (m ≫= f).
Proof.
  intros Hm Hf h b h'. unfold mbind, M_bind. destruct (m h) as [[a h1]| |] eqn:E; [|done..].
  intros E'. apply Hm in E as ->. by eapply Hf.
Qed.
Lemma reads_hload p i : reads (hload p i).
Proof. intros h a h'. unfold hload, lift. destruct (Memory.load p i h); by intros [= _ <-]. Qed.
Lemma reads_hview p n : reads (hview p n).
Proof. intros h a h'. unfold hview, lift. destruct (Memory.view p n h); by intros [= _ <-]. Qed.

Lemma keeps_reading {R} (cast : ptr → M heap R) process static p (w : world) :
  (∀ p, reads (cast p)) → (∀ raw, processor (process raw)) → keeps (reading cast process static p) (λ _ _, True) w.
Proof.
  intros Hc Hp. unfold reading. eapply (keeps_bind _ _ (λ _ _, True)); [|intros raw ? _ _ _; by apply processor_keeps].
  intros Hw a w' E. unfold in_heap in E. destruct (cast p (w_heap w)) as [[raw h]| |] eqn:Er; [|done..].
  apply Hc in Er as ->. simplify_eq. destruct w; by split_and!.
Qed.

(** ** The processing functions *)

Ltac reads :=
  repeat lazymatch goal with
  | |- ∀ _, _ => intros ?
  | |- reads (let _ := _ in _) => cbv zeta
  | |- reads (_ ≫= _) => apply reads_bind
  | |- reads (hload _ _) => apply reads_hload
  | |- reads (hview _ _) => apply reads_hview
  | |- reads (mret _) => apply reads_ret
  end.

Ltac processors :=
  lazymatch goal with
  | |- processor (Hardware.hardware_process _) => apply p_hardware
  | |- processor (Fault.fault_process _) => apply p_fault
  | |- processor (Irq.irquser_process _) => apply p_irquser
  | |- processor (Signal.signal_process _) => apply p_signal
  | |- processor (Scheduler.scheduler_process _) => apply p_scheduler
  | |- processor (Sync.sync_process _) => apply p_sync
  | |- processor (Smp.process_smp_results _ _) => apply p_smp
  | |- processor (PageMapping.process_mapping_results _) => apply p_mapping
  | |- processor (Ipc.process_ipc_results _) => apply p_ipc
  | |- processor (Vcpu.process_vcpu_results _) => apply p_vcpu
  end.

Definition typed_process (b : benchmark) : Prop :=
  ∀ process static p w, bm_process b = Some process → keeps (process static p) (λ _ _, True) (w : world).

Lemma benchmarks_typed : Forall typed_process benchmarks.
Proof.
  unfold benchmarks, vcpu_benchmark_new. destruct CONFIG_APP_VCPU_BENCH.
  all: repeat apply Forall_cons_2; try apply Forall_nil_2; intros process static p w Hp; simplify_eq Hp; try done; intros <-.
  all: apply keeps_reading; [intros ?|intros raw; processors].
  all: unfold ipc_results, irquser_results, scheduler_results, yield_sums, row, signal_results, fault_results, fault_sums,
    hardware_results, sync_results, page_mapping_results, smp_results, vcpu_results, scalar; reads.
Qed.

(** A benchmark that is built has a function and the pages of its structure. *)
Definition complete (b : benchmark) : Prop :=
  bm_enabled b = true →
  is_Some (bm_process b) ∧ ∃ l, (bm_name b, l) ∈ structures ∧ bm_results_pages b = pages_of l.

Lemma benchmarks_complete : Forall complete benchmarks.
Proof.
  unfold benchmarks, vcpu_benchmark_new. destruct CONFIG_APP_VCPU_BENCH eqn:Hv.
  all: repeat apply Forall_cons_2; try apply Forall_nil_2; intros Hb; try (cbn in Hb; congruence).
  all: split; [by eexists|]; eexists; split; [|reflexivity]; cbn [bm_name ipc_benchmark irquser_benchmark sched_benchmark
    signal_benchmark fault_benchmark hardware_benchmark sync_benchmark page_mapping_benchmark smp_benchmark
    vcpu_benchmark_tx2]; unfold structures; repeat (apply elem_of_cons; first [by left|right]).
Qed.

(** What the driver runs. *)
Lemma scheduled d k : (d, k) ∈ schedule table → ∃ i b, benchmarks !! i = Some b ∧ d = entry i b ∧ bm_enabled b = true.
Proof.
  intros Hd. unfold schedule in Hd. apply list_elem_of_bind in Hd as (d' & Hk & Hd).
  apply list_elem_of_filter in Hd as [He Hd].
  apply list_elem_of_fmap in Hk as (k' & [= -> ->] & _).
  apply list_elem_of_lookup in Hd as [i Hi]. unfold table in Hi. rewrite list_lookup_imap in Hi.
  destruct (benchmarks !! i) as [b|] eqn:Hb; [|done]. cbn in Hi. simplify_eq. by exists i, b.
Qed.

(** C40. Every run that the driver schedules is of a benchmark of the table that
    is built, and such a benchmark has a processing function, never the null
    pointer of the one that is not built; the pages that the driver maps for it
    hold every cell of the structure that its application writes; and what
    processing its results leaves, whenever it returns, is well typed, with no
    array moved or resized. *)
Theorem scheduled_complete (d : Driver.benchmark_t) (k : Z) :
  (∀ bytes bits, 0 <= bytes → 0 <= bits → bytes <= BYTES_TO_SIZE_BITS_PAGES bytes bits * 2 ^ bits) →
  0 <= seL4_MaxPrio → 0 <= CONFIG_MAX_NUM_NODES →
  (d, k) ∈ schedule table →
  ∃ i b, benchmarks !! i = Some b ∧ d = entry i b ∧ bm_enabled b = true ∧ is_Some (bm_process b) ∧
    (∃ l, (bm_name b, l) ∈ structures ∧ fits l (Driver.results_pages d)) ∧
    ∀ cores static results w a w', well_typed w → process_run b cores static results w = Ok (a, w') →
      well_typed w' ∧ extends (w_heap w) (w_heap w').
Proof.
  intros Hpages Hprio Hnodes Hd. destruct (scheduled d k Hd) as (i & b & Hb & -> & He).
  assert (b ∈ benchmarks) as Hin by (by eapply list_elem_of_lookup_2).
  pose proof benchmarks_complete as Hc. rewrite list.Forall_forall in Hc. destruct (Hc b Hin He) as [Hp (l & Hl & Hbp)].
  pose proof benchmarks_typed as Ht. rewrite list.Forall_forall in Ht.
  exists i, b. split_and!; try done.
  - exists l. split; [done|]. cbn [Driver.results_pages entry]. rewrite Hbp.
    pose proof (structures_wf Hprio Hnodes) as Hwf. rewrite list.Forall_forall in Hwf. specialize (Hwf _ Hl). cbn in Hwf.
    apply layout_fits; [done|]. apply Hpages; [|pose proof page_bits_law; lia]. unfold sizeof. apply Z.mul_nonneg_nonneg.
    + apply Z.div_pos; [apply ccnt_bits_nonneg|lia].
    + apply struct_size_nonneg, Hwf.
  - intros cores static results w a w' Hw E. unfold process_run in E. destruct Hp as [process Hp]. rewrite Hp in E.
    destruct (Ht b Hin process _ results w Hp Hw a w' E) as (? & ? & _). done.
Qed.
End registry.

(** A build with the hardware benchmark alone; sizes are rounded up to pages. *)
Definition hardware_only : Applications := {|
  CONFIG_APP_IPCBENCH := false; CONFIG_APP_IRQUSERBENCH := false; CONFIG_APP_SCHEDULERBENCH := false;
  CONFIG_APP_SIGNALBENCH := false; CONFIG_APP_FAULTBENCH := false; CONFIG_APP_HARDWAREBENCH := true;
  CONFIG_APP_SYNCBENCH := false; CONFIG_APP_PAGEMAPPINGBENCH := false; CONFIG_APP_SMPBENCH := false;
  CONFIG_APP_VCPU_BENCH := false |}.
Definition rounded_up (bytes bits : Z) : Z := (bytes + 2 ^ bits - 1) `div` 2 ^ bits.
Lemma rounded_up_law bytes bits : 0 <= bits → bytes <= rounded_up bytes bits * 2 ^ bits.
Proof.
  intros Hb. unfold rounded_up. pose proof (Z.pow_pos_nonneg 2 bits).
  pose proof (Z.div_mod (bytes + 2 ^ bits - 1) (2 ^ bits)).
  pose proof (Z.mod_pos_bound (bytes + 2 ^ bits - 1) (2 ^ bits)). lia.
Qed.

Lemma scheduled_complete_witness :
  ∃ i b l,
    benchmarks (H := x86_64) (H0 := store_jansson) (H1 := hardware_only) rounded_up !! i = Some b ∧
    Z.of_nat i = 5 ∧ (bm_name b, l) ∈ structures (H := x86_64) ∧ fits (H := x86_64) l 1.
Proof.
  set (d := Driver.Benchmark 5 true 1).
  destruct (scheduled_complete (H := x86_64) (H0 := store_jansson) (H1 := hardware_only) rounded_up d 0)
    as (i & b & Hb & Hd & _ & _ & (l & Hl & Hf) & _).
  - intros bytes bits _. by apply rounded_up_law.
  - discriminate.
  - discriminate.
  - apply (list_elem_of_lookup_2 _ 0%nat). vm_compute. reflexivity.
  - exists i, b, l. split_and!; [exact Hb|by injection Hd|exact Hl|exact Hf].
Defined.
