(* ===== verification/HardwareReport.v ===== *)
(** * HardwareReport: the hardware benchmark from its readings to its report

    The measurements of HardwareApp leave the shared structure, and
    [hardware_process] of Reports, called through the table of Registry, reads
    it back: what the printed document says in terms of the readings of the
    cycle counter. *)

From S2P Require Import Prelude Platform Memory Floats Collect Stats Summary Processing Json Reports ReportProofs Threads Measuring HardwareApp Registry.

Import Reports.Hardware.

Section report.
Context `{Platform} `{Jansson}.

(** ** The cells of the structure *)

Lemma slice_eq (l e : list Z) a n :
  length e = n → (∀ i, (i < n)%nat → l !! (a + i)%nat = e !! i) → take n (drop a l) = e.
Proof.
  intros He Hl. apply list_eq. intros i. destruct (decide (i < n)%nat).
  - rewrite lookup_take_lt, lookup_drop by done. by apply Hl.
  - rewrite lookup_take_ge by lia. symmetry. apply lookup_ge_None. lia.
Qed.

(** What the measurements leave, from what was there. *)
Definition left_by (e1 e2 : list Z) (sum sum2 : Z) (l : list Z) : list Z :=
  <[223%nat := N_RUNS - N_IGNORED]> (<[222%nat := sum2]> (<[221%nat := sum]>
    (list_inserts 0 e2 (list_inserts 110 e1 l)))).

Section cells.
Context (e1 e2 : list Z) (sum sum2 : Z) (l : list Z).
Context (He1 : length e1 = 110%nat) (He2 : length e2 = 110%nat) (Hl : length l = 224%nat).

Lemma left_by_length : length (left_by e1 e2 sum sum2 l) = 224%nat.
Proof using Hl. unfold left_by. by rewrite !length_insert, !length_inserts. Qed.

Lemma overhead_cell i : (i < 110)%nat → left_by e1 e2 sum sum2 l !! (110 + i)%nat = e1 !! i.
Proof using He1 He2 Hl.
  intros Hi. unfold left_by. rewrite !list_lookup_insert_ne by lia.
  rewrite list_lookup_inserts_ge by lia. rewrite list_lookup_inserts by (rewrite ?He1; lia).
  f_equal. lia.
Qed.

Lemma sample_cell i : (i < 110)%nat → left_by e1 e2 sum sum2 l !! i = e2 !! i.
Proof using He1 He2 Hl.
  intros Hi. unfold left_by. rewrite !list_lookup_insert_ne by lia.
  rewrite list_lookup_inserts by (rewrite ?length_inserts; lia). f_equal. lia.
Qed.

Lemma overhead_kept : kept (left_by e1 e2 sum sum2 l) 110 N_RUNS N_IGNORED = drop 10 e1.
Proof using He1 He2 Hl.
  apply slice_eq; [rewrite length_drop; unfold N_RUNS, N_IGNORED; lia|]. intros i Hi.
  replace (Z.to_nat (110 + N_IGNORED) + i)%nat with (110 + (10 + i))%nat by (unfold N_IGNORED; lia).
  rewrite lookup_drop. apply overhead_cell. unfold N_RUNS, N_IGNORED in Hi. lia.
Qed.

(** The samples are there still when the overheads have been corrected. *)
Lemma sample_kept f : kept (map_slice f 120 100 (left_by e1 e2 sum sum2 l)) 0 N_RUNS N_IGNORED = drop 10 e2.
Proof using He1 He2 Hl.
  apply slice_eq; [rewrite length_drop; unfold N_RUNS, N_IGNORED; lia|]. intros i Hi.
  unfold N_RUNS, N_IGNORED in *. rewrite lookup_map_slice, decide_False by lia.
  rewrite lookup_drop. apply sample_cell. lia.
Qed.
End cells.

Lemma subtract_nothing w samples n : w = ccnt_bits → subtract 0 <$> drop n (elapsed w samples) = drop n (elapsed w samples).
Proof.
  intros ->. rewrite <- (list_fmap_id (drop n _)) at 2. apply list_fmap_ext. intros i x Hx.
  rewrite lookup_drop in Hx. unfold elapsed in Hx. rewrite list_lookup_fmap in Hx.
  apply fmap_Some in Hx as (se & _ & ->). unfold subtract. rewrite Z.sub_0_r. apply wrap_small, wrap_in_word. apply ccnt_bits_nonneg.
Qed.

(** ** The cast and the report *)

Lemma load_cell h rb L k v :
  holds h rb L → L !! k = Some v → hload (Ptr rb (Z.of_nat k)) 0 h = Ok (v, h).
Proof.
  intros Hh Hv. unfold hload, lift, Memory.load. cbn [p_block p_off]. unfold holds in Hh. rewrite Hh, Z.add_0_r, aget_pos by lia.
  by rewrite Nat2Z.id, Hv.
Qed.

Lemma hardware_results_spec h rb L o s s2 n :
  holds h rb L → L !! 220%nat = Some o → L !! 221%nat = Some s → L !! 222%nat = Some s2 → L !! 223%nat = Some n →
  hardware_results (Ptr rb 0) h = Ok (HardwareResults (Ptr rb 0) (Ptr rb 110) o s s2 n, h).
Proof.
  intros Hh Ho Hs Hs2 Hn. unfold hardware_results, scalar, mbind, M_bind.
  change (field HardwareApp.hardware_layout (Ptr rb 0) "overhead_min") with (Ptr rb (Z.of_nat 220)).
  change (field HardwareApp.hardware_layout (Ptr rb 0) "nullSyscall_ep_sum") with (Ptr rb (Z.of_nat 221)).
  change (field HardwareApp.hardware_layout (Ptr rb 0) "nullSyscall_ep_sum2") with (Ptr rb (Z.of_nat 222)).
  change (field HardwareApp.hardware_layout (Ptr rb 0) "nullSyscall_ep_num") with (Ptr rb (Z.of_nat 223)).
  by rewrite !(load_cell _ _ _ _ _ Hh Ho), (load_cell _ _ _ _ _ Hh Hs), (load_cell _ _ _ _ _ Hh Hs2), (load_cell _ _ _ _ _ Hh Hn).
Qed.

Definition overhead_desc : result_desc_t := Desc false (Some "Nop syscall overhead") 0 N_IGNORED.

(** A set of one row, of the variable that holds its result. *)
Lemma wp_append_var {A} (K : M world A) w a ts set var r raw Q :
  doc a w ts → w_frame w !! var = Some [r] → raw_ok (w_heap w) r raw →
  set = ResultSet (set_name set) None 0 (addr var) 1 →
  (∀ w', doc a w' (ts ++ [single (set_name set) r raw]) → same_mem w w' → wp K Q w') →
  wp (append_set (Some a) set;; K) Q w.
Proof.
  intros Hd Hv Hraw -> HK. apply wp_bind. eapply wp_mono, append_set_doc; [|exact Hd|by eapply single_rows_ok].
  intros [] w' [Hd' Hs]. by apply HK.
Qed.

(** Three sets: the overhead is computed first and reported last. *)
Lemma hardware_process_doc w rb L o s s2 n r1 r2 r3 :
  live w {[rb := L]} →
  let L' := after overhead_desc L 110 N_RUNS in
  let d2 := with_overhead (result_min r1) overhead_desc in
  summary overhead_desc L rb 110 N_RUNS r1 → summary d2 L' rb 0 N_RUNS r2 →
  kept (after d2 L' 0 N_RUNS) 110 N_RUNS N_IGNORED = corrected overhead_desc L 110 N_RUNS →
  process_result_early_proc n s s2 = Ok r3 →
  wp (hardware_process (HardwareResults (Ptr rb 0) (Ptr rb 110) o s s2 n))
    (λ a w', ∃ p, a = Some p ∧ doc p w'
      [single "Hardware null_syscall thread" r2 (corrected d2 L' 0 N_RUNS);
       single "Hardware null_syscall thread (early processing)" r3 [];
       single "Nop syscall overhead" r1 (corrected overhead_desc L 110 N_RUNS)]) w.
Proof.
  intros Hw L' d2 S1 S2 Hkeep E3. unfold hardware_process. cbn [nullSyscall_results nullSyscall_overhead
    nullSyscall_ep_sum nullSyscall_ep_sum2 nullSyscall_ep_num].
  eapply wp_process_result; [exact Hw|apply lookup_singleton_eq|exact S1|]. intros w1 L1 F1 J1 _.
  apply wp_bind, wp_set_var.
  eapply wp_process_result; [exact L1|apply lookup_insert_eq|exact S2|]. intros w2 L2 F2 J2 _.
  apply wp_bind, wp_set_var, wp_bind, wp_new_array. intros a w3 D3 [H3 F3]. cbn [w_heap w_frame] in H3, F3. rewrite F2 in F3.
  assert (holds (w_heap w3) rb (after d2 L' 0 N_RUNS)) as Hrb.
  { rewrite H3. eapply live_holds; [exact L2|apply lookup_insert_eq]. }
  eapply (wp_append_var _ w3 a [] _ "result" r2); [exact D3|rewrite F3; apply lookup_insert_eq|by eapply summary_raw_ok|done|].
  intros w4 D4 [H4 F4]. apply wp_bind, wp_lift. exists r3. split; [exact E3|]. apply wp_bind, wp_set_var.
  eapply (wp_append_var _ _ a _ _ "result" r3 []); [exact D4|apply lookup_insert_eq| |done|].
  { unfold raw_ok. by rewrite (early_raw _ _ _ _ E3). }
  intros w6 D6 [H6 F6]. cbn [w_heap w_frame] in H6, F6.
  eapply (wp_append_var _ _ a _ _ "nopnulsyscall_result" r1 (corrected overhead_desc L 110 N_RUNS)); [exact D6| | |done|].
  { rewrite F6. etrans; [by apply lookup_insert_ne|]. rewrite F4, F3.
    etrans; [by apply lookup_insert_ne|]. apply lookup_insert_eq. }
  { rewrite H6, H4. destruct S1 as (Hok & _ & Hr1). destruct (calculate_results_raw _ _ _ Hr1) as [Hraw Hs].
    pose proof (kept_length L 110 N_RUNS N_IGNORED Hok) as Hlen. unfold size_of in Hlen.
    unfold raw_ok. rewrite Hraw, Hs. unfold size_of. rewrite length_fmap. cbn [desc_ignored overhead_desc]. rewrite Hlen.
    destruct Hok as (Hk & Hi & Hn & Hl). rewrite <- Hkeep. cbn [desc_ignored overhead_desc] in *.
    erewrite view_holds; [done|exact Hrb|lia|lia|]. unfold L', after. rewrite !length_map_slice. lia. }
  intros w7 D7 _. apply wp_ret. exists a. split; [done|]. exact D7.
Qed.

(** The summaries of the two arrays, from their readings. *)
Lemma overhead_summary rb l e1 e2 sum sum2 :
  length e1 = 110%nat → length e2 = 110%nat → length l = 224%nat →
  subtract 0 <$> drop 10 e1 = drop 10 e1 → Forall sample_ok (drop 10 e1) →
  ∃ r, summary overhead_desc (left_by e1 e2 sum sum2 l) rb 110 N_RUNS r ∧ summarises (drop 10 e1) (Ptr rb 120) r.
Proof.
  intros H1 H2 Hl Hsub Hok. destruct (calculate_results_spec (drop 10 e1) (Ptr rb 120)) as (r & Hr & Hs); [| |exact Hok|].
  - intros E. apply (f_equal length) in E. rewrite length_drop, H1 in E. discriminate E.
  - unfold size_of. rewrite length_drop, H1. discriminate.
  - exists r. split; [|exact Hs]. unfold summary. cbn [desc_ignored desc_overhead overhead_desc].
    rewrite overhead_kept by done. rewrite Hsub. split_and!; [|done|exact Hr].
    unfold array_ok. rewrite left_by_length by done. unfold N_RUNS, N_IGNORED, int_bits. lia.
Qed.

Lemma sample_summary rb l e1 e2 sum sum2 r1 :
  length e1 = 110%nat → length e2 = 110%nat → length l = 224%nat →
  let d2 := with_overhead (result_min r1) overhead_desc in
  let times := subtract (result_min r1) <$> drop 10 e2 in
  Forall sample_ok times →
  ∃ r, summary d2 (after overhead_desc (left_by e1 e2 sum sum2 l) 110 N_RUNS) rb 0 N_RUNS r ∧
    summarises times (Ptr rb 10) r.
Proof.
  intros H1 H2 Hl d2 times Hok.
  assert (length times = 100%nat) as Hlen by (unfold times; by rewrite length_fmap, length_drop, H2).
  destruct (calculate_results_spec times (Ptr rb 10)) as (r & Hr & Hs); [| |exact Hok|].
  - intros E. rewrite E in Hlen. discriminate Hlen.
  - unfold size_of. rewrite Hlen. discriminate.
  - exists r. split; [|exact Hs]. unfold summary. cbn [desc_ignored desc_overhead overhead_desc with_overhead d2].
    unfold after. cbn [desc_ignored desc_overhead overhead_desc].
    rewrite sample_kept by done. split_and!; [|done|exact Hr].
    unfold array_ok. rewrite length_map_slice, left_by_length by done. unfold N_RUNS, N_IGNORED, int_bits. lia.
Qed.

(** The corrected overheads stay as they are when the samples are corrected. *)
Lemma overhead_stays f g L :
  kept (map_slice g 10 100 (map_slice f 120 100 L)) 110 N_RUNS N_IGNORED = f <$> kept L 110 N_RUNS N_IGNORED.
Proof.
  unfold kept, N_RUNS, N_IGNORED. apply list_eq. intros i. rewrite list_lookup_fmap.
  destruct (decide (i < 100)%nat).
  - rewrite !lookup_take_lt, !lookup_drop by lia. rewrite !lookup_map_slice.
    rewrite decide_False, decide_True by lia. done.
  - by rewrite !lookup_take_ge by lia.
Qed.

Context `{FaultAbi} `{!Kernel} `{Applications} (BYTES_TO_SIZE_BITS_PAGES : Z → Z → Z).

(** C29. The hardware benchmark from end to end.  Whatever a kernel does within
    its documented behaviour the measurements end, and when the driver then
    calls the processing function of the table on the structure they left, it
    returns a document of three sets: the statistics of the times of the system
    call, less the smallest time of the [nop] loop and without the warm-up ones;
    the mean of the early-processing loop; and the statistics of the [nop] loop.
    Every number is told in the readings of the counter; the times have to be
    within the range on which the statistics are defined. *)
Theorem hardware_reported (pr fe : Z) rb l o m cores static :
  holds m rb l → Z.of_nat (length l) = struct_size hardware_layout → l !! 220%nat = Some o →
  eventually
    (λ c, returned 0 c ∧ ∃ s1 s2 s3,
       Forall (λ s, Z.of_nat (length s) = N_RUNS) [s1; s2; s3] ∧
       readings c = interleaved 0 0 s1 ++ interleaved 0 0 s2 ++ interleaved 0 0 s3 ∧
       let nops := drop 10 (elapsed ccnt_bits s1) in
       let sums := EarlyProc.collect ccnt_bits N_IGNORED o s3 in
       (Forall sample_ok nops → ∃ r1, summarises nops (Ptr rb 120) r1 ∧
          let times := subtract (result_min r1) <$> drop 10 (elapsed ccnt_bits s2) in
          (Forall sample_ok times → sums_ok 100 (EarlyProc.par_sum sums) → ∃ r2 r3,
             summarises times (Ptr rb 10) r2 ∧ mean r3 = dyadic double (EarlyProc.par_sum sums `div` 100) 0 ∧
             ∀ fr j, wp (process_run (hardware_benchmark BYTES_TO_SIZE_BITS_PAGES) cores static (Ptr rb 0))
               (λ a w', ∃ p, a = Some p ∧ doc p w'
                  [single "Hardware null_syscall thread" r2 times;
                   single "Hardware null_syscall thread (early processing)" r3 [];
                   single "Nop syscall overhead" r1 nops])
               (World _ (mem c) fr j))))
    (alone pr fe ∅ (measurements (Ptr rb 0)) m []).
Proof.
  intros Hh Hlen Ho. eapply eventually_mono; [|by apply hardware_measured]. cbv beta.
  intros c (Hret & s1 & s2 & s3 & Hs & Hread & Hmem). split; [exact Hret|]. exists s1, s2, s3.
  split; [exact Hs|]. split; [exact Hread|]. cbv zeta in Hmem |- *. set (sums := EarlyProc.collect _ _ _ _) in *.
  change (struct_size hardware_layout) with 224 in Hlen. unfold N_RUNS, N_IGNORED in Hs. 
  apply Forall_cons_1 in Hs as [L1 Hs]. apply Forall_cons_1 in Hs as [L2 _].
  assert (length (elapsed ccnt_bits s1) = 110%nat) as E1 by (rewrite length_elapsed; lia).
  assert (length (elapsed ccnt_bits s2) = 110%nat) as E2 by (rewrite length_elapsed; lia).
  assert (length l = 224%nat) as El by lia. fold (left_by (elapsed ccnt_bits s1) (elapsed ccnt_bits s2) (EarlyProc.par_sum sums) (EarlyProc.par_sum2 sums) l) in Hmem.
  set (L := left_by _ _ _ _ _) in Hmem. intros Hnops.
  assert (subtract 0 <$> drop 10 (elapsed ccnt_bits s1) = drop 10 (elapsed ccnt_bits s1)) as Hsub by by apply subtract_nothing.
  destruct (overhead_summary rb l _ _ (EarlyProc.par_sum sums) (EarlyProc.par_sum2 sums) E1 E2 El Hsub Hnops) as (r1 & S1 & R1).
  exists r1. split; [exact R1|]. intros Htimes Hsums.
  destruct (sample_summary rb l _ _ (EarlyProc.par_sum sums) (EarlyProc.par_sum2 sums) r1 E1 E2 El Htimes) as (r2 & S2 & R2).
  destruct (calculate_results_early_proc_spec 100 (EarlyProc.par_sum sums) (EarlyProc.par_sum2 sums) Hsums) as (r3 & R3 & M3 & _).
  exists r2, r3. split; [exact R2|]. split; [exact M3|]. intros fr j.
  unfold process_run. cbn [bm_process hardware_benchmark]. unfold reading. apply wp_bind. unfold wp at 1, in_heap. cbn [w_heap].
  rewrite (hardware_results_spec _ _ L o (EarlyProc.par_sum sums) (EarlyProc.par_sum2 sums) 100 Hmem).
  all: try (unfold L, left_by; repeat (rewrite list_lookup_insert_ne by lia); apply list_lookup_insert_eq;
    rewrite ?length_insert, !length_inserts; lia).
  - eapply wp_mono, hardware_process_doc; [|by apply map_singleton_subseteq_l|exact S1|exact S2| |exact R3].
    + intros a w' (p & -> & D). exists p. split; [done|].
      assert (corrected overhead_desc L 110 N_RUNS = drop 10 (elapsed ccnt_bits s1)) as Hc1.
      { unfold corrected. cbn [desc_ignored desc_overhead overhead_desc]. unfold L. by rewrite overhead_kept. }
      assert (corrected (with_overhead (result_min r1) overhead_desc) (after overhead_desc L 110 N_RUNS) 0 N_RUNS =
        subtract (result_min r1) <$> drop 10 (elapsed ccnt_bits s2)) as Hc2.
      { unfold corrected, after. cbn [desc_ignored desc_overhead overhead_desc with_overhead]. unfold L. by rewrite sample_kept. }
      rewrite Hc1, Hc2 in D. exact D.
    + unfold after, corrected. cbn [desc_ignored desc_overhead overhead_desc with_overhead]. apply overhead_stays.
  - unfold L, left_by. repeat (rewrite list_lookup_insert_ne by lia). rewrite !list_lookup_inserts_ge by (rewrite ?E1, ?E2; lia).
    exact Ho.
Qed.
End report.

(** A shared page of zeros, on the example kernel. *)
Lemma hardware_reported_witness :
  @eventually x86_64 example_abi (example_kernel x86_64)
    (λ c, returned 0 c ∧ ∃ s1 s2 s3,
       Forall (λ s, Z.of_nat (length s) = N_RUNS) [s1; s2; s3] ∧
       readings c = interleaved 0 0 s1 ++ interleaved 0 0 s2 ++ interleaved 0 0 s3 ∧
       (Forall (sample_ok (H := x86_64)) (drop 10 (elapsed 64 s1)) →
        ∃ r1, summarises (H := x86_64) (drop 10 (elapsed 64 s1)) (Ptr 1 120) r1))
    (alone 255 0 ∅ (@measurements x86_64 (Ptr 1 0)) (Heap {[1%positive := replicate 224 0]} 0) []).
Proof.
  eapply eventually_mono;
    [|apply (@hardware_reported x86_64 store_jansson example_abi (example_kernel x86_64) hardware_only rounded_up
               255 0 1 (replicate 224 0) 0 _ 1 0); by vm_compute].
  intros c (Hret & s1 & s2 & s3 & Hs & Hr & H). split; [exact Hret|]. exists s1, s2, s3.
  split; [exact Hs|]. split; [exact Hr|]. intros Hok. destruct (H Hok) as (r1 & R1 & _). exists r1. exact R1.
Defined.
